(* ===== verification/_CoqProject ===== *)
-Q . S2P
Prelude.v
GoLib.v
Regex.v
Policy.v
Json.v
JsonText.v
JsonValid.v
JsonMarshal.v
Dataplane.v
Store.v
StoreInv.v
StoreSpec.v
StoreThms.v
PolicyLoad.v
Demo.v
StoreClaims.v
Races.v
Watch.v
Cilium.v
Xds.v
XdsText.v
Main.v
Base64.v
JsonStruct.v
Url.v
Auth.v
OAuth.v
Web.v
Reply.v
System.v
Boot.v
Process.v
Tools.v
Html.v
Pages.v
