(* ===== verification/Prelude.v ===== *)
(** * The sandcastle admin control plane: a verification library

** The program

[sandcastle-admin] (Go, under [src/admin]) decides which hosts the workspaces of a
Coder installation may reach. Administrators keep zones of rules and assign workspaces to
them; members ask for access to a host, and an approval grants it for a while. A
reconciler turns the tables into two enforcement configurations: Envoy resources, which
admit the source addresses of pods to hosts and ports, and Cilium policies, which let pods
resolve names.

The parts, and the file that models each:

- [internal/policy/policy.go]: rules, zones, [Effective], [HostIPs] - [Policy.v], with the
  regular expressions of names in [Regex.v];
- [internal/store] ([store.go], [zones.go], [requests.go], [migrations/001_init.sql]): the
  tables and every operation on them - [Store.v]; its program logic and schema invariant -
  [StoreInv.v]; the database after each operation - [StoreSpec.v]; sequences of operations -
  [StoreThms.v]; what [PolicyInput] loads - [PolicyLoad.v]; the claims - [StoreClaims.v];
  operations that overtake each other - [Races.v];
- [store.Migrate], [store.Open], and [migrate] and the start of [serve] in
  [cmd/sandcastle-admin/main.go] - [Boot.v];
- [internal/watch/pods.go]: the running workspaces - [Watch.v];
- [internal/cilium/cilium.go]: [Render] and [Apply] - [Cilium.v];
- [internal/xds/build.go], [server.go]: [Build], [Push], denials from access logs - [Xds.v];
  the text of the resources - [XdsText.v];
- what Envoy and Cilium make of the configurations they are given, an independent reading
  against which the two parts above are judged - [Dataplane.v];
- [cmd/sandcastle-admin/main.go]: [apply], [reconcile], the throttle - [Main.v]; the loop of
  [serve] with handlers, pod events, denials and ticks around it - [System.v]; [main], the two
  servers, the signal and the shutdown - [Process.v];
- [internal/auth/auth.go]: signed cookies, sessions, the [Require] gate - [Auth.v], over
  [Base64.v]; [New], [Login], [localPath], [Callback], [me] - [OAuth.v];
- [internal/web/web.go], [handlers.go]: the routes and every handler - [Web.v]; [secure],
  [render] and what the browser receives - [Reply.v];
- [internal/web/templates]: every page with its values - [Pages.v], over html/template's
  escaping and a reader of HTML in [Html.v];
- [hack/smoke/main.go] and [internal/store/storetest/storetest.go] - [Tools.v].

[Prelude.v] (this file) has the error monad, tactics, hint databases and generic lemmas;
[GoLib.v] what is used of Go's strings, strconv, net and errors; [Url.v] of net/url, path
and [http.Redirect]; [Json.v] the values of [map[string]any]; [JsonText.v] the text of
encoding/json, [JsonValid.v] that decoded strings are valid, [JsonMarshal.v] how maps are
written, [JsonStruct.v] how structs are decoded; [Demo.v] a concrete Postgres and databases
at which the claims are applied. Definitions keep the names of the source; Go's methods take their receiver's
state as an argument.

** How the code is represented

- The database is a record of finite maps. A SQL statement is a function on it that checks
  the schema's constraints and fails with the SQLSTATE of a violation. A transaction is a
  computation in the state and error monad [Tx]; [run_tx] restores the database when
  anything fails before COMMIT, or COMMIT is refused. COMMIT may also take effect without
  its answer arriving (a cancelled context, a lost connection): then the database is the
  committed one although the operation returns an error ([ack_lost]). Transactions run one after the other ([store_step]), with two exceptions:
  [PolicyInput], whose three queries are not in one transaction, is also given three
  different databases ([PolicyInput_torn]), and in [Races.v] the operations that look before
  they write may have looked at an older database ([history]). What survives such races is
  [sound]: the schema's constraints and canonical identifiers. Loading and enforcing the policy
  rely on no more than that, so the running system of [System.v] has these races as steps.
- Faults are a script: any statement, begin or commit, and any query of a page, may fail with
  a driver error. Time,
  generated identifiers and the iteration order of Go maps are arguments, so the theorems
  hold for all of them.
- Enforcement is stated on what is in force, not on what was meant: the resources the
  snapshot cache serves to Envoy and the specs the cluster holds, as JSON values. [Dataplane.v]
  evaluates them: for Envoy the filters of the proxy listener, the choice of a virtual host
  and route, the RBAC rules with action, permissions and address ranges (of IPv4), clusters
  and internal listeners; for Cilium the selectors with key, operator and values, ports, and
  DNS names and patterns, where a star stands for letters, digits, hyphens and underscores
  but for no dot.
- Handlers act on the database and the number of calls of [Changed], under the guards of
  the route table. The running system ([System.v]) is a step relation over the tables, the
  pods, the channel, the notifications under way and the phase of the loop; the three
  queries of a reconcile are separate steps, so anything can happen between them. A ghost
  field, [y_lost], remembers that a COMMIT went unanswered since the last reconcile began to
  read: such a change is signalled to nobody and waits for the next resync. The process
  ([Process.v]) is a step relation around it; its runs are runs of the system ([proc_sim]).
- Strings are byte strings; durations are integers of nanoseconds; [int] parsing saturates
  at 64 bits as [strconv.Atoi] does; the snapshot version is a 64-bit counter that wraps.

** Interfaces

Code outside the repository is a class, with what is relied on as laws in a second class,
and an instance that satisfies them: [Postgres]/[PostgresLaws] (uuid input, text order,
and intervals, which are exact for whole seconds), [KubeAPI]/[KubeLaws] (the objects of the
cluster), [Envoy] (protojson and validation, SHA-256), [SnapshotCache]/[SnapshotCacheLaws]
(go-control-plane: what was set without error is served), [Crypto] (HMAC-SHA256), [OAuth2]
(the authorisation URL of golang.org/x/oauth2), [Templates] (executing a template, with the
templates of [Pages.v] as its instance), [Unicode] (lower-casing beyond ASCII). What Coder, the informer and the machine answer are
the records [Coder], [Informer] and [Machine]. [Codec] is what signed cookies need of a
type; sessions and login flows have instances, made of the JSON files. No cryptographic
strength is assumed: a claim that needs it says "or there is a collision".

** What the theorems show

- The whole chain ([Main.apply_enforces_tables]): after a reconcile without error, Envoy, with
  what it is served, forwards exactly the requests from addresses of running pods to which the
  tables grant a matching rule, and the policies the cluster holds let a workspace resolve
  exactly the granted names. It composes
  [PolicyInput_refines], [HostIPs_enforces], [routes_enforce_policy], [Render_enforces]
  and [Apply_converges]. A failed reconcile is safe ([apply_fails_safe]).
- The running system ([System.v], [Process.v]): however everything interleaves, lost races
  included, once nothing is outstanding and no COMMIT went unanswered Envoy and Cilium enforce
  the current tables, in every process on the same database, and a resync closes the gap an
  unanswered COMMIT leaves ([process_enforced]); left alone the loop gets there in a
  bounded number of steps ([loop_settles]); after the signal the process can always end, and
  it ends with both servers closed, the accepted requests handled and sound tables
  ([exits_orderly]); denials are recorded under the workspace that was refused
  ([denials_recorded]); a failure of reconcile that lasts is audited once
  ([failures_audited_once]).
- Starting up: migrations can be interrupted and resumed, the password is quoted, and
  [serve] enters its loop in a start state of the system.
- The store: the schema invariant and the single default zone hold in every reachable
  database, with any faults; every change is audited, also one whose
  COMMIT went unanswered, and every other failure changes nothing; an approval adds
  exactly the requested rule for exactly the granted time; decisions are final; the
  housekeeping operations change no workspace's policy. With concurrent transactions the
  schema's constraints still hold ([races_keep_schema]) and the policy is still enforced, but not the rules only the code
  checks: the default zone can be deleted ([DeleteZone_race]) and an assignment can miss
  its zone ([Assign_race]).
- Determinism: [HostIPs] and [Render] do not depend on Go's map order, nor the workspaces and
  addresses that [Running] lists on the order of the cache or on ties of its sort; [ByIP] is
  also determined, up to equal workspace IDs, when two pods share an address.
- Envoy: one virtual host per domain, TLS tunnels bound to their host name, [Build]'s errors,
  the text of the resources reads as what was drafted ([Build_text]), denials read back from
  access logs.
- Logging in: a session starts only from a flow this server signed and Coder confirmed
  ([Callback_authentic]), completes ([login_roundtrip]), and leads nowhere else
  ([login_stays_local]).
- The pages: who a request is attributed to, what the gate lets through, that a change needs
  an authorised POST, that grants made there expire, that a member sees only its own, and
  the headers and cookies of every reply. The HTML: values stay where the templates put them,
  and identifiers of letters, digits and dashes in the path of their link ([page_reads]), and submitting a form of a page passes the gate to its handler ([page_forms]).

** Bounds and fuel

No definition runs out of fuel: [TrimSpace] cuts at most as many spaces as the string is
long, and [print_nat] divides by ten at most as often as the number has bits, which its
lemmas show to be enough; the JSON parser has two units per rune, and [parse_fuel] shows
that more make no difference; all other recursion is structural. The limits of the program
appear as they are: 200 denials per workspace, 200 rows per list, 10000 throttled keys,
63-byte labels, 10000 levels of JSON.

** Not modelled

Logging; clocks of contexts (a timeout is a fault of a statement, and the deadline of
[Shutdown] may pass at any time); transactions that overlap after the first write of one of
them; addresses of IPv6 as sources; what Envoy and Cilium do beyond the fields that the
program writes; [Register], which hands the two services to gRPC; connections (a server is the calls it
has taken and finished, and whether it takes more); the path cleaning of
[ServeMux]; what a browser does with a page beyond its tags, attributes and forms; the connection strings of the test helper; the shell, Terraform and Kubernetes
files around the service. *)
From stdpp Require Import gmap strings list sorting fin_maps.

(** ** Notation scope of the development *)
Declare Scope sandcastle_scope.
Delimit Scope sandcastle_scope with sc.
Global Open Scope sandcastle_scope.

(** ** Fallible computations

Go functions that return [(T, error)] become functions to [result E T]: [Ok] is
a nil error, [Err] carries the error. *)
Inductive result (E A : Type) : Type :=
| Ok (a : A)
| Err (e : E).
Arguments Ok {E A} _.
Arguments Err {E A} _.

Definition result_bind {E A B} (m : result E A) (k : A → result E B) : result E B :=
  match m with Ok a => k a | Err e => Err e end.

Definition is_ok {E A} (m : result E A) : bool :=
  match m with Ok _ => true | Err _ => false end.

Notation "'let?' x ':=' m 'in' k" := (result_bind m (λ x, k))
  (at level 10, x binder, m at level 100, k at level 200,
   format "'[v' 'let?'  x  ':='  m  'in' '/' k ']'") : sandcastle_scope.

Lemma result_bind_Ok {E A B} (m : result E A) (k : A → result E B) b :
  result_bind m k = Ok b ↔ ∃ a, m = Ok a ∧ k a = Ok b.
Proof. destruct m; naive_solver. Qed.

(** ** Hint databases and tactics *)
Create HintDb sandcastle discriminated.
#[export] Hint Constants Opaque : sandcastle.
Create Rewrite HintDb sandcastle_rw.

(** Turn the boolean connectives of a guard into propositions. *)
Ltac bsimp :=
  repeat match goal with
  | H : (_ && _)%bool = true |- _ => apply andb_true_iff in H as [??]
  | H : (_ || _)%bool = false |- _ => apply orb_false_iff in H as [??]
  | H : negb _ = true |- _ => apply negb_true_iff in H
  | H : negb _ = false |- _ => apply negb_false_iff in H
  | H : bool_decide _ = true |- _ => apply bool_decide_eq_true in H
  | H : bool_decide _ = false |- _ => apply bool_decide_eq_false in H
  | H : String.eqb _ _ = true |- _ => apply String.eqb_eq in H
  | H : String.eqb _ _ = false |- _ => apply String.eqb_neq in H
  | H : Z.eqb _ _ = true |- _ => apply Z.eqb_eq in H
  | H : Z.eqb _ _ = false |- _ => apply Z.eqb_neq in H
  | H : Z.leb _ _ = true |- _ => apply Z.leb_le in H
  | H : Z.leb _ _ = false |- _ => apply Z.leb_gt in H
  | H : Z.ltb _ _ = true |- _ => apply Z.ltb_lt in H
  | H : Z.ltb _ _ = false |- _ => apply Z.ltb_ge in H
  end.

(** Split every match in the hypotheses, discarding the impossible branches. *)
Ltac break :=
  repeat (simplify_eq/=; match goal with
  | H : context [match ?x with _ => _ end] |- _ => destruct x eqn:?
  end); simplify_eq/=.

(** ** Sorting

[sort.Strings] and [sort.Slice] are modelled by stdpp's [merge_sort]. Go's sort
is not stable; on a total antisymmetric order every sorted permutation is the
same list, which is what the next lemma is for. *)
Section sorting.
Context {A : Type} (R : relation A) `{!∀ x y, Decision (R x y)}.

Lemma elem_of_merge_sort (l : list A) x : x ∈ merge_sort R l ↔ x ∈ l.
Proof. by rewrite (merge_sort_Permutation R l). Qed.

Lemma merge_sort_nil (l : list A) : merge_sort R l = [] ↔ l = [].
Proof.
  split; intros Hl.
  - apply Permutation_nil. rewrite <- Hl. apply merge_sort_Permutation.
  - subst. done.
Qed.

Lemma NoDup_merge_sort (l : list A) : NoDup l → NoDup (merge_sort R l).
Proof. by rewrite (merge_sort_Permutation R l). Qed.

Lemma merge_sort_perm_eq `{!PartialOrder R, !Total R} (l1 l2 : list A) :
  l1 ≡ₚ l2 → merge_sort R l1 = merge_sort R l2.
Proof.
  intros HP. apply (Sorted_unique R).
  - by apply Sorted_merge_sort.
  - by apply Sorted_merge_sort.
  - by rewrite !(merge_sort_Permutation R).
Qed.

Lemma sorted_perm_merge_sort `{!PartialOrder R, !Total R} (l1 l2 : list A) :
  l1 ≡ₚ l2 → Sorted R l1 → l1 = merge_sort R l2.
Proof.
  intros HP HS. apply (Sorted_unique R).
  - done.
  - by apply Sorted_merge_sort.
  - by rewrite (merge_sort_Permutation R).
Qed.
End sorting.

(** Comparison by a first key, and by a second one where the first keys are equal:
the [less] functions of the program's [sort.Slice] calls. *)
Section lex.
Context {A B C : Type} `{EqDecision B}.
Context (f : A → B) (RB : relation B) (g : A → C) (RC : relation C).
Context `{!RelDecision RB, !RelDecision RC}.

Definition lex_le (a b : A) : Prop :=
  if decide (f a = f b) then RC (g a) (g b) else RB (f a) (f b).

#[global] Instance lex_le_dec : RelDecision lex_le.
Proof. intros a b. unfold lex_le. case_decide; apply _. Defined.

#[global] Instance lex_le_trans `{!PartialOrder RB, !Transitive RC} : Transitive lex_le.
Proof.
  intros a b c. unfold lex_le.
  destruct (decide (f a = f b)) as [E1|N1], (decide (f b = f c)) as [E2|N2],
    (decide (f a = f c)) as [E3|N3]; try congruence; intros Hab Hbc.
  - by etrans.
  - exfalso. apply N1, (anti_symm RB); [done|]. by rewrite E3.
  - by etrans.
Qed.

#[global] Instance lex_le_total `{!Total RB, !Total RC} : Total lex_le.
Proof.
  intros a b. unfold lex_le. destruct (decide (f a = f b)), (decide (f b = f a));
    try congruence; [apply (total RC)|apply (total RB)].
Qed.

Lemma lex_le_antisymm `{!PartialOrder RB, !AntiSymm (=) RC} a b :
  lex_le a b → lex_le b a → f a = f b ∧ g a = g b.
Proof.
  unfold lex_le. destruct (decide (f a = f b)), (decide (f b = f a)); try congruence;
    intros Hab Hba.
  - split; [done|]. by apply (anti_symm RC).
  - exfalso. assert (f a = f b); [|done]. by apply (anti_symm RB).
Qed.
End lex.

(** ** Folds *)

(** An invariant of a Go [for] loop over a slice. *)
Lemma foldl_inv {A B} (P : A → Prop) (f : A → B → A) (l : list B) (a : A) :
  P a → (∀ a b, b ∈ l → P a → P (f a b)) → P (foldl f a l).
Proof.
  revert a. induction l as [|b l IH]; intros a Ha Hf; [done|]. simpl.
  apply IH; [apply Hf; [set_solver|done]|]. intros a' b' Hb'. apply Hf. set_solver.
Qed.

(** A fact that one iteration establishes and the later ones keep. *)
Lemma foldl_reaches {A B} (I P : A → Prop) (f : A → B → A) (l : list B) (a : A) (x : B) :
  x ∈ l → I a →
  (∀ a b, I a → I (f a b)) →
  (∀ a, I a → P (f a x)) →
  (∀ a b, I a → P a → P (f a b)) →
  P (foldl f a l).
Proof.
  revert a. induction l as [|b l IH]; intros a Hx Ha HI HP Hk; [set_solver|]. simpl.
  apply elem_of_cons in Hx as [->|Hx].
  - assert (I (foldl f (f a b) l) ∧ P (foldl f (f a b) l)) as [_ ?]; [|done].
    apply (foldl_inv (λ a, I a ∧ P a)); naive_solver.
  - apply IH; auto.
Qed.

(** ** Maxima *)
Lemma list_max_exists {A} (f : A → nat) (l : list A) (x : A) :
  x ∈ l → ∃ m, m ∈ l ∧ ∀ y, y ∈ l → f y ≤ f m.
Proof.
  revert x. induction l as [|a [|b l] IH]; intros x Hx; [set_solver| |].
  - exists a. set_solver.
  - destruct (IH b) as (m & Hm & Hmax); [set_solver|].
    destruct (decide (f a ≤ f m)) as [Hle|Hgt].
    + exists m. set_solver.
    + exists a. split; [set_solver|]. intros y [->|Hy]%elem_of_cons; [done|].
      specialize (Hmax y Hy). lia.
Qed.
