(* ===== verification/GoLib.v ===== *)
(** * What the program uses of Go's standard library

Strings are byte strings, as in Go: [string] is a list of 8-bit [ascii].
- [strings]: [HasPrefix], [HasSuffix], [CutPrefix], [Cut], [Contains], [Join],
  [TrimRight], [TrimSpace], [ToLower], [ReplaceAll];
- [strconv.Atoi] and decimal printing, on 64-bit [int];
- [net.SplitHostPort];
- [errors]: sentinel errors, [%w] wrapping, [errors.Is], [errors.Join]. *)
From Stdlib Require Import Ascii.
From S2P Require Import Prelude.
From stdpp Require Import gmap strings list sorting fin_maps.

(** ** Bytes *)
Definition byte (c : ascii) : N := Ascii.N_of_ascii c.

Definition in_range (lo hi : ascii) (c : ascii) : bool :=
  (byte lo <=? byte c)%N && (byte c <=? byte hi)%N.

Definition is_upper : ascii → bool := in_range "A" "Z".
Definition is_lower : ascii → bool := in_range "a" "z".
Definition is_digit : ascii → bool := in_range "0" "9".

(** The value of a hexadecimal digit of either case. *)
Definition unhex (c : ascii) : option N :=
  if is_digit c then Some (byte c - 48)%N
  else if in_range "a" "f" c then Some (byte c - 87)%N
  else if in_range "A" "F" c then Some (byte c - 55)%N
  else None.

Fixpoint string_forall (p : ascii → bool) (s : string) : bool :=
  match s with "" => true | String c s => p c && string_forall p s end.

Fixpoint string_map (f : ascii → ascii) (s : string) : string :=
  match s with "" => "" | String c s => String (f c) (string_map f s) end.

(** ** Package strings *)
Definition HasPrefix (s p : string) : bool := String.prefix p s.

Fixpoint HasSuffix (s suf : string) : bool :=
  (s =? suf)%string || match s with "" => false | String _ s' => HasSuffix s' suf end.

(** [CutPrefix s p] is [Some] of the rest when [p] is a prefix of [s]. *)
Fixpoint CutPrefix (s p : string) {struct p} : option string :=
  match p with
  | "" => Some s
  | String c p =>
      match s with
      | String d s => if Ascii.eqb c d then CutPrefix s p else None
      | "" => None
      end
  end.

(** [IndexByte]: the bytes before the first [c] and those after it. *)
Fixpoint CutByte (s : string) (c : ascii) : option (string * string) :=
  match s with
  | "" => None
  | String d s =>
      if Ascii.eqb d c then Some ("", s)
      else match CutByte s c with
           | Some (before, after) => Some (String d before, after)
           | None => None
           end
  end.

(** [LastIndexByte]: the bytes before the last [c] and those after it. *)
Fixpoint CutLastByte (s : string) (c : ascii) : option (string * string) :=
  match s with
  | "" => None
  | String d s =>
      match CutLastByte s c with
      | Some (before, after) => Some (String d before, after)
      | None => if Ascii.eqb d c then Some ("", s) else None
      end
  end.

Definition ContainsByte (s : string) (c : ascii) : bool :=
  match CutByte s c with Some _ => true | None => false end.

Fixpoint Join (l : list string) (sep : string) : string :=
  match l with
  | [] => ""
  | [x] => x
  | x :: l => x +:+ sep +:+ Join l sep
  end.

(** [strings.TrimRight s "/"]: drop every trailing [c]. *)
Fixpoint TrimRightByte (s : string) (c : ascii) : string :=
  match s with
  | "" => ""
  | String d s =>
      match TrimRightByte s c with
      | "" => if Ascii.eqb d c then "" else String d ""
      | s' => String d s'
      end
  end.

(** [strings.ReplaceAll s (string c) new]. *)
Fixpoint ReplaceAllByte (s : string) (c : ascii) (new : string) : string :=
  match s with
  | "" => ""
  | String d s =>
      (if Ascii.eqb d c then new else String d "") +:+ ReplaceAllByte s c new
  end.

(** The code points [unicode.IsSpace] accepts, as their UTF-8 encodings: each
encoding starts with a rune-start byte and goes on with continuation bytes, so
decoding the first (last) rune of a string gives one of them exactly when its
encoding is a prefix (suffix) of the string. *)
Definition chr (n : nat) : ascii := Ascii.ascii_of_nat n.
Definition bytes (l : list nat) : string :=
  foldr (λ n s, String (chr n) s) "" l.

Definition spaces : list string :=
  bytes <$> ([ [9]; [10]; [11]; [12]; [13]; [32]; [194; 133]; [194; 160];
    [225; 154; 128]; [226; 128; 128]; [226; 128; 129]; [226; 128; 130];
    [226; 128; 131]; [226; 128; 132]; [226; 128; 133]; [226; 128; 134];
    [226; 128; 135]; [226; 128; 136]; [226; 128; 137]; [226; 128; 138];
    [226; 128; 168]; [226; 128; 169]; [226; 128; 175]; [226; 129; 159];
    [227; 128; 128] ] : list (list nat)).

Definition cut_space (s : string) : option string :=
  head (omap (CutPrefix s) spaces).

Fixpoint trim_left (fuel : nat) (s : string) : string :=
  match fuel with
  | O => s
  | S fuel => match cut_space s with Some s' => trim_left fuel s' | None => s end
  end.

(** The trailing spaces are the leading ones of the reversed string, each
encoding reversed too. *)
Definition cut_space_rev (s : string) : option string :=
  head (omap (CutPrefix s) (String.rev <$> spaces)).

Fixpoint trim_left_rev (fuel : nat) (s : string) : string :=
  match fuel with
  | O => s
  | S fuel =>
      match cut_space_rev s with Some s' => trim_left_rev fuel s' | None => s end
  end.

Definition TrimSpace (s : string) : string :=
  let l := trim_left (String.length s) s in
  String.rev (trim_left_rev (String.length l) (String.rev l)).

(** Go lowers an ASCII string byte by byte; any other string goes through
[strings.Map(unicode.ToLower, s)], whose tables are a parameter. *)
Class Unicode := { map_unicode_ToLower : string → string }.

Definition lower_byte (c : ascii) : ascii :=
  if is_upper c then Ascii.ascii_of_N (byte c + 32) else c.

Definition is_ascii (s : string) : bool :=
  string_forall (λ c, (byte c <? 128)%N) s.

Definition ToLower `{Unicode} (s : string) : string :=
  if is_ascii s then string_map lower_byte s else map_unicode_ToLower s.

(** ** Package errors

[ESentinel] is a package-level [errors.New] value, [EPg] a driver error
carrying an SQLSTATE ([*pgconn.PgError]), [EWrap] a [fmt.Errorf] with [%w], and
[EJoin] an [errors.Join]. *)
Inductive error : Type :=
| ESentinel (name : string)
| EMsg (msg : string)
| EPg (code : string) (msg : string)
| EWrap (msg : string) (inner : error)
| EJoin (errs : list error).

Fixpoint errors_Is (e : error) (sentinel : string) : bool :=
  match e with
  | ESentinel n => (n =? sentinel)%string
  | EMsg _ | EPg _ _ => false
  | EWrap _ e => errors_Is e sentinel
  | EJoin es => (fix any (es : list error) : bool :=
      match es with [] => false | e :: es => errors_Is e sentinel || any es end) es
  end.

(** [errors.As(err, &pg)]: the first [*PgError] of the chain. *)
Fixpoint errors_As_Pg (e : error) : option (string * string) :=
  match e with
  | EPg code msg => Some (code, msg)
  | ESentinel _ | EMsg _ => None
  | EWrap _ e => errors_As_Pg e
  | EJoin es => (fix first (es : list error) : option (string * string) :=
      match es with
      | [] => None
      | e :: es => match errors_As_Pg e with Some r => Some r | None => first es end
      end) es
  end.

(** [errors.Join] discards nothing here (every error is non-nil) and returns nil
for an empty list. *)
Definition errors_Join (es : list error) : option error :=
  match es with [] => None | _ => Some (EJoin es) end.

(** ** Package strconv *)
Definition max_int64 : Z := (2 ^ 63 - 1)%Z.
Definition min_int64 : Z := (- 2 ^ 63)%Z.

Definition digit_val (c : ascii) : option Z :=
  if is_digit c then Some (Z.of_N (byte c) - 48)%Z else None.

Fixpoint parse_digits (acc : Z) (s : string) : option Z :=
  match s with
  | "" => Some acc
  | String c s =>
      match digit_val c with
      | Some d => parse_digits (acc * 10 + d)%Z s
      | None => None
      end
  end.

(** [strconv.Atoi]: the value returned and whether the error is nil. A syntax
error returns 0; a value out of range returns the nearest [int]. *)
Definition Atoi (s : string) : Z * bool :=
  let '(neg, digits) :=
    match s with
    | String "-" s' => (true, s')
    | String "+" s' => (false, s')
    | _ => (false, s)
    end in
  match digits with
  | "" => (0%Z, false)
  | _ =>
      match parse_digits 0 digits with
      | None => (0%Z, false)
      | Some n =>
          let v := if neg : bool then (- n)%Z else n in
          if (max_int64 <? v)%Z then (max_int64, false)
          else if (v <? min_int64)%Z then (min_int64, false)
          else (v, true)
      end
  end.

(** Decimal printing ([%d], [strconv.FormatUint]). *)
Definition digit_char (d : Z) : ascii := Ascii.ascii_of_N (Z.to_N (48 + d)%Z).

Fixpoint print_digits (fuel : nat) (n : Z) (acc : string) : string :=
  match fuel with
  | O => acc
  | S fuel =>
      let acc' := String (digit_char (n mod 10)%Z) acc in
      if (n <? 10)%Z then acc' else print_digits fuel (n / 10)%Z acc'
  end.

Definition print_nat (n : Z) : string := print_digits (S (Z.to_nat (Z.log2 n))) n "".

Definition Itoa (n : Z) : string :=
  if (n <? 0)%Z then String "-" (print_nat (- n)%Z) else print_nat n.

(** ** Package time

A [time.Duration] is a number of nanoseconds. *)
Definition Second : Z := 1000000000.
Definition Minute : Z := (60 * Second)%Z.
Definition Hour : Z := (60 * Minute)%Z.

(** [fmtFrac]: the last [prec] decimal digits of [u] as a fraction, trailing
zeros (and the point, when nothing is left) omitted; and the rest of [u]. *)
Fixpoint fmtFrac (prec : nat) (u : Z) (printed : bool) (acc : string) : string * Z :=
  match prec with
  | O => ((if printed then String "." acc else acc), u)
  | S prec =>
      let digit := (u mod 10)%Z in
      let printed := printed || negb (digit =? 0)%Z in
      fmtFrac prec (u / 10)%Z printed
        (if printed then String (digit_char digit) acc else acc)
  end.

Definition Duration_String (d : Z) : string :=
  let u := Z.abs d in
  let body :=
    if (u =? 0)%Z then "0s"
    else if (u <? Second)%Z then
      let '(prec, unit) :=
        if (u <? 1000)%Z then (0, "ns")
        else if (u <? 1000000)%Z then (3, bytes [194; 181] +:+ "s")
        else (6, "ms") in
      let '(frac, n) := fmtFrac prec u false "" in print_nat n +:+ frac +:+ unit
    else
      let '(frac, secs) := fmtFrac 9 u false "" in
      let s := print_nat (secs mod 60)%Z +:+ frac +:+ "s" in
      let mins := (secs / 60)%Z in
      if (mins =? 0)%Z then s else
      let m := print_nat (mins mod 60)%Z +:+ "m" +:+ s in
      let hours := (mins / 60)%Z in
      if (hours =? 0)%Z then m else print_nat hours +:+ "h" +:+ m
  in
  if (d <? 0)%Z then String "-" body else body.

(** ** Package net *)

(** [net.SplitHostPort]: [None] is a non-nil error. *)
Definition SplitHostPort (hostport : string) : option (string * string) :=
  match CutLastByte hostport ":" with
  | None => None                                   (* missing port *)
  | Some (before, port) =>
      match hostport with
      | String "[" rest =>
          match CutByte rest "]" with
          | None => None                           (* missing ']' *)
          | Some (host, after) =>
              (* the first ']' must come right before the last ':' *)
              if bool_decide (after = String ":" port) then
                if ContainsByte rest "[" || ContainsByte after "]" then None
                else Some (host, port)
              else None
          end
      | _ =>
          if ContainsByte before ":" then None     (* too many colons *)
          else if ContainsByte hostport "[" || ContainsByte hostport "]" then None
          else Some (before, port)
      end
  end.

(** ** Facts about the string functions *)
Lemma string_app_nil_l (s : string) : "" +:+ s = s.
Proof. done. Qed.

Lemma string_app_cons c (a b : string) : String c a +:+ b = String c (a +:+ b).
Proof. done. Qed.

#[export] Hint Rewrite string_app_nil_l string_app_cons : sandcastle_rw.

(** Push appends inside and simplify. *)
Ltac ssimp := repeat (progress (autorewrite with sandcastle_rw in *; simplify_eq/=)).

Lemma HasPrefix_spec s p : HasPrefix s p = true ↔ ∃ t, s = p +:+ t.
Proof.
  unfold HasPrefix. revert s. induction p as [|c p IH]; intros s; simpl.
  - split; [intros _; by exists s|]. by destruct s.
  - destruct s as [|d s]; simpl; [split; [done|by intros [t [=]]]|].
    destruct (ascii_dec c d) as [->|Hne].
    + rewrite IH. split; intros [t Ht]; exists t; by ssimp.
    + split; [done|]. intros [t Ht]. by ssimp.
Qed.

Lemma HasSuffix_spec s suf : HasSuffix s suf = true ↔ ∃ p, s = p +:+ suf.
Proof.
  induction s as [|c s IH]; cbn [HasSuffix].
  - rewrite orb_false_r, String.eqb_eq. split; [intros <-; by exists ""|].
    intros [[|] Hp]; by ssimp.
  - rewrite orb_true_iff, String.eqb_eq, IH. split.
    + intros [<-|[p ->]]; [by exists ""|by exists (String c p)].
    + intros [[|d p] Hp]; ssimp; [by left|]. right. by exists p.
Qed.

Lemma CutPrefix_spec s p t : CutPrefix s p = Some t ↔ s = p +:+ t.
Proof.
  revert s. induction p as [|c p IH]; intros s; simpl; ssimp.
  - split; [by intros [=<-]|by intros <-].
  - destruct s as [|d s]; [by split; ssimp|].
    destruct (Ascii.eqb_spec c d) as [->|Hne].
    + rewrite IH. split; [by intros ->|by intros [=]].
    + split; [done|]. intros [=]. by subst.
Qed.

Lemma string_app_assoc (a b c : string) : a +:+ (b +:+ c) = (a +:+ b) +:+ c.
Proof. induction a as [|x a IH]; ssimp; [done|]. by rewrite IH. Qed.

Lemma string_app_nil_r (a : string) : a +:+ "" = a.
Proof. induction a as [|x a IH]; ssimp; [done|]. by rewrite IH. Qed.

Lemma string_length_app (a b : string) :
  String.length (a +:+ b) = String.length a + String.length b.
Proof. induction a as [|x a IH]; ssimp; [done|]. by rewrite IH. Qed.

(** Two suffixes of one string are comparable: the longer has the shorter as a
suffix. *)
Lemma suffix_comparable (a b s t : string) :
  a +:+ s = b +:+ t → String.length t ≤ String.length s → ∃ p, s = p +:+ t.
Proof.
  revert b. induction a as [|x a IH]; intros [|y b] Heq Hlen; ssimp.
  - by exists "".
  - by exists (String y b).
  - exfalso. rewrite string_length_app in Hlen. lia.
  - by eapply IH.
Qed.

Lemma string_app_inv_r (a b s : string) : a +:+ s = b +:+ s → a = b.
Proof.
  intros Heq. assert (String.length a = String.length b) as Hlen.
  { apply (f_equal String.length) in Heq. rewrite !string_length_app in Heq. lia. }
  revert b Heq Hlen. induction a as [|x a IH]; intros [|y b] Heq Hlen; ssimp; [done|].
  f_equal. by apply IH; [|lia].
Qed.

Lemma string_forall_app p a b :
  string_forall p (a +:+ b) = string_forall p a && string_forall p b.
Proof. induction a as [|c a IH]; ssimp; [done|]. by rewrite IH, andb_assoc. Qed.

Lemma string_forall_impl (p q : ascii → bool) s :
  (∀ c, p c = true → q c = true) → string_forall p s = true → string_forall q s = true.
Proof.
  intros Hpq. induction s as [|c s IH]; simpl; [done|].
  intros [??]%andb_true_iff. rewrite andb_true_iff. auto.
Qed.

Lemma ContainsByte_cons d s c :
  ContainsByte (String d s) c = Ascii.eqb d c || ContainsByte s c.
Proof.
  unfold ContainsByte. simpl. destruct (Ascii.eqb d c); [done|].
  by destruct (CutByte s c) as [[]|].
Qed.

Lemma ContainsByte_app a b c :
  ContainsByte (a +:+ b) c = ContainsByte a c || ContainsByte b c.
Proof.
  induction a as [|d a IH]; [done|].
  by rewrite string_app_cons, !ContainsByte_cons, IH, orb_assoc.
Qed.

Lemma ContainsByte_forall s c :
  ContainsByte s c = negb (string_forall (λ d, negb (Ascii.eqb d c)) s).
Proof.
  induction s as [|d s IH]; [done|]. rewrite ContainsByte_cons, IH. simpl.
  by destruct (Ascii.eqb d c).
Qed.

Lemma CutByte_None s c : CutByte s c = None ↔ ContainsByte s c = false.
Proof. unfold ContainsByte. by destruct (CutByte s c) as [[]|]. Qed.

Lemma CutByte_spec s c a b :
  CutByte s c = Some (a, b) ↔ s = a +:+ String c b ∧ ContainsByte a c = false.
Proof.
  revert a b. induction s as [|d s IH]; intros a b; simpl.
  { split; [done|]. intros [Hs _]. destruct a; by ssimp. }
  destruct (Ascii.eqb_spec d c) as [->|Hne].
  - split; [by intros [= <- <-]|]. intros [Hs Ha]. destruct a as [|x a]; ssimp; [done|].
    rewrite ContainsByte_cons, Ascii.eqb_refl in Ha. done.
  - apply Ascii.eqb_neq in Hne.
    destruct (CutByte s c) as [[a' b']|] eqn:E.
    + destruct (proj1 (IH a' b') eq_refl) as [-> Ha']. split.
      * intros [= <- <-]. by rewrite ContainsByte_cons, Hne, Ha'.
      * intros [Hs Ha]. destruct a as [|x a]; ssimp; [by rewrite Ascii.eqb_refl in Hne|].
        rewrite ContainsByte_cons, Hne in Ha.
        assert (Some (a', b') = Some (a, b)) as [= -> ->]; [|done]. by apply IH.
    + split; [done|]. intros [Hs Ha]. apply CutByte_None in E.
      destruct a as [|x a]; ssimp; [by rewrite Ascii.eqb_refl in Hne|].
      by rewrite ContainsByte_app, ContainsByte_cons, Ascii.eqb_refl, orb_true_r in E.
Qed.

Lemma CutLastByte_None s c : ContainsByte s c = false → CutLastByte s c = None.
Proof.
  induction s as [|d s IH]; [done|]. rewrite ContainsByte_cons. intros [Hd Hs]%orb_false_iff.
  simpl. by rewrite IH, Hd.
Qed.

Lemma CutLastByte_app x y c :
  ContainsByte y c = false → CutLastByte (x +:+ String c y) c = Some (x, y).
Proof.
  intros Hy. induction x as [|d x IH].
  - rewrite string_app_nil_l. simpl. by rewrite CutLastByte_None, Ascii.eqb_refl.
  - rewrite string_app_cons. simpl. by rewrite IH.
Qed.

(** [host:port] without brackets splits at its colon. *)
Lemma SplitHostPort_plain h p :
  ContainsByte h ":" = false → ContainsByte h "[" = false → ContainsByte h "]" = false →
  ContainsByte p ":" = false → ContainsByte p "[" = false → ContainsByte p "]" = false →
  SplitHostPort (h +:+ String ":" p) = Some (h, p).
Proof.
  intros H1 H2 H3 H4 H5 H6. unfold SplitHostPort. rewrite CutLastByte_app by done.
  rewrite H1, !ContainsByte_app, !ContainsByte_cons, H2, H3, H5, H6. simpl.
  destruct h as [|c h]; [done|]. rewrite string_app_cons.
  rewrite ContainsByte_cons in H2. apply orb_false_iff in H2 as [Hc _].
  destruct c as [[] [] [] [] [] [] [] []]; done.
Qed.

Lemma SplitHostPort_no_colon h : ContainsByte h ":" = false → SplitHostPort h = None.
Proof. intros Hh. unfold SplitHostPort. by rewrite CutLastByte_None. Qed.

(** A string with neither upper-case nor non-ASCII bytes is its own lower case. *)
Lemma ToLower_id `{Unicode} s :
  string_forall (λ c, (byte c <? 128)%N && negb (is_upper c)) s = true → ToLower s = s.
Proof.
  intros Hs. unfold ToLower, is_ascii.
  assert (string_forall (λ c, (byte c <? 128)%N) s = true) as ->.
  { eapply string_forall_impl; [|exact Hs]. intros c Hc. by apply andb_true_iff in Hc as [? _]. }
  induction s as [|c s IH]; [done|]. simpl in *. apply andb_true_iff in Hs as [Hc Hs].
  rewrite IH by done. unfold lower_byte. apply andb_true_iff in Hc as [_ ->%negb_true_iff]. done.
Qed.

(** ** Printing and parsing numbers *)
Lemma digit_val_char d : (0 ≤ d < 10)%Z → digit_val (digit_char d) = Some d.
Proof.
  intros Hd.
  assert (d = 0 ∨ d = 1 ∨ d = 2 ∨ d = 3 ∨ d = 4 ∨ d = 5 ∨ d = 6 ∨ d = 7 ∨ d = 8 ∨ d = 9)%Z as Hc by lia.
  repeat (destruct Hc as [-> |Hc]; [done|]). by subst.
Qed.

Lemma parse_print_digits fuel n acc :
  (0 ≤ n < 2 ^ Z.of_nat fuel)%Z →
  ∃ k, ∀ a, parse_digits a (print_digits fuel n acc) = parse_digits (a * 10 ^ Z.of_nat k + n)%Z acc.
Proof.
  revert n acc. induction fuel as [|fuel IH]; intros n acc Hn.
  { exists 0. intros a. simpl. f_equal. change (2 ^ Z.of_nat 0)%Z with 1%Z in Hn. lia. }
  cbn [print_digits]. destruct (Z.ltb_spec n 10) as [Hlt|Hge].
  - exists 1. intros a. cbn [parse_digits]. rewrite Z.mod_small, digit_val_char by lia.
    f_equal; lia.
  - destruct (IH (n / 10)%Z (String (digit_char (n mod 10)) acc)) as [k Hk].
    { rewrite Nat2Z.inj_succ, Z.pow_succ_r in Hn by lia. split; [apply Z.div_pos; lia|].
      apply Z.div_lt_upper_bound; lia. }
    exists (S k). intros a. rewrite Hk. cbn [parse_digits].
    rewrite digit_val_char by (apply Z.mod_pos_bound; lia). f_equal.
    rewrite Nat2Z.inj_succ, Z.pow_succ_r by lia. pose proof (Z.div_mod n 10). lia.
Qed.

Lemma parse_print_nat n : (0 ≤ n)%Z → parse_digits 0 (print_nat n) = Some n.
Proof.
  intros Hn. unfold print_nat.
  destruct (parse_print_digits (S (Z.to_nat (Z.log2 n))) n "") as [k Hk].
  - split; [done|]. rewrite Nat2Z.inj_succ, Z2Nat.id by apply Z.log2_nonneg.
    destruct (decide (n = 0%Z)) as [->|]; [done|]. by apply Z.log2_spec; lia.
  - by rewrite Hk.
Qed.

Lemma print_nat_inj n m : (0 ≤ n)%Z → (0 ≤ m)%Z → print_nat n = print_nat m → n = m.
Proof.
  intros Hn Hm Heq. pose proof (parse_print_nat n Hn) as E. rewrite Heq, parse_print_nat in E by done.
  by injection E.
Qed.

(** Decimals have digits only and no leading zero. *)
Lemma digit_char_digit d : (0 ≤ d < 10)%Z → is_digit (digit_char d) = true.
Proof.
  intros Hd. pose proof (digit_val_char d Hd) as Hv. unfold digit_val in Hv.
  by destruct (is_digit (digit_char d)).
Qed.

Lemma print_digits_shape fuel n acc :
  (0 < n < 2 ^ Z.of_nat fuel)%Z → string_forall is_digit acc = true →
  ∃ c ds, print_digits fuel n acc = String c ds ∧ is_digit c = true ∧ c ≠ "0"%char ∧
    string_forall is_digit ds = true.
Proof.
  revert n acc. induction fuel as [|fuel IH]; intros n acc Hn Hacc.
  { change (2 ^ Z.of_nat 0)%Z with 1%Z in Hn. lia. }
  cbn [print_digits]. destruct (Z.ltb_spec n 10) as [Hlt|Hge].
  - rewrite Z.mod_small by lia. eexists _, acc. split_and!; [done|by apply digit_char_digit; lia| |done].
    intros E. pose proof (digit_val_char n) as Hv. rewrite E in Hv.
    assert (Some 0%Z = Some n) as [= <-] by (apply Hv; lia). lia.
  - apply IH.
    + rewrite Nat2Z.inj_succ, Z.pow_succ_r in Hn by lia. split; [apply Z.div_str_pos; lia|].
      apply Z.div_lt_upper_bound; lia.
    + simpl. by rewrite digit_char_digit by (apply Z.mod_pos_bound; lia).
Qed.

Lemma print_nat_shape n :
  (0 ≤ n)%Z → print_nat n = "0" ∨
  ∃ c ds, print_nat n = String c ds ∧ is_digit c = true ∧ c ≠ "0"%char ∧ string_forall is_digit ds = true.
Proof.
  intros Hn. destruct (decide (n = 0%Z)) as [->|Hne]; [by left|right].
  apply print_digits_shape; [|done]. split; [lia|].
  rewrite Nat2Z.inj_succ, Z2Nat.id by apply Z.log2_nonneg. apply Z.log2_spec. lia.
Qed.

Lemma Atoi_digits c ds n :
  is_digit c = true → parse_digits 0 (String c ds) = Some n → (n ≤ max_int64)%Z → (0 ≤ n)%Z →
  Atoi (String c ds) = (n, true) ∧
  Atoi (String "-" (String c ds)) = (if (- n <? min_int64)%Z then (min_int64, false) else (- n, true))%Z.
Proof.
  intros Hc Hp Hmax H0.
  assert (∀ A (x y : string → A) (z : A), match String c ds with
    | String "-" s' => x s' | String "+" s' => y s' | _ => z end = z) as Hm.
  { intros A x y z. destruct c as [[] [] [] [] [] [] [] []]; try discriminate Hc; reflexivity. }
  unfold Atoi. rewrite Hm, Hp. split.
  - by rewrite (proj2 (Z.ltb_ge _ _)), (proj2 (Z.ltb_ge _ _)) by (unfold min_int64, max_int64 in *; lia).
  - by rewrite (proj2 (Z.ltb_ge max_int64 _)) by (unfold max_int64 in *; lia).
Qed.

Lemma Atoi_Itoa n : (min_int64 < n ≤ max_int64)%Z → Atoi (Itoa n) = (n, true).
Proof.
  intros Hn. assert (∀ m, (0 ≤ m)%Z → ∃ c ds, print_nat m = String c ds ∧ is_digit c = true) as Hs.
  { intros m [->|(c & ds & -> & Hc & _)]%print_nat_shape; eauto. }
  unfold Itoa. destruct (Z.ltb_spec n 0) as [Hneg|Hpos].
  - destruct (Hs (- n)%Z) as (c & ds & E & Hc); [lia|].
    pose proof (parse_print_nat (- n)) as Hp. rewrite E in *.
    destruct (Atoi_digits c ds (- n) Hc) as [_ ->]; [apply Hp; lia|unfold min_int64, max_int64 in *; lia|lia|].
    rewrite (proj2 (Z.ltb_ge _ _)) by lia. f_equal. lia.
  - destruct (Hs n Hpos) as (c & ds & E & Hc). pose proof (parse_print_nat n Hpos) as Hp.
    rewrite E in *. destruct (Atoi_digits c ds n Hc Hp) as [-> _]; [lia..|done].
Qed.
