(* ===== verification/Regex.v ===== *)
(** * Regular expressions

The program validates names with regular expressions: [policy.nameRE] (Go's
[regexp]) and the [CHECK] on [zones.name] (PostgreSQL's [~]). Both patterns are
anchored with [^] and [$], so a match is a match of the whole string. This file
gives the language of an expression ([matches]) and an executable matcher by
Brzozowski derivatives ([rmatch]), and proves that they agree. *)
From Stdlib Require Import Ascii.
From S2P Require Import Prelude GoLib.
From stdpp Require Import strings list.

Inductive regex : Type :=
| Void
| Eps
| Class (p : ascii → bool)
| Alt (r1 r2 : regex)
| Seq (r1 r2 : regex)
| Star (r : regex)
| Rep (lo hi : nat) (r : regex).

(** The operators of the concrete syntax. *)
Definition Lit (c : ascii) : regex := Class (Ascii.eqb c).
Definition Opt (r : regex) : regex := Alt Eps r.
Definition Plus (r : regex) : regex := Seq r (Star r).

Inductive matches : regex → string → Prop :=
| m_eps : matches Eps ""
| m_class p c : p c = true → matches (Class p) (String c "")
| m_alt_l r1 r2 s : matches r1 s → matches (Alt r1 r2) s
| m_alt_r r1 r2 s : matches r2 s → matches (Alt r1 r2) s
| m_seq r1 r2 s1 s2 : matches r1 s1 → matches r2 s2 → matches (Seq r1 r2) (s1 +:+ s2)
| m_star_nil r : matches (Star r) ""
| m_star_app r s1 s2 : matches r s1 → matches (Star r) s2 → matches (Star r) (s1 +:+ s2)
| m_rep_nil r hi : matches (Rep 0 hi r) ""
| m_rep_app r lo hi s1 s2 :
    matches r s1 → matches (Rep (pred lo) hi r) s2 →
    matches (Rep lo (S hi) r) (s1 +:+ s2).
#[export] Hint Constructors matches : sandcastle.

Fixpoint nullable (r : regex) : bool :=
  match r with
  | Void | Class _ => false
  | Eps | Star _ => true
  | Alt r1 r2 => nullable r1 || nullable r2
  | Seq r1 r2 => nullable r1 && nullable r2
  | Rep lo hi r => (lo =? 0) || (nullable r && (lo <=? hi))
  end.

(** Smart constructors: they keep the derivatives small. *)
Definition alt (r1 r2 : regex) : regex :=
  match r1, r2 with
  | Void, r | r, Void => r
  | r1, r2 => Alt r1 r2
  end.

Definition seq (r1 r2 : regex) : regex :=
  match r1, r2 with
  | Void, _ | _, Void => Void
  | Eps, r | r, Eps => r
  | r1, r2 => Seq r1 r2
  end.

Fixpoint deriv (c : ascii) (r : regex) : regex :=
  match r with
  | Void | Eps => Void
  | Class p => if p c then Eps else Void
  | Alt r1 r2 => alt (deriv c r1) (deriv c r2)
  | Seq r1 r2 =>
      let d := seq (deriv c r1) r2 in
      if nullable r1 then alt d (deriv c r2) else d
  | Star r => seq (deriv c r) (Star r)
  | Rep lo hi r =>
      match hi with
      | O => Void
      | S hi => seq (deriv c r) (Rep (pred lo) hi r)
      end
  end.

Fixpoint rmatch (r : regex) (s : string) : bool :=
  match s with
  | "" => nullable r
  | String c s => rmatch (deriv c r) s
  end.

(** ** The language of each operator *)
Lemma matches_Void s : ¬ matches Void s.
Proof. by inversion 1. Qed.

Lemma matches_Eps s : matches Eps s ↔ s = "".
Proof. split; [by inversion 1|]. intros ->. constructor. Qed.

Lemma matches_Class p s : matches (Class p) s ↔ ∃ c, s = String c "" ∧ p c = true.
Proof. split; [inversion 1; eauto|]. intros (c & -> & ?). by constructor. Qed.

Lemma matches_Alt r1 r2 s : matches (Alt r1 r2) s ↔ matches r1 s ∨ matches r2 s.
Proof. split; [inversion 1; auto|]. intros [?|?]; eauto with sandcastle. Qed.

Lemma matches_Seq r1 r2 s :
  matches (Seq r1 r2) s ↔ ∃ s1 s2, s = s1 +:+ s2 ∧ matches r1 s1 ∧ matches r2 s2.
Proof. split; [inversion 1; eauto|]. intros (? & ? & -> & ? & ?). by constructor. Qed.

Lemma matches_Star r s :
  matches (Star r) s ↔
  ∃ l, s = foldr String.append "" l ∧ Forall (matches r) l.
Proof.
  split.
  - remember (Star r) as sr eqn:E. induction 1; simplify_eq.
    + by exists [].
    + destruct IHmatches2 as (l & -> & ?); [done|]. exists (s1 :: l). auto.
  - intros (l & -> & Hl). induction Hl; simpl; by constructor.
Qed.

Lemma matches_Rep lo hi r s :
  matches (Rep lo hi r) s ↔
  ∃ l, s = foldr String.append "" l ∧ lo ≤ length l ≤ hi ∧ Forall (matches r) l.
Proof.
  split.
  - remember (Rep lo hi r) as rr eqn:E. intros Hm. revert lo hi E.
    induction Hm; intros lo' hi' E; simplify_eq.
    + exists []. split_and!; simpl; [done|lia|lia|done].
    + destruct (IHHm2 _ _ eq_refl) as (l & -> & [??] & ?). exists (s1 :: l).
      split_and!; simpl; [done|lia|lia|auto].
  - intros (l & -> & Hlen & Hl). revert lo hi Hlen.
    induction Hl as [|s l Hs Hl IH]; intros lo hi Hlen; simpl in *.
    + assert (lo = 0) as -> by lia. constructor.
    + destruct hi as [|hi]; [lia|]. constructor; [done|]. apply IH. lia.
Qed.

Lemma matches_Lit c s : matches (Lit c) s ↔ s = String c "".
Proof.
  unfold Lit. rewrite matches_Class. split.
  - intros (d & -> & ->%Ascii.eqb_eq). done.
  - intros ->. exists c. by rewrite Ascii.eqb_refl.
Qed.

Lemma matches_Opt r s : matches (Opt r) s ↔ s = "" ∨ matches r s.
Proof. unfold Opt. by rewrite matches_Alt, matches_Eps. Qed.

(** Up to 63 repetitions of a one-byte class are its words of those lengths. *)
Lemma matches_Rep_Class lo hi p s :
  matches (Rep lo hi (Class p)) s ↔
  lo ≤ String.length s ≤ hi ∧ string_forall p s = true.
Proof.
  rewrite matches_Rep. split.
  - intros (l & -> & Hlen & Hl).
    assert (String.length (foldr String.append "" l) = length l ∧
            string_forall p (foldr String.append "" l) = true) as [-> ?]; [|done].
    clear Hlen. induction Hl as [|x l Hx Hl [IH1 IH2]]; [done|].
    apply matches_Class in Hx as (c & -> & Hc). simpl. ssimp.
    rewrite IH1, Hc. auto.
  - intros [Hlen Hs].
    assert (∃ l, s = foldr String.append "" l ∧ length l = String.length s ∧
                 Forall (matches (Class p)) l) as (l & ? & Hl & ?).
    { clear Hlen. induction s as [|c s IH]; [by exists []|].
      apply andb_true_iff in Hs as [Hc Hs]. destruct (IH Hs) as (l & -> & Hl & ?).
      exists (String c "" :: l). simpl. ssimp. rewrite Hl. split_and!; [done..|].
      constructor; [|done]. by constructor. }
    exists l. rewrite Hl. auto.
Qed.

(** ** The matcher is right *)
Lemma matches_nil_Rep lo hi r : matches r "" → lo ≤ hi → matches (Rep lo hi r) "".
Proof.
  intros Hr. revert lo. induction hi as [|hi IH]; intros lo Hle.
  - assert (lo = 0) as -> by lia. constructor.
  - destruct lo as [|lo]; [constructor|].
    rewrite <- (string_app_nil_l ""). constructor; [done|]. apply IH. simpl. lia.
Qed.

Lemma nullable_spec r : nullable r = true ↔ matches r "".
Proof.
  induction r as [| |p|r1 IH1 r2 IH2|r1 IH1 r2 IH2|r IH|lo hi r IH]; simpl.
  - split; [done|]. by intros ?%matches_Void.
  - by rewrite matches_Eps.
  - rewrite matches_Class. naive_solver.
  - by rewrite orb_true_iff, IH1, IH2, matches_Alt.
  - rewrite andb_true_iff, IH1, IH2, matches_Seq. split.
    + intros [??]. by exists "", "".
    + intros ([|] & [|] & Hs & ? & ?); by ssimp.
  - split; [|done]. constructor.
  - rewrite orb_true_iff, andb_true_iff, Nat.eqb_eq, Nat.leb_le, IH. split.
    + intros [->|[??]]; [constructor|by apply matches_nil_Rep].
    + inversion 1 as [| | | | | | |r' hi'|r' lo' hi' s1 s2 H1 H2]; simplify_eq; [auto|].
      destruct s1, s2; ssimp.
      destruct (proj1 (matches_Rep _ _ _ _) H2) as (l & _ & ? & _).
      right. split; [done|]. lia.
Qed.

Lemma matches_alt r1 r2 s : matches (alt r1 r2) s ↔ matches (Alt r1 r2) s.
Proof.
  rewrite matches_Alt.
  destruct r1, r2; simpl; rewrite ?matches_Alt;
    pose proof (matches_Void s); naive_solver.
Qed.

Lemma matches_seq r1 r2 s : matches (seq r1 r2) s ↔ matches (Seq r1 r2) s.
Proof.
  assert (∀ r, matches (Seq Eps r) s ↔ matches r s) as HE.
  { intros r. rewrite matches_Seq. split.
    - by intros (? & ? & -> & ->%matches_Eps & ?).
    - intros ?. exists "", s. split_and!; [done|constructor|done]. }
  assert (∀ r, matches (Seq r Eps) s ↔ matches r s) as HE'.
  { intros r. rewrite matches_Seq. split.
    - intros (? & ? & -> & ? & ->%matches_Eps). by rewrite string_app_nil_r.
    - intros ?. exists s, "". rewrite string_app_nil_r. split_and!; [done|done|constructor]. }
  assert (∀ r, matches (Seq Void r) s ↔ matches Void s) as HV.
  { intros r. rewrite matches_Seq. split; [|by intros ?%matches_Void].
    by intros (? & ? & -> & ?%matches_Void & ?). }
  assert (∀ r, matches (Seq r Void) s ↔ matches Void s) as HV'.
  { intros r. rewrite matches_Seq. split; [|by intros ?%matches_Void].
    by intros (? & ? & -> & ? & ?%matches_Void). }
  destruct r1, r2; simpl; rewrite ?HE, ?HE', ?HV, ?HV'; done.
Qed.

(** A non-empty word of a sequence takes its first byte from the first part, or
from the second when the first part is empty. *)
Lemma matches_Seq_cons r1 r2 c s :
  matches (Seq r1 r2) (String c s) ↔
  (∃ s1 s2, s = s1 +:+ s2 ∧ matches r1 (String c s1) ∧ matches r2 s2) ∨
  (matches r1 "" ∧ matches r2 (String c s)).
Proof.
  rewrite matches_Seq. split.
  - intros ([|d s1] & s2 & Hs & ? & ?); ssimp; [by right|]. left. eauto.
  - intros [(s1 & s2 & -> & ? & ?)|[??]]; [by exists (String c s1), s2|].
    by exists "", (String c s).
Qed.

Lemma matches_Star_cons r c s :
  matches (Star r) (String c s) ↔
  ∃ s1 s2, s = s1 +:+ s2 ∧ matches r (String c s1) ∧ matches (Star r) s2.
Proof.
  split.
  - remember (Star r) as sr eqn:E. remember (String c s) as t eqn:Et. intros Hm.
    induction Hm as [| | | | | |r' s1 s2 H1 _ H2 IH| |]; simplify_eq.
    destruct s1 as [|d s1]; ssimp; [by apply IH|]. exists s1, s2. auto.
  - intros (s1 & s2 & -> & ? & ?). rewrite <- string_app_cons. by constructor.
Qed.

Lemma matches_Rep_cons lo hi r c s :
  matches (Rep lo hi r) (String c s) ↔
  ∃ hi' s1 s2, hi = S hi' ∧ s = s1 +:+ s2 ∧
    matches r (String c s1) ∧ matches (Rep (pred lo) hi' r) s2.
Proof.
  split.
  - revert lo. induction hi as [|hi IH]; intros lo; [by inversion 1|].
    inversion 1 as [| | | | | | | |r' lo' hi' s1 s2 H1 H2 Er Hs]; simplify_eq.
    destruct s1 as [|d s1]; ssimp; [|by exists hi, s1, s2].
    destruct (IH _ H2) as (hi' & t1 & t2 & -> & -> & ? & ?).
    exists (S hi'), t1, t2. split_and!; [done..|].
    rewrite <- (string_app_nil_l t2). by constructor.
  - intros (hi' & s1 & s2 & -> & -> & ? & ?).
    rewrite <- string_app_cons. by constructor.
Qed.

Lemma deriv_spec c r s : matches (deriv c r) s ↔ matches r (String c s).
Proof.
  revert s. induction r as [| |p|r1 IH1 r2 IH2|r1 IH1 r2 IH2|r IH|lo hi r IH];
    intros s; simpl.
  - split; by intros ?%matches_Void.
  - rewrite matches_Eps. split; [by intros ?%matches_Void|done].
  - rewrite matches_Class. destruct (p c) eqn:E.
    + rewrite matches_Eps. split; [intros ->; eauto|]. by intros (d & [= <- ->] & _).
    + split; [by intros ?%matches_Void|]. intros (d & [= <- ->] & Hd). by rewrite E in Hd.
  - by rewrite matches_alt, !matches_Alt, IH1, IH2.
  - assert (matches (seq (deriv c r1) r2) s ↔
      ∃ s1 s2, s = s1 +:+ s2 ∧ matches r1 (String c s1) ∧ matches r2 s2) as Hd.
    { rewrite matches_seq, matches_Seq. by setoid_rewrite IH1. }
    rewrite matches_Seq_cons, <- Hd, <- nullable_spec. destruct (nullable r1).
    + rewrite matches_alt, matches_Alt, IH2. tauto.
    + split; [tauto|]. intros [?|[[=] _]]; done.
  - rewrite matches_seq, matches_Seq, matches_Star_cons. by setoid_rewrite IH.
  - rewrite matches_Rep_cons. destruct hi as [|hi].
    + split; [by intros ?%matches_Void|]. by intros (? & ? & ? & [=] & _).
    + rewrite matches_seq, matches_Seq. setoid_rewrite IH. split.
      * intros (s1 & s2 & ?). by exists hi, s1, s2.
      * intros (hi' & s1 & s2 & [= <-] & ?). by exists s1, s2.
Qed.

Theorem rmatch_spec r s : rmatch r s = true ↔ matches r s.
Proof.
  revert r. induction s as [|c s IH]; intros r; simpl.
  - apply nullable_spec.
  - by rewrite IH, deriv_spec.
Qed.
