(* ===== verification/Policy.v ===== *)
(** * internal/policy: who may reach what

A translation of [admin/internal/policy/policy.go]: rule validation, the zone of
a workspace, its effective rules, and [HostIPs], which inverts the rules into
the pod IPs allowed to reach each [host:port]. Go's [range] over a map visits
the keys in an unspecified order, so the two loops of [HostIPs] take their
orders as arguments; the theorems show that the result does not depend on them.

The last section states what an Envoy that routes to the most specific matching
domain makes of [HostIPs]: exactly the policy. *)
From Stdlib Require Import Ascii.
From S2P Require Import Prelude GoLib Regex.
From stdpp Require Import gmap strings list sorting fin_maps.

(** ** Data *)
Record Rule := mkRule {
  rule_Kind : string;   (* "host" or "dns" *)
  rule_Value : string;  (* exact FQDN or "*.suffix", lowercase *)
  rule_Port : Z         (* 443 or 80 for host rules, 0 for dns rules *)
}.

Record Workspace := mkWorkspace {
  ws_ID : string;
  ws_Name : string;
  ws_OwnerID : string;
  ws_IP : string
}.

Record Input := mkInput {
  in_DefaultZone : string;
  in_ZoneRules : gmap string (list Rule);  (* zone ID -> rules *)
  in_Assign : gmap string string;          (* workspace ID -> zone ID *)
  in_Grants : gmap string (list Rule);     (* workspace ID -> unexpired grants *)
  in_Pods : list Workspace
}.

Record HostKey := mkHostKey { hk_Host : string; hk_Port : Z }.

#[export] Instance Rule_eq_dec : EqDecision Rule.
Proof. solve_decision. Defined.
#[export] Instance Workspace_eq_dec : EqDecision Workspace.
Proof. solve_decision. Defined.
#[export] Instance HostKey_eq_dec : EqDecision HostKey.
Proof. solve_decision. Defined.
#[export] Program Instance HostKey_countable : Countable HostKey :=
  inj_countable' (λ k, (hk_Host k, hk_Port k)) (λ '(h, p), mkHostKey h p) _.
Next Obligation. by intros []. Qed.

(** ** Validation *)
Definition alnum (c : ascii) : bool := is_lower c || is_digit c.
Definition ldh (c : ascii) : bool := alnum c || Ascii.eqb c "-".

(** [^(\*\.)?([a-z0-9]([a-z0-9-]{0,61}[a-z0-9])?\.)+[a-z]{2,63}$] *)
Definition labelRE : regex :=
  Seq (Class alnum) (Seq (Opt (Seq (Rep 0 61 (Class ldh)) (Class alnum))) (Lit ".")).

Definition nameRE : regex :=
  Seq (Opt (Seq (Lit "*") (Lit "."))) (Seq (Plus labelRE) (Rep 2 63 (Class is_lower))).

Definition ValidName (s : string) : bool :=
  (String.length s <=? 253) && rmatch nameRE s.

Definition ValidRule (r : Rule) : bool :=
  if (rule_Kind r =? "host")%string then
    ((rule_Port r =? 443)%Z || (rule_Port r =? 80)%Z) && ValidName (rule_Value r)
  else if (rule_Kind r =? "dns")%string then
    (rule_Port r =? 0)%Z && ValidName (rule_Value r)
  else false.

(** ** Effective rules *)
Definition ZoneOf (inp : Input) (ws : string) : string :=
  match in_Assign inp !! ws with
  | Some z => z
  | None => in_DefaultZone inp
  end.

(** Indexing a missing key of a Go map of slices gives the nil slice. *)
Definition slice_at {K A} `{Countable K} (m : gmap K (list A)) (k : K) : list A :=
  default [] (m !! k).

Definition Effective (inp : Input) (ws kind : string) : list Rule :=
  rules ← [slice_at (in_ZoneRules inp) (ZoneOf inp ws); slice_at (in_Grants inp) ws];
  r ← rules;
  if (rule_Kind r =? kind)%string && ValidRule r then [r] else [].

(** ** HostIPs *)
Definition key_of (r : Rule) : HostKey := mkHostKey (rule_Value r) (rule_Port r).

Definition add_ip (ip : string) (set : gmap HostKey (gset string)) (r : Rule)
    : gmap HostKey (gset string) :=
  <[key_of r := {[ip]} ∪ default ∅ (set !! key_of r)]> set.

(** The first loop: every pod with an IP, every effective host rule of it. *)
Definition add_pod (inp : Input) (set : gmap HostKey (gset string)) (p : Workspace)
    : gmap HostKey (gset string) :=
  if (ws_IP p =? "")%string then set
  else foldl (add_ip (ws_IP p)) set (Effective inp (ws_ID p) "host").

Definition collect (inp : Input) : gmap HostKey (gset string) :=
  foldl (add_pod inp) ∅ (in_Pods inp).

(** The second loop: a wildcard key's IPs go into every key it covers. *)
Definition merge_into (wk : HostKey) (suffix : string)
    (set : gmap HostKey (gset string)) (k : HostKey) : gmap HostKey (gset string) :=
  if bool_decide (k ≠ wk) && (hk_Port k =? hk_Port wk)%Z && HasSuffix (hk_Host k) suffix
  then <[k := default ∅ (set !! k) ∪ default ∅ (set !! wk)]> set
  else set.

Definition merge_wildcard (inner : HostKey → list HostKey)
    (set : gmap HostKey (gset string)) (wk : HostKey) : gmap HostKey (gset string) :=
  match CutPrefix (hk_Host wk) "*" with
  | None => set
  | Some suffix => foldl (merge_into wk suffix) set (inner wk)
  end.

Definition merge_all (outer : list HostKey) (inner : HostKey → list HostKey)
    (set : gmap HostKey (gset string)) : gmap HostKey (gset string) :=
  foldl (merge_wildcard inner) set outer.

(** The last loop: the IPs of each key, sorted. A key with no IP is absent from
[out], as appending nothing leaves it. *)
Definition emit (set : gmap HostKey (gset string)) : gmap HostKey (list string) :=
  omap (λ ips, match merge_sort String.le (elements ips) with
               | [] => None
               | l => Some l
               end) set.

Definition HostIPs_with (outer : list HostKey) (inner : HostKey → list HostKey)
    (inp : Input) : gmap HostKey (list string) :=
  emit (merge_all outer inner (collect inp)).

(** The keys of [set], in one of the orders [range] may visit them. *)
Definition keys (set : gmap HostKey (gset string)) : list HostKey := (map_to_list set).*1.

Definition HostIPs (inp : Input) : gmap HostKey (list string) :=
  HostIPs_with (keys (collect inp)) (λ _, keys (collect inp)) inp.

(** ** Specifications *)

(** A host name label: 1 to 63 letters, digits and hyphens, no hyphen at either
end (RFC 1123, lowercase). *)
Definition valid_label (l : string) : Prop :=
  1 ≤ String.length l ≤ 63 ∧ string_forall ldh l = true ∧
  (∃ c t, l = String c t ∧ alnum c = true) ∧
  (∃ t c, l = t +:+ String c "" ∧ alnum c = true).

(** A top-level label: 2 to 63 letters, so never a number. *)
Definition valid_tld (l : string) : Prop :=
  2 ≤ String.length l ≤ 63 ∧ string_forall is_lower l = true.

(** An optional ["*."], at least one label, and a top-level label. *)
Definition name_pattern (s : string) : Prop :=
  ∃ (star : bool) (labels : list string) (tld : string),
    labels ≠ [] ∧ Forall valid_label labels ∧ valid_tld tld ∧
    s = (if star then "*." else "") +:+
        foldr String.append tld ((λ l, l +:+ ".") <$> labels).

(** [p] is a pod with an IP one of whose effective host rules has key [k]. *)
Definition entitled (inp : Input) (p : Workspace) (k : HostKey) : Prop :=
  p ∈ in_Pods inp ∧ ws_IP p ≠ "" ∧
  ∃ r, r ∈ Effective inp (ws_ID p) "host" ∧ k = key_of r.

(** The wildcard key [wk] covers the more specific key [k]. *)
Definition covers (wk k : HostKey) : Prop :=
  ∃ suffix, hk_Host wk = "*" +:+ suffix ∧ k ≠ wk ∧ hk_Port k = hk_Port wk ∧
    HasSuffix (hk_Host k) suffix = true.

Definition admitted (inp : Input) (ip : string) (k : HostKey) : Prop :=
  ∃ p k', entitled inp p k' ∧ ws_IP p = ip ∧ (k' = k ∨ covers k' k).

(** Key [k] matches a request for host [h]: the same name, or a wildcard with a
non-empty part in place of the star. *)
Definition serves (k : HostKey) (h : string) : Prop :=
  hk_Host k = h ∨
  ∃ suffix pre, hk_Host k = "*" +:+ suffix ∧ h = pre +:+ suffix ∧ pre ≠ "".

(** Envoy's choice among the keys of a table: the exact name if it is there,
otherwise the longest wildcard. *)
Definition most_specific (t : gmap HostKey (list string)) (h : string) (port : Z)
    (k : HostKey) : Prop :=
  k ∈ dom t ∧ hk_Port k = port ∧ serves k h ∧
  (hk_Host k = h ∨
   ∀ k', k' ∈ dom t → hk_Port k' = port → serves k' h →
     hk_Host k' ≠ h ∧ String.length (hk_Host k') ≤ String.length (hk_Host k)).

Definition table_allows (t : gmap HostKey (list string)) (h : string) (port : Z)
    (ip : string) : Prop :=
  ∃ k ips, most_specific t h port k ∧ t !! k = Some ips ∧ ip ∈ ips.

(** ** Names *)
Lemma labelRE_spec s : matches labelRE s ↔ ∃ l, s = l +:+ "." ∧ valid_label l.
Proof.
  unfold labelRE. rewrite matches_Seq. setoid_rewrite matches_Class.
  setoid_rewrite matches_Seq. setoid_rewrite matches_Opt. setoid_rewrite matches_Lit.
  setoid_rewrite matches_Seq. setoid_rewrite matches_Rep_Class.
  setoid_rewrite matches_Class. split.
  - intros (s1 & s2 & -> & (c & -> & Hc) & t & d & -> & Ht & ->).
    exists (String c t). split; [by ssimp|]. destruct Ht as [->|(m & e & -> & Hm & x & -> & Hx)].
    + split_and!; [simpl; lia..| |by exists c, ""|by exists "", c].
      simpl. unfold ldh. by rewrite Hc.
    + rewrite <- string_app_cons. split_and!; rewrite ?string_length_app; simpl; [lia..| | |].
      * ssimp. rewrite string_forall_app. simpl. destruct Hm as [_ ->].
        unfold ldh at 1 2. by rewrite Hc, Hx.
      * ssimp. by exists c, (m +:+ String x "").
      * by exists (String c m), x.
  - intros (l & -> & Hlen & Hall & (c & t & -> & Hc) & (u & d & Hu & Hd)).
    exists (String c ""), (t +:+ "."). ssimp. split_and!; [done|by exists c|].
    exists t, ".". split_and!; [done| |done]. destruct u as [|x u]; ssimp; [by left|].
    right. exists u, (String d ""). rewrite string_length_app in Hlen. simpl in Hlen.
    rewrite string_forall_app in Hall. bsimp. split_and!; [done|lia|lia|done|by exists d].
Qed.

Lemma labels_spec s :
  matches (Plus labelRE) s ↔
  ∃ labels, labels ≠ [] ∧ Forall valid_label labels ∧
    s = foldr String.append "" ((λ l, l +:+ ".") <$> labels).
Proof.
  unfold Plus. rewrite matches_Seq. setoid_rewrite labelRE_spec.
  setoid_rewrite matches_Star. split.
  - intros (s1 & s2 & -> & (l & -> & Hl) & ls & -> & Hls).
    assert (∃ labels, Forall valid_label labels ∧ ls = (λ l, l +:+ ".") <$> labels)
      as (labels & ? & ->).
    { induction Hls as [|x ls Hx Hls (labels & ? & ->)]; [by exists []|].
      apply labelRE_spec in Hx as (l' & -> & ?). exists (l' :: labels). auto. }
    exists (l :: labels). auto.
  - intros (labels & Hne & Hls & ->). destruct Hls as [|l labels Hl Hls]; [done|].
    exists (l +:+ "."), (foldr String.append "" ((λ l, l +:+ ".") <$> labels)).
    split_and!; [done|by exists l|].
    exists ((λ l, l +:+ ".") <$> labels). split; [done|].
    apply Forall_fmap. eapply Forall_impl; [exact Hls|]. intros x Hx.
    apply labelRE_spec. by exists x.
Qed.

Lemma foldr_append_tail (l : list string) (t : string) :
  foldr String.append t l = foldr String.append "" l +:+ t.
Proof. induction l as [|x l IH]; simpl; [done|]. by rewrite IH, string_app_assoc. Qed.

Lemma nameRE_spec s : matches nameRE s ↔ name_pattern s.
Proof.
  unfold nameRE, name_pattern. rewrite matches_Seq. setoid_rewrite matches_Opt.
  setoid_rewrite matches_Seq. setoid_rewrite matches_Lit. setoid_rewrite labels_spec.
  setoid_rewrite matches_Rep_Class. split.
  - intros (s1 & s2 & -> & H1 & s3 & tld & -> & (labels & ? & ? & ->) & Ht).
    exists (bool_decide (s1 ≠ "")), labels, tld. rewrite (foldr_append_tail _ tld).
    split_and!; [done..|]. f_equal. destruct H1 as [->|(? & ? & -> & -> & ->)]; done.
  - intros (star & labels & tld & ? & ? & ? & ->). rewrite (foldr_append_tail _ tld).
    eexists _, _. split_and!; [done| |].
    + destruct star; [right|by left]. by exists "*", ".".
    + eexists _, tld. split; [done|]. split; [by exists labels|done].
Qed.

Lemma ValidName_pattern s :
  ValidName s = true ↔ String.length s ≤ 253 ∧ name_pattern s.
Proof. unfold ValidName. by rewrite andb_true_iff, Nat.leb_le, rmatch_spec, nameRE_spec. Qed.

(** The bytes of a name after an optional leading star. *)
Definition name_byte (c : ascii) : bool := ldh c || Ascii.eqb c ".".

Lemma labels_bytes labels tld :
  Forall valid_label labels → valid_tld tld →
  string_forall name_byte (foldr String.append tld ((λ l, l +:+ ".") <$> labels)) = true.
Proof.
  intros Hl Ht. induction Hl as [|l labels (_ & Hl & _) _ IH]; csimpl.
  - destruct Ht as [_ Ht]. eapply string_forall_impl; [|exact Ht].
    intros c Hc. unfold name_byte, ldh, alnum. by rewrite Hc.
  - rewrite !string_forall_app, IH. simpl. rewrite !andb_true_r.
    eapply string_forall_impl; [|exact Hl]. intros c Hc. unfold name_byte. by rewrite Hc.
Qed.

Lemma labels_first labels tld :
  labels ≠ [] → Forall valid_label labels →
  ∃ c t, alnum c = true ∧
    foldr String.append tld ((λ l, l +:+ ".") <$> labels) = String c t.
Proof.
  intros Hne Hl. destruct Hl as [|l labels (_ & _ & (c & t & -> & ?) & _) _]; [done|].
  csimpl. ssimp. eauto.
Qed.

(** A valid name is a star followed by ["."] and a plain name, or a plain name;
a plain name has no star and does not start with a dot. *)
Lemma ValidName_shape s :
  ValidName s = true →
  ∃ t c u, (s = t ∨ s = "*." +:+ t) ∧ t = String c u ∧ alnum c = true ∧
    string_forall name_byte t = true.
Proof.
  intros [_ (star & labels & tld & Hne & Hl & Ht & ->)]%ValidName_pattern.
  destruct (labels_first labels tld Hne Hl) as (c & u & Hc & Heq).
  eexists _, c, u. split_and!; [|exact Heq|done|by apply labels_bytes].
  destruct star; [by right|by left].
Qed.

Lemma name_byte_not_star s : string_forall name_byte s = true → ContainsByte s "*" = false.
Proof.
  intros Hs. rewrite ContainsByte_forall. apply negb_false_iff.
  eapply string_forall_impl; [|exact Hs]. intros c Hc.
  destruct (Ascii.eqb_spec c "*") as [->|]; [|done]. by vm_compute in Hc.
Qed.

Lemma ValidName_wildcard suf :
  ValidName ("*" +:+ suf) = true →
  ∃ t, suf = String "." t ∧ string_forall name_byte t = true.
Proof.
  intros (t & c & u & Hs & Ht & Hc & Hb)%ValidName_shape. ssimp.
  destruct Hs as [Hs|Hs]; ssimp; eauto.
Qed.

Lemma ValidRule_dns r :
  rule_Kind r = "dns" → ValidRule r = true → ValidName (rule_Value r) = true.
Proof. unfold ValidRule. intros ->. simpl. intros Hr. by bsimp. Qed.

Lemma ValidRule_host r :
  rule_Kind r = "host" → ValidRule r = true →
  (rule_Port r = 443 ∨ rule_Port r = 80)%Z ∧ ValidName (rule_Value r) = true.
Proof.
  unfold ValidRule. intros ->. rewrite String.eqb_refl. intros Hr. bsimp.
  split; [|done]. destruct (Z.eqb_spec (rule_Port r) 443); [by left|].
  destruct (Z.eqb_spec (rule_Port r) 80); [by right|done].
Qed.

(** ** Effective rules and the first loop of HostIPs *)
Lemma elem_of_Effective inp ws kind r :
  r ∈ Effective inp ws kind ↔
  (r ∈ slice_at (in_ZoneRules inp) (ZoneOf inp ws) ∨ r ∈ slice_at (in_Grants inp) ws) ∧
  rule_Kind r = kind ∧ ValidRule r = true.
Proof.
  unfold Effective. rewrite list_elem_of_bind. setoid_rewrite list_elem_of_bind.
  assert (∀ r', r ∈ (if (rule_Kind r' =? kind)%string && ValidRule r' then [r'] else []) ↔
    r = r' ∧ rule_Kind r = kind ∧ ValidRule r = true) as Hif.
  { intros r'. destruct (String.eqb_spec (rule_Kind r') kind), (ValidRule r') eqn:E; simpl;
      rewrite ?list_elem_of_singleton, ?elem_of_nil; split;
      [by intros ->|by intros [-> _]|done|intros (-> & _ & ?); congruence|done
      |by intros (-> & ? & _)|done|by intros (-> & ? & _)]. }
  setoid_rewrite Hif. set_unfold. naive_solver.
Qed.

Lemma Effective_host_valid inp ws r :
  r ∈ Effective inp ws "host" → ValidName (rule_Value r) = true.
Proof. intros (_ & Hk & Hv)%elem_of_Effective. by apply ValidRule_host. Qed.

(** The IPs a table holds for a key, none when the key is absent. *)
Definition ips_at (set : gmap HostKey (gset string)) (k : HostKey) : gset string :=
  default ∅ (set !! k).

Lemma elem_of_add_ip ip set r k x :
  x ∈ ips_at (add_ip ip set r) k ↔ (x = ip ∧ k = key_of r) ∨ x ∈ ips_at set k.
Proof.
  unfold ips_at, add_ip. rewrite lookup_insert. case_decide; subst; simpl; [|naive_solver].
  set_solver.
Qed.

Lemma dom_add_ip ip set r : dom (add_ip ip set r) = {[key_of r]} ∪ dom set.
Proof. apply dom_insert_L. Qed.

Lemma elem_of_add_ips ip set rs k x :
  x ∈ ips_at (foldl (add_ip ip) set rs) k ↔
  (x = ip ∧ ∃ r, r ∈ rs ∧ k = key_of r) ∨ x ∈ ips_at set k.
Proof.
  revert set. induction rs as [|r rs IH]; intros set; simpl.
  - set_solver.
  - rewrite IH, elem_of_add_ip. set_solver.
Qed.

Lemma elem_of_dom_add_ips ip set rs k :
  k ∈ dom (foldl (add_ip ip) set rs) ↔ (∃ r, r ∈ rs ∧ k = key_of r) ∨ k ∈ dom set.
Proof.
  revert set. induction rs as [|r rs IH]; intros set; simpl.
  - set_solver.
  - rewrite IH, dom_add_ip. set_solver.
Qed.

Lemma collect_spec inp k :
  (∀ ip, ip ∈ ips_at (collect inp) k ↔ ∃ p, entitled inp p k ∧ ws_IP p = ip) ∧
  (k ∈ dom (collect inp) ↔ ∃ p, entitled inp p k).
Proof.
  unfold collect, entitled.
  assert (∀ ps set,
    (∀ ip, ip ∈ ips_at (foldl (add_pod inp) set ps) k ↔
      (∃ p, (p ∈ ps ∧ ws_IP p ≠ "" ∧ ∃ r, r ∈ Effective inp (ws_ID p) "host" ∧ k = key_of r)
        ∧ ws_IP p = ip) ∨ ip ∈ ips_at set k) ∧
    (k ∈ dom (foldl (add_pod inp) set ps) ↔
      (∃ p, p ∈ ps ∧ ws_IP p ≠ "" ∧ ∃ r, r ∈ Effective inp (ws_ID p) "host" ∧ k = key_of r)
      ∨ k ∈ dom set)) as Hgen.
  { intros ps. induction ps as [|p ps IH]; intros set; simpl; [set_solver|].
    destruct (IH (add_pod inp set p)) as [IH1 IH2].
    setoid_rewrite IH1. rewrite IH2. unfold add_pod.
    destruct (String.eqb_spec (ws_IP p) "") as [He|He].
    - set_solver.
    - setoid_rewrite elem_of_add_ips. rewrite elem_of_dom_add_ips. set_solver. }
  destruct (Hgen (in_Pods inp) ∅) as [H1 H2]. setoid_rewrite H1. rewrite H2.
  unfold ips_at. rewrite lookup_empty, dom_empty_L. set_solver.
Qed.

Lemma collect_valid inp k : k ∈ dom (collect inp) → ValidName (hk_Host k) = true.
Proof.
  intros (p & _ & _ & r & Hr & ->)%collect_spec. by apply Effective_host_valid in Hr.
Qed.

(** ** The wildcard merge *)

(** Covering composes, for names that pass validation: a wildcard that covers a
wildcard covers what that one covers. *)
Lemma covers_trans w1 w2 k :
  ValidName (hk_Host w1) = true → ValidName (hk_Host w2) = true →
  covers w1 w2 → covers w2 k → k = w1 ∨ covers w1 k.
Proof.
  intros Hv1 Hv2 (s1 & E1 & Hne1 & Hp1 & Hs1) (s2 & E2 & Hne2 & Hp2 & Hs2).
  destruct (decide (k = w1)) as [->|Hne]; [by left|]. right.
  exists s1. split_and!; [done|done|congruence|].
  rewrite E1 in Hv1. destruct (ValidName_wildcard _ Hv1) as (t1 & -> & _).
  apply HasSuffix_spec in Hs1 as [q Hq]. apply HasSuffix_spec in Hs2 as [q2 Hq2].
  rewrite E2 in Hq. destruct q as [|c q]; ssimp.
  apply HasSuffix_spec. exists (q2 +:+ q). by rewrite Hq2, string_app_assoc.
Qed.

(** What the merge may put at [k]: the IPs collected for it or for a wildcard
that covers it. *)
Definition closure (base : gmap HostKey (gset string)) (k : HostKey) (ip : string) : Prop :=
  ip ∈ ips_at base k ∨ ∃ wk, covers wk k ∧ ip ∈ ips_at base wk.

Lemma ips_at_dom set k ip : ip ∈ ips_at set k → k ∈ dom set.
Proof. unfold ips_at. rewrite elem_of_dom. destruct (set !! k); [eauto|set_solver]. Qed.

Section merge.
Context (base : gmap HostKey (gset string)).
Context (Hvalid : ∀ k, k ∈ dom base → ValidName (hk_Host k) = true).

(** The loop invariant: the keys are those collected, nothing is lost, and
nothing outside the closure comes in. *)
Definition merge_inv (set : gmap HostKey (gset string)) : Prop :=
  dom set = dom base ∧
  (∀ k, ips_at base k ⊆ ips_at set k) ∧
  (∀ k ip, ip ∈ ips_at set k → closure base k ip).

Lemma merge_inv_base : merge_inv base.
Proof. split_and!; [done|done|]. intros k ip ?. by left. Qed.

Lemma closure_covers wk k ip :
  wk ∈ dom base → covers wk k → closure base wk ip → closure base k ip.
Proof.
  intros Hd Hc [Hip|(w & Hw & Hip)]; [right; by exists wk|].
  destruct (covers_trans w wk k) as [->|]; eauto using ips_at_dom; [by left|].
  right. by exists w.
Qed.

Lemma ips_at_merge_into wk suffix set k0 k ip :
  k0 ∈ dom set →
  ip ∈ ips_at (merge_into wk suffix set k0) k ↔
  ip ∈ ips_at set k ∨
  (k = k0 ∧ k0 ≠ wk ∧ hk_Port k0 = hk_Port wk ∧ HasSuffix (hk_Host k0) suffix = true ∧
   ip ∈ ips_at set wk).
Proof.
  intros Hk0. unfold merge_into, ips_at.
  destruct (bool_decide (k0 ≠ wk) && (hk_Port k0 =? hk_Port wk)%Z &&
            HasSuffix (hk_Host k0) suffix) eqn:E.
  - bsimp. rewrite lookup_insert. case_decide as Hk; [subst k0|].
    + simpl. rewrite elem_of_union. naive_solver.
    + naive_solver.
  - split; [by left|]. intros [?|(-> & ? & ? & Hs & ?)]; [done|].
    rewrite bool_decide_eq_true_2, Hs, andb_true_r in E by done.
    simpl in E. bsimp. done.
Qed.

Lemma merge_into_step wk suffix set k0 :
  hk_Host wk = "*" +:+ suffix → wk ∈ dom base → k0 ∈ dom base →
  merge_inv set → merge_inv (merge_into wk suffix set k0).
Proof.
  intros Ewk Hwk Hk0 (Hd & Hlo & Hhi).
  assert (k0 ∈ dom set) as Hk0' by congruence. split_and!.
  - unfold merge_into. case_match; [|done]. rewrite dom_insert_L. set_solver.
  - intros k ip Hip. apply ips_at_merge_into; [done|]. left. by apply Hlo.
  - intros k ip Hip. apply ips_at_merge_into in Hip; [|done].
    destruct Hip as [?|(-> & ? & ? & ? & Hip)]; [by apply Hhi|].
    apply (closure_covers wk); [done| |by apply Hhi]. exists suffix. auto.
Qed.

Lemma merge_wildcard_step inner set wk :
  wk ∈ dom base → (∀ wk k, k ∈ inner wk → k ∈ dom base) →
  merge_inv set → merge_inv (merge_wildcard inner set wk).
Proof.
  intros Hwk Hin Hinv. unfold merge_wildcard.
  destruct (CutPrefix (hk_Host wk) "*") as [suffix|] eqn:E; [|done].
  apply CutPrefix_spec in E. apply foldl_inv; [done|].
  intros set' k Hk ?. by apply merge_into_step; eauto.
Qed.

(** One pass of the inner loop brings a wildcard's IPs to the keys it covers. *)
Lemma merge_wildcard_reaches inner set wk k ip :
  wk ∈ dom base → (∀ wk k, k ∈ inner wk ↔ k ∈ dom base) →
  covers wk k → k ∈ dom base → ip ∈ ips_at base wk →
  merge_inv set → ip ∈ ips_at (merge_wildcard inner set wk) k.
Proof.
  intros Hwk Hin (suffix & Ewk & Hne & Hp & Hs) Hk Hip Hinv. unfold merge_wildcard.
  rewrite (proj2 (CutPrefix_spec _ _ _) Ewk).
  assert (∀ l, (∀ x, x ∈ l → x ∈ dom base) → k ∈ l → ∀ set, merge_inv set →
    ip ∈ ips_at (foldl (merge_into wk suffix) set l) k) as Hl.
  2:{ apply Hl; [|by apply Hin|done]. intros x Hx. by apply (Hin wk). }
  clear set Hinv. intros l Hl Hkl. induction l as [|x l IH]; intros set Hinv; [set_solver|].
  assert (x ∈ dom set) as Hxd by (destruct Hinv as [-> _]; apply Hl; set_solver).
  assert (merge_inv (merge_into wk suffix set x)) as Hinv'
    by (apply merge_into_step; [done|done|apply Hl; set_solver|done]).
  simpl. apply elem_of_cons in Hkl as [<-|Hkl]; [|apply IH; [set_solver|done|done]].
  apply (foldl_inv (λ set, merge_inv set ∧ ip ∈ ips_at set k)).
  - split; [done|]. apply ips_at_merge_into; [done|]. right.
    destruct Hinv as (_ & Hlo & _). split_and!; [done..|by apply Hlo].
  - intros set' y Hy [Hi Hip']. assert (y ∈ dom base) by (apply Hl; set_solver).
    split; [by apply merge_into_step|].
    apply ips_at_merge_into; [destruct Hi as [-> _]; done|]. by left.
Qed.

(** The whole merge computes the closure, in every visiting order. *)
Lemma merge_all_spec outer inner :
  (∀ k, k ∈ outer ↔ k ∈ dom base) → (∀ wk k, k ∈ inner wk ↔ k ∈ dom base) →
  dom (merge_all outer inner base) = dom base ∧
  ∀ k ip, k ∈ dom base → ip ∈ ips_at (merge_all outer inner base) k ↔ closure base k ip.
Proof.
  intros Hout Hin. unfold merge_all.
  assert (∀ l, (∀ k, k ∈ l → k ∈ dom base) → ∀ set, merge_inv set →
    merge_inv (foldl (merge_wildcard inner) set l)) as Hfold.
  { intros l Hl set Hinv. apply foldl_inv; [done|]. intros set' wk Hwk Hinv'.
    apply merge_wildcard_step; [by apply Hl| |done]. intros ? ? ?. by eapply Hin. }
  destruct (Hfold outer (λ k, proj1 (Hout k)) base merge_inv_base) as (Hd & Hlo & Hhi).
  split; [done|]. intros k ip Hk. split; [apply Hhi|].
  intros [Hip|(wk & Hc & Hip)]; [by apply Hlo|]. clear Hd Hlo Hhi.
  assert (wk ∈ dom base) as Hwk by eauto using ips_at_dom.
  pose proof merge_inv_base as Hb. apply Hout in Hwk as Hwo. apply list_elem_of_split in Hwo
    as (l1 & l2 & ->). rewrite foldl_app. simpl.
  assert (merge_inv (foldl (merge_wildcard inner) base l1)) as H1
    by (apply Hfold; [|done]; intros x Hx; apply Hout; set_solver).
  apply (foldl_inv (λ set, merge_inv set ∧ ip ∈ ips_at set k)).
  - split; [apply merge_wildcard_step; [done| |done]; intros ? ? ?; by eapply Hin|].
    by apply merge_wildcard_reaches.
  - intros set y Hy [Hi Hip']. assert (y ∈ dom base) as Hyd by (apply Hout; set_solver).
    split; [apply merge_wildcard_step; [done| |done]; intros ? ? ?; by eapply Hin|].
    unfold merge_wildcard. case_match; [|done].
    apply (foldl_inv (λ set, dom set = dom base ∧ ip ∈ ips_at set k)).
    + by destruct Hi as (-> & _).
    + intros set' z Hz [Hd Hz']. apply Hin in Hz. split.
      * unfold merge_into. case_match; [|done]. rewrite dom_insert_L. set_solver.
      * apply ips_at_merge_into; [congruence|]. by left.
Qed.
End merge.

(** ** The table *)
Lemma elem_of_keys set k : k ∈ keys set ↔ k ∈ dom set.
Proof.
  unfold keys. rewrite list_elem_of_fmap, elem_of_dom. split.
  - intros ([k' v] & -> & ?%elem_of_map_to_list). by exists v.
  - intros [v Hv]. exists (k, v). split; [done|]. by apply elem_of_map_to_list.
Qed.

Lemma lookup_emit set k l :
  emit set !! k = Some l ↔
  ips_at set k ≠ ∅ ∧ l = merge_sort String.le (elements (ips_at set k)).
Proof.
  unfold emit, ips_at. rewrite lookup_omap. destruct (set !! k) as [ips|]; simpl.
  2:{ split; [done|]. by intros [[] _]. }
  rewrite <- leibniz_equiv_iff, <- elements_empty_iff, <- (merge_sort_nil String.le).
  destruct (merge_sort String.le (elements ips)); naive_solver.
Qed.

Lemma emit_spec set k l :
  emit set !! k = Some l ↔
  ips_at set k ≠ ∅ ∧ Sorted String.le l ∧ NoDup l ∧ ∀ ip, ip ∈ l ↔ ip ∈ ips_at set k.
Proof.
  rewrite lookup_emit. split.
  - intros [Hne ->]. split_and!; [done|apply Sorted_merge_sort; apply _| |].
    + apply NoDup_merge_sort, NoDup_elements.
    + intros ip. by rewrite elem_of_merge_sort, elem_of_elements.
  - intros (Hne & HS & HN & Hel). split; [done|]. apply (sorted_perm_merge_sort String.le); [|done].
    apply NoDup_Permutation; [done|apply NoDup_elements|].
    intros ip. by rewrite Hel, elem_of_elements.
Qed.

Lemma closure_admitted inp k ip : closure (collect inp) k ip ↔ admitted inp ip k.
Proof.
  unfold closure, admitted. setoid_rewrite (λ k, proj1 (collect_spec inp k) ip).
  naive_solver.
Qed.

(** Both loops over the collected keys, each in its own order. *)
Definition range_orders (inp : Input) (outer : list HostKey)
    (inner : HostKey → list HostKey) : Prop :=
  outer ≡ₚ keys (collect inp) ∧ ∀ wk, inner wk ≡ₚ keys (collect inp).

Lemma HostIPs_with_spec inp outer inner k ips :
  range_orders inp outer inner →
  HostIPs_with outer inner inp !! k = Some ips ↔
  (∃ p, entitled inp p k) ∧ Sorted String.le ips ∧ NoDup ips ∧
  ∀ ip, ip ∈ ips ↔ admitted inp ip k.
Proof.
  intros [Hout Hin]. unfold HostIPs_with. rewrite emit_spec.
  destruct (merge_all_spec (collect inp) (collect_valid inp) outer inner) as [Hd Hm].
  { intros x. by rewrite Hout, elem_of_keys. }
  { intros w x. by rewrite Hin, elem_of_keys. }
  rewrite <- (proj2 (collect_spec inp k)). setoid_rewrite <- closure_admitted.
  destruct (decide (k ∈ dom (collect inp))) as [Hk|Hk].
  - assert (ips_at (merge_all outer inner (collect inp)) k ≠ ∅) as Hne.
    { apply collect_spec in Hk as [p Hp].
      assert (ws_IP p ∈ ips_at (merge_all outer inner (collect inp)) k); [|set_solver].
      apply Hm; [apply collect_spec; eauto|]. left. apply collect_spec. eauto. }
    setoid_rewrite (λ ip, Hm k ip Hk). tauto.
  - split; [|tauto]. intros (Hne & _). exfalso. apply set_choose_L in Hne as [ip Hip].
    apply ips_at_dom in Hip. congruence.
Qed.

Lemma range_orders_default inp :
  range_orders inp (keys (collect inp)) (λ _, keys (collect inp)).
Proof. done. Qed.

Lemma HostIPs_lookup inp k ips :
  HostIPs inp !! k = Some ips ↔
  (∃ p, entitled inp p k) ∧ Sorted String.le ips ∧ NoDup ips ∧
  ∀ ip, ip ∈ ips ↔ admitted inp ip k.
Proof. apply HostIPs_with_spec, range_orders_default. Qed.

Lemma dom_HostIPs inp k : k ∈ dom (HostIPs inp) ↔ ∃ p, entitled inp p k.
Proof.
  rewrite elem_of_dom. split.
  - intros [ips (? & _)%HostIPs_lookup]. done.
  - intros [p Hp].
    exists (merge_sort String.le (elements (ips_at (merge_all (keys (collect inp))
      (λ _, keys (collect inp)) (collect inp)) k))).
    unfold HostIPs, HostIPs_with. apply lookup_emit. split; [|done].
    assert (k ∈ dom (collect inp)) as Hk by (apply collect_spec; eauto).
    assert (ws_IP p ∈ ips_at (merge_all (keys (collect inp)) (λ _, keys (collect inp))
      (collect inp)) k); [|set_solver].
    apply (merge_all_spec (collect inp) (collect_valid inp));
      [intros; apply elem_of_keys|intros; apply elem_of_keys|done|].
    left. apply collect_spec. eauto.
Qed.

Lemma dom_HostIPs_valid inp k :
  k ∈ dom (HostIPs inp) →
  ValidName (hk_Host k) = true ∧ (hk_Port k = 443 ∨ hk_Port k = 80)%Z.
Proof.
  intros (p & _ & _ & r & (_ & Hk & Hv)%elem_of_Effective & ->)%dom_HostIPs.
  apply ValidRule_host in Hv as [??]; auto.
Qed.

(** ** Routing to the most specific key *)
Lemma serves_covers k wk h :
  ValidName (hk_Host k) = true → ValidName (hk_Host wk) = true →
  ContainsByte h "*" = false → serves k h → covers wk k → serves wk h.
Proof.
  intros Hvk Hvw Hh Hk (suf & Ewk & Hne & Hp & (q & Hq)%HasSuffix_spec).
  right. exists suf. rewrite Ewk in Hvw.
  destruct (ValidName_wildcard _ Hvw) as (t & -> & Ht).
  destruct Hk as [Hk|(suf2 & pre & Ek & -> & Hpre)].
  - exists q. rewrite <- Hk. split_and!; [done|done|]. intros ->.
    destruct (ValidName_shape _ Hvk) as (u & c & v & Hu & -> & Hc & _).
    rewrite Hq in Hu. destruct Hu as [Hu|Hu]; ssimp.
  - rewrite Ek in Hq. destruct q as [|c q]; ssimp.
    exists (pre +:+ q). rewrite string_app_assoc. split_and!; [done|done|].
    by destruct pre.
Qed.

Lemma covers_most_specific t h port k wk :
  most_specific t h port k → wk ∈ dom t → hk_Port wk = port → serves wk h →
  ContainsByte h "*" = false → k = wk ∨ covers wk k.
Proof.
  intros (Hk & Hp & Hs & Hmax) Hwk Hpw Hsw Hh.
  destruct (decide (k = wk)) as [|Hne]; [by left|right].
  destruct Hsw as [Hw|(suf & pre & Ew & -> & Hpre)].
  - exfalso. destruct Hmax as [Hkh|Hmax].
    + apply Hne. destruct k, wk; simpl in *; by subst.
    + destruct (Hmax wk) as [? _]; [done|done|by left|done].
  - exists suf. split_and!; [done|done|congruence|]. apply HasSuffix_spec.
    destruct Hs as [Hs|(suf2 & pre2 & Ek & Heq & Hpre2)]; [by exists pre|].
    destruct Hmax as [Hkh|Hmax]; [by exists pre|].
    destruct (Hmax wk) as [_ Hlen]; [done|done|right; by eauto|].
    rewrite Ew, Ek, !string_length_app in Hlen.
    destruct (suffix_comparable pre2 pre suf2 suf) as [q Hq]; [done|lia|].
    exists ("*" +:+ q). by rewrite Ek, Hq.
Qed.

Lemma serves_iff k h :
  serves k h ↔
  hk_Host k = h ∨
  match CutPrefix (hk_Host k) "*" with
  | Some suf => HasSuffix h suf = true ∧ h ≠ suf
  | None => False
  end.
Proof.
  unfold serves. split.
  - intros [?|(suf & pre & E & -> & Hpre)]; [by left|right].
    apply CutPrefix_spec in E. rewrite E. split; [apply HasSuffix_spec; by exists pre|].
    intros Heq. apply Hpre. by apply (string_app_inv_r pre "" suf).
  - intros [?|Hm]; [by left|right].
    destruct (CutPrefix (hk_Host k) "*") as [suf|] eqn:E; [|done].
    apply CutPrefix_spec in E. destruct Hm as [[pre ->]%HasSuffix_spec Hne].
    exists suf, pre. split_and!; [done|done|]. by intros ->.
Qed.

#[export] Instance serves_dec k h : Decision (serves k h).
Proof.
  refine (match decide _ with
          | left H => left (proj2 (serves_iff k h) H)
          | right H => right (λ H', H (proj1 (serves_iff k h) H'))
          end).
  destruct (CutPrefix (hk_Host k) "*"); apply _.
Defined.

(** Among the keys that match a request there is a most specific one. *)
Lemma most_specific_exists t h port k :
  k ∈ dom t → hk_Port k = port → serves k h → ∃ k', most_specific t h port k'.
Proof.
  intros Hk Hp Hs.
  destruct (decide (mkHostKey h port ∈ dom t)) as [Hex|Hex].
  { exists (mkHostKey h port). split_and!; simpl; auto. by left. }
  set (X := filter (λ k, hk_Port k = port ∧ serves k h) (elements (dom t))).
  assert (∀ x, x ∈ X ↔ (hk_Port x = port ∧ serves x h) ∧ x ∈ dom t) as HX.
  { intros x. unfold X. by rewrite list_elem_of_filter, elem_of_elements. }
  destruct (list_max_exists (λ x, String.length (hk_Host x)) X k) as (m & Hm & Hmax).
  { by apply HX. }
  apply HX in Hm as [[Hmp Hms] Hmd].
  exists m. split_and!; [done..|right]. intros k' Hd Hp' Hs'. split.
  - intros Hh. apply Hex. destruct k'; simpl in *; by subst.
  - apply Hmax. by apply HX.
Qed.

Lemma most_specific_unique t h port k k' :
  most_specific t h port k → most_specific t h port k' → k = k'.
Proof.
  intros (Hk & Hp & Hs & Hm) (Hk' & Hp' & Hs' & Hm').
  assert (∀ x y : HostKey, hk_Host x = h → hk_Port x = port → hk_Host y = h → hk_Port y = port →
    x = y) as Heq by (intros [] []; simpl; congruence).
  destruct Hm as [Hm|Hm], Hm' as [Hm'|Hm'].
  - by apply Heq.
  - by destruct (Hm' k) as [? _].
  - by destruct (Hm k') as [? _].
  - destruct (Hm k' Hk' Hp' Hs') as [N' L']. destruct (Hm' k Hk Hp Hs) as [N L].
    destruct Hs as [?|(s & pre & E & -> & _)]; [done|].
    destruct Hs' as [?|(s' & pre' & E' & Epre & _)]; [done|].
    rewrite E, E', !string_length_app in L, L'.
    destruct (suffix_comparable pre pre' s s') as [q Hq]; [done|lia|].
    assert (q = "") as ->.
    { destruct q; [done|]. rewrite Hq, string_length_app in L, L'. simpl in *. lia. }
    rewrite string_app_nil_l in Hq. destruct k, k'; simpl in *; congruence.
Qed.

(** The table enforces the policy. *)
Lemma table_allows_policy inp h port ip :
  ContainsByte h "*" = false →
  table_allows (HostIPs inp) h port ip ↔
  ∃ p r, p ∈ in_Pods inp ∧ ws_IP p = ip ∧ ip ≠ "" ∧
    r ∈ Effective inp (ws_ID p) "host" ∧ rule_Port r = port ∧ serves (key_of r) h.
Proof.
  intros Hh. split.
  - intros (k & ips & Hms & (_ & _ & _ & Hips)%HostIPs_lookup & Hip).
    apply Hips in Hip as (p & k' & (Hp & Hne & r & Hr & ->) & <- & Hk).
    pose proof Hms as (Hd & Hport & Hs & _). apply dom_HostIPs_valid in Hd as [Hvk _].
    exists p, r. split_and!; [done..| |].
    + destruct Hk as [<-|(? & _ & _ & Heq & _)]; [done|]. by rewrite <- Hport, Heq.
    + destruct Hk as [->|Hc]; [done|].
      by eapply (serves_covers k (key_of r) h); [|eapply Effective_host_valid|..].
  - intros (p & r & Hp & <- & Hne & Hr & Hport & Hs).
    assert (entitled inp p (key_of r)) as He by (split_and!; eauto).
    assert (key_of r ∈ dom (HostIPs inp)) as Hd by (apply dom_HostIPs; eauto).
    destruct (most_specific_exists (HostIPs inp) h port (key_of r)) as [k Hms]; [done..|].
    pose proof Hms as (Hk & _). apply elem_of_dom in Hk as [ips Hips].
    exists k, ips. split_and!; [done..|]. apply HostIPs_lookup in Hips as (_ & _ & _ & Hips).
    apply Hips. exists p, (key_of r). split_and!; [done..|].
    destruct (covers_most_specific _ _ _ _ _ Hms Hd Hport Hs Hh); auto.
Qed.

(** ** Claims *)

(** A rule is valid exactly when it is a host rule on port 443 or 80 or a dns rule on
port 0, and its value is a host name of at most 253 bytes: an optional ["*."], labels of
1 to 63 letters, digits and inner hyphens, and a top-level label of letters. *)
Theorem ValidRule_spec r :
  ValidRule r = true ↔
  ((rule_Kind r = "host" ∧ (rule_Port r = 443 ∨ rule_Port r = 80)%Z) ∨
   (rule_Kind r = "dns" ∧ rule_Port r = 0%Z)) ∧
  String.length (rule_Value r) ≤ 253 ∧ name_pattern (rule_Value r).
Proof.
  rewrite <- ValidName_pattern. unfold ValidRule.
  destruct (String.eqb_spec (rule_Kind r) "host") as [->|Hh].
  - rewrite andb_true_iff, orb_true_iff, !Z.eqb_eq. naive_solver.
  - destruct (String.eqb_spec (rule_Kind r) "dns") as [->|Hd].
    + rewrite andb_true_iff, Z.eqb_eq. naive_solver.
    + naive_solver.
Qed.

(** Addresses never pass for names: a string of digits and dots (any IPv4 address) and
a string with a colon (any IPv6 address, any host:port) are invalid names. *)
Theorem ValidName_refuses_addresses s :
  string_forall (λ c, is_digit c || Ascii.eqb c ".") s || ContainsByte s ":" = true →
  ValidName s = false.
Proof.
  intros Hs. apply not_true_is_false. intros Hv. pose proof Hv as Hp.
  apply ValidName_pattern in Hp as [_ (star & labels & tld & Hne & Hl & Ht & ->)].
  apply orb_true_iff in Hs as [Hs|Hs].
  - rewrite string_forall_app in Hs. apply andb_true_iff in Hs as [_ Hs].
    assert (string_forall (λ c, is_digit c || Ascii.eqb c ".") tld = true) as Htld.
    { clear -Hs. induction labels as [|l labels IH]; csimpl in *; [done|]. apply IH.
      rewrite string_forall_app in Hs. by apply andb_true_iff in Hs as [_ ?]. }
    destruct Ht as [Hlen Hlow]. destruct tld as [|c tld]; simpl in *; [lia|].
    apply andb_true_iff in Htld as [Hc _]. apply andb_true_iff in Hlow as [Hc' _].
    clear -Hc Hc'. destruct c as [[] [] [] [] [] [] [] []]; vm_compute in Hc, Hc'; congruence.
  - rewrite ContainsByte_app in Hs. apply orb_true_iff in Hs as [Hs|Hs]; [by destruct star|].
    rewrite ContainsByte_forall in Hs. apply negb_true_iff, not_true_iff_false in Hs.
    apply Hs. eapply string_forall_impl; [|by apply labels_bytes]. intros c Hc.
    destruct (Ascii.eqb_spec c ":") as [->|]; [|done]. by vm_compute in Hc.
Qed.

(** [HostIPs] lists a [host:port] exactly when a pod with an IP has an effective rule
for it, and its list is sorted, without duplicates, and holds exactly the IPs of the pods
with a rule for that key or for a wildcard covering it. *)
Theorem HostIPs_spec inp k ips :
  HostIPs inp !! k = Some ips ↔
  (∃ p, entitled inp p k) ∧ Sorted String.le ips ∧ NoDup ips ∧
  ∀ ip, ip ∈ ips ↔ admitted inp ip k.
Proof. apply HostIPs_lookup. Qed.

(** The result of [HostIPs] does not depend on the orders in which Go visits the map
in its two nested loops, although the inner loop adds to the sets being read. *)
Theorem HostIPs_order_independent inp outer inner :
  range_orders inp outer inner → HostIPs_with outer inner inp = HostIPs inp.
Proof.
  intros Ho. apply map_eq. intros k. apply option_eq. intros ips.
  by rewrite (HostIPs_with_spec inp outer inner k ips Ho), HostIPs_lookup.
Qed.

(** [C3] The table enforces the policy: when requests are matched against the most specific
key, as Envoy does, a pod's IP is allowed to reach a host on a port exactly when that pod
has an effective host rule, exact or wildcard, that matches the host on that port. Longer
matches added for other workspaces never take access away, nor give it. *)
Theorem HostIPs_enforces inp h port ip :
  ContainsByte h "*" = false →
  table_allows (HostIPs inp) h port ip ↔
  ∃ p r, p ∈ in_Pods inp ∧ ws_IP p = ip ∧ ip ≠ "" ∧
    r ∈ Effective inp (ws_ID p) "host" ∧ rule_Port r = port ∧ serves (key_of r) h.
Proof. apply table_allows_policy. Qed.

(** A policy with a wildcard, a shadowing exact host and two pods. *)
Definition demo_input : Input :=
  mkInput "z" {[ "z" := [mkRule "host" "*.example.com" 443; mkRule "dns" "example.com" 0] ]}
    ∅ {[ "w2" := [mkRule "host" "api.example.com" 443] ]}
    [mkWorkspace "w1" "a" "o" "10.0.0.1"; mkWorkspace "w2" "b" "o" "10.0.0.2"].

Lemma ValidName_refuses_addresses_witness :
  ValidName "10.96.0.1" = false ∧ ValidName "fd00::1" = false.
Proof. split; apply ValidName_refuses_addresses; reflexivity. Defined.

Lemma HostIPs_order_independent_witness :
  HostIPs_with (reverse (keys (collect demo_input))) (λ _, keys (collect demo_input)) demo_input
  = HostIPs demo_input.
Proof.
  apply HostIPs_order_independent. split; [apply reverse_Permutation|]. intros _. reflexivity.
Defined.

Lemma HostIPs_enforces_witness :
  table_allows (HostIPs demo_input) "api.example.com" 443 "10.0.0.1".
Proof.
  apply HostIPs_enforces; [reflexivity|].
  exists (mkWorkspace "w1" "a" "o" "10.0.0.1"), (mkRule "host" "*.example.com" 443).
  split; [left|]. split; [reflexivity|]. split; [discriminate|].
  split; [vm_compute; left|]. split; [reflexivity|].
  right. exists ".example.com", "api". split_and!; [reflexivity|reflexivity|discriminate].
Defined.
