(* ===== verification/Json.v ===== *)
(** * JSON values

[map[string]any] and [[]any] values: audit details, Cilium objects and the
Envoy resources are built of them. An object is an association list; a Go map
has no order, so [DeepEqual] compares objects key by key. *)
From S2P Require Import Prelude GoLib.
From stdpp Require Import strings list sets.

Inductive json : Type :=
| JNull
| JBool (b : bool)
| JNum (n : Z)
| JStr (s : string)
| JArr (l : list json)
| JObj (fields : list (string * json)).

(** [m[k]] on an association list: the first binding of the key. *)
Fixpoint jlookup (fields : list (string * json)) (k : string) : option json :=
  match fields with
  | [] => None
  | (k', v) :: fields => if (k' =? k)%string then Some v else jlookup fields k
  end.

(** [m[k] = v]. *)
Fixpoint jset (fields : list (string * json)) (k : string) (v : json) : list (string * json) :=
  match fields with
  | [] => [(k, v)]
  | (k', v') :: fields =>
      if (k' =? k)%string then (k, v) :: fields else (k', v') :: jset fields k v
  end.

Definition jget (k : string) (j : json) : option json :=
  match j with JObj fields => jlookup fields k | _ => None end.

(** [unstructured.NestedFieldNoCopy]: follow a path of keys. *)
Fixpoint jpath (path : list string) (j : json) : option json :=
  match path with
  | [] => Some j
  | k :: path => match jget k j with Some v => jpath path v | None => None end
  end.

Definition jstr_at (path : list string) (j : json) : string :=
  match jpath path j with Some (JStr s) => s | _ => "" end.

(** [reflect.DeepEqual] on such values: arrays element by element, objects as
maps of the same size whose bindings agree. (The keys of the second are compared because
a list, unlike a map, may bind a key twice; for maps the size says it.) *)
Fixpoint DeepEqual (a b : json) {struct a} : bool :=
  match a, b with
  | JNull, JNull => true
  | JBool x, JBool y => Bool.eqb x y
  | JNum x, JNum y => (x =? y)%Z
  | JStr x, JStr y => (x =? y)%string
  | JArr l, JArr m =>
      (fix all2 (l m : list json) : bool :=
        match l, m with
        | [], [] => true
        | x :: l, y :: m => DeepEqual x y && all2 l m
        | _, _ => false
        end) l m
  | JObj f, JObj g =>
      (length f =? length g) &&
      (fix all (f : list (string * json)) : bool :=
        match f with
        | [] => true
        | (k, x) :: f =>
            match jlookup g k with Some y => DeepEqual x y | None => false end && all f
        end) f &&
      forallb (λ k, bool_decide (is_Some (jlookup f k))) g.*1
  | _, _ => false
  end.

(** ** Facts *)

(** Induction that reaches inside arrays and objects. *)
Section json_ind.
Context (P : json → Prop).
Context (Hnull : P JNull) (Hbool : ∀ b, P (JBool b)) (Hnum : ∀ n, P (JNum n)).
Context (Hstr : ∀ s, P (JStr s)) (Harr : ∀ l, Forall P l → P (JArr l)).
Context (Hobj : ∀ f, Forall (λ kv, P kv.2) f → P (JObj f)).

Fixpoint json_nested_ind (j : json) : P j :=
  match j with
  | JNull => Hnull
  | JBool b => Hbool b
  | JNum n => Hnum n
  | JStr s => Hstr s
  | JArr l => Harr l
      ((fix go (l : list json) : Forall P l :=
        match l with
        | [] => Forall_nil_2 P
        | x :: l => Forall_cons_2 P x l (json_nested_ind x) (go l)
        end) l)
  | JObj f => Hobj f
      ((fix go (f : list (string * json)) : Forall (λ kv, P kv.2) f :=
        match f with
        | [] => Forall_nil_2 _
        | kv :: f => Forall_cons_2 _ kv f (json_nested_ind kv.2) (go f)
        end) f)
  end.
End json_ind.

(** An object value of Go has each key once, at every level. *)
Fixpoint wf_json (j : json) : bool :=
  match j with
  | JArr l => (fix all (l : list json) : bool :=
      match l with [] => true | x :: l => wf_json x && all l end) l
  | JObj f =>
      bool_decide (NoDup f.*1) &&
      (fix all (f : list (string * json)) : bool :=
        match f with [] => true | (_, x) :: f => wf_json x && all f end) f
  | _ => true
  end.

Lemma jlookup_in f k x : NoDup f.*1 → (k, x) ∈ f → jlookup f k = Some x.
Proof.
  induction f as [|[k' v] f IH]; csimpl; [set_solver|].
  intros [Hk Hnd]%NoDup_cons [[= <- <-]|Hin]%elem_of_cons.
  - by rewrite String.eqb_refl.
  - destruct (String.eqb_spec k' k) as [->|]; [|auto]. exfalso. apply Hk.
    apply list_elem_of_fmap. by exists (k, x).
Qed.

(** ** Equality up to the order of keys *)
Lemma DeepEqual_JArr l m :
  DeepEqual (JArr l) (JArr m) = true ↔ Forall2 (λ x y, DeepEqual x y = true) l m.
Proof.
  revert m. induction l as [|x l IH]; intros [|y m]; cbn [DeepEqual].
  - split; [constructor|done].
  - split; [done|by inversion 1].
  - split; [done|by inversion 1].
  - change (DeepEqual x y && DeepEqual (JArr l) (JArr m) = true ↔
      Forall2 (λ x y, DeepEqual x y = true) (x :: l) (y :: m)).
    rewrite andb_true_iff, IH. split; [intros [? ?]; by constructor|by inversion 1].
Qed.

Lemma DeepEqual_JObj f g :
  DeepEqual (JObj f) (JObj g) = true ↔
  length f = length g ∧
  (∀ k x, (k, x) ∈ f → ∃ y, jlookup g k = Some y ∧ DeepEqual x y = true) ∧
  (∀ k, k ∈ g.*1 → is_Some (jlookup f k)).
Proof.
  cbn [DeepEqual]. rewrite !andb_true_iff, Nat.eqb_eq, forallb_forall.
  setoid_rewrite <- list_elem_of_In. setoid_rewrite bool_decide_eq_true.
  match goal with |- (_ ∧ ?P) ∧ _ ↔ _ ∧ ?Q ∧ _ => cut (P ↔ Q); [tauto|] end.
  generalize f at 1 2. intros h. induction h as [|[k x] h IH]; [set_solver|].
  rewrite andb_true_iff, IH. setoid_rewrite elem_of_cons. split.
  - intros [Hx Hh] k' x' [[= -> ->]|Hin]; [|eauto]. destruct (jlookup g k); [eauto|done].
  - intros Hh. split; [|eauto]. destruct (Hh k x) as (y & -> & ?); auto.
Qed.

Lemma jlookup_elem f k x : jlookup f k = Some x → (k, x) ∈ f.
Proof.
  induction f as [|[k' v] f IH]; [done|]. simpl. destruct (String.eqb_spec k' k) as [->|].
  - intros [= ->]. by left.
  - intros Hx. right. auto.
Qed.

Lemma jlookup_is_Some f k : is_Some (jlookup f k) ↔ k ∈ f.*1.
Proof.
  induction f as [|[k' v] f IH]; csimpl; [split; [by intros []|set_solver]|].
  rewrite elem_of_cons, <- IH. destruct (String.eqb_spec k' k); naive_solver.
Qed.

(** Equal values are read alike. *)
Lemma DeepEqual_jget a b k :
  DeepEqual a b = true →
  match jget k a, jget k b with
  | Some x, Some y => DeepEqual x y = true
  | None, None => True
  | _, _ => False
  end.
Proof.
  destruct a as [| | | | |f], b as [| | | | |g]; try done.
  intros (_ & Hf & Hg)%DeepEqual_JObj. unfold jget. destruct (jlookup f k) as [x|] eqn:Ef.
  - destruct (Hf k x) as (y & -> & ?); [by apply jlookup_elem|done].
  - destruct (jlookup g k) as [y|] eqn:Eg; [|done].
    destruct (Hg k) as [x Hx]; [|congruence]. apply jlookup_is_Some. by eexists.
Qed.

Lemma DeepEqual_jpath path a b :
  DeepEqual a b = true →
  match jpath path a, jpath path b with
  | Some x, Some y => DeepEqual x y = true
  | None, None => True
  | _, _ => False
  end.
Proof.
  revert a b. induction path as [|k path IH]; intros a b Hab; [done|]. simpl.
  pose proof (DeepEqual_jget a b k Hab) as Hk.
  destruct (jget k a), (jget k b); by try apply IH.
Qed.

Lemma DeepEqual_jstr_at path a b : DeepEqual a b = true → jstr_at path a = jstr_at path b.
Proof.
  intros Hab%(DeepEqual_jpath path). unfold jstr_at.
  destruct (jpath path a) as [[]|], (jpath path b) as [[]|]; try done. by apply String.eqb_eq in Hab.
Qed.

(** An array at a path; what is no array counts as empty. *)
Definition jarr (j : option json) : list json := match j with Some (JArr l) => l | _ => [] end.

Lemma DeepEqual_jarr path a b :
  DeepEqual a b = true →
  Forall2 (λ x y, DeepEqual x y = true) (jarr (jpath path a)) (jarr (jpath path b)).
Proof.
  intros Hab%(DeepEqual_jpath path).
  destruct (jpath path a) as [[]|], (jpath path b) as [[]|]; try done; try by constructor.
  by apply DeepEqual_JArr.
Qed.

(** The keys of an object. *)
Definition jkeys (j : option json) : list string := match j with Some (JObj f) => f.*1 | _ => [] end.

Lemma DeepEqual_jkeys path a b k :
  DeepEqual a b = true → k ∈ jkeys (jpath path a) ↔ k ∈ jkeys (jpath path b).
Proof.
  intros Hab%(DeepEqual_jpath path).
  destruct (jpath path a) as [[| | | | |f]|], (jpath path b) as [[| | | | |g]|]; try done. simpl.
  rewrite <- !jlookup_is_Some. pose proof (DeepEqual_jget _ _ k Hab) as Hk. unfold jget in Hk.
  destruct (jlookup f k), (jlookup g k); [|done..]. naive_solver.
Qed.

Lemma DeepEqual_refl j : wf_json j = true → DeepEqual j j = true.
Proof.
  induction j as [|b|n|s|l IH|f IH] using json_nested_ind; intros Hwf.
  - done.
  - apply Bool.eqb_reflx.
  - apply Z.eqb_refl.
  - apply String.eqb_refl.
  - apply DeepEqual_JArr. induction IH as [|x l Hx _ IHl]; [constructor|]. simpl in Hwf. bsimp.
    constructor; [by apply Hx|by apply IHl].
  - simpl in Hwf. bsimp. apply DeepEqual_JObj. split_and!; [done| |intros k; apply jlookup_is_Some].
    intros k x Hin. exists x. split; [by apply jlookup_in|]. rewrite Forall_forall in IH.
    apply (IH _ Hin). simpl. clear IH. match goal with H : _ f = true |- _ => revert H end.
    clear -Hin. induction f as [|[k' x'] f IHf]; [set_solver|]. intros H. bsimp.
    apply elem_of_cons in Hin as [[= <- <-]|Hin]; [done|by apply IHf].
Qed.
