(* ===== verification/JsonText.v ===== *)
(** * encoding/json: text

What sessions, logins and the Envoy resources use of encoding/json: how values are written
and how a text is read. A text is read as UTF-8 runes first; bytes outside of ASCII occur in strings only.
[print] is the compact encoder with the HTML escaping [Marshal] applies, [parse_value] the
scanner and decoder in one, with Go's limit on nesting. *)
From Stdlib Require Import Ascii.
From S2P Require Import Prelude GoLib.
From stdpp Require Import strings list.

(** ** UTF-8 *)
Definition byte_in (lo hi : N) (c : ascii) : bool := ((lo <=? byte c) && (byte c <=? hi))%N.
Definition cont : ascii → bool := byte_in 128 191.

Definition utf8_2 (a b : ascii) : bool := byte_in 194 223 a && cont b.
Definition utf8_3 (a b c : ascii) : bool :=
  cont c && (byte_in 224 224 a && byte_in 160 191 b || byte_in 225 236 a && cont b ||
             byte_in 237 237 a && byte_in 128 159 b || byte_in 238 239 a && cont b).
Definition utf8_4 (a b c d : ascii) : bool :=
  cont c && cont d && (byte_in 240 240 a && byte_in 144 191 b || byte_in 241 243 a && cont b ||
                       byte_in 244 244 a && byte_in 128 143 b).

(** A rune of a text: one ASCII byte, a well-formed sequence of several, or a byte that
starts none. *)
Inductive rune : Type :=
| RAscii (c : ascii)
| RMulti (bs : string)
| RBad (c : ascii).

Definition str1 (a : ascii) : string := String a "".

Fixpoint runes (s : string) : list rune :=
  match s with
  | "" => []
  | String a s1 =>
      if (byte a <? 128)%N then RAscii a :: runes s1 else
      match s1 with
      | String b s2 =>
          if utf8_2 a b then RMulti (String a (str1 b)) :: runes s2 else
          match s2 with
          | String c s3 =>
              if utf8_3 a b c then RMulti (String a (String b (str1 c))) :: runes s3 else
              match s3 with
              | String d s4 =>
                  if utf8_4 a b c d
                  then RMulti (String a (String b (String c (str1 d)))) :: runes s4
                  else RBad a :: runes s1
              | "" => RBad a :: runes s1
              end
          | "" => RBad a :: runes s1
          end
      | "" => RBad a :: runes s1
      end
  end.

Definition rune_bytes (r : rune) : string :=
  match r with RAscii c | RBad c => str1 c | RMulti bs => bs end.
Definition text_of (l : list rune) : string := foldr (λ r s, rune_bytes r +:+ s) "" l.

Definition is_bad (r : rune) : bool := match r with RBad _ => true | _ => false end.
Definition valid_utf8 (s : string) : bool := forallb (λ r, negb (is_bad r)) (runes s).

(** The runes of an ASCII text. *)
Fixpoint toks (s : string) : list rune :=
  match s with "" => [] | String c s => RAscii c :: toks s end.

(** [utf8.EncodeRune]: surrogates and values out of range become U+FFFD. *)
Definition chrN (n : N) : ascii := Ascii.ascii_of_N n.
Definition EncodeRune (n : N) : string :=
  (let n := if ((55296 <=? n) && (n <=? 57343)) || (1114111 <? n) then 65533 else n in
   if n <? 128 then str1 (chrN n)
   else if n <? 2048 then String (chrN (192 + n / 64)) (str1 (chrN (128 + n mod 64)))
   else if n <? 65536
   then String (chrN (224 + n / 4096)) (String (chrN (128 + n / 64 mod 64)) (str1 (chrN (128 + n mod 64))))
   else String (chrN (240 + n / 262144)) (String (chrN (128 + n / 4096 mod 64))
          (String (chrN (128 + n / 64 mod 64)) (str1 (chrN (128 + n mod 64))))))%N.

(** ** Strings *)
Definition quote : ascii := "034".
Definition backslash : ascii := "\".

Definition html_safe (c : ascii) : bool :=
  (32 <=? byte c)%N && negb (Ascii.eqb c quote || Ascii.eqb c backslash || Ascii.eqb c "<" ||
                             Ascii.eqb c ">" || Ascii.eqb c "&").

Definition hex_digit (n : N) : ascii :=
  (if n <? 10 then chrN (48 + n) else chrN (87 + n))%N.

(** [appendString] on one rune. *)
Definition esc (s : string) : list rune := RAscii backslash :: toks s.
Definition enc_rune (r : rune) : list rune :=
  match r with
  | RAscii c =>
      if html_safe c then [RAscii c]
      else if Ascii.eqb c quote || Ascii.eqb c backslash then esc (str1 c)
      else if (byte c =? 8)%N then esc "b"
      else if (byte c =? 12)%N then esc "f"
      else if (byte c =? 10)%N then esc "n"
      else if (byte c =? 13)%N then esc "r"
      else if (byte c =? 9)%N then esc "t"
      else esc ("u00" +:+ String (hex_digit (byte c / 16)) (str1 (hex_digit (byte c mod 16))))
  | RMulti bs =>
      if (bs =? bytes [226; 128; 168])%string then esc "u2028"
      else if (bs =? bytes [226; 128; 169])%string then esc "u2029"
      else [RMulti bs]
  | RBad _ => esc "ufffd"
  end.

Definition print_str (s : string) : list rune :=
  RAscii quote :: (runes s ≫= enc_rune) ++ [RAscii quote].

(** Reading a string after its opening quote: its value and what follows it. *)
Definition simple_escape (e : ascii) : option ascii :=
  if Ascii.eqb e quote || Ascii.eqb e backslash || Ascii.eqb e "/" then Some e
  else if Ascii.eqb e "b" then Some (chrN 8)
  else if Ascii.eqb e "f" then Some (chrN 12)
  else if Ascii.eqb e "n" then Some (chrN 10)
  else if Ascii.eqb e "r" then Some (chrN 13)
  else if Ascii.eqb e "t" then Some (chrN 9)
  else None.

Definition hex4 (a b c d : ascii) : option N :=
  match unhex a, unhex b, unhex c, unhex d with
  | Some a, Some b, Some c, Some d => Some (a * 4096 + b * 256 + c * 16 + d)%N
  | _, _, _, _ => None
  end.

Definition is_surrogate (n : N) : bool := ((55296 <=? n) && (n <=? 57343))%N.
Definition surrogate_pair (hi lo : N) : option N :=
  (if ((55296 <=? hi) && (hi <? 56320)) && ((56320 <=? lo) && (lo <=? 57343))
   then Some ((hi - 55296) * 1024 + (lo - 56320) + 65536) else None)%N.

Definition cons_str (x : string) (r : option (string * list rune)) : option (string * list rune) :=
  match r with Some (s, rest) => Some (x +:+ s, rest) | None => None end.

Definition replacement : string := EncodeRune 65533.

Fixpoint parse_str (l : list rune) : option (string * list rune) :=
  match l with
  | [] => None
  | RMulti bs :: l1 => cons_str bs (parse_str l1)
  | RBad _ :: l1 => cons_str replacement (parse_str l1)
  | RAscii c :: l1 =>
      if Ascii.eqb c quote then Some ("", l1)
      else if (byte c <? 32)%N then None
      else if negb (Ascii.eqb c backslash) then cons_str (str1 c) (parse_str l1)
      else match l1 with
      | RAscii e :: l2 =>
          match simple_escape e with
          | Some x => cons_str (str1 x) (parse_str l2)
          | None =>
              if negb (Ascii.eqb e "u") then None else
              match l2 with
              | RAscii a :: RAscii b :: RAscii c' :: RAscii d :: l3 =>
                  match hex4 a b c' d with
                  | None => None
                  | Some rr =>
                      if negb (is_surrogate rr) then cons_str (EncodeRune rr) (parse_str l3) else
                      match l3 with
                      | RAscii s :: RAscii u :: RAscii a' :: RAscii b' :: RAscii c'' :: RAscii d' :: l4 =>
                          match (if Ascii.eqb s backslash && Ascii.eqb u "u"
                                 then rr' ← hex4 a' b' c'' d'; surrogate_pair rr rr' else None) with
                          | Some n => cons_str (EncodeRune n) (parse_str l4)
                          | None => cons_str replacement (parse_str l3)
                          end
                      | _ => cons_str replacement (parse_str l3)
                      end
                  end
              | _ => None
              end
          end
      | _ => None
      end
  end.

(** ** Values *)
Inductive jv : Type :=
| JvNull
| JvBool (b : bool)
| JvNum (lit : string)                (* the literal as written *)
| JvStr (s : string)
| JvArr (l : list jv)
| JvObj (fields : list (string * jv)).

Definition is_space (c : ascii) : bool :=
  ((byte c =? 32) || (byte c =? 9) || (byte c =? 10) || (byte c =? 13))%N.

Fixpoint skip_ws (l : list rune) : list rune :=
  match l with
  | RAscii c :: l' => if is_space c then skip_ws l' else l
  | _ => l
  end.

Fixpoint expect (w : string) (l : list rune) : option (list rune) :=
  match w with
  | "" => Some l
  | String c w =>
      match l with
      | RAscii d :: l => if Ascii.eqb c d then expect w l else None
      | _ => None
      end
  end.

Fixpoint take_digits (l : list rune) : string * list rune :=
  match l with
  | RAscii c :: l' =>
      if is_digit c then let '(ds, rest) := take_digits l' in (String c ds, rest) else ("", l)
  | _ => ("", l)
  end.

(** At least one digit. *)
Definition some_digits (l : list rune) : option (string * list rune) :=
  match take_digits l with ("", _) => None | r => Some r end.

(** An optional part of a number: nothing, or the introducing bytes and digits. *)
Definition scan_frac (l : list rune) : option (string * list rune) :=
  match expect "." l with
  | None => Some ("", l)
  | Some l => '(ds, rest) ← some_digits l; Some ("." +:+ ds, rest)
  end.

Definition scan_exp (l : list rune) : option (string * list rune) :=
  match l with
  | RAscii e :: l' =>
      if Ascii.eqb e "e" || Ascii.eqb e "E" then
        let '(sign, l'') :=
          match l' with
          | RAscii c :: l'' => if Ascii.eqb c "+" || Ascii.eqb c "-" then (str1 c, l'') else ("", l')
          | _ => ("", l')
          end in
        '(ds, rest) ← some_digits l''; Some (String e (sign +:+ ds), rest)
      else Some ("", l)
  | _ => Some ("", l)
  end.

Definition scan_int (l : list rune) : option (string * list rune) :=
  match expect "0" l with
  | Some l => Some ("0", l)
  | None => some_digits l
  end.

Definition scan_num (l : list rune) : option (string * list rune) :=
  let '(sign, l) := match expect "-" l with Some l => ("-", l) | None => ("", l) end in
  '(i, l) ← scan_int l;
  '(f, l) ← scan_frac l;
  '(e, l) ← scan_exp l;
  Some (sign +:+ i +:+ f +:+ e, l).

Definition maxNestingDepth : N := 10000.

(** [d] counts the open arrays and objects. *)
Fixpoint parse_value (n : nat) (d : N) (l : list rune) : option (jv * list rune) :=
  match n with
  | 0 => None
  | S n =>
      match skip_ws l with
      | RAscii c :: l1 =>
          if Ascii.eqb c quote then '(s, rest) ← parse_str l1; Some (JvStr s, rest)
          else if Ascii.eqb c "{" then
            if (maxNestingDepth <=? d)%N then None else
            match expect "}" (skip_ws l1) with
            | Some rest => Some (JvObj [], rest)
            | None => '(fs, rest) ← parse_members n (d + 1)%N l1; Some (JvObj fs, rest)
            end
          else if Ascii.eqb c "[" then
            if (maxNestingDepth <=? d)%N then None else
            match expect "]" (skip_ws l1) with
            | Some rest => Some (JvArr [], rest)
            | None => '(vs, rest) ← parse_elems n (d + 1)%N l1; Some (JvArr vs, rest)
            end
          else if Ascii.eqb c "t" then rest ← expect "rue" l1; Some (JvBool true, rest)
          else if Ascii.eqb c "f" then rest ← expect "alse" l1; Some (JvBool false, rest)
          else if Ascii.eqb c "n" then rest ← expect "ull" l1; Some (JvNull, rest)
          else '(lit, rest) ← scan_num (RAscii c :: l1); Some (JvNum lit, rest)
      | _ => None
      end
  end
with parse_elems (n : nat) (d : N) (l : list rune) : option (list jv * list rune) :=
  match n with
  | 0 => None
  | S n =>
      '(v, l1) ← parse_value n d l;
      match skip_ws l1 with
      | RAscii c :: l2 =>
          if Ascii.eqb c "," then '(vs, rest) ← parse_elems n d l2; Some (v :: vs, rest)
          else if Ascii.eqb c "]" then Some ([v], l2) else None
      | _ => None
      end
  end
with parse_members (n : nat) (d : N) (l : list rune) : option (list (string * jv) * list rune) :=
  match n with
  | 0 => None
  | S n =>
      l1 ← expect (str1 quote) (skip_ws l);
      '(k, l2) ← parse_str l1;
      l3 ← expect ":" (skip_ws l2);
      '(v, l4) ← parse_value n d l3;
      match skip_ws l4 with
      | RAscii c :: l5 =>
          if Ascii.eqb c "," then '(fs, rest) ← parse_members n d l5; Some ((k, v) :: fs, rest)
          else if Ascii.eqb c "}" then Some ([(k, v)], l5) else None
      | _ => None
      end
  end.

(** [json.Unmarshal] reads one value and nothing but space after it; [Decoder.Decode] reads
the first value of its input. *)
Definition decode_first (s : string) : option (jv * list rune) :=
  let l := runes s in parse_value (2 * length l + 2) 0 l.
Definition decode_all_text (s : string) : option jv :=
  match decode_first s with
  | Some (v, rest) => match skip_ws rest with [] => Some v | _ => None end
  | None => None
  end.

(** The encoder. *)
Definition print_elems (pr : jv → list rune) : list jv → list rune :=
  fix elems (l : list jv) : list rune :=
    match l with
    | [] => []
    | [v] => pr v
    | v :: l => pr v ++ RAscii "," :: elems l
    end.

Definition print_members (pr : jv → list rune) : list (string * jv) → list rune :=
  fix members (fs : list (string * jv)) : list rune :=
    match fs with
    | [] => []
    | [(k, v)] => print_str k ++ RAscii ":" :: pr v
    | (k, v) :: fs => print_str k ++ RAscii ":" :: pr v ++ RAscii "," :: members fs
    end.

Fixpoint print (v : jv) : list rune :=
  match v with
  | JvNull => toks "null"
  | JvBool b => toks (if b then "true" else "false")
  | JvNum lit => toks lit
  | JvStr s => print_str s
  | JvArr l => RAscii "[" :: print_elems print l ++ [RAscii "]"]
  | JvObj fs => RAscii "{" :: print_members print fs ++ [RAscii "}"]
  end.

Definition encode_text (v : jv) : string := text_of (print v).

(** Test texts are written with single quotes for double ones. *)
Definition dq (s : string) : string := ReplaceAllByte s "'" (str1 quote).

Example json_examples :
  encode_text (JvObj [("ID", JvStr "a<b"); ("Exp", JvNum "-12"); ("L", JvArr [JvNull; JvBool true])]) =
    dq "{'ID':'a\u003cb','Exp':-12,'L':[null,true]}" ∧
  decode_all_text (dq " {'a' : [1.5e+3, 'x\u00e9\ud83d\ude00\ud800', {}] } ") =
    Some (JvObj [("a", JvArr [JvNum "1.5e+3";
      JvStr ("x" +:+ bytes [195; 169; 240; 159; 152; 128; 239; 191; 189]); JvObj []])]) ∧
  (decode_all_text "[1,]", decode_all_text "01", decode_all_text (dq "{'a':1} x"),
   decode_all_text (dq "'\x'"), decode_all_text "-") = (None, None, None, None, None).
Proof. by vm_compute. Qed.

(** ** Runes round trip *)
Definition good (r : rune) : Prop :=
  match r with
  | RAscii c => (byte c <? 128)%N = true
  | RMulti bs => ∀ s, runes (bs +:+ s) = RMulti bs :: runes s
  | RBad _ => True
  end.

Lemma runes_good s : Forall good (runes s) ∧ text_of (runes s) = s.
Proof.
  induction s as [s IH] using (induction_ltof1 _ String.length). unfold ltof in IH.
  destruct s as [|a s1]; [done|]. destruct (byte a <? 128)%N eqn:Ea.
  { destruct (IH s1) as [IHf IHr]; [simpl; lia|]. simpl. rewrite Ea. simpl. rewrite IHr.
    split; [by constructor|done]. }
  assert (Forall good (RBad a :: runes s1) ∧ text_of (RBad a :: runes s1) = String a s1) as Hbad.
  { destruct (IH s1) as [IHf IHr]; [simpl; lia|]. simpl. rewrite IHr. split; [by constructor|done]. }
  cbn [runes]. rewrite Ea. destruct s1 as [|b s2]; [done|].
  destruct (utf8_2 a b) eqn:E2.
  { destruct (IH s2) as [IHf IHr]; [simpl; lia|]. simpl. rewrite IHr.
    split; [|done]. constructor; [|done]. intros s. simpl. by rewrite Ea, E2. }
  destruct s2 as [|c s3]; [done|]. destruct (utf8_3 a b c) eqn:E3.
  { destruct (IH s3) as [IHf IHr]; [simpl; lia|]. simpl. rewrite IHr.
    split; [|done]. constructor; [|done]. intros s. simpl. by rewrite Ea, E2, E3. }
  destruct s3 as [|d s4]; [done|]. destruct (utf8_4 a b c d) eqn:E4; [|done].
  destruct (IH s4) as [IHf IHr]; [simpl; lia|]. simpl. rewrite IHr.
  split; [|done]. constructor; [|done]. intros s. simpl. by rewrite Ea, E2, E3, E4.
Qed.

(** What the encoder produces: well-formed, nothing bad. *)
Definition clean_rune (r : rune) : Prop := good r ∧ is_bad r = false.

Lemma runes_render l : Forall clean_rune l → runes (text_of l) = l.
Proof.
  induction 1 as [|[c|bs|c] l [Hr Hb] _ IH]; [done| | |done]; simpl in Hr.
  - change (text_of (RAscii c :: l)) with (String c (text_of l)). cbn [runes]. by rewrite Hr, IH.
  - change (text_of (RMulti bs :: l)) with (bs +:+ text_of l). by rewrite Hr, IH.
Qed.

Lemma toks_clean s : is_ascii s = true → Forall clean_rune (toks s).
Proof.
  induction s as [|c s IH]; [by constructor|]. unfold is_ascii. simpl.
  intros [Hc Hs]%andb_true_iff. constructor; [done|by apply IH].
Qed.

Lemma valid_utf8_clean s : valid_utf8 s = true → Forall clean_rune (runes s).
Proof.
  unfold valid_utf8. rewrite forallb_forall. intros Hv. apply Forall_forall. intros r Hr.
  destruct (runes_good s) as [Hg _]. rewrite Forall_forall in Hg. split; [by apply Hg|].
  apply negb_true_iff, Hv. by apply list_elem_of_In.
Qed.

Lemma is_ascii_valid s : is_ascii s = true → valid_utf8 s = true.
Proof.
  unfold valid_utf8, is_ascii. induction s as [|c s IH]; [done|]. simpl.
  intros [Hc Hs]%andb_true_iff. rewrite Hc. simpl. by apply IH.
Qed.

(** ** Strings round trip *)
Lemma enc_ascii c :
  (byte c <? 128)%N = true →
  Forall clean_rune (enc_rune (RAscii c)) ∧
  ∀ l, parse_str (enc_rune (RAscii c) ++ l) = cons_str (str1 c) (parse_str l).
Proof.
  destruct c as [[] [] [] [] [] [] [] []]; intros Hc; try discriminate Hc;
    (split; [repeat constructor|intros l; reflexivity]).
Qed.

Lemma enc_clean r : clean_rune r → Forall clean_rune (enc_rune r).
Proof.
  destruct r as [c|bs|c]; intros [Hg Hb]; [by apply enc_ascii| |done]. simpl.
  destruct (_ =? _)%string; [by constructor; [|apply toks_clean]|].
  destruct (_ =? _)%string; [by constructor; [|apply toks_clean]|]. by repeat constructor.
Qed.

Lemma parse_enc r l :
  clean_rune r → parse_str (enc_rune r ++ l) = cons_str (rune_bytes r) (parse_str l).
Proof.
  destruct r as [c|bs|c]; intros [Hg Hb]; [by apply enc_ascii| |done]. cbn [enc_rune].
  destruct (String.eqb_spec bs (bytes [226; 128; 168])) as [->|]; [reflexivity|].
  destruct (String.eqb_spec bs (bytes [226; 128; 169])) as [->|]; [reflexivity|]. done.
Qed.

Lemma parse_enc_str s rest :
  valid_utf8 s = true → parse_str ((runes s ≫= enc_rune) ++ RAscii quote :: rest) = Some (s, rest).
Proof.
  intros Hv%valid_utf8_clean. destruct (runes_good s) as [_ Hr]. rewrite <- Hr at 2. clear Hr.
  induction Hv as [|r l Hr _ IH]; [done|].
  rewrite bind_cons, <- app_assoc, parse_enc, IH by done. done.
Qed.

Lemma print_str_clean s : valid_utf8 s = true → Forall clean_rune (print_str s).
Proof.
  intros Hv%valid_utf8_clean. unfold print_str. constructor; [done|].
  apply Forall_app. split; [|by repeat constructor].
  induction Hv as [|r l Hr _ IH]; [constructor|]. simpl. apply Forall_app. split; [by apply enc_clean|done].
Qed.

(** ** Numbers *)
Definition stops (rest : list rune) : Prop :=
  match rest with
  | [] => True
  | RAscii c :: _ => c = ","%char ∨ c = "]"%char ∨ c = "}"%char
  | _ => False
  end.

Lemma take_digits_stop ds rest :
  string_forall is_digit ds = true → stops rest → take_digits (toks ds ++ rest) = (ds, rest).
Proof.
  intros Hd Hs. induction ds as [|c ds IH]; simpl.
  - destruct rest as [|[c|bs|c] rest]; [done| |done..]. by destruct Hs as [->|[->| ->]].
  - simpl in Hd. apply andb_true_iff in Hd as [Hc Hd]. by rewrite Hc, IH.
Qed.

Lemma scan_tail rest : stops rest → scan_frac rest = Some ("", rest) ∧ scan_exp rest = Some ("", rest).
Proof.
  destruct rest as [|[c|bs|c] rest]; [done| |done..]. by intros [->|[->| ->]].
Qed.

Lemma scan_int_print n rest :
  (0 ≤ n)%Z → stops rest → scan_int (toks (print_nat n) ++ rest) = Some (print_nat n, rest).
Proof.
  intros [->|(c & ds & -> & Hc & H0 & Hds)]%print_nat_shape Hs; [done|].
  unfold scan_int. cbn [toks expect app].
  destruct (Ascii.eqb_spec "0" c) as [<-|]; [done|]. unfold some_digits.
  change (RAscii c :: toks ds ++ rest) with (toks (String c ds) ++ rest).
  rewrite take_digits_stop; [done| |done]. simpl. by rewrite Hc.
Qed.

Lemma scan_Itoa z rest : stops rest → scan_num (toks (Itoa z) ++ rest) = Some (Itoa z, rest).
Proof.
  intros Hs. destruct (scan_tail rest Hs) as [Hf He].
  assert (∀ n, (0 ≤ n)%Z → expect "-" (toks (print_nat n) ++ rest) = None) as Hn.
  { intros n [->|(c & ds & -> & Hc & _)]%print_nat_shape; [done|]. cbn [toks expect app].
    by destruct (Ascii.eqb_spec "-" c) as [<-|]. }
  unfold Itoa, scan_num. destruct (Z.ltb_spec z 0).
  - cbn [toks expect app]. simpl. rewrite scan_int_print by (done || lia). simpl. rewrite Hf. simpl.
    rewrite He. simpl. by rewrite string_app_nil_r.
  - rewrite Hn, scan_int_print by done. simpl. rewrite Hf. simpl. rewrite He. simpl.
    by rewrite string_app_nil_r.
Qed.

(** ** Values round trip *)
Lemma jv_nested_ind (P : jv → Prop) :
  P JvNull → (∀ b, P (JvBool b)) → (∀ lit, P (JvNum lit)) → (∀ s, P (JvStr s)) →
  (∀ l, Forall P l → P (JvArr l)) → (∀ fs, Forall (λ kv, P kv.2) fs → P (JvObj fs)) →
  ∀ v, P v.
Proof.
  intros Hnull Hbool Hnum Hstr Harr Hobj. fix IH 1.
  intros [|b|lit|s|l|fs]; [exact Hnull|apply Hbool|apply Hnum|apply Hstr|apply Harr|apply Hobj].
  - induction l as [|v l IHl]; constructor; [apply IH|apply IHl].
  - induction fs as [|[k v] fs IHl]; constructor; [apply IH|apply IHl].
Qed.

(** What [Marshal] encodes: integers, valid strings and keys. *)
Inductive wf : jv → Prop :=
| wf_null : wf JvNull
| wf_bool b : wf (JvBool b)
| wf_num z : wf (JvNum (Itoa z))
| wf_str s : valid_utf8 s = true → wf (JvStr s)
| wf_arr l : Forall wf l → wf (JvArr l)
| wf_obj fs : Forall (λ kv, valid_utf8 kv.1 = true ∧ wf kv.2) fs → wf (JvObj fs).

Fixpoint depth (v : jv) : N :=
  match v with
  | JvArr l => 1 + foldr (λ v d, N.max (depth v) d) 0 l
  | JvObj fs => 1 + foldr (λ kv d, N.max (depth kv.2) d) 0 fs
  | _ => 0
  end%N.

Definition value_reads (v : jv) : Prop := ∀ n d rest,
  wf v → (d + depth v ≤ maxNestingDepth)%N → length (print v) < n → stops rest →
  parse_value n d (print v ++ rest) = Some (v, rest).

(** A printed value starts with neither a space nor a closing bracket. *)
Lemma Itoa_head z : ∃ c ds, Itoa z = String c ds ∧ (is_digit c = true ∨ c = "-"%char).
Proof.
  unfold Itoa. destruct (Z.ltb_spec z 0); [by eauto|].
  destruct (print_nat_shape z) as [->|(c & ds & -> & ? & _)]; [done|by eauto|by eauto].
Qed.

Lemma print_head v : wf v →
  ∃ c l, print v = RAscii c :: l ∧ is_space c = false ∧ Ascii.eqb "]" c = false.
Proof.
  destruct 1 as [|[]|z|s Hs|l Hl|fs Hfs]; try (by eexists _, _).
  destruct (Itoa_head z) as (c & ds & E & Hc). exists c, (toks ds). cbn [print]. rewrite E.
  split; [done|]. destruct Hc as [Hc| ->]; [|done].
  by destruct c as [[] [] [] [] [] [] [] []]; try discriminate Hc.
Qed.

Lemma skip_ws_print v rest : wf v → skip_ws (print v ++ rest) = print v ++ rest.
Proof. intros (c & l & -> & Hc & _)%print_head. simpl. by rewrite Hc. Qed.

(** The head of a number is none of the other values. *)
Lemma parse_number n d z rest :
  stops rest → parse_value (S n) d (toks (Itoa z) ++ rest) = Some (JvNum (Itoa z), rest).
Proof.
  intros Hs. pose proof (skip_ws_print (JvNum (Itoa z)) rest (wf_num z)) as Hw.
  destruct (Itoa_head z) as (c & ds & E & Hc). pose proof (scan_Itoa z rest Hs) as Hscan.
  cbn [parse_value]. simpl in Hw. rewrite Hw. rewrite E in *. cbn [toks app] in *. rewrite Hscan.
  destruct Hc as [Hc| ->]; [|done].
  by destruct c as [[] [] [] [] [] [] [] []]; try discriminate Hc.
Qed.

#[local] Arguments print_elems : simpl never.
#[local] Arguments print_members : simpl never.

Lemma parse_elems_print l : l ≠ [] → Forall value_reads l → Forall wf l → ∀ n d rest,
  (d + foldr (λ v d, N.max (depth v) d) 0 l ≤ maxNestingDepth)%N →
  S (length (print_elems print l)) < n →
  parse_elems n d (print_elems print l ++ RAscii "]" :: rest) = Some (l, rest).
Proof.
  intros Hne Hl. induction Hl as [|v l Hv Hl IH]; [done|]. intros [Hwv Hwl]%Forall_cons n d rest Hd Hn.
  destruct n as [|n]; [lia|]. destruct l as [|v' l].
  - change (print_elems print [v]) with (print v) in *. simpl in *.
    rewrite Hv; [done|done|lia|lia|by right; left].
  - change (print_elems print (v :: v' :: l)) with (print v ++ RAscii "," :: print_elems print (v' :: l)) in *.
    rewrite length_app in Hn. simpl length in Hn.
    assert (parse_elems n d (print_elems print (v' :: l) ++ RAscii "]" :: rest) = Some (v' :: l, rest))
      as IHt.
    { apply IH; [done..| |lia]. simpl in Hd |- *. lia. }
    revert Hn IHt. generalize (print_elems print (v' :: l)). intros tail Hn IHt.
    cbn [parse_elems]. rewrite <- app_assoc, Hv; [|done|simpl in Hd; lia|lia|by left]. simpl. by rewrite IHt.
Qed.

Lemma parse_key k rest :
  valid_utf8 k = true →
  (l1 ← expect (str1 quote) (skip_ws (print_str k ++ rest)); parse_str l1) = Some (k, rest).
Proof.
  intros Hk. unfold print_str. rewrite <- app_comm_cons, <- app_assoc. simpl. by apply parse_enc_str.
Qed.

Lemma parse_members_print fs :
  fs ≠ [] → Forall (λ kv, value_reads kv.2) fs →
  Forall (λ kv, valid_utf8 kv.1 = true ∧ wf kv.2) fs → ∀ n d rest,
  (d + foldr (λ kv d, N.max (depth kv.2) d) 0 fs ≤ maxNestingDepth)%N →
  S (length (print_members print fs)) < n →
  parse_members n d (print_members print fs ++ RAscii "}" :: rest) = Some (fs, rest).
Proof.
  intros Hne Hfs. induction Hfs as [|[k v] fs Hv Hfs IH]; [done|].
  intros [[Hk Hwv] Hwl]%Forall_cons n d rest Hd Hn. simpl in Hk, Hwv, Hv.
  destruct n as [|n]; [lia|]. destruct fs as [|[k' v'] fs].
  - change (print_members print [(k, v)]) with (print_str k ++ RAscii ":" :: print v) in *.
    rewrite length_app in Hn. simpl in Hn, Hd. cbn [parse_members].
    pose proof (parse_key k ((RAscii ":" :: print v) ++ RAscii "}" :: rest) Hk) as Hkey.
    rewrite <- app_assoc. destruct (expect (str1 quote) _) as [l1|]; [|done]. simpl in Hkey |- *.
    rewrite Hkey. simpl. rewrite Hv; [done|done|lia|lia|by right; right].
  - change (print_members print ((k, v) :: (k', v') :: fs)) with
      (print_str k ++ RAscii ":" :: print v ++ RAscii "," :: print_members print ((k', v') :: fs)) in *.
    repeat (rewrite length_app in Hn; simpl length in Hn).
    assert (parse_members n d (print_members print ((k', v') :: fs) ++ RAscii "}" :: rest) =
      Some ((k', v') :: fs, rest)) as IHt.
    { apply IH; [done..| |lia]. simpl in Hd |- *. lia. }
    revert Hn IHt. generalize (print_members print ((k', v') :: fs)). intros tail Hn IHt.
    pose proof (parse_key k ((RAscii ":" :: print v ++ RAscii "," :: tail) ++ RAscii "}" :: rest) Hk) as Hkey.
    cbn [parse_members]. rewrite <- app_assoc.
    destruct (expect (str1 quote) _) as [l1|]; [|done]. simpl in Hkey |- *. rewrite Hkey. simpl.
    rewrite <- app_assoc, Hv; [|done|simpl in Hd; lia|lia|by left]. simpl. by rewrite IHt.
Qed.

Lemma parse_open_array n d l rest :
  Forall wf l → l ≠ [] → (d < maxNestingDepth)%N →
  parse_value (S n) d (RAscii "[" :: print_elems print l ++ rest) =
  '(vs, rest) ← parse_elems n (d + 1)%N (print_elems print l ++ rest); Some (JvArr vs, rest).
Proof.
  intros Hl Hne Hd. cbn [parse_value].
  change (skip_ws (RAscii "[" :: ?x)) with (RAscii "[" :: x).
  cbn -[expect skip_ws print_elems parse_elems maxNestingDepth N.leb]. rewrite (proj2 (N.leb_gt _ _)) by done.
  destruct Hl as [|v l Hv Hl]; [done|].
  assert (expect "]" (skip_ws (print_elems print (v :: l) ++ rest)) = None) as ->; [|done].
  destruct (print_head v Hv) as (c & t & E & Hsp & Hc).
  assert (∃ t', print_elems print (v :: l) = RAscii c :: t') as [t' ->].
  { destruct l; [by exists t|]. eexists. unfold print_elems. by rewrite E. }
  cbn [app skip_ws]. rewrite Hsp. cbn [expect]. by rewrite Hc.
Qed.

Lemma parse_open_object n d fs rest :
  fs ≠ [] → (d < maxNestingDepth)%N →
  parse_value (S n) d (RAscii "{" :: print_members print fs ++ rest) =
  '(fs, rest) ← parse_members n (d + 1)%N (print_members print fs ++ rest); Some (JvObj fs, rest).
Proof.
  intros Hne Hd. cbn [parse_value].
  change (skip_ws (RAscii "{" :: ?x)) with (RAscii "{" :: x).
  cbn -[expect skip_ws print_members parse_members maxNestingDepth N.leb]. rewrite (proj2 (N.leb_gt _ _)) by done.
  destruct fs as [|[k v] fs]; [done|].
  assert (expect "}" (skip_ws (print_members print ((k, v) :: fs) ++ rest)) = None) as ->; [|done].
  by destruct fs.
Qed.

(** [parse_value] reads what [print] writes. *)
Lemma parse_print v : value_reads v.
Proof.
  induction v as [|b|lit|s|l IH|fs IH] using jv_nested_ind; intros [|n] d rest Hwf Hd Hn Hs;
    try (simpl in Hn; lia); try done; inversion Hwf; subst.
  - by destruct b.
  - by apply parse_number.
  - cbn [print]. unfold print_str. rewrite <- app_comm_cons, <- app_assoc. simpl.
    by rewrite parse_enc_str.
  - destruct l as [|v l].
    { change (print (JvArr [])) with [RAscii "["; RAscii "]"]. simpl depth in Hd.
      cbn -[maxNestingDepth N.leb]. by rewrite (proj2 (N.leb_gt _ _)) by lia. }
    change (print (JvArr (v :: l))) with (RAscii "[" :: print_elems print (v :: l) ++ [RAscii "]"]) in *.
    change (depth (JvArr (v :: l))) with (1 + foldr (λ v d, N.max (depth v) d) 0 (v :: l))%N in Hd.
    simpl length in Hn. rewrite length_app in Hn. simpl length in Hn.
    rewrite <- app_comm_cons, <- app_assoc, parse_open_array by (done || lia).
    change ([RAscii "]"] ++ rest) with (RAscii "]" :: rest).
    by rewrite parse_elems_print by (done || lia).
  - destruct fs as [|kv fs].
    { change (print (JvObj [])) with [RAscii "{"; RAscii "}"]. simpl depth in Hd.
      cbn -[maxNestingDepth N.leb]. by rewrite (proj2 (N.leb_gt _ _)) by lia. }
    change (print (JvObj (kv :: fs))) with (RAscii "{" :: print_members print (kv :: fs) ++ [RAscii "}"]) in *.
    change (depth (JvObj (kv :: fs))) with (1 + foldr (λ kv d, N.max (depth kv.2) d) 0 (kv :: fs))%N in Hd.
    simpl length in Hn. rewrite length_app in Hn. simpl length in Hn.
    rewrite <- app_comm_cons, <- app_assoc, parse_open_object by (done || lia).
    change ([RAscii "}"] ++ rest) with (RAscii "}" :: rest).
    by rewrite parse_members_print by (done || lia).
Qed.

Lemma toks_digits ds : string_forall is_digit ds = true → Forall clean_rune (toks ds).
Proof.
  intros Hd. apply toks_clean. unfold is_ascii. eapply string_forall_impl; [|exact Hd].
  intros c. by destruct c as [[] [] [] [] [] [] [] []].
Qed.

Lemma Itoa_clean z : Forall clean_rune (toks (Itoa z)).
Proof.
  assert (∀ n, (0 ≤ n)%Z → Forall clean_rune (toks (print_nat n))) as Hn.
  { intros n [->|(c & ds & -> & Hc & _ & Hds)]%print_nat_shape; [by repeat constructor|].
    apply (toks_digits (String c ds)). simpl. by rewrite Hc. }
  unfold Itoa. destruct (Z.ltb_spec z 0); [constructor; [done|apply Hn; lia]|by apply Hn].
Qed.

Lemma print_clean v : wf v → Forall clean_rune (print v).
Proof.
  induction v as [|b|lit|s|l IH|fs IH] using jv_nested_ind; intros Hwf; inversion Hwf as [| | | |? Hl|? Hfs]; subst.
  - by repeat constructor.
  - destruct b; by repeat constructor.
  - apply Itoa_clean.
  - by apply print_str_clean.
  - cbn [print]. constructor; [done|]. apply Forall_app. split; [|by repeat constructor].
    clear Hwf. induction IH as [|v l Hv _ IHl]; [constructor|]. apply Forall_cons in Hl as [Hw Hl].
    destruct l as [|v' l]; [by apply Hv|].
    change (print_elems print (v :: v' :: l)) with (print v ++ RAscii "," :: print_elems print (v' :: l)).
    apply Forall_app. split; [by apply Hv|]. constructor; [done|by apply IHl].
  - cbn [print]. constructor; [done|]. apply Forall_app. split; [|by repeat constructor].
    clear Hwf. induction IH as [|[k v] fs Hv _ IHl]; [constructor|].
    apply Forall_cons in Hfs as [[Hk Hw] Hfs]. simpl in Hk, Hw, Hv.
    assert (Forall clean_rune (print_str k ++ RAscii ":" :: print v)) as Hkv.
    { apply Forall_app. split; [by apply print_str_clean|]. constructor; [done|by apply Hv]. }
    destruct fs as [|kv' fs]; [done|].
    change (print_members print ((k, v) :: kv' :: fs)) with
      (print_str k ++ (RAscii ":" :: print v) ++ RAscii "," :: print_members print (kv' :: fs)).
    rewrite app_assoc. apply Forall_app. split; [done|]. constructor; [done|by apply IHl].
Qed.

(** Every encoded value is decoded to itself. *)
Lemma decode_encode_text v :
  wf v → (depth v ≤ maxNestingDepth)%N → decode_all_text (encode_text v) = Some v.
Proof.
  intros Hwf Hd. unfold decode_all_text, decode_first, encode_text.
  rewrite (runes_render _ (print_clean v Hwf)).
  rewrite <- (app_nil_r (print v)) at 2. by rewrite parse_print by (done || lia).
Qed.

(** ** The fuel is enough

Reading consumes input: what remains is shorter, so two units of fuel per rune never run
out. *)
Lemma cons_str_Some x r s rest : cons_str x r = Some (s, rest) → ∃ s', r = Some (s', rest).
Proof. destruct r as [[s' rest']|]; simpl; naive_solver. Qed.

Lemma parse_str_length l s rest : parse_str l = Some (s, rest) → length rest < length l.
Proof.
  revert s. induction l as [l IH] using (induction_ltof1 _ (@length rune)). unfold ltof in IH. intros s Hp.
  assert (∀ l' s', length l' < length l → parse_str l' = Some (s', rest) → length rest < length l) as Hsub.
  { intros l' s' Hl Hp'. specialize (IH l' Hl s' Hp'). lia. }
  clear IH. destruct l as [|[c|bs|c] l1]; cbn [parse_str] in Hp; [done| |apply cons_str_Some in Hp as [? ?]; eapply Hsub; [|done]; simpl; lia..].
  repeat case_match; simplify_eq; try (simpl; lia);
    apply cons_str_Some in Hp as [? ?]; (eapply Hsub; [|done]); simpl; lia.
Qed.

Lemma skip_ws_length l : length (skip_ws l) ≤ length l.
Proof. induction l as [|[c|bs|c] l IH]; simpl; try lia. destruct (is_space c); simpl in *; lia. Qed.

Lemma expect_length w l rest : expect w l = Some rest → length rest + String.length w = length l.
Proof.
  revert l. induction w as [|c w IH]; intros l; simpl; [intros [= ->]; lia|].
  destruct l as [|[d|bs|d] l]; try done. destruct (Ascii.eqb c d); [|done].
  intros Hl%IH. simpl. lia.
Qed.

Lemma take_digits_length l ds rest :
  take_digits l = (ds, rest) → length rest + String.length ds = length l.
Proof.
  revert ds. induction l as [|[c|bs|c] l IH]; intros ds; simpl; try (intros [= <- <-]; simpl; lia).
  destruct (is_digit c); [|intros [= <- <-]; simpl; lia].
  destruct (take_digits l) as [ds' rest']. intros [= <- <-]. specialize (IH ds' eq_refl). simpl. lia.
Qed.

Lemma some_digits_length l ds rest : some_digits l = Some (ds, rest) → length rest < length l.
Proof.
  unfold some_digits. destruct (take_digits l) as [ds' rest'] eqn:E.
  apply take_digits_length in E. destruct ds'; [done|]. intros [= <- <-]. simpl in E. lia.
Qed.

Lemma scan_num_length l lit rest : scan_num l = Some (lit, rest) → length rest < length l.
Proof.
  unfold scan_num. destruct (match expect "-" l with Some l => ("-", l) | None => ("", l) end)
    as [sign l0] eqn:E0.
  assert (length l0 ≤ length l) as H0.
  { destruct (expect "-" l) eqn:E; [apply expect_length in E|]; simplify_eq; lia. }
  intros ([i l1] & Hi & ([f l2] & Hf & ([e l3] & He & [= _ <-])%bind_Some)%bind_Some)%bind_Some.
  assert (length l1 < length l0) as H1.
  { unfold scan_int in Hi. destruct (expect "0" l0) eqn:E.
    - apply expect_length in E. simplify_eq. simpl in E. lia.
    - by apply some_digits_length in Hi. }
  assert (length l2 ≤ length l1) as H2.
  { unfold scan_frac in Hf. destruct (expect "." l1) eqn:E; [|simplify_eq; lia].
    apply expect_length in E. apply bind_Some in Hf as ([ds r] & Hd%some_digits_length & [= _ <-]). simpl in E. lia. }
  assert (length l3 ≤ length l2) as H3; [|lia].
  unfold scan_exp in He. repeat case_match; simplify_eq; try lia;
    apply bind_Some in He as ([ds r] & Hd%some_digits_length & [= _ <-]); simpl in *; lia.
Qed.

Ltac bound_rest :=
  repeat match goal with
  | H : mbind _ _ = Some _ |- _ => apply bind_Some in H as ([? ?] & ? & H)
  | H : mbind _ _ = Some _ |- _ => apply bind_Some in H as (? & ? & H)
  | H : parse_str _ = Some _ |- _ => apply parse_str_length in H
  | H : expect _ _ = Some _ |- _ => apply expect_length in H; simpl String.length in H
  | H : scan_num _ = Some _ |- _ => apply scan_num_length in H
  | H : skip_ws ?l = _ :: _ |- _ =>
      apply (f_equal length) in H; pose proof (skip_ws_length l)
  end.

Lemma parse_lengths n :
  (∀ d l v rest, parse_value n d l = Some (v, rest) → length rest < length l) ∧
  (∀ d l vs rest, parse_elems n d l = Some (vs, rest) → length rest < length l) ∧
  (∀ d l fs rest, parse_members n d l = Some (fs, rest) → length rest < length l).
Proof.
  induction n as [|n (IHv & IHe & IHm)]; [by split_and!|]. split_and!; intros d l x rest Hp.
  - cbn [parse_value] in Hp. repeat case_match; try done; bound_rest; simplify_eq;
      repeat match goal with
      | H : parse_elems _ _ _ = Some _ |- _ => apply IHe in H
      | H : parse_members _ _ _ = Some _ |- _ => apply IHm in H
      | H : expect _ (skip_ws ?l) = Some _ |- _ => pose proof (skip_ws_length l); bound_rest
      end; simpl length in *; try lia.
    all: match goal with H : _ + _ = length (skip_ws ?l) |- _ => pose proof (skip_ws_length l) end; lia.
  - cbn [parse_elems] in Hp. apply bind_Some in Hp as ([v l1] & Hv%IHv & Hp).
    repeat case_match; try done; bound_rest; simplify_eq; simpl length in *;
      try match goal with H : parse_elems _ _ _ = Some _ |- _ => apply IHe in H end; lia.
  - cbn [parse_members] in Hp. apply bind_Some in Hp as (l1 & Hq & Hp).
    apply bind_Some in Hp as ([k l2] & Hk & Hp). apply bind_Some in Hp as (l3 & Hc & Hp).
    apply bind_Some in Hp as ([v l4] & Hv%IHv & Hp).
    pose proof (skip_ws_length l). pose proof (skip_ws_length l2).
    repeat case_match; try done; bound_rest; simplify_eq; simpl length in *;
      try match goal with H : parse_members _ _ _ = Some _ |- _ => apply IHm in H end; lia.
Qed.

Lemma parse_fuel n : ∀ m d l,
  (2 * length l + 1 ≤ n → 2 * length l + 1 ≤ m → parse_value n d l = parse_value m d l) ∧
  (2 * length l + 2 ≤ n → 2 * length l + 2 ≤ m → parse_elems n d l = parse_elems m d l) ∧
  (2 * length l + 2 ≤ n → 2 * length l + 2 ≤ m → parse_members n d l = parse_members m d l).
Proof.
  induction n as [|n IH]; intros m d l; [split_and!; lia|]. destruct m as [|m]; [split_and!; lia|].
  assert (∀ d l, 2 * length l + 1 ≤ n → 2 * length l + 1 ≤ m → parse_value n d l = parse_value m d l)
    as IHv by (intros; by apply IH).
  assert (∀ d l, 2 * length l + 2 ≤ n → 2 * length l + 2 ≤ m → parse_elems n d l = parse_elems m d l)
    as IHe by (intros; by apply IH).
  assert (∀ d l, 2 * length l + 2 ≤ n → 2 * length l + 2 ≤ m → parse_members n d l = parse_members m d l)
    as IHm by (intros; by apply IH).
  clear IH. destruct (parse_lengths m) as (Lv & _ & _). split_and!; intros Hn Hm.
  - cbn [parse_value]. pose proof (skip_ws_length l).
    destruct (skip_ws l) as [|[c|bs|c] l1] eqn:Es; try done. simpl in *.
    rewrite IHe, IHm by lia. done.
  - cbn [parse_elems]. rewrite (IHv d l) by lia.
    destruct (parse_value m d l) as [[v l1]|] eqn:Ev; [|done]. apply Lv in Ev. simpl.
    pose proof (skip_ws_length l1). destruct (skip_ws l1) as [|[c|bs|c] l2] eqn:Es; try done.
    simpl in *. rewrite IHe by lia. done.
  - cbn [parse_members]. pose proof (skip_ws_length l).
    destruct (expect (str1 quote) (skip_ws l)) as [l1|] eqn:Eq; [|done]. apply expect_length in Eq. cbn [mbind option_bind].
    destruct (parse_str l1) as [[k l2]|] eqn:Ek; [|done]. apply parse_str_length in Ek. cbn [mbind option_bind].
    pose proof (skip_ws_length l2).
    destruct (expect ":" (skip_ws l2)) as [l3|] eqn:Ec; [|done]. apply expect_length in Ec. cbn [mbind option_bind].
    simpl String.length in *. rewrite (IHv d l3) by lia.
    destruct (parse_value m d l3) as [[v l4]|] eqn:Ev; [|done]. apply Lv in Ev. cbn [mbind option_bind].
    pose proof (skip_ws_length l4). destruct (skip_ws l4) as [|[c|bs|c] l5] eqn:Es; try done.
    simpl in *. rewrite IHm by lia. done.
Qed.
