(* ===== verification/JsonValid.v ===== *)
(** * encoding/json: what is decoded is valid UTF-8

Whatever bytes are read, the strings and keys of the decoded value are valid UTF-8: bad
bytes and lone surrogates become U+FFFD. So a string that was decoded once survives being
encoded and decoded again. *)
From Stdlib Require Import Ascii.
From S2P Require Import Prelude GoLib JsonText.
From stdpp Require Import strings list.

Lemma valid_app x y : valid_utf8 x = true → valid_utf8 y = true → valid_utf8 (x +:+ y) = true.
Proof.
  intros Hx%valid_utf8_clean Hy%valid_utf8_clean.
  destruct (runes_good x) as [_ Ex], (runes_good y) as [_ Ey].
  assert (text_of (runes x ++ runes y) = x +:+ y) as <-.
  { rewrite <- Ex, <- Ey at 2. clear. induction (runes x) as [|r l IH]; [done|]. 
    change (text_of ((r :: l) ++ runes y)) with (rune_bytes r +:+ text_of (l ++ runes y)).
    rewrite IH. simpl. by rewrite string_app_assoc. }
  unfold valid_utf8. rewrite runes_render by by apply Forall_app.
  rewrite forallb_app. apply andb_true_iff. split; apply forallb_forall; intros r Hr%list_elem_of_In.
  - rewrite Forall_forall in Hx. by destruct (Hx r Hr) as [_ ->].
  - rewrite Forall_forall in Hy. by destruct (Hy r Hr) as [_ ->].
Qed.

Lemma byte_chrN n : (n < 256)%N → byte (chrN n) = n.
Proof. apply Ascii.N_ascii_embedding. Qed.

Lemma byte_in_chrN lo hi n : (n < 256)%N → byte_in lo hi (chrN n) = ((lo <=? n) && (n <=? hi))%N.
Proof. intros Hn. unfold byte_in. by rewrite byte_chrN. Qed.

Lemma cont_chrN m : (m < 64)%N → cont (chrN (128 + m)) = true.
Proof. intros. unfold cont. rewrite byte_in_chrN by lia. apply andb_true_iff. rewrite !N.leb_le. lia. Qed.

Lemma byte_in_true lo hi n : (n < 256)%N → (lo ≤ n ≤ hi)%N → byte_in lo hi (chrN n) = true.
Proof. intros ? [??]. by rewrite byte_in_chrN, !(proj2 (N.leb_le _ _)). Qed.

Lemma byte_in_false lo hi n : (n < 256)%N → (n < lo ∨ hi < n)%N → byte_in lo hi (chrN n) = false.
Proof.
  intros ? Hn. rewrite byte_in_chrN by done. apply andb_false_iff. rewrite !N.leb_gt. done.
Qed.

Lemma valid_2 a b : (194 ≤ a ≤ 223)%N → (b < 64)%N → 
  valid_utf8 (String (chrN a) (str1 (chrN (128 + b)))) = true.
Proof.
  intros. unfold valid_utf8. cbn [runes str1]. rewrite byte_chrN, (proj2 (N.ltb_ge _ _)) by lia.
  unfold utf8_2. by rewrite cont_chrN, byte_in_true by lia.
Qed.

Lemma valid_3 a b c : (224 ≤ a ≤ 239)%N → (b < 64)%N → (c < 64)%N →
  (a = 224 → 32 ≤ b)%N → (a = 237 → b < 32)%N →
  valid_utf8 (String (chrN a) (String (chrN (128 + b)) (str1 (chrN (128 + c))))) = true.
Proof.
  intros. unfold valid_utf8. cbn [runes str1]. rewrite byte_chrN, (proj2 (N.ltb_ge _ _)) by lia.
  unfold utf8_2, utf8_3. rewrite !cont_chrN by lia. rewrite (byte_in_false 194) by lia. simpl.
  rewrite !byte_in_chrN by lia.
  match goal with |- context [if ?b then _ else _] => assert (b = true) as -> end; [|done].
  rewrite <- Is_true_true. repeat rewrite ?orb_True, ?andb_True, ?Is_true_true, ?N.leb_le. lia.
Qed.

Lemma valid_4 a b c d : (240 ≤ a ≤ 244)%N → (b < 64)%N → (c < 64)%N → (d < 64)%N →
  (a = 240 → 16 ≤ b)%N → (a = 244 → b < 16)%N →
  valid_utf8 (String (chrN a) (String (chrN (128 + b)) (String (chrN (128 + c)) (str1 (chrN (128 + d)))))) = true.
Proof.
  intros. unfold valid_utf8. cbn [runes str1]. rewrite byte_chrN, (proj2 (N.ltb_ge _ _)) by lia.
  unfold utf8_2, utf8_3, utf8_4. rewrite !cont_chrN by lia. rewrite (byte_in_false 194) by lia. simpl.
  rewrite !byte_in_chrN by lia.
  match goal with |- context [if ?b then _ else _] => assert (b = false) as -> end.
  { rewrite <- not_true_iff_false, <- Is_true_true. repeat rewrite ?orb_True, ?andb_True, ?Is_true_true, ?N.leb_le. lia. }
  match goal with |- context [if ?b then _ else _] => assert (b = true) as -> end; [|done].
  rewrite <- Is_true_true. repeat rewrite ?orb_True, ?andb_True, ?Is_true_true, ?N.leb_le. lia.
Qed.

Lemma EncodeRune_valid n : valid_utf8 (EncodeRune n) = true.
Proof.
  unfold EncodeRune.
  set (k := if (_ || _)%bool then 65533%N else n).
  assert (k < 55296 ∨ (57343 < k ≤ 1114111))%N as Hk.
  { subst k. destruct (N.leb_spec 55296 n), (N.leb_spec n 57343), (N.ltb_spec 1114111 n); simpl; lia. }
  clearbody k. destruct (N.ltb_spec k 128).
  { unfold valid_utf8. cbn [runes str1]. by rewrite byte_chrN, (proj2 (N.ltb_lt _ _)) by lia. }
  assert (k / 64 = 64 * (k / 4096) + k / 64 mod 64)%N.
  { change 4096%N with (64 * 64)%N. rewrite <- (N.Div0.div_div k 64 64). by rewrite <- N.div_mod. }
  assert (k / 4096 = 64 * (k / 262144) + k / 4096 mod 64)%N.
  { change 262144%N with (4096 * 64)%N. rewrite <- (N.Div0.div_div k 4096 64). by rewrite <- N.div_mod. }
  assert (k = 64 * (k / 64) + k mod 64)%N by by apply N.div_mod.
  assert (∀ j, j mod 64 < 64)%N as Hm by (intros; by apply N.mod_lt).
  pose proof (Hm k). pose proof (Hm (k / 64))%N. pose proof (Hm (k / 4096))%N. clear Hm.
  generalize dependent (k / 64 mod 64)%N. generalize dependent (k / 4096 mod 64)%N.
  generalize dependent (k mod 64)%N. generalize dependent (k / 64)%N.
  generalize dependent (k / 4096)%N. generalize dependent (k / 262144)%N. intros.
  destruct (N.ltb_spec k 2048); [apply valid_2; lia|].
  destruct (N.ltb_spec k 65536); [apply valid_3|apply valid_4]; lia.
Qed.

(** What the parser returns is valid, whatever the text. *)
Lemma simple_escape_valid e x : simple_escape e = Some x → valid_utf8 (str1 x) = true.
Proof.
  unfold simple_escape.
  destruct (Ascii.eqb_spec e quote) as [->|]; [by intros [= <-]|].
  destruct (Ascii.eqb_spec e backslash) as [->|]; [by intros [= <-]|].
  destruct (Ascii.eqb_spec e "/") as [->|]; [by intros [= <-]|]. cbn [orb].
  repeat (case_match; [by intros [= <-]|]). done.
Qed.

Lemma good_valid r : good r → is_bad r = false → valid_utf8 (rune_bytes r) = true.
Proof.
  intros Hg Hb. unfold valid_utf8.
  assert (runes (rune_bytes r) = [r]) as ->.
  { rewrite <- (runes_render [r]); [|by repeat constructor]. simpl. by rewrite string_app_nil_r. }
  simpl. by rewrite Hb.
Qed.

Lemma cons_str_valid x (r : option (string * list rune)) s rest :
  valid_utf8 x = true → (∀ s' rest', r = Some (s', rest') → valid_utf8 s' = true ∧ Forall good rest') →
  cons_str x r = Some (s, rest) → valid_utf8 s = true ∧ Forall good rest.
Proof.
  intros Hx Hr. destruct r as [[s' rest']|]; [|done]. intros [= <- <-].
  destruct (Hr s' rest' eq_refl). split; [by apply valid_app|done].
Qed.

Lemma parse_str_valid l s rest : Forall good l →
  parse_str l = Some (s, rest) → valid_utf8 s = true ∧ Forall good rest.
Proof.
  revert s rest. induction l as [l IH] using (induction_ltof1 _ (@length rune)). unfold ltof in IH.
  intros s rest Hg Hp.
  assert (∀ x l', length l' < length l → valid_utf8 x = true → Forall good l' →
    cons_str x (parse_str l') = Some (s, rest) → valid_utf8 s = true ∧ Forall good rest) as Hsub.
  { intros x l' Hl Hx Hl' Hc. eapply cons_str_valid; [exact Hx| |exact Hc]. intros. eapply IH; eauto. }
  clear IH. destruct l as [|r l1]; [done|]. apply Forall_cons in Hg as [Hr Hl1].
  destruct r as [c|bs|c]; cbn [parse_str] in Hp.
  - destruct (Ascii.eqb c quote); [by injection Hp as <- <-|]. destruct (byte c <? 32)%N; [done|].
    destruct (Ascii.eqb c backslash).
    2:{ eapply Hsub; [| | |exact Hp]; [simpl; lia|by apply (good_valid (RAscii c))|done]. }
    simpl negb in Hp. destruct l1 as [|[e| |] l2]; try done. apply Forall_cons in Hl1 as [_ Hl2].
    destruct (simple_escape e) as [x|] eqn:Ee.
    { eapply Hsub; [| | |exact Hp]; [simpl; lia|by eapply simple_escape_valid|done]. }
    destruct (negb (Ascii.eqb e "u")); [done|].
    destruct l2 as [|[h1| |] [|[h2| |] [|[h3| |] [|[h4| |] l3]]]]; try done.
    rewrite !Forall_cons in Hl2. destruct Hl2 as (_ & _ & _ & _ & Hl3).
    destruct (hex4 h1 h2 h3 h4) as [rr|]; [|done].
    destruct (negb (is_surrogate rr)).
    { eapply Hsub; [| | |exact Hp]; [simpl; lia|apply EncodeRune_valid|done]. }
    assert (cons_str replacement (parse_str l3) = Some (s, rest) → valid_utf8 s = true ∧ Forall good rest) as Hrep.
    { apply Hsub; [simpl; lia|done|done]. }
    destruct l3 as [|[h1'| |] [|[h2'| |] [|[h3'| |] [|[h4'| |] [|[h5'| |] [|[h6'| |] l4]]]]]];
      try (by apply Hrep).
    case_match; [|by apply Hrep].
    rewrite !Forall_cons in Hl3. destruct Hl3 as (_ & _ & _ & _ & _ & _ & Hl4).
    eapply Hsub; [| | |exact Hp]; [simpl; lia|apply EncodeRune_valid|done].
  - eapply Hsub; [| | |exact Hp]; [simpl; lia|by apply (good_valid (RMulti bs))|done].
  - eapply Hsub; [| | |exact Hp]; [simpl; lia|done|done].
Qed.

(** Every string and every key of a value is valid UTF-8. *)
Fixpoint jv_valid (v : jv) : bool :=
  match v with
  | JvStr s => valid_utf8 s
  | JvArr l => forallb jv_valid l
  | JvObj fs => forallb (λ kv, valid_utf8 kv.1 && jv_valid kv.2) fs
  | _ => true
  end.

Lemma skip_ws_good l : Forall good l → Forall good (skip_ws l).
Proof. induction 1 as [|[c|bs|c] l Hr Hl IH]; simpl; repeat case_match; auto. Qed.

Lemma expect_good w l rest : Forall good l → expect w l = Some rest → Forall good rest.
Proof.
  revert l. induction w as [|c w IH]; intros l Hl; simpl; [by intros [= <-]|].
  destruct Hl as [|[d|bs|d] l Hr Hl]; try done. case_match; [by apply IH|done].
Qed.

Lemma take_digits_good l : Forall good l → Forall good (take_digits l).2.
Proof.
  induction 1 as [|[c|bs|c] l Hr Hl IH]; simpl; [done| |by constructor..].
  destruct (is_digit c); [|by constructor]. by destruct (take_digits l).
Qed.

Lemma some_digits_good l ds rest : Forall good l → some_digits l = Some (ds, rest) → Forall good rest.
Proof.
  intros Hl%take_digits_good. unfold some_digits. destruct (take_digits l) as [ds' rest'].
  repeat case_match; naive_solver.
Qed.

Lemma scan_num_good l lit rest : Forall good l → scan_num l = Some (lit, rest) → Forall good rest.
Proof.
  intros Hl. unfold scan_num.
  destruct (match expect "-" l with Some l => ("-", l) | None => ("", l) end) as [sign l0] eqn:E0.
  assert (Forall good l0) as H0.
  { destruct (expect "-" l) eqn:E; [apply expect_good in E|]; by simplify_eq. }
  intros ([i l1] & Hi & ([f l2] & Hf & ([e l3] & He & [= _ <-])%bind_Some)%bind_Some)%bind_Some.
  assert (Forall good l1) as H1.
  { unfold scan_int in Hi. destruct (expect "0" l0) eqn:E.
    - apply expect_good in E; by simplify_eq.
    - by apply some_digits_good in Hi. }
  assert (Forall good l2) as H2.
  { unfold scan_frac in Hf. destruct (expect "." l1) eqn:E; [|by simplify_eq].
    apply expect_good in E; [|done]. apply bind_Some in Hf as ([ds r] & Hd%some_digits_good & [= _ <-]); done. }
  unfold scan_exp in He. repeat case_match; simplify_eq; try done;
    apply bind_Some in He as ([ds r] & Hd%some_digits_good & [= _ <-]); try done;
    rewrite ?Forall_cons in *; naive_solver.
Qed.

(** Reading a well-formed sequence of runes leaves one, and makes a valid value. *)
Ltac read_good :=
  repeat match goal with
  | H : mbind _ _ = Some _ |- _ => apply bind_Some in H as ([? ?] & ? & H)
  | H : mbind _ _ = Some _ |- _ => apply bind_Some in H as (? & ? & H)
  | H : skip_ws ?l = ?r, Hg : Forall good ?l |- _ =>
      assert (Forall good r) by (rewrite <- H; by apply skip_ws_good); clear H
  | H : Forall good (_ :: _) |- _ => apply Forall_cons in H as [? H]
  | H : expect _ _ = Some _ |- _ => apply expect_good in H; [|by eauto using skip_ws_good]
  | H : parse_str _ = Some _ |- _ => apply parse_str_valid in H as [? ?]; [|done]
  | H : scan_num _ = Some _ |- _ => apply scan_num_good in H; [|by constructor]
  end.

Lemma parse_valid n :
  (∀ d l v rest, Forall good l → parse_value n d l = Some (v, rest) →
     jv_valid v = true ∧ Forall good rest) ∧
  (∀ d l vs rest, Forall good l → parse_elems n d l = Some (vs, rest) →
     forallb jv_valid vs = true ∧ Forall good rest) ∧
  (∀ d l fs rest, Forall good l → parse_members n d l = Some (fs, rest) →
     forallb (λ kv, valid_utf8 kv.1 && jv_valid kv.2) fs = true ∧ Forall good rest).
Proof.
  induction n as [|n (IHv & IHe & IHm)]; [by split_and!|]. split_and!; intros d l x rest Hg Hp.
  - cbn [parse_value] in Hp. destruct (skip_ws l) as [|[c|bs|c] l1] eqn:Es; try done.
    repeat (case_match; try done); read_good; simplify_eq; try done;
      cbn [jv_valid]; first [by eapply IHm|by eapply IHe].
  - cbn [parse_elems] in Hp. apply bind_Some in Hp as ([v l1] & [Hv Hg1]%IHv & Hp); [|done].
    repeat (case_match; try done); read_good; simplify_eq; simpl; rewrite Hv; [|done].
    by eapply IHe.
  - cbn [parse_members] in Hp. read_good.
    match goal with H : parse_value _ _ _ = Some _ |- _ => apply IHv in H as [Hv Hg1]; [|done] end.
    repeat (case_match; try done); read_good; simplify_eq; simpl; rewrite Hv;
      match goal with H : valid_utf8 _ = true |- _ => rewrite H end; [|done].
    by eapply IHm.
Qed.

Lemma decode_first_valid s v rest : decode_first s = Some (v, rest) → jv_valid v = true.
Proof. apply parse_valid, runes_good. Qed.
