(* ===== verification/JsonMarshal.v ===== *)
(** * encoding/json: maps

[json.Marshal] of the values of [Json.v]: the keys of a map are written in the order of
their bytes. What is written reads back as an equal value. *)
From S2P Require Import Prelude GoLib Json JsonText.
From stdpp Require Import strings list sorting.

Definition key_order (a b : string * jv) : Prop := String.le a.1 b.1.
#[export] Instance key_order_dec : RelDecision key_order.
Proof. intros a b. unfold key_order. apply _. Defined.
#[export] Instance key_order_total : Total key_order.
Proof. intros a b. unfold key_order. apply (total String.le). Qed.
#[export] Instance key_order_trans : Transitive key_order.
Proof. intros a b c. unfold key_order. apply (transitivity (R := String.le)). Qed.

Fixpoint to_jv (j : json) : jv :=
  match j with
  | JNull => JvNull
  | JBool b => JvBool b
  | JNum n => JvNum (Itoa n)
  | JStr s => JvStr s
  | JArr l => JvArr (map to_jv l)
  | JObj f => JvObj (merge_sort key_order (map (λ kv, (kv.1, to_jv kv.2)) f))
  end.

Definition Marshal_json (j : json) : string := encode_text (to_jv j).

Example Marshal_json_example :
  Marshal_json (JObj [("b", JArr [JNum 1; JNull]); ("a", JStr "x")]) = dq "{'a':'x','b':[1,null]}".
Proof. vm_compute. reflexivity. Qed.

(** Reading a value whose numbers are 64-bit integers. *)
Fixpoint of_jv (v : jv) : json :=
  match v with
  | JvNull => JNull
  | JvBool b => JBool b
  | JvNum lit => JNum (Atoi lit).1
  | JvStr s => JStr s
  | JvArr l => JArr (map of_jv l)
  | JvObj fs => JObj (map (λ kv, (kv.1, of_jv kv.2)) fs)
  end.

Fixpoint distinct (l : list string) : bool :=
  match l with [] => true | k :: l => negb (existsb (String.eqb k) l) && distinct l end.

Lemma distinct_NoDup l : distinct l = true → NoDup l.
Proof.
  induction l as [|k l IH]; simpl; [by constructor|]. intros [Hk Hl]%andb_true_iff.
  constructor; [|by apply IH]. intros Hin. apply negb_true_iff, not_true_iff_false in Hk. apply Hk.
  apply existsb_exists. exists k. split; [by apply list_elem_of_In|apply String.eqb_refl].
Qed.

(** Strings and keys are valid UTF-8, keys occur once, numbers are of 64 bits. *)
Fixpoint clean_json (j : json) : bool :=
  match j with
  | JNum n => (min_int64 <? n)%Z && (n <=? max_int64)%Z
  | JStr s => valid_utf8 s
  | JArr l => forallb clean_json l
  | JObj f => distinct (map fst f) && forallb (λ kv, valid_utf8 kv.1 && clean_json kv.2) f
  | _ => true
  end.

Fixpoint json_depth (j : json) : N :=
  match j with
  | JArr l => 1 + foldr (λ v d, N.max (json_depth v) d) 0 l
  | JObj f => 1 + foldr (λ kv d, N.max (json_depth kv.2) d) 0 f
  | _ => 0
  end%N.

Lemma forallb_Forall {A} (f : A → bool) l : forallb f l = true ↔ Forall (λ x, f x = true) l.
Proof. rewrite forallb_forall, Forall_forall. by setoid_rewrite list_elem_of_In. Qed.

Lemma to_jv_wf j : clean_json j = true → wf (to_jv j).
Proof.
  induction j as [|b|n|s|l IH|f IH] using json_nested_ind; simpl; intros Hc; try by constructor.
  - constructor. apply Forall_map. apply forallb_Forall in Hc.
    eapply Forall_impl; [exact (proj2 (Forall_and _ _) (conj IH Hc))|]. simpl. naive_solver.
  - apply andb_true_iff in Hc as [_ Hc%forallb_Forall]. constructor.
    rewrite merge_sort_Permutation. apply Forall_map.
    eapply Forall_impl; [exact (proj2 (Forall_and _ _) (conj IH Hc))|]. simpl.
    intros kv [Hw [Hk Hv]%andb_true_iff]. auto.
Qed.

Lemma foldr_max_le {A} (g : A → N) l m :
  (foldr (λ x d, N.max (g x) d) 0 l ≤ m ↔ Forall (λ x, g x ≤ m) l)%N.
Proof. induction l as [|x l IH]; simpl; [by rewrite Forall_nil; lia|]. rewrite Forall_cons, <- IH. lia. Qed.

Lemma to_jv_depth j : (depth (to_jv j) ≤ json_depth j)%N.
Proof.
  induction j as [|b|n|s|l IH|f IH] using json_nested_ind; simpl; try lia;
    apply N.add_le_mono_l, foldr_max_le; [|rewrite merge_sort_Permutation]; apply Forall_map.
  - rewrite Forall_forall in IH. apply Forall_forall. intros x Hx. etrans; [by apply IH|].
    revert x Hx. by apply Forall_forall, (foldr_max_le json_depth).
  - rewrite Forall_forall in IH. apply Forall_forall. intros x Hx. etrans; [by apply IH|].
    revert x Hx. by apply Forall_forall, (foldr_max_le (λ kv, json_depth kv.2)).
Qed.

Lemma of_to_jv j : clean_json j = true → DeepEqual j (of_jv (to_jv j)) = true.
Proof.
  induction j as [|b|n|s|l IH|f IH] using json_nested_ind; intros Hc.
  - done.
  - apply Bool.eqb_reflx.
  - simpl in *. apply andb_true_iff in Hc as [?%Z.ltb_lt ?%Z.leb_le].
    rewrite Atoi_Itoa by done. apply Z.eqb_refl.
  - apply String.eqb_refl.
  - cbn [to_jv of_jv]. apply DeepEqual_JArr. rewrite map_map. simpl in Hc.
    induction IH as [|x l Hx _ IHl]; [constructor|]. simpl in *. apply andb_true_iff in Hc as [Hcx Hcl].
    constructor; [by apply Hx|by apply IHl].
  - simpl in Hc. apply andb_true_iff in Hc as [Hnd%distinct_NoDup Hc%forallb_Forall].
    cbn [to_jv of_jv]. set (h := merge_sort _ _).
    assert (map (λ kv, (kv.1, of_jv kv.2)) h ≡ₚ map (λ kv, (kv.1, of_jv (to_jv kv.2))) f) as Hp.
    { unfold h. rewrite merge_sort_Permutation, map_map. done. }
    assert ((map (λ kv, (kv.1, of_jv kv.2)) h).*1 ≡ₚ f.*1) as Hk.
    { rewrite Hp, <- list_fmap_compose. done. }
    apply DeepEqual_JObj. split_and!.
    + by rewrite (Permutation_length Hp), length_map.
    + intros k x Hin. exists (of_jv (to_jv x)). split.
      * apply jlookup_in; [by rewrite Hk|].
        rewrite Hp. apply list_elem_of_In, in_map_iff. exists (k, x). split; [done|]. by apply list_elem_of_In.
      * rewrite Forall_forall in IH, Hc. apply (IH _ Hin). by apply Hc, andb_true_iff in Hin as [_ ?].
    + intros k Hin. rewrite Hk in Hin. by apply jlookup_is_Some.
Qed.

(** What [Marshal_json] writes reads as an equal value. *)
Lemma Marshal_json_reads j :
  clean_json j = true → (json_depth j ≤ maxNestingDepth)%N →
  ∃ v, decode_all_text (Marshal_json j) = Some v ∧ DeepEqual j (of_jv v) = true.
Proof.
  intros Hc Hd. exists (to_jv j). split; [|by apply of_to_jv].
  apply decode_encode_text; [by apply to_jv_wf|]. pose proof (to_jv_depth j). lia.
Qed.
