(* ===== verification/Dataplane.v ===== *)
(** * What the data plane does with its configuration

The specification side of the Envoy and Cilium components, written from the documentation of
the two and without any definition of the program: how Cilium selects endpoints and decides
on a DNS query by a CiliumNetworkPolicy, and how Envoy answers a request by its listener and
its virtual hosts. Both read the JSON values that the program hands out. *)
From Stdlib Require Import Ascii.
From S2P Require Import Prelude GoLib Json.
From stdpp Require Import gmap strings list.

(** ** Cilium: endpoint selectors

[matchLabels] and [matchExpressions] of a Kubernetes label selector; all must hold. *)
Abbreviation Labels := (gmap string string).

Definition labels_match (l : Labels) (sel : json) : bool :=
  forallb (λ k, bool_decide (l !! k = Some (jstr_at ["matchLabels"; k] sel)))
    (jkeys (jpath ["matchLabels"] sel)).

Definition expr_matches (l : Labels) (e : json) : bool :=
  let value := l !! jstr_at ["key"] e in
  let op := jstr_at ["operator"] e in
  let listed s := existsb (λ v, match v with JStr s' => (s' =? s)%string | _ => false end)
    (jarr (jpath ["values"] e)) in
  if (op =? "In")%string then match value with Some s => listed s | None => false end
  else if (op =? "NotIn")%string then match value with Some s => negb (listed s) | None => true end
  else if (op =? "Exists")%string then bool_decide (is_Some value)
  else if (op =? "DoesNotExist")%string then bool_decide (value = None)
  else false.

Definition selector_matches (l : Labels) (sel : json) : bool :=
  labels_match l sel && forallb (expr_matches l) (jarr (jpath ["matchExpressions"] sel)).

(** ** Cilium: DNS rules

A query name is in lower case and without the dot at its end. [matchName] is that name. In
[matchPattern] a star stands for any number of letters, digits, hyphens and underscores, but
for no dot; a lone star is every name, and ["**."] at the front any number of labels. *)
Definition dns_byte (c : ascii) : bool :=
  is_lower c || is_upper c || is_digit c || Ascii.eqb c "-" || Ascii.eqb c "_".

Fixpoint glob (p n : string) {struct p} : bool :=
  match p with
  | "" => (n =? "")%string
  | String c p =>
      if Ascii.eqb c "*" then
        (fix star (n : string) : bool :=
          glob p n || match n with String d n => dns_byte d && star n | "" => false end) n
      else match n with String d n => Ascii.eqb c d && glob p n | "" => false end
  end.

Fixpoint glob_below (p n : string) : bool :=
  match n with
  | "" => false
  | String d n => Ascii.eqb d "." && glob p n || glob_below p n
  end.

Definition pattern_allows (p n : string) : bool :=
  (p =? "*")%string ||
  match CutPrefix p "**." with Some p => glob_below p n | None => glob p n end.

Definition dns_rule_allows (n : string) (rule : json) : bool :=
  match jpath ["matchName"] rule with Some (JStr v) => (v =? n)%string | _ => false end ||
  match jpath ["matchPattern"] rule with Some (JStr p) => pattern_allows p n | _ => false end.

(** A port entry with dns rules lets only their names through; one without, or with an empty
list, lets every query through. *)
Definition port_allows (proto n : string) (port : json) : bool :=
  existsb (λ p, (jstr_at ["port"] p =? "53")%string && (jstr_at ["protocol"] p =? proto)%string)
    (jarr (jpath ["ports"] port)) &&
  match jarr (jpath ["rules"; "dns"] port) with
  | [] => true
  | rules => existsb (dns_rule_allows n) rules
  end.

(** The labels of the cluster's DNS server, as Cilium names them. *)
Definition kube_dns : Labels :=
  {[ "k8s:io.kubernetes.pod.namespace" := "kube-system"; "k8s:k8s-app" := "kube-dns" ]}.

(** The policy with this spec lets the pods it selects ask the cluster's DNS server for [n]. *)
Definition allows_query (proto n : string) (spec : json) : bool :=
  existsb (λ e, existsb (selector_matches kube_dns) (jarr (jpath ["toEndpoints"] e)) &&
    existsb (port_allows proto n) (jarr (jpath ["toPorts"] e)))
    (jarr (jpath ["egress"] spec)).

Definition selects (l : Labels) (spec : json) : bool :=
  match jpath ["endpointSelector"] spec with Some sel => selector_matches l sel | None => false end.

(** What a name in a dns rule covers: itself, or with a leading ["*."] the names one label
below it. *)
Definition name_covers (v n : string) : Prop :=
  v = n ∧ ContainsByte v "*" = false ∨
  ∃ label suffix, v = "*." +:+ suffix ∧ n = label +:+ "." +:+ suffix ∧
    string_forall dns_byte label = true.

(** ** Facts about patterns *)
Lemma glob_plain p n : ContainsByte p "*" = false → glob p n = (p =? n)%string.
Proof.
  revert n. induction p as [|c p IH]; intros n Hp; [by destruct n|].
  rewrite ContainsByte_cons in Hp. apply orb_false_iff in Hp as [Hc Hp].
  cbn [glob]. rewrite Hc. destruct n as [|d n]; [done|].
  rewrite IH by done. simpl. by destruct (Ascii.eqb c d).
Qed.

Lemma glob_star p n :
  ContainsByte p "*" = false →
  glob (String "*" p) n = true ↔ ∃ l, n = l +:+ p ∧ string_forall dns_byte l = true.
Proof.
  intros Hp. cbn [glob]. change (Ascii.eqb "*" "*") with true. cbv iota. induction n as [|d n IH].
  - rewrite orb_false_r, glob_plain by done. rewrite String.eqb_eq. split.
    + intros ->. by exists "".
    + intros ([|c l] & Hl & _); [done|by ssimp].
  - rewrite orb_true_iff, andb_true_iff, IH, glob_plain, String.eqb_eq by done. split.
    + intros [->|[Hd (l & -> & Hl)]]; [by exists ""|]. exists (String d l). split; [by ssimp|].
      simpl. by rewrite Hd.
    + intros ([|c l] & Hl & Hb); [by left|right]. ssimp. simpl in Hb.
      apply andb_true_iff in Hb as [? ?]. eauto.
Qed.

(** ** Policies are read up to [DeepEqual]

So a spec left in place because it is deeply equal to the desired one means the same. *)
Definition deq (a b : json) : Prop := DeepEqual a b = true.

Lemma existsb_deq f l m :
  (∀ x y, deq x y → f x = f y) → Forall2 deq l m → existsb f l = existsb f m.
Proof. intros Hf. induction 1 as [|x y l m Hxy _ IH]; [done|]. simpl. by rewrite (Hf x y Hxy), IH. Qed.

Lemma forallb_deq f l m :
  (∀ x y, deq x y → f x = f y) → Forall2 deq l m → forallb f l = forallb f m.
Proof. intros Hf. induction 1 as [|x y l m Hxy _ IH]; [done|]. simpl. by rewrite (Hf x y Hxy), IH. Qed.

Lemma labels_match_deq l a b : deq a b → labels_match l a = labels_match l b.
Proof.
  intros Hab. unfold labels_match. apply Bool.eq_true_iff_eq. rewrite !forallb_forall.
  split; intros Hall k Hk%list_elem_of_In; apply (DeepEqual_jkeys _ _ _ _ Hab), list_elem_of_In in Hk;
    specialize (Hall k Hk); [rewrite <- (DeepEqual_jstr_at _ _ _ Hab)|rewrite (DeepEqual_jstr_at _ _ _ Hab)];
    done.
Qed.

Lemma expr_matches_deq l a b : deq a b → expr_matches l a = expr_matches l b.
Proof.
  intros Hab. unfold expr_matches. rewrite !(DeepEqual_jstr_at _ _ _ Hab).
  assert (∀ s, existsb (λ v, match v with JStr s' => (s' =? s)%string | _ => false end)
    (jarr (jpath ["values"] a)) = existsb (λ v, match v with JStr s' => (s' =? s)%string | _ => false end)
    (jarr (jpath ["values"] b))) as Hv.
  { intros s. apply existsb_deq; [|by apply DeepEqual_jarr].
    intros [] [] Hxy; try done. by apply String.eqb_eq in Hxy as ->. }
  by destruct (l !! _); rewrite ?Hv.
Qed.

Lemma selector_matches_deq l a b : deq a b → selector_matches l a = selector_matches l b.
Proof.
  intros Hab. unfold selector_matches. rewrite (labels_match_deq l a b Hab). f_equal.
  apply forallb_deq; [apply expr_matches_deq|by apply DeepEqual_jarr].
Qed.

Lemma selects_deq l a b : deq a b → selects l a = selects l b.
Proof.
  intros Hab%(DeepEqual_jpath ["endpointSelector"]). unfold selects.
  destruct (jpath _ a), (jpath _ b); try done. by apply selector_matches_deq.
Qed.

Lemma dns_rule_allows_deq n a b : deq a b → dns_rule_allows n a = dns_rule_allows n b.
Proof.
  intros Hab. unfold dns_rule_allows.
  pose proof (DeepEqual_jpath ["matchName"] a b Hab) as H1.
  pose proof (DeepEqual_jpath ["matchPattern"] a b Hab) as H2.
  f_equal.
  - destruct (jpath ["matchName"] a) as [[]|], (jpath ["matchName"] b) as [[]|]; try done.
    by apply String.eqb_eq in H1 as ->.
  - destruct (jpath ["matchPattern"] a) as [[]|], (jpath ["matchPattern"] b) as [[]|]; try done.
    by apply String.eqb_eq in H2 as ->.
Qed.

Lemma port_allows_deq proto n a b : deq a b → port_allows proto n a = port_allows proto n b.
Proof.
  intros Hab. unfold port_allows. f_equal.
  - apply existsb_deq; [|by apply DeepEqual_jarr]. intros x y Hxy.
    by rewrite !(DeepEqual_jstr_at _ _ _ Hxy).
  - pose proof (DeepEqual_jarr ["rules"; "dns"] a b Hab) as Hr.
    destruct Hr as [|x y l m Hxy Hlm]; [done|].
    apply existsb_deq; [apply dns_rule_allows_deq|by constructor].
Qed.

Lemma allows_query_deq proto n a b : deq a b → allows_query proto n a = allows_query proto n b.
Proof.
  intros Hab. apply existsb_deq; [|by apply DeepEqual_jarr]. intros x y Hxy. f_equal.
  - apply existsb_deq; [apply selector_matches_deq|by apply DeepEqual_jarr].
  - apply existsb_deq; [apply port_allows_deq|by apply DeepEqual_jarr].
Qed.

(** ** Envoy: addresses *)
Definition octet (s : string) : option Z :=
  match s with
  | "" => None
  | String c s' =>
      if Ascii.eqb c "0" && negb (s' =? "")%string then None
      else match parse_digits 0 s with
           | Some n => if (n <? 256)%Z && (String.length s <=? 3) then Some n else None
           | None => None
           end
  end.

(** An IPv4 address in dotted decimals, as a 32-bit number. *)
Definition parse_ipv4 (s : string) : option Z :=
  '(a, s) ← CutByte s "."; '(b, s) ← CutByte s "."; '(c, d) ← CutByte s ".";
  a ← octet a; b ← octet b; c ← octet c; d ← octet d;
  Some (Z.lor (Z.shiftl a 24) (Z.lor (Z.shiftl b 16) (Z.lor (Z.shiftl c 8) d))).

(** [CidrRange]: the first [prefix_len] bits agree. *)
Definition in_cidr (range : json) (src : Z) : bool :=
  match parse_ipv4 (jstr_at ["address_prefix"] range) with
  | Some a =>
      let len := match jpath ["prefix_len"] range with Some (JNum n) => n | _ => 0%Z end in
      (0 <=? len)%Z && (len <=? 32)%Z &&
      (Z.shiftr a (32 - len) =? Z.shiftr src (32 - len))%Z
  | None => false
  end.

(** ** Envoy: the RBAC filter *)
Definition is_any (j : json) : bool :=
  match jpath ["any"] j with Some (JBool b) => b | _ => false end.

Definition principal_matches (src : Z) (j : json) : bool :=
  is_any j || match jpath ["direct_remote_ip"] j with Some r => in_cidr r src | None => false end.

Definition policy_matches (src : Z) (p : json) : bool :=
  existsb is_any (jarr (jpath ["permissions"] p)) &&
  existsb (principal_matches src) (jarr (jpath ["principals"] p)).

(** With the action ALLOW (the default) a request needs a matching policy, with DENY it must
not have one; without rules the filter does nothing. *)
Definition rbac_allows (src : Z) (rules : option json) : bool :=
  match rules with
  | None => true
  | Some r =>
      let matched := match jpath ["policies"] r with
        | Some (JObj ps) => existsb (λ kp, policy_matches src kp.2) ps
        | _ => false
        end in
      let action := jstr_at ["action"] r in
      if (action =? "ALLOW")%string || (action =? "")%string then matched
      else if (action =? "DENY")%string then negb matched
      else true
  end.

(** ** Envoy: routes and filters *)
Record Query := mkQuery {
  qy_connect : bool;       (* the method is CONNECT *)
  qy_path : string;
  qy_src : Z               (* the peer's IPv4 address *)
}.

Inductive Answer : Type :=
| Forwarded (cluster : string)
| Answered (status : Z).

Definition route_matches (q : Query) (r : json) : bool :=
  match jpath ["match"; "connect_matcher"] r with
  | Some _ => qy_connect q
  | None => negb (qy_connect q) &&
      match jpath ["match"; "prefix"] r with Some (JStr p) => HasPrefix (qy_path q) p | _ => false end
  end.

Definition find_route (v : json) (q : Query) : option json :=
  List.find (route_matches q) (jarr (jpath ["routes"] v)).

Definition route_action (r : option json) : Answer :=
  match r with
  | None => Answered 404
  | Some r =>
      match jpath ["route"; "cluster"] r with
      | Some (JStr c) => Forwarded c
      | _ => match jpath ["direct_response"; "status"] r with
             | Some (JNum n) => Answered n
             | _ => Answered 404
             end
      end
  end.

(** A filter's configuration for the chosen route: the route's own, or else its virtual
host's. Without a route there is none. *)
Definition per_route (name : string) (v : json) (r : option json) : option json :=
  match r with
  | None => None
  | Some r => match jpath ["typed_per_filter_config"; name] r with
              | Some c => Some c
              | None => jpath ["typed_per_filter_config"; name] v
              end
  end.

Definition rbac_type : string := "type.googleapis.com/envoy.extensions.filters.http.rbac.v3.RBAC".
Definition router_type : string := "type.googleapis.com/envoy.extensions.filters.http.router.v3.Router".

(** The filters in turn: RBAC may refuse, the router acts, others pass the request on. *)
Fixpoint run_filters (filters : list json) (v : json) (r : option json) (src : Z) : Answer :=
  match filters with
  | [] => Answered 404
  | f :: filters =>
      let type := jstr_at ["typed_config"; "@type"] f in
      if (type =? rbac_type)%string then
        let rules := match per_route (jstr_at ["name"] f) v r with
          | Some c => match jpath ["rbac"] c with Some b => jpath ["rules"] b | None => None end
          | None => jpath ["typed_config"; "rules"] f
          end in
        if rbac_allows src rules then run_filters filters v r src else Answered 403
      else if (type =? router_type)%string then route_action r
      else run_filters filters v r src
  end.

Definition resource_name (j : json) : string := jstr_at ["name"] j.

(** The HTTP filters of the listener named ["proxy"]. *)
Definition http_filters (listeners : list json) : list json :=
  l ← List.filter (λ l, resource_name l =? "proxy")%string listeners;
  c ← jarr (jpath ["filter_chains"] l);
  f ← jarr (jpath ["filters"] c);
  jarr (jpath ["typed_config"; "http_filters"] f).

Definition answer (listeners : list json) (v : json) (q : Query) : Answer :=
  run_filters (http_filters listeners) v (find_route v q) (qy_src q).

(** The virtual host of a request: by domain, exact ones first, then the longest with a star
in place of a non-empty prefix. *)
Definition jstrs (j : option json) : list string :=
  omap (λ j, match j with JStr s => Some s | _ => None end) (jarr j).

Definition domains (v : json) : list string := jstrs (jpath ["domains"] v).

Definition domain_serves (d authority : string) : Prop :=
  d = authority ∨ ∃ suffix pre, d = "*" +:+ suffix ∧ authority = pre +:+ suffix ∧ pre ≠ "".

Definition picks (vhosts : list json) (authority : string) (v : json) : Prop :=
  v ∈ vhosts ∧ ∃ d, d ∈ domains v ∧ domain_serves d authority ∧
  (d = authority ∨
   ∀ v' d', v' ∈ vhosts → d' ∈ domains v' → domain_serves d' authority →
     d' ≠ authority ∧ String.length d' ≤ String.length d).

(** ** Envoy: tunnels

The internal listeners behind a cluster, the server names whose handshakes a listener takes,
and the port it dials for them. *)
Definition cluster_listeners (c : json) : list string :=
  e ← jarr (jpath ["load_assignment"; "endpoints"] c);
  l ← jarr (jpath ["lb_endpoints"] e);
  [jstr_at ["endpoint"; "address"; "envoy_internal_address"; "server_listener_name"] l].

Definition accepted_names (l : json) : list string :=
  c ← jarr (jpath ["filter_chains"] l); jstrs (jpath ["filter_chain_match"; "server_names"] c).

Definition sni_proxy_type : string :=
  "type.googleapis.com/envoy.extensions.filters.network.sni_dynamic_forward_proxy.v3.FilterConfig".

Definition dialled_ports (l : json) : list Z :=
  c ← jarr (jpath ["filter_chains"] l);
  f ← jarr (jpath ["filters"] c);
  if (jstr_at ["typed_config"; "@type"] f =? sni_proxy_type)%string
  then match jpath ["typed_config"; "port_value"] f with Some (JNum n) => [n] | _ => [] end
  else [].
