(* ===== verification/Store.v ===== *)
(** * internal/store: policy state in Postgres

A translation of [admin/internal/store] ([store.go], [zones.go], [requests.go])
over the tables of [migrations/001_init.sql]. The database is a record of
tables; each SQL statement of the source is one function on it, with the
constraints of the schema checked where the statement runs and violations
reported with their SQLSTATE. A transaction is a computation in a small state
and error monad ([Tx]); [run_tx] is [Store.tx]: begin, run, commit, map the
error, and keep the old database when anything failed.

What the program does not decide is an argument: the transaction's time, the
UUIDs Postgres generates, and [faults], a script of driver or server errors
that may strike any statement, begin or commit. *)
From S2P Require Import Prelude GoLib Regex Policy Json.
From stdpp Require Import gmap strings list sorting fin_maps.

(** A second, in the microseconds of a timestamp. *)
Definition second_us : Z := 1000000.

(** ** Postgres

[uuid_in] parses a text parameter cast to [uuid] and returns its canonical
text, [interval_secs d] is [make_interval(secs => d.Seconds())] in
microseconds, and [text_leb] is the collation used by [ORDER BY]. *)
Class Postgres := {
  uuid_in : string → option string;
  interval_secs : Z → Z;
  text_leb : string → string → bool
}.

(** What the [uuid] type documents: its output is accepted as input and unchanged by
it, and the empty string is no UUID; and an interval of whole seconds has that many seconds
(up to the 68 years an [int4] of seconds spans). *)
Class PostgresLaws `{Postgres} := {
  uuid_in_canonical s u : uuid_in s = Some u → uuid_in u = Some u;
  uuid_in_empty : uuid_in "" = None;
  interval_whole k : (0 ≤ k < 2 ^ 31)%Z → interval_secs (k * Second) = (k * second_us)%Z
}.

(** ** Errors *)
Definition ErrConflict : error := ESentinel "conflict".
Definition ErrInvalid : error := ESentinel "invalid".
Definition ErrNotFound : error := ESentinel "not found".

Definition unique_violation : error := EPg "23505" "duplicate key".
Definition foreign_key_violation : error := EPg "23503" "foreign key".
Definition check_violation : error := EPg "23514" "check".
Definition invalid_text : error := EPg "22P02" "invalid input syntax".
Definition out_of_range : error := EPg "22003" "integer out of range".

Definition mapErr (e : error) : error :=
  match errors_As_Pg e with
  | Some (code, msg) =>
      if (code =? "23505")%string || (code =? "23503")%string then EWrap msg ErrConflict
      else if (code =? "23514")%string || (code =? "22P02")%string then EWrap msg ErrInvalid
      else e
  | None => e
  end.

(** ** Tables (001_init.sql) *)
Record ZoneRow := mkZoneRow {
  z_name : string;
  z_is_default : bool;
  z_created_at : Z
}.

Record RuleRec := mkRuleRec {
  r_zone_id : option string;
  r_workspace_id : option string;
  r_kind : string;
  r_value : string;
  r_port : Z;
  r_expires_at : option Z;
  r_created_by : string;
  r_created_at : Z
}.

Record AssignRow := mkAssignRow {
  a_zone_id : string;
  a_assigned_by : string;
  a_assigned_at : Z
}.

Record RequestRow := mkRequestRow {
  q_workspace_id : string;
  q_host : string;
  q_port : Z;
  q_justification : string;
  q_requester : string;
  q_status : string;
  q_decided_by : option string;
  q_ttl : option Z;
  q_created_at : Z;
  q_decided_at : option Z
}.

Record DenialRow := mkDenialRow {
  d_count : Z;
  d_first_seen : Z;
  d_last_seen : Z
}.

Record AuditRow := mkAuditRow {
  au_At : Z;
  au_Actor : string;
  au_Action : string;
  au_Detail : list (string * json)
}.

(** The audit table in insertion order, which is the order of its serial id. *)
Record DB := mkDB {
  zones : gmap string ZoneRow;
  rules : gmap string RuleRec;
  assignments : gmap string AssignRow;
  requests : gmap string RequestRow;
  denials : gmap (string * string * Z) DenialRow;
  audit_log : list AuditRow
}.

(** The database after [Migrate] on a fresh server. *)
Definition migrated_db : DB := mkDB ∅ ∅ ∅ ∅ ∅ [].

Definition set_zones (db : DB) x := mkDB x (rules db) (assignments db) (requests db) (denials db) (audit_log db).
Definition set_rules (db : DB) x := mkDB (zones db) x (assignments db) (requests db) (denials db) (audit_log db).
Definition set_assignments (db : DB) x := mkDB (zones db) (rules db) x (requests db) (denials db) (audit_log db).
Definition set_requests (db : DB) x := mkDB (zones db) (rules db) (assignments db) x (denials db) (audit_log db).
Definition set_denials (db : DB) x := mkDB (zones db) (rules db) (assignments db) (requests db) x (audit_log db).
Definition set_audit (db : DB) x := mkDB (zones db) (rules db) (assignments db) (requests db) (denials db) x.

(** ** Transactions *)
Record Env := mkEnv {
  now : Z;                          (* now(): the transaction's start, in microseconds *)
  faults : list (option error);     (* what strikes each statement in turn *)
  uuids : nat → string;             (* the UUIDs gen_random_uuid() returns *)
  ack_lost : option error           (* Postgres commits but its answer does not arrive *)
}.

(** Nothing fails. *)
Definition quiet (env : Env) : Prop := faults env = [] ∧ ack_lost env = None.

(** The same, with the answer to COMMIT arriving. *)
Definition acked (env : Env) : Env := mkEnv (now env) (faults env) (uuids env) None.

Record TxState := mkTxState {
  tx_db : DB;
  tx_faults : list (option error);
  tx_uuids : nat → string
}.

Definition Tx (A : Type) : Type := TxState → result error (A * TxState).

#[export] Instance Tx_ret : MRet Tx := λ A a st, Ok (a, st).
#[export] Instance Tx_bind : MBind Tx := λ A B k m st,
  match m st with Ok (a, st') => k a st' | Err e => Err e end.

Definition throw {A} (e : error) : Tx A := λ _, Err e.

(** One round trip to the server: it may fail, and then nothing happens. *)
Definition stmt {A} (f : TxState → result error (A * TxState)) : Tx A := λ st,
  match tx_faults st with
  | Some e :: _ => Err e
  | fs => f (mkTxState (tx_db st) (tail fs) (tx_uuids st))
  end.

(** A statement that reads or changes the tables only. *)
Definition sql {A} (f : DB → result error (A * DB)) : Tx A :=
  stmt (λ st, match f (tx_db st) with
              | Ok (a, db) => Ok (a, mkTxState db (tx_faults st) (tx_uuids st))
              | Err e => Err e
              end).

(** [pgx.BeginFunc] and [mapErr]. A fault before the commit, or one that keeps COMMIT from
taking effect, leaves the database as it was. If the context ends or the connection breaks
while the answer to COMMIT is under way, an error is returned although the transaction is
committed. *)
Definition run_tx {A} (env : Env) (fn : Tx A) (db : DB) : result error A * DB :=
  let body : Tx A :=
    _ ← sql (λ db, Ok ((), db));        (* begin *)
    a ← fn;
    _ ← sql (λ db, Ok ((), db));        (* commit *)
    mret a in
  match body (mkTxState db (faults env) (uuids env)) with
  | Ok (a, st) =>
      (match ack_lost env with Some e => Err (mapErr e) | None => Ok a end, tx_db st)
  | Err e => (Err (mapErr e), db)
  end.

Definition audit (env : Env) (actor action : string) (detail : list (string * json))
    : Tx unit :=
  sql (λ db, Ok ((), set_audit db (audit_log db ++ [mkAuditRow (now env) actor action detail]))).

(** [one]: an UPDATE that touched no row is ErrNotFound. *)
Definition one (touched : nat) : Tx unit :=
  if touched =? 0 then throw ErrNotFound else mret ().

(** ** Statements *)
Section statements.
Context `{Postgres}.

Definition uuid_param (s : string) : result error string :=
  match uuid_in s with Some u => Ok u | None => Err invalid_text end.

Definition gen_uuid (st : TxState) : string * TxState :=
  (tx_uuids st 0, mkTxState (tx_db st) (tx_faults st) (λ n, tx_uuids st (S n))).

(** [CHECK (name ~ '^[a-z0-9][a-z0-9-]{0,40}$')] *)
Definition zone_nameRE : regex := Seq (Class alnum) (Rep 0 40 (Class ldh)).

(** Some other zone has the name; some other zone is the default. *)
Definition name_taken (m : gmap string ZoneRow) (id name : string) : bool :=
  bool_decide (map_Exists (λ k z, k ≠ id ∧ z_name z = name) m).
Definition default_taken (m : gmap string ZoneRow) (id : string) : bool :=
  bool_decide (map_Exists (λ k z, k ≠ id ∧ z_is_default z = true) m).

(** The constraints of [zones] on writing row [z] under [id]. *)
Definition put_zone (m : gmap string ZoneRow) (id : string) (z : ZoneRow)
    : result error (gmap string ZoneRow) :=
  if negb (rmatch zone_nameRE (z_name z)) then Err check_violation
  else if name_taken m id (z_name z) || (z_is_default z && default_taken m id)
  then Err unique_violation
  else Ok (<[id := z]> m).

Definition insert_zone (now : Z) (name : string) (is_default : bool) (st : TxState)
    : result error (string * TxState) :=
  let '(id, st) := gen_uuid st in
  let db := tx_db st in
  match zones db !! id with
  | Some _ => Err unique_violation
  | None =>
      let? m := put_zone (zones db) id (mkZoneRow name is_default now) in
      Ok (id, mkTxState (set_zones db m) (tx_faults st) (tx_uuids st))
  end.

(** [CHECK]s of [rules]. *)
Definition rule_checks (r : RuleRec) : bool :=
  (((r_kind r =? "host")%string && ((r_port r =? 80)%Z || (r_port r =? 443)%Z)) ||
   ((r_kind r =? "dns")%string && (r_port r =? 0)%Z)) &&
  xorb (bool_decide (r_zone_id r = None)) (bool_decide (r_workspace_id r = None)) &&
  (bool_decide (r_workspace_id r = None) || negb (bool_decide (r_expires_at r = None))).

(** The partial unique index [rules_zone_uniq]. *)
Definition rule_taken (m : gmap string RuleRec) (r : RuleRec) : bool :=
  negb (bool_decide (r_zone_id r = None)) &&
  bool_decide (map_Exists (λ _ r', r_zone_id r' = r_zone_id r ∧ r_kind r' = r_kind r ∧
    r_value r' = r_value r ∧ r_port r' = r_port r) m).

Definition zone_exists (m : gmap string ZoneRow) (id : option string) : bool :=
  match id with None => true | Some z => bool_decide (is_Some (m !! z)) end.

Definition insert_rule (r : RuleRec) (st : TxState) : result error (unit * TxState) :=
  let '(id, st) := gen_uuid st in
  let db := tx_db st in
  if negb (rule_checks r) then Err check_violation
  else if bool_decide (is_Some (rules db !! id)) || rule_taken (rules db) r
  then Err unique_violation
  else if negb (zone_exists (zones db) (r_zone_id r)) then Err foreign_key_violation
  else Ok ((), mkTxState (set_rules db (<[id := r]> (rules db))) (tx_faults st) (tx_uuids st)).

(** INSERT ... SELECT: the rows in turn; the first violation fails the statement. *)
Fixpoint insert_rules (rs : list RuleRec) (st : TxState) : result error (unit * TxState) :=
  match rs with
  | [] => Ok ((), st)
  | r :: rs => let? x := insert_rule r st in insert_rules rs x.2
  end.

(** ** store.go

Some operations look before they write. At the isolation level they run at (Postgres's
default, read committed) the first query sees what was committed when it ran, and others may
commit before the operation's first write. Such an operation [Op_torn] takes the database
its first query sees as a function [seen] of the one it then writes to; [Op] is the
operation undisturbed. *)
Definition Seed_torn (seen : DB → DB) (env : Env) : DB → result error unit * DB := run_tx env (
  n ← sql (λ db, Ok (size (zones (seen db)), db));
  if negb (n =? 0) then mret () else
  id ← stmt (insert_zone (now env) "default" true);
  _ ← foldr (λ port (k : Tx unit),
        _ ← stmt (λ st, let? z := uuid_param id in
              insert_rule (mkRuleRec (Some z) None "host" "example.com" port None
                "bootstrap" (now env)) st);
        k) (mret ()) [443; 80]%Z;
  audit env "bootstrap" "seed"
    [("zone", JStr id); ("hosts", JArr [JStr "example.com:443"; JStr "example.com:80"])]).
Definition Seed : Env → DB → result error unit * DB := Seed_torn (λ db, db).

Definition AuditSystem (env : Env) (action : string) (detail : list (string * json))
    : DB → result error unit * DB :=
  run_tx env (audit env "system" action detail).

(** [ORDER BY id DESC LIMIT limit] *)
Definition Audit (db : DB) (limit : nat) : list AuditRow := take limit (reverse (audit_log db)).

(** ** PolicyInput: three queries on the pool, each on the database of its own
moment, so they take three databases. *)
Definition load_zone (inp : Input) (row : string * ZoneRow) : Input :=
  let '(id, z) := row in
  mkInput (if z_is_default z then id else in_DefaultZone inp)
    (<[id := []]> (in_ZoneRules inp)) (in_Assign inp) (in_Grants inp) (in_Pods inp).

Definition append_at (m : gmap string (list Rule)) (k : string) (r : Rule)
    : gmap string (list Rule) := <[k := slice_at m k ++ [r]]> m.

Definition load_rule (inp : Input) (row : RuleRec) : Input :=
  let r := mkRule (r_kind row) (r_value row) (r_port row) in
  let zone := default "" (r_zone_id row) in
  let ws := default "" (r_workspace_id row) in
  if negb (zone =? "")%string
  then mkInput (in_DefaultZone inp) (append_at (in_ZoneRules inp) zone r) (in_Assign inp)
         (in_Grants inp) (in_Pods inp)
  else mkInput (in_DefaultZone inp) (in_ZoneRules inp) (in_Assign inp)
         (append_at (in_Grants inp) ws r) (in_Pods inp).

Definition load_assign (inp : Input) (row : string * AssignRow) : Input :=
  mkInput (in_DefaultZone inp) (in_ZoneRules inp)
    (<[row.1 := a_zone_id row.2]> (in_Assign inp)) (in_Grants inp) (in_Pods inp).

(** [WHERE expires_at IS NULL OR expires_at > now()] *)
Definition unexpired (t : Z) (r : RuleRec) : bool :=
  match r_expires_at r with None => true | Some e => (t <? e)%Z end.

(** [ORDER BY kind, value, port] *)
Definition rule_le (a b : RuleRec) : Prop :=
  Is_true (if negb (r_kind a =? r_kind b)%string then text_leb (r_kind a) (r_kind b)
  else if negb (r_value a =? r_value b)%string then text_leb (r_value a) (r_value b)
  else (r_port a <=? r_port b)%Z).
#[export] Instance rule_le_dec : RelDecision rule_le.
Proof. intros a b. apply _. Defined.

Definition rules_query (t : Z) (db : DB) : list RuleRec :=
  merge_sort rule_le (filter (λ r, Is_true (unexpired t r)) (map_to_list (rules db)).*2).

Definition PolicyInput_torn (db1 db2 db3 : DB) (t : Z) : Input :=
  let in0 := mkInput "" ∅ ∅ ∅ [] in
  let in1 := foldl load_zone in0 (map_to_list (zones db1)) in
  let in2 := foldl load_rule in1 (rules_query t db2) in
  foldl load_assign in2 (map_to_list (assignments db3)).

(** The three queries may fail; otherwise, on an undisturbed database: *)
Definition PolicyInput (db : DB) (t : Z) : Input := PolicyInput_torn db db db t.

(** With what may strike each of the three queries; on an error the partial input is
not used. *)
Definition PolicyInput_run (fs : option error * option error * option error)
    (db1 db2 db3 : DB) (t : Z) : result error Input :=
  match fs with
  | (Some e, _, _) | (None, Some e, _) | (None, None, Some e) => Err e
  | (None, None, None) => Ok (PolicyInput_torn db1 db2 db3 t)
  end.

(** ** zones.go *)
Record RuleView := mkRuleView {
  rv_ID : string; rv_ZoneID : string; rv_WorkspaceID : string;
  rv_Kind : string; rv_Value : string; rv_Port : Z;
  rv_ExpiresAt : option Z; rv_CreatedBy : string
}.

(** [scanRule] over [ruleCols]. *)
Definition scanRule (row : string * RuleRec) : RuleView :=
  let '(id, r) := row in
  mkRuleView id (default "" (r_zone_id r)) (default "" (r_workspace_id r)) (r_kind r)
    (r_value r) (r_port r) (r_expires_at r) (r_created_by r).

Definition CreateZone (env : Env) (actor name : string) : DB → result error string * DB :=
  run_tx env (
    id ← stmt (insert_zone (now env) name false);
    _ ← audit env actor "zone_create" [("zone", JStr id); ("name", JStr name)];
    mret id).

Definition zone_rules (db : DB) (zone : string) : list RuleRec :=
  filter (λ r, r_zone_id r = Some zone) (map_to_list (rules db)).*2.

Definition CloneZone (env : Env) (actor srcID name : string) : DB → result error string * DB :=
  run_tx env (
    id ← stmt (λ st,
      let? src := uuid_param srcID in
      if bool_decide (is_Some (zones (tx_db st) !! src))
      then match insert_zone (now env) name false st with
           | Ok (id, st) => Ok (Some id, st)
           | Err e => Err e
           end
      else Ok (None, st));
    match id with
    | None => throw ErrNotFound
    | Some id =>
        _ ← stmt (λ st,
          let? src := uuid_param srcID in
          let? z := uuid_param id in
          insert_rules ((λ r, mkRuleRec (Some z) None (r_kind r) (r_value r) (r_port r) None
            actor (now env)) <$> zone_rules (tx_db st) src) st);
        _ ← audit env actor "zone_clone"
              [("zone", JStr id); ("from", JStr srcID); ("name", JStr name)];
        mret id
    end).

Definition RenameZone (env : Env) (actor id name : string) : DB → result error unit * DB :=
  run_tx env (
    n ← sql (λ db,
      let? u := uuid_param id in
      match zones db !! u with
      | None => Ok (0, db)
      | Some z =>
          let? m := put_zone (zones db) u (mkZoneRow name (z_is_default z) (z_created_at z)) in
          Ok (1, set_zones db m)
      end);
    _ ← one n;
    audit env actor "zone_rename" [("zone", JStr id); ("name", JStr name)]).

Definition has_assignments (db : DB) (zone : string) : bool :=
  bool_decide (map_Exists (λ _ a, a_zone_id a = zone) (assignments db)).

(** DELETE FROM zones: [rules] cascade, [assignments] restrict. *)
Definition delete_zone (zone : string) (db : DB) : result error (unit * DB) :=
  if has_assignments db zone then Err foreign_key_violation
  else Ok ((), set_rules (set_zones db (delete zone (zones db)))
                 (filter (λ kr, r_zone_id kr.2 ≠ Some zone) (rules db))).

Definition DeleteZone_torn (seen : DB → DB) (env : Env) (actor id : string)
    : DB → result error unit * DB :=
  run_tx env (
    row ← sql (λ db,
      let? u := uuid_param id in
      Ok ((λ z, (z_is_default z, has_assignments (seen db) u)) <$> zones (seen db) !! u, db));
    match row with
    | None => throw ErrNotFound
    | Some (def, assigned) =>
        if (def : bool) || (assigned : bool) then throw ErrConflict else
        _ ← sql (λ db, let? u := uuid_param id in delete_zone u db);
        audit env actor "zone_delete" [("zone", JStr id)]
    end).
Definition DeleteZone : Env → string → string → DB → result error unit * DB :=
  DeleteZone_torn (λ db, db).

Definition SetDefaultZone (env : Env) (actor id : string) : DB → result error unit * DB :=
  run_tx env (
    _ ← sql (λ db, Ok ((), set_zones db
          ((λ z, if z_is_default z then mkZoneRow (z_name z) false (z_created_at z) else z)
             <$> zones db)));
    n ← sql (λ db,
      let? u := uuid_param id in
      match zones db !! u with
      | None => Ok (0, db)
      | Some z =>
          let? m := put_zone (zones db) u (mkZoneRow (z_name z) true (z_created_at z)) in
          Ok (1, set_zones db m)
      end);
    _ ← one n;
    _ ← sql (λ db,
      let? u := uuid_param id in
      Ok ((), set_assignments db (filter (λ ka, a_zone_id ka.2 ≠ u) (assignments db))));
    audit env actor "zone_default" [("zone", JStr id)]).

Definition AddZoneRule (env : Env) (actor zoneID : string) (r : Rule) (db : DB)
    : result error unit * DB :=
  if negb (ValidRule r) then (Err ErrInvalid, db) else
  run_tx env (
    _ ← stmt (λ st, let? z := uuid_param zoneID in
          insert_rule (mkRuleRec (Some z) None (rule_Kind r) (rule_Value r) (rule_Port r) None
            actor (now env)) st);
    audit env actor "rule_add"
      [("zone", JStr zoneID); ("kind", JStr (rule_Kind r)); ("value", JStr (rule_Value r));
       ("port", JNum (rule_Port r))]) db.

Definition DeleteRule (env : Env) (actor ruleID : string) : DB → result error unit * DB :=
  run_tx env (
    row ← sql (λ db,
      let? u := uuid_param ruleID in
      Ok (rules db !! u, set_rules db (delete u (rules db))));
    match row with
    | None => throw ErrNotFound
    | Some r =>
        audit env actor "rule_delete"
          [("zone", JStr (default "" (r_zone_id r)));
           ("workspace", JStr (default "" (r_workspace_id r)));
           ("kind", JStr (r_kind r)); ("value", JStr (r_value r)); ("port", JNum (r_port r))]
    end).

Definition Assign_torn (seen : DB → DB) (env : Env) (actor wsID zoneID : string)
    : DB → result error unit * DB :=
  run_tx env (
    row ← sql (λ db,
      let? z := uuid_param zoneID in
      Ok (z_is_default <$> zones (seen db) !! z, db));
    match row with
    | None => throw ErrNotFound
    | Some def =>
        _ ← (if (def : bool)
          then sql (λ db,
            let? w := uuid_param wsID in
            Ok ((), set_assignments db (delete w (assignments db))))
          else sql (λ db,
            let? w := uuid_param wsID in
            let? z := uuid_param zoneID in
            if negb (zone_exists (zones db) (Some z)) then Err foreign_key_violation
            else Ok ((), set_assignments db
                   (<[w := mkAssignRow z actor (now env)]> (assignments db)))));
        audit env actor "assign" [("workspace", JStr wsID); ("zone", JStr zoneID)]
    end).
Definition Assign : Env → string → string → string → DB → result error unit * DB :=
  Assign_torn (λ db, db).

(** [grant]: [extra] is the nil map for a direct grant. *)
Definition grant (env : Env) (actor wsID : string) (r : Rule) (ttl : Z)
    (extra : list (string * json)) : Tx unit :=
  if negb (ValidRule r) || (ttl <=? 0)%Z then throw ErrInvalid else
  _ ← stmt (λ st, let? w := uuid_param wsID in
        insert_rule (mkRuleRec None (Some w) (rule_Kind r) (rule_Value r) (rule_Port r)
          (Some (now env + interval_secs ttl)%Z) actor (now env)) st);
  let detail := [("workspace", JStr wsID); ("kind", JStr (rule_Kind r));
    ("value", JStr (rule_Value r)); ("port", JNum (rule_Port r));
    ("ttl", JStr (Duration_String ttl))] in
  let '(detail, action) :=
    foldl (λ '(d, _) '(k, v), (jset d k v, "approve")) (detail, "grant") extra in
  audit env actor action detail.

Definition Grant (env : Env) (actor wsID : string) (r : Rule) (ttl : Z)
    : DB → result error unit * DB :=
  run_tx env (grant env actor wsID r ttl []).

(** [WHERE workspace_id IS NOT NULL AND expires_at <= now()] *)
Definition expired (t : Z) (r : RuleRec) : bool :=
  match r_workspace_id r, r_expires_at r with
  | Some _, Some e => (e <=? t)%Z
  | _, _ => false
  end.

Definition ExpireGrants (env : Env) : DB → result error nat * DB :=
  run_tx env (
    gone ← sql (λ db, Ok
      (scanRule <$> map_to_list (filter (λ kr, Is_true (expired (now env) kr.2)) (rules db)),
       set_rules db (filter (λ kr, ¬ Is_true (expired (now env) kr.2)) (rules db))));
    _ ← foldr (λ r (k : Tx unit),
          _ ← audit env "system" "expire"
                [("workspace", JStr (rv_WorkspaceID r)); ("kind", JStr (rv_Kind r));
                 ("value", JStr (rv_Value r)); ("port", JNum (rv_Port r))];
          k) (mret ()) gone;
    mret (length gone)).

(** ** requests.go *)

(** [length(text)]: UTF-8 code points, counted by their first bytes. *)
Fixpoint char_length (s : string) : nat :=
  match s with
  | "" => 0
  | String c s =>
      (if (128 <=? byte c)%N && (byte c <? 192)%N then 0 else 1) + char_length s
  end.

Definition request_checks (q : RequestRow) : bool :=
  ((q_port q =? 80)%Z || (q_port q =? 443)%Z) &&
  (1 <=? char_length (q_justification q)) && (char_length (q_justification q) <=? 2000).

Definition insert_request (q : RequestRow) (st : TxState) : result error (string * TxState) :=
  let '(id, st) := gen_uuid st in
  let db := tx_db st in
  if negb (request_checks q) then Err check_violation
  else if bool_decide (is_Some (requests db !! id)) then Err unique_violation
  else Ok (id, mkTxState (set_requests db (<[id := q]> (requests db)))
                 (tx_faults st) (tx_uuids st)).

Definition same_pending (ws host : string) (port : Z) (q : RequestRow) : Prop :=
  q_workspace_id q = ws ∧ q_host q = host ∧ q_port q = port ∧ q_status q = "pending".
#[export] Instance same_pending_dec ws host port q : Decision (same_pending ws host port q).
Proof. unfold same_pending. apply _. Defined.

Definition FileRequest_torn (seen : DB → DB) (env : Env) (actor wsID host : string) (port : Z)
    (justification : string) (db : DB) : result error string * DB :=
  if negb (ValidRule (mkRule "host" host port)) then (Err ErrInvalid, db) else
  run_tx env (
    found ← sql (λ db,
      let? w := uuid_param wsID in
      Ok (head (map_to_list (filter (λ kq, same_pending w host port kq.2)
            (requests (seen db)))).*1, db));
    match found with
    | Some id => mret id
    | None =>
        id ← stmt (λ st, let? w := uuid_param wsID in
          insert_request (mkRequestRow w host port justification actor "pending" None None
            (now env) None) st);
        _ ← audit env actor "request"
              [("request", JStr id); ("workspace", JStr wsID); ("host", JStr host);
               ("port", JNum port)];
        mret id
    end) db.

Definition FileRequest
    : Env → string → string → string → Z → string → DB → result error string * DB :=
  FileRequest_torn (λ db, db).

Definition Decide (env : Env) (actor id : string) (approve : bool) (ttl : Z)
    : DB → result error unit * DB :=
  let status := if approve then "approved" else "denied" in
  run_tx env (
    row ← sql (λ db,
      let? u := uuid_param id in
      match requests db !! u with
      | Some q =>
          if (q_status q =? "pending")%string
          then Ok (Some q, set_requests db (<[u :=
                 mkRequestRow (q_workspace_id q) (q_host q) (q_port q) (q_justification q)
                   (q_requester q) status (Some actor)
                   (if approve then Some (interval_secs ttl) else None)
                   (q_created_at q) (Some (now env))]> (requests db)))
          else Ok (None, db)
      | None => Ok (None, db)
      end);
    match row with
    | None => throw ErrConflict
    | Some q =>
        let extra := [("request", JStr id);
          ("self_approved", JBool (actor =? q_requester q)%string)] in
        if negb approve then audit env actor "deny" extra
        else grant env actor (q_workspace_id q) (mkRule "host" (q_host q) (q_port q)) ttl extra
    end).

Definition max_int32 : Z := (2 ^ 31 - 1)%Z.
Definition min_int32 : Z := (- 2 ^ 31)%Z.

(** Encoding a Go [int] as [int4]. *)
Definition int4_param (n : Z) : result error Z :=
  if (min_int32 <=? n)%Z && (n <=? max_int32)%Z then Ok n
  else Err (EMsg "value out of range for int4").

(** [ORDER BY last_seen DESC, host] *)
Definition denial_le (a b : (string * string * Z) * DenialRow) : Prop :=
  Is_true ((d_last_seen b.2 <? d_last_seen a.2)%Z ||
   ((d_last_seen a.2 =? d_last_seen b.2)%Z &&
    ((a.1.1.2 =? b.1.1.2)%string || text_leb a.1.1.2 b.1.1.2))).
#[export] Instance denial_le_dec : RelDecision denial_le.
Proof. intros a b. apply _. Defined.

Definition denials_of (db : DB) (ws : string) : list ((string * string * Z) * DenialRow) :=
  filter (λ kd, kd.1.1.1 = ws) (map_to_list (denials db)).

Definition denial_cap : nat := 200.

(** The rows past [OFFSET 200]. *)
Definition denials_over_cap (db : DB) (ws : string) : list (string * string * Z) :=
  (drop denial_cap (merge_sort denial_le (denials_of db ws))).*1.

(** INSERT ... ON CONFLICT DO UPDATE ... WHERE ... RETURNING (xmax = 0) *)
Definition upsert_denial (t : Z) (k : string * string * Z) (db : DB)
    : result error (option bool * DB) :=
  match denials db !! k with
  | None => Ok (Some true, set_denials db (<[k := mkDenialRow 1 t t]> (denials db)))
  | Some d =>
      if (d_last_seen d <? t - second_us)%Z then
        if (max_int32 <? d_count d + 1)%Z then Err out_of_range
        else Ok (Some false, set_denials db
               (<[k := mkDenialRow (d_count d + 1) (d_first_seen d) t]> (denials db)))
      else Ok (None, db)
  end.

Definition RecordDenial (env : Env) (wsID host : string) (port : Z)
    : DB → result error unit * DB :=
  run_tx env (
    row ← sql (λ db,
      let? w := uuid_param wsID in
      let? p := int4_param port in
      upsert_denial (now env) (w, host, p) db);
    match row with
    | None | Some false => mret ()
    | Some true =>
        sql (λ db, let? w := uuid_param wsID in
          Ok ((), set_denials db
            (filter (λ kd, kd.1 ∉ denials_over_cap db w) (denials db))))
    end).

(** ** Listings *)
Record Zone := mkZone {
  zn_ID : string; zn_Name : string; zn_Default : bool;
  zn_Rules : list RuleView; zn_Members : list string
}.

(** [ORDER BY z.is_default DESC, z.name] *)
Definition zone_le (a b : string * ZoneRow) : Prop :=
  Is_true (if xorb (z_is_default a.2) (z_is_default b.2) then z_is_default a.2
           else (z_name a.2 =? z_name b.2)%string || text_leb (z_name a.2) (z_name b.2)).
#[export] Instance zone_le_dec : RelDecision zone_le.
Proof. intros a b. apply _. Defined.

(** [ORDER BY kind, value, port], on the rows with their ids. *)
Definition rule_row_le (a b : string * RuleRec) : Prop := rule_le a.2 b.2.
#[export] Instance rule_row_le_dec : RelDecision rule_row_le.
Proof. intros a b. apply rule_le_dec. Defined.

Definition Zones (db : DB) : list Zone :=
  let rs := scanRule <$> merge_sort rule_row_le
    (filter (λ kr, r_zone_id kr.2 ≠ None) (map_to_list (rules db))) in
  (λ row : string * ZoneRow, mkZone row.1 (z_name row.2) (z_is_default row.2)
     (filter (λ r, rv_ZoneID r = row.1) rs)
     (filter (λ ka : string * AssignRow, a_zone_id ka.2 = row.1)
       (map_to_list (assignments db))).*1)
  <$> merge_sort zone_le (map_to_list (zones db)).

(** [ORDER BY workspace_id, value] *)
Definition grant_le (a b : string * RuleRec) : Prop :=
  let wa := default "" (r_workspace_id a.2) in
  let wb := default "" (r_workspace_id b.2) in
  if bool_decide (wa = wb)
  then Is_true ((r_value a.2 =? r_value b.2)%string || text_leb (r_value a.2) (r_value b.2))
  else String.le wa wb.
#[export] Instance grant_le_dec : RelDecision grant_le.
Proof. intros a b. unfold grant_le. case_bool_decide; apply _. Defined.

(** [WHERE workspace_id IS NOT NULL AND expires_at > now()] *)
Definition live_grant (t : Z) (r : RuleRec) : bool :=
  match r_workspace_id r, r_expires_at r with
  | Some _, Some e => (t <? e)%Z
  | _, _ => false
  end.

Definition Grants (db : DB) (t : Z) : list RuleView :=
  scanRule <$> merge_sort grant_le
    (filter (λ kr, Is_true (live_grant t kr.2)) (map_to_list (rules db))).

(** [$n::uuid[]]: NULL for a nil slice, and every element parsed. *)
Fixpoint uuid_array (l : list string) : result error (list string) :=
  match l with
  | [] => Ok []
  | s :: l => let? u := uuid_param s in let? us := uuid_array l in Ok (u :: us)
  end.

Definition uuid_filter (wsIDs : option (list string)) : result error (string → bool) :=
  match wsIDs with
  | None => Ok (λ _, true)
  | Some l => let? us := uuid_array l in Ok (λ w, bool_decide (w ∈ us))
  end.

(** [ORDER BY created_at DESC LIMIT 200] *)
Definition newest_le (a b : string * RequestRow) : Prop :=
  (q_created_at b.2 ≤ q_created_at a.2)%Z.
#[export] Instance newest_le_dec : RelDecision newest_le.
Proof. intros a b. unfold newest_le. apply _. Defined.

Definition list_limit : nat := 200.

Definition Requests (db : DB) (status : string) (wsIDs : option (list string))
    : result error (list (string * RequestRow)) :=
  let? keep := uuid_filter wsIDs in
  Ok (take list_limit (merge_sort newest_le
    (filter (λ kq, Is_true (((status =? "")%string || (q_status kq.2 =? status)%string) &&
       keep (q_workspace_id kq.2))) (map_to_list (requests db))))).

(** [ORDER BY last_seen DESC LIMIT 200] *)
Definition last_seen_le (a b : (string * string * Z) * DenialRow) : Prop :=
  (d_last_seen b.2 ≤ d_last_seen a.2)%Z.
#[export] Instance last_seen_le_dec : RelDecision last_seen_le.
Proof. intros a b. unfold last_seen_le. apply _. Defined.

Definition Denials (db : DB) (wsIDs : option (list string))
    : result error (list ((string * string * Z) * DenialRow)) :=
  let? keep := uuid_filter wsIDs in
  Ok (take list_limit (merge_sort last_seen_le
    (filter (λ kd, Is_true (keep kd.1.1.1)) (map_to_list (denials db))))).

(** ** The operations as one type, for invariants over sequences of them *)
Inductive store_op : Type :=
| OpSeed
| OpCreateZone (actor name : string)
| OpCloneZone (actor srcID name : string)
| OpRenameZone (actor id name : string)
| OpDeleteZone (actor id : string)
| OpSetDefaultZone (actor id : string)
| OpAddZoneRule (actor zoneID : string) (r : Rule)
| OpDeleteRule (actor ruleID : string)
| OpAssign (actor wsID zoneID : string)
| OpGrant (actor wsID : string) (r : Rule) (ttl : Z)
| OpExpireGrants
| OpFileRequest (actor wsID host : string) (port : Z) (justification : string)
| OpDecide (actor id : string) (approve : bool) (ttl : Z)
| OpRecordDenial (wsID host : string) (port : Z)
| OpAuditSystem (action : string) (detail : list (string * json)).

(** The outcome of an operation: its error, if any, and the database after it. *)
Definition outcome {A} (x : result error A * DB) : option error * DB :=
  (match x.1 with Ok _ => None | Err e => Some e end, x.2).

Definition exec (env : Env) (op : store_op) (db : DB) : option error * DB :=
  match op with
  | OpSeed => outcome (Seed env db)
  | OpCreateZone actor name => outcome (CreateZone env actor name db)
  | OpCloneZone actor srcID name => outcome (CloneZone env actor srcID name db)
  | OpRenameZone actor id name => outcome (RenameZone env actor id name db)
  | OpDeleteZone actor id => outcome (DeleteZone env actor id db)
  | OpSetDefaultZone actor id => outcome (SetDefaultZone env actor id db)
  | OpAddZoneRule actor zoneID r => outcome (AddZoneRule env actor zoneID r db)
  | OpDeleteRule actor ruleID => outcome (DeleteRule env actor ruleID db)
  | OpAssign actor wsID zoneID => outcome (Assign env actor wsID zoneID db)
  | OpGrant actor wsID r ttl => outcome (Grant env actor wsID r ttl db)
  | OpExpireGrants => outcome (ExpireGrants env db)
  | OpFileRequest actor wsID host port j => outcome (FileRequest env actor wsID host port j db)
  | OpDecide actor id approve ttl => outcome (Decide env actor id approve ttl db)
  | OpRecordDenial wsID host port => outcome (RecordDenial env wsID host port db)
  | OpAuditSystem action detail => outcome (AuditSystem env action detail db)
  end.

(** Transactions one after the other, each with its own time, identifiers and
faults. *)
Inductive store_step : DB → DB → Prop :=
| store_step_exec env op db : store_step db (exec env op db).2.

Definition reachable (db : DB) : Prop := rtc store_step migrated_db db.
End statements.
