(* ===== verification/StoreInv.v ===== *)
(** * The schema invariant of the store

A small program logic for the transactions of [Store.v] (partial-correctness
triples over the tables), the invariant [db_ok] that the schema and the code
keep together, the part [db_at False] of it that the schema keeps alone, and the proof that
every operation preserves both. *)
From S2P Require Import Prelude GoLib Regex Policy Json Store.
From stdpp Require Import gmap strings list sorting fin_maps.

(** ** Triples *)
Definition triple {A} (P : DB → Prop) (m : Tx A) (Q : A → DB → Prop) : Prop :=
  ∀ st a st', P (tx_db st) → m st = Ok (a, st') → Q a (tx_db st').

Lemma triple_weaken {A} (P P' : DB → Prop) (m : Tx A) (Q Q' : A → DB → Prop) :
  triple P' m Q' → (∀ db, P db → P' db) → (∀ a db, Q' a db → Q a db) → triple P m Q.
Proof. intros Hm HP HQ st a st' Hst Heq. eapply HQ, Hm; eauto. Qed.

Lemma triple_ret {A} (P : DB → Prop) (a : A) (Q : A → DB → Prop) :
  (∀ db, P db → Q a db) → triple P (mret a) Q.
Proof. intros HPQ st a' st' Hst [= <- <-]. auto. Qed.

Lemma triple_bind {A B} (P : DB → Prop) (m : Tx A) (Q : A → DB → Prop)
    (k : A → Tx B) (R : B → DB → Prop) :
  triple P m Q → (∀ a, triple (Q a) (k a) R) → triple P (m ≫= k) R.
Proof.
  intros Hm Hk st b st' Hst. unfold mbind, Tx_bind.
  destruct (m st) as [[a st1]|] eqn:E; [|done]. intros Heq.
  eapply Hk; [|exact Heq]. eapply Hm; eauto.
Qed.

Lemma triple_throw {A} (P : DB → Prop) e (Q : A → DB → Prop) : triple P (throw e) Q.
Proof. by intros st a st' _ ?. Qed.

Lemma triple_stmt {A} (P : DB → Prop) f (Q : A → DB → Prop) :
  (∀ st a st', P (tx_db st) → f st = Ok (a, st') → Q a (tx_db st')) →
  triple P (stmt f) Q.
Proof.
  intros Hf st a st' Hst. unfold stmt.
  destruct (tx_faults st) as [|[e|] fs]; intros Heq; [|done|]; by eapply Hf; [|exact Heq].
Qed.

Lemma triple_sql {A} (P : DB → Prop) f (Q : A → DB → Prop) :
  (∀ db a db', P db → f db = Ok (a, db') → Q a db') → triple P (sql f) Q.
Proof.
  intros Hf. apply triple_stmt. intros st a st' Hst.
  destruct (f (tx_db st)) as [[a' db']|] eqn:E; [|done]. intros [= <- <-]. eapply Hf; eauto.
Qed.

Lemma triple_audit (P : DB → Prop) env actor action detail (Q : unit → DB → Prop) :
  (∀ db, P db → Q () (set_audit db
    (audit_log db ++ [mkAuditRow (now env) actor action detail]))) →
  triple P (audit env actor action detail) Q.
Proof. intros HP. apply triple_sql. intros db [] db' Hdb [= <-]. auto. Qed.

Lemma triple_one (P : DB → Prop) n (Q : unit → DB → Prop) :
  (∀ db, P db → n ≠ 0 → Q () db) → triple P (one n) Q.
Proof.
  intros HP. unfold one. destruct (Nat.eqb_spec n 0); [apply triple_throw|].
  apply triple_ret. auto.
Qed.

(** A loop of statements keeps an invariant each of them keeps. *)
Lemma triple_foldr {A} (P : DB → Prop) (f : A → Tx unit) (l : list A) :
  (∀ x, x ∈ l → triple P (f x) (λ _, P)) →
  triple P (foldr (λ x (k : Tx unit), _ ← f x; k) (mret ()) l) (λ _, P).
Proof.
  induction l as [|x l IH]; intros Hf; simpl; [by apply triple_ret|].
  eapply triple_bind; [apply Hf; set_solver|]. intros []. apply IH. set_solver.
Qed.

(** What a transaction does to the database: all of [fn] or nothing. When it reports an error
it may be either. *)
Lemma run_tx_spec {A} env (fn : Tx A) db (Q : A → DB → Prop) :
  triple (λ d, d = db) fn Q →
  match run_tx env fn db with
  | (Ok a, db') => Q a db'
  | (Err _, db') => db' = db ∨ ∃ a, Q a db'
  end.
Proof.
  intros Hfn. unfold run_tx.
  assert (triple (λ d, d = db)
    (_ ← sql (λ db, Ok ((), db)); a ← fn; _ ← sql (λ db, Ok ((), db)); mret a) Q) as Hb.
  { eapply triple_bind; [apply (triple_sql _ _ (λ _ d, d = db)); by intros ??? -> [= <- <-]|].
    intros []. eapply triple_bind; [exact Hfn|]. intros a.
    eapply triple_bind; [apply (triple_sql _ _ (λ _ d, Q a d)); by intros ???? [= <- <-]|].
    intros []. by apply triple_ret. }
  destruct (_ : result error (A * TxState)) as [[a st]|] eqn:E; [|by left].
  assert (Q a (tx_db st)) as HQ by (by eapply (Hb _ _ _ _ E)).
  destruct (ack_lost env); eauto.
Unshelve. done.
Qed.

Lemma run_tx_inv {A} env (fn : Tx A) db (I : DB → Prop) :
  triple I fn (λ _, I) → I db → I (run_tx env fn db).2.
Proof.
  intros Hfn Hdb. pose proof (run_tx_spec env fn db (λ _, I)) as Hr.
  destruct (run_tx env fn db) as [[a|e] db']; simpl.
  - apply Hr. eapply triple_weaken; [exact Hfn|by intros ? ->|done].
  - destruct Hr as [->|[a ?]]; [|done..]. eapply triple_weaken; [exact Hfn|by intros ? ->|done].
Qed.

(** ** The invariant *)
Definition rule_of (r : RuleRec) : Rule := mkRule (r_kind r) (r_value r) (r_port r).

(** Names are well formed and unique, and at most one zone is the default. *)
Definition zones_ok (zs : gmap string ZoneRow) : Prop :=
  (∀ i z, zs !! i = Some z → rmatch zone_nameRE (z_name z) = true) ∧
  (∀ i j y z, zs !! i = Some y → zs !! j = Some z → z_name y = z_name z → i = j) ∧
  (∀ i j y z, zs !! i = Some y → zs !! j = Some z →
    z_is_default y = true → z_is_default z = true → i = j).

(** Rules meet the schema's checks and the code's validation, a zone rule's zone
exists, and no zone holds the same rule twice. *)
Definition rules_ok (zs : gmap string ZoneRow) (rs : gmap string RuleRec) : Prop :=
  (∀ i r, rs !! i = Some r → rule_checks r = true ∧ ValidRule (rule_of r) = true ∧
    ∀ z, r_zone_id r = Some z → is_Some (zs !! z)) ∧
  (∀ i j r r' z, rs !! i = Some r → rs !! j = Some r' →
    r_zone_id r = Some z → r_zone_id r' = Some z → rule_of r = rule_of r' → i = j).

(** An explicit assignment names an existing zone that is not the default. *)
Definition assignments_ok (zs : gmap string ZoneRow) (m : gmap string AssignRow) : Prop :=
  ∀ w a, m !! w = Some a → ∃ z, zs !! a_zone_id a = Some z ∧ z_is_default z = false.

(** A request asks for a valid host rule; it is pending and undecided, or decided
by somebody at some time. *)
Definition request_ok (q : RequestRow) : Prop :=
  request_checks q = true ∧ ValidRule (mkRule "host" (q_host q) (q_port q)) = true ∧
  ((q_status q = "pending" ∧ q_decided_by q = None ∧ q_decided_at q = None ∧ q_ttl q = None) ∨
   (q_status q = "approved" ∧ is_Some (q_decided_by q) ∧ is_Some (q_decided_at q) ∧
      is_Some (q_ttl q)) ∨
   (q_status q = "denied" ∧ is_Some (q_decided_by q) ∧ is_Some (q_decided_at q) ∧
      q_ttl q = None)).

(** ... and no workspace has two pending requests for one destination. *)
Definition requests_ok (m : gmap string RequestRow) : Prop :=
  (∀ i q, m !! i = Some q → request_ok q) ∧
  (∀ i j q q', m !! i = Some q → m !! j = Some q' → q_status q = "pending" →
    same_pending (q_workspace_id q) (q_host q) (q_port q) q' → i = j).

(** Denial counters fit their column and a workspace keeps at most 200 rows. *)
Definition denials_ok (db : DB) : Prop :=
  (∀ k d, denials db !! k = Some d →
    (1 ≤ d_count d ≤ max_int32)%Z ∧ (d_first_seen d ≤ d_last_seen d)%Z) ∧
  (∀ ws, length (denials_of db ws) ≤ denial_cap).

Definition db_ok (db : DB) : Prop :=
  zones_ok (zones db) ∧ rules_ok (zones db) (rules db) ∧
  assignments_ok (zones db) (assignments db) ∧ requests_ok (requests db) ∧ denials_ok db.

(** What holds of it also when operations see outdated databases ([serial] false): the
constraints that the schema states. That an assignment does not name the default zone and that
there is one pending request per destination are left to the code. *)
Definition assignments_at (serial : Prop) (zs : gmap string ZoneRow) (m : gmap string AssignRow) : Prop :=
  ∀ w a, m !! w = Some a → ∃ z, zs !! a_zone_id a = Some z ∧ (serial → z_is_default z = false).
Definition requests_at (serial : Prop) (m : gmap string RequestRow) : Prop :=
  (∀ i q, m !! i = Some q → request_ok q) ∧
  (serial → ∀ i j q q', m !! i = Some q → m !! j = Some q' → q_status q = "pending" →
    same_pending (q_workspace_id q) (q_host q) (q_port q) q' → i = j).
Definition db_at (serial : Prop) (db : DB) : Prop :=
  zones_ok (zones db) ∧ rules_ok (zones db) (rules db) ∧
  assignments_at serial (zones db) (assignments db) ∧ requests_at serial (requests db) ∧ denials_ok db.

Lemma db_at_True db : db_at True db ↔ db_ok db.
Proof.
  unfold db_at, db_ok, assignments_at, assignments_ok, requests_at, requests_ok.
  split; intros (? & ? & Ha & [? Hq] & ?); 
    (split_and!; [done|done| |done|first [by intros _|by apply Hq]|done]);
    intros w a Hw; destruct (Ha w a Hw) as (z & ? & ?); eauto.
Qed.

Lemma db_ok_schema db : db_ok db → db_at False db.
Proof.
  intros (? & ? & Ha & [? _] & ?). split; [done|]. split; [done|]. split; [|by split; [split|]].
  intros w a Hw. destruct (Ha w a Hw) as (z & ? & _). by exists z.
Qed.

(** ** Statements and the invariant *)
Section preservation.
Context `{Postgres} (serial : Prop).
Abbreviation ok := (db_at serial).

Lemma name_taken_false m id name j z :
  name_taken m id name = false → m !! j = Some z → z_name z = name → j = id.
Proof.
  intros Hn Hj Hz. apply bool_decide_eq_false in Hn. apply dec_stable. intros Hne.
  apply Hn. exists j, z. auto.
Qed.

Lemma default_taken_false m id j z :
  default_taken m id = false → m !! j = Some z → z_is_default z = true → j = id.
Proof.
  intros Hn Hj Hz. apply bool_decide_eq_false in Hn. apply dec_stable. intros Hne.
  apply Hn. exists j, z. auto.
Qed.

Lemma put_zone_Ok m id z m' :
  put_zone m id z = Ok m' →
  m' = <[id := z]> m ∧ rmatch zone_nameRE (z_name z) = true ∧
  name_taken m id (z_name z) = false ∧ (z_is_default z = true → default_taken m id = false).
Proof.
  unfold put_zone. destruct (rmatch zone_nameRE (z_name z)) eqn:E1; [|done].
  destruct (name_taken m id (z_name z)) eqn:E2; [done|].
  destruct (z_is_default z) eqn:E3, (default_taken m id) eqn:E4; simpl; try done;
    intros [= <-]; auto.
Qed.

Lemma put_zone_ok m id z m' : put_zone m id z = Ok m' → zones_ok m → zones_ok m'.
Proof.
  intros (-> & Hn & Ht & Hd)%put_zone_Ok (H1 & H2 & H3). split_and!.
  - intros i y. rewrite lookup_insert. case_decide; [by intros [= <-]|apply H1].
  - intros i j y y'. rewrite !lookup_insert.
    case_decide; case_decide; simplify_eq; [done| | |eauto].
    + intros [= <-] Hj Heq. symmetry. by eapply name_taken_false.
    + intros Hi [= <-] Heq. by eapply name_taken_false.
  - intros i j y y'. rewrite !lookup_insert.
    case_decide; case_decide; simplify_eq; [done| | |eauto].
    + intros [= <-] Hj Hdz Hdj. symmetry. eapply default_taken_false; eauto.
    + intros Hi [= <-] Hdi Hdz. eapply default_taken_false; eauto.
Qed.

Lemma zones_ok_delete m id : zones_ok m → zones_ok (delete id m).
Proof.
  intros (H1 & H2 & H3). split_and!.
  - intros i z [_ Hz]%lookup_delete_Some. eauto.
  - intros i j y z [_ ?]%lookup_delete_Some [_ ?]%lookup_delete_Some. eauto.
  - intros i j y z [_ ?]%lookup_delete_Some [_ ?]%lookup_delete_Some. eauto.
Qed.

(** Rules and assignments survive a change of [zones] that keeps their zones. *)
Lemma rules_ok_zones zs zs' rs :
  (∀ z, is_Some (zs !! z) → is_Some (zs' !! z)) → rules_ok zs rs → rules_ok zs' rs.
Proof.
  intros Hz [H1 H2]. split; [|exact H2]. intros i r Hr.
  destruct (H1 i r Hr) as (? & ? & ?). eauto.
Qed.

Lemma rules_ok_sub zs rs rs' :
  (∀ i r, rs' !! i = Some r → rs !! i = Some r) → rules_ok zs rs → rules_ok zs rs'.
Proof. intros Hsub [H1 H2]. split; eauto 8. Qed.

Lemma assignments_ok_sub zs m m' :
  (∀ w a, m' !! w = Some a → m !! w = Some a) → assignments_at serial zs m → assignments_at serial zs m'.
Proof. intros Hsub Hm w a Ha. eauto. Qed.

Lemma insert_zone_Ok t name def st id st' :
  insert_zone t name def st = Ok (id, st') →
  id = tx_uuids st 0 ∧ zones (tx_db st) !! id = None ∧
  ∃ m, put_zone (zones (tx_db st)) id (mkZoneRow name def t) = Ok m ∧
    tx_db st' = set_zones (tx_db st) m.
Proof.
  unfold insert_zone. simpl. destruct (zones (tx_db st) !! tx_uuids st 0) eqn:E; [done|].
  intros (m & Hm & [= <- <-])%result_bind_Ok. eauto.
Qed.

Lemma insert_rule_Ok r st u st' :
  insert_rule r st = Ok (u, st') →
  rules (tx_db st) !! tx_uuids st 0 = None ∧
  rule_checks r = true ∧ rule_taken (rules (tx_db st)) r = false ∧
  zone_exists (zones (tx_db st)) (r_zone_id r) = true ∧
  tx_db st' = set_rules (tx_db st) (<[tx_uuids st 0 := r]> (rules (tx_db st))).
Proof.
  unfold insert_rule. simpl. destruct (rule_checks r); [|done]. simpl.
  case_bool_decide as Hid; [done|]. simpl.
  destruct (rule_taken (rules (tx_db st)) r); [done|].
  destruct (zone_exists _ _); [|done]. intros [= <- <-]. simpl.
  rewrite <- eq_None_not_Some in Hid. auto.
Qed.

Lemma rule_taken_false m r i r' z :
  rule_taken m r = false → r_zone_id r = Some z → m !! i = Some r' →
  r_zone_id r' = Some z → rule_of r' ≠ rule_of r.
Proof.
  unfold rule_taken. intros Ht Hz Hi Hz' [= Hk Hv Hp]. rewrite Hz in Ht. simpl in Ht.
  apply bool_decide_eq_false in Ht. apply Ht. exists i, r'. auto.
Qed.

Lemma rules_ok_insert zs rs id r :
  rs !! id = None → rule_checks r = true → ValidRule (rule_of r) = true →
  rule_taken rs r = false → zone_exists zs (r_zone_id r) = true →
  rules_ok zs rs → rules_ok zs (<[id := r]> rs).
Proof.
  intros Hid Hc Hv Ht Hz [H1 H2]. split.
  - intros i r'. rewrite lookup_insert. case_decide; [|apply H1]. intros [= <-].
    split_and!; [done..|]. intros z Hzr. rewrite Hzr in Hz. simpl in Hz. by bsimp.
  - intros i j r1 r2 z. rewrite !lookup_insert.
    case_decide; case_decide; simplify_eq; [done| | |eauto].
    + intros [= <-] Hj Hz1 Hz2 Heq. by destruct (rule_taken_false rs r j r2 z).
    + intros Hi [= <-] Hz1 Hz2 Heq. by destruct (rule_taken_false rs r i r1 z).
Qed.

(** A new rule row keeps the whole invariant. *)
Lemma ok_insert_rule r st u st' :
  ValidRule (rule_of r) = true → insert_rule r st = Ok (u, st') →
  ok (tx_db st) → ok (tx_db st').
Proof.
  intros Hv (Hid & Hc & Ht & Hz & ->)%insert_rule_Ok (? & Hr & ? & ? & ?).
  split_and!; [done| |done|done|done]. by apply rules_ok_insert.
Qed.

Lemma ok_insert_rules rs st u st' :
  Forall (λ r, ValidRule (rule_of r) = true) rs → insert_rules rs st = Ok (u, st') →
  ok (tx_db st) → ok (tx_db st').
Proof.
  intros Hrs. revert st. induction Hrs as [|r rs Hr Hrs IH]; simpl; intros st.
  - by intros [= <- <-].
  - intros ([u1 st1] & H1 & H2)%result_bind_Ok Hok. eapply IH; [exact H2|].
    by eapply ok_insert_rule.
Qed.

Lemma ok_insert_zone t name def st id st' :
  insert_zone t name def st = Ok (id, st') → ok (tx_db st) → ok (tx_db st').
Proof.
  intros (_ & Hid & m & Hm & ->)%insert_zone_Ok (Hz & Hr & Ha & ? & ?).
  pose proof (put_zone_ok _ _ _ _ Hm Hz). apply put_zone_Ok in Hm as (-> & _).
  split_and!; simpl; [done| | |done|done].
  - eapply rules_ok_zones; [|exact Hr]. intros z Hs. by apply lookup_insert_is_Some'; right.
  - intros w a Hw. destruct (Ha w a Hw) as (z & Hz1 & Hz2). exists z. split; [|done].
    rewrite lookup_insert_ne; congruence.
Qed.

(** Requests: filing and deciding. *)
Lemma no_pending_found db w host port :
  head (map_to_list (filter (λ kq, same_pending w host port kq.2) (requests db))).*1 = None →
  ∀ i q, requests db !! i = Some q → ¬ same_pending w host port q.
Proof.
  intros Hh i q Hi Hq.
  assert ((i, q) ∈ map_to_list (filter (λ kq, same_pending w host port kq.2) (requests db)))
    as Hin by (apply elem_of_map_to_list, map_lookup_filter_Some; auto).
  destruct (map_to_list _) as [|[]]; [set_solver|done].
Qed.

Lemma requests_ok_file m id q :
  m !! id = None → request_ok q → q_status q = "pending" →
  (serial → ∀ i q', m !! i = Some q' → ¬ same_pending (q_workspace_id q) (q_host q) (q_port q) q') →
  requests_at serial m → requests_at serial (<[id := q]> m).
Proof.
  intros Hid Hq Hp Hno [H1 H2]. split.
  - intros i q'. rewrite lookup_insert. case_decide; [by intros [= <-]|apply H1].
  - intros Hser i j q1 q2. specialize (Hno Hser). specialize (H2 Hser). rewrite !lookup_insert.
    case_decide; case_decide; simplify_eq; [done| | |eauto].
    + intros [= <-] Hj _ Hs. by destruct (Hno j q2 Hj).
    + intros Hi [= <-] Hp1 (E1 & E2 & E3 & E4). destruct (Hno i q1 Hi). by split_and!.
Qed.

Lemma requests_ok_decide m id q q' :
  m !! id = Some q → request_ok q' → q_status q' ≠ "pending" →
  requests_at serial m → requests_at serial (<[id := q']> m).
Proof.
  intros Hid Hq Hp [H1 H2]. split.
  - intros i q1. rewrite lookup_insert. case_decide; [by intros [= <-]|apply H1].
  - intros Hser i j q1 q2. specialize (H2 Hser).
    rewrite !lookup_insert. case_decide; case_decide; simplify_eq; [done| | |].
    + intros [= <-] Hj ?. done.
    + intros Hi [= <-] ? (_ & _ & _ & ?). done.
    + intros Hi Hj ? ?. by eapply (H2 i j).
Qed.

(** Denials: a list of distinct rows that are all among [l2] is no longer. *)
Lemma NoDup_length_incl {A} (l1 l2 : list A) :
  NoDup l1 → (∀ x, x ∈ l1 → x ∈ l2) → length l1 ≤ length l2.
Proof. intros Hnd Hin. by apply submseteq_length, NoDup_submseteq. Qed.

Lemma elem_of_denials_of db ws k d :
  (k, d) ∈ denials_of db ws ↔ denials db !! k = Some d ∧ k.1.1 = ws.
Proof.
  unfold denials_of. rewrite list_elem_of_filter, elem_of_map_to_list. simpl. tauto.
Qed.

Lemma NoDup_denials_of db ws : NoDup (denials_of db ws).
Proof. apply NoDup_filter, NoDup_map_to_list. Qed.

Lemma NoDup_denials_keys db ws : NoDup (denials_of db ws).*1.
Proof.
  apply NoDup_fmap_2_strong; [|apply NoDup_denials_of].
  intros [k d] [k' d'] [? _]%elem_of_denials_of [? _]%elem_of_denials_of ?. by simplify_eq/=.
Qed.

(** Denials of a workspace whose keys are all among another database's. *)
Lemma denials_of_length_le db db' ws :
  (∀ k, is_Some (denials db' !! k) → k.1.1 = ws → is_Some (denials db !! k)) →
  length (denials_of db' ws) ≤ length (denials_of db ws).
Proof.
  intros Hk. rewrite <- (length_fmap fst (denials_of db' ws)), <- (length_fmap fst (denials_of db ws)).
  apply NoDup_length_incl; [apply NoDup_denials_keys|].
  intros k ([k' d'] & -> & [Hd Hw]%elem_of_denials_of)%list_elem_of_fmap. simpl in *.
  destruct (Hk k') as [d Hd']; [eauto|done|]. apply list_elem_of_fmap.
  exists (k', d). split; [done|]. by apply elem_of_denials_of.
Qed.

(** Dropping the rows past the cap leaves at most the cap. *)
Lemma denials_capped db ws :
  length (denials_of (set_denials db
    (filter (λ kd, kd.1 ∉ denials_over_cap db ws) (denials db))) ws) ≤ denial_cap.
Proof.
  set (l := merge_sort denial_le (denials_of db ws)).
  trans (length (take denial_cap l)); [|rewrite length_take; lia].
  apply NoDup_length_incl; [apply NoDup_denials_of|].
  intros [k d] [[Hd Hk]%map_lookup_filter_Some Hw]%elem_of_denials_of. simpl in *.
  assert ((k, d) ∈ take denial_cap l ++ drop denial_cap l) as Hin.
  { rewrite take_drop. apply elem_of_merge_sort. by apply elem_of_denials_of. }
  apply elem_of_app in Hin as [?|Hdrop]; [done|]. exfalso. apply Hk.
  apply list_elem_of_fmap. by exists (k, d).
Qed.

Lemma over_cap_ws db ws k : k ∈ denials_over_cap db ws → k.1.1 = ws.
Proof.
  unfold denials_over_cap. intros ([k' d] & -> & Hd)%list_elem_of_fmap. simpl.
  assert ((k', d) ∈ merge_sort denial_le (denials_of db ws)) as Hin.
  { rewrite <- (take_drop denial_cap). apply elem_of_app. by right. }
  by apply elem_of_merge_sort, elem_of_denials_of in Hin as [_ ?].
Qed.

(** The upsert keeps the counters in range and adds a key only when it reports an
insertion. *)
Lemma upsert_denial_Ok t k db b db' :
  upsert_denial t k db = Ok (b, db') →
  (∀ k d, denials db !! k = Some d →
    (1 ≤ d_count d ≤ max_int32)%Z ∧ (d_first_seen d ≤ d_last_seen d)%Z) →
  (∀ k d, denials db' !! k = Some d →
    (1 ≤ d_count d ≤ max_int32)%Z ∧ (d_first_seen d ≤ d_last_seen d)%Z) ∧
  (∃ m, db' = set_denials db m) ∧
  (∀ k', k' ≠ k → denials db' !! k' = denials db !! k') ∧
  (b ≠ Some true → is_Some (denials db !! k)).
Proof.
  unfold upsert_denial. intros Hu Hok.
  destruct (denials db !! k) as [d|] eqn:Ek.
  - destruct (Hok k d Ek) as [Hc Hf]. destruct (Z.ltb_spec (d_last_seen d) (t - second_us)).
    + destruct (Z.ltb_spec max_int32 (d_count d + 1)); [done|]. simplify_eq/=.
      split_and!; [|eauto|intros; by rewrite lookup_insert_ne|eauto].
      intros k' d'. rewrite lookup_insert. case_decide; [|apply Hok]. intros [= <-]. simpl.
      unfold second_us in *. lia.
    + simplify_eq/=. split_and!; [done| |done|eauto]. exists (denials db'). by destruct db'.
  - simplify_eq/=. split_and!; [|eauto|intros; by rewrite lookup_insert_ne|done].
    intros k' d'. rewrite lookup_insert. case_decide; [|apply Hok]. intros [= <-]. simpl.
    unfold max_int32. lia.
Qed.

(** ** Operations and the invariant *)
Lemma triple_audit_ok env actor action detail :
  triple ok (audit env actor action detail) (λ _, ok).
Proof. by apply triple_audit. Qed.

Lemma triple_insert_rule_ok id f :
  (∀ z, ValidRule (rule_of (f z)) = true) →
  triple ok (stmt (λ st, let? z := uuid_param id in insert_rule (f z) st)) (λ _, ok).
Proof.
  intros Hf. apply triple_stmt. intros st [] st' Hok (z & _ & Hi)%result_bind_Ok.
  by eapply ok_insert_rule.
Qed.

Lemma CreateZone_ok env actor name db : ok db → ok (CreateZone env actor name db).2.
Proof.
  apply run_tx_inv. eapply triple_bind.
  - apply (triple_stmt _ _ (λ _, ok)). intros st id st' Hok Hi.
    by eapply ok_insert_zone.
  - intros id. eapply triple_bind; [apply triple_audit_ok|]. intros []. by apply triple_ret.
Qed.

Lemma Seed_torn_ok seen env db : ok db → ok (Seed_torn seen env db).2.
Proof.
  apply run_tx_inv. eapply triple_bind.
  { apply (triple_sql _ _ (λ _, ok)). by intros ??? ? [= <- <-]. }
  intros n. destruct (negb (n =? 0)); [by apply triple_ret|]. eapply triple_bind.
  { apply (triple_stmt _ _ (λ _, ok)). intros st id st' Hok Hi.
    by eapply ok_insert_zone. }
  intros id. apply (triple_bind _ _ (λ _, ok)); [|intros []; apply triple_audit_ok].
  apply (triple_foldr ok (λ port, stmt (λ st, let? z := uuid_param id in
    insert_rule (mkRuleRec (Some z) None "host" "example.com" port None
      "bootstrap" (now env)) st))).
  intros port Hp. apply triple_insert_rule_ok. intros z.
  repeat (apply elem_of_cons in Hp as [->|Hp]; [by vm_compute|]). set_solver.
Qed.

Lemma CloneZone_ok env actor src name db :
  ok db → ok (CloneZone env actor src name db).2.
Proof.
  apply run_tx_inv. eapply triple_bind.
  { apply (triple_stmt _ _ (λ _, ok)). intros st o st' Hok (u & _ & Hi)%result_bind_Ok.
    case_bool_decide; [|by simplify_eq].
    destruct (insert_zone _ _ _ _) as [[id st1]|] eqn:E; simplify_eq.
    by eapply ok_insert_zone. }
  intros [id|]; [|apply triple_throw]. eapply triple_bind.
  { apply (triple_stmt _ _ (λ _, ok)).
    intros st o st' Hok (u & _ & (z & _ & Hi)%result_bind_Ok)%result_bind_Ok.
    eapply ok_insert_rules; [|exact Hi|done]. apply Forall_fmap, Forall_forall.
    intros r [_ ([i r'] & -> & Hr%elem_of_map_to_list)%list_elem_of_fmap]%list_elem_of_filter.
    destruct Hok as (_ & [Hr1 _] & _). by apply (Hr1 i r'). }
  intros []. eapply triple_bind; [apply triple_audit_ok|]. intros []. by apply triple_ret.
Qed.

Lemma RenameZone_ok env actor id name db : ok db → ok (RenameZone env actor id name db).2.
Proof.
  apply run_tx_inv. eapply triple_bind.
  - apply (triple_sql _ _ (λ _, ok)).
    intros d n d' (Hz & Hr & Ha & Hq & Hd) (u & _ & Hu)%result_bind_Ok.
    destruct (zones d !! u) as [z|] eqn:Ez; [|by simplify_eq; split_and!].
    apply result_bind_Ok in Hu as (m & Hm & [= <- <-]).
    pose proof (put_zone_ok _ _ _ _ Hm Hz). apply put_zone_Ok in Hm as (-> & _).
    split_and!; simpl; [done| | |done|done].
    + eapply rules_ok_zones; [|exact Hr]. intros y Hs. by apply lookup_insert_is_Some'; right.
    + intros w a Hw. destruct (Ha w a Hw) as (y & Hy & Hdef).
      destruct (decide (u = a_zone_id a)) as [->|].
      * rewrite lookup_insert_eq. eexists. split; [done|]. simpl. intros Hser%Hdef. congruence.
      * exists y. by rewrite lookup_insert_ne.
  - intros n. eapply triple_bind; [by apply (triple_one _ _ (λ _, ok))|].
    intros []. apply triple_audit_ok.
Qed.

Lemma DeleteZone_torn_ok seen env actor id db : ok db → ok (DeleteZone_torn seen env actor id db).2.
Proof.
  apply run_tx_inv. eapply triple_bind.
  { apply (triple_sql _ _ (λ _, ok)). by intros d n d' Hok (u & _ & [= <- <-])%result_bind_Ok. }
  intros [[def assigned]|]; [|apply triple_throw].
  destruct (def || assigned); [apply triple_throw|]. eapply triple_bind.
  { apply (triple_sql _ _ (λ _, ok)).
    intros d [] d' (Hz & Hr & Ha & Hq & Hd) (u & _ & Hu)%result_bind_Ok.
    unfold delete_zone in Hu. destruct (has_assignments d u) eqn:Eu; [done|].
    injection Hu as <-. split_and!; simpl; [by apply zones_ok_delete| | |done|done].
    - destruct Hr as [Hr1 Hr2]. split.
      + intros i r [Hi Hne]%map_lookup_filter_Some.
        destruct (Hr1 i r Hi) as (? & ? & Hz'). split_and!; [done..|]. intros z Hzr.
        simpl in Hne. rewrite lookup_delete_ne; [by apply Hz'|congruence].
      + intros i j r r' z [Hi _]%map_lookup_filter_Some [Hj _]%map_lookup_filter_Some. eauto.
    - intros w a Hw. destruct (Ha w a Hw) as (z & Hzz & ?). exists z. split; [|done].
      rewrite lookup_delete_ne; [done|]. intros ->. unfold has_assignments in Eu.
      apply bool_decide_eq_false in Eu. apply Eu. by exists w, a. }
  intros []. apply triple_audit_ok.
Qed.

(** Between its second and third statements [SetDefaultZone] may have assignments
that name the new default zone; the third removes them. *)
(** The first update of [SetDefaultZone] leaves no default zone and keeps the rest. *)
Lemma clear_zones_ok d :
  ok d →
  let zs := (λ z, if z_is_default z then mkZoneRow (z_name z) false (z_created_at z) else z)
              <$> zones d in
  zones_ok zs ∧ rules_ok zs (rules d) ∧ assignments_at serial zs (assignments d) ∧
  requests_at serial (requests d) ∧ denials_ok d ∧ ∀ i z, zs !! i = Some z → z_is_default z = false.
Proof.
  intros ((H1 & H2 & H3) & Hr & Ha & Hq & Hd) zs.
  assert (∀ i z, zs !! i = Some z →
      z_is_default z = false ∧ ∃ y, zones d !! i = Some y ∧ z_name y = z_name z) as Hlk.
  { intros i z. unfold zs. rewrite lookup_fmap. intros (y & Hy & ->)%fmap_Some.
    destruct (z_is_default y) eqn:E; eauto. }
  split_and!; [| | |done|done|intros i z Hz; by destruct (Hlk i z Hz)].
  - split_and!.
    + intros i z Hz. destruct (Hlk i z Hz) as (_ & y & Hy & <-). eauto.
    + intros i j y z Hy Hz Heq. destruct (Hlk i y Hy) as (_ & y' & Hy' & E1).
      destruct (Hlk j z Hz) as (_ & z' & Hz' & E2). eapply H2; eauto. congruence.
    + intros i j y z Hy Hz Hdef. destruct (Hlk i y Hy). congruence.
  - eapply rules_ok_zones; [|exact Hr]. intros z Hz. unfold zs. by rewrite lookup_fmap, fmap_is_Some.
  - intros w a Hw. destruct (Ha w a Hw) as (z & Hz & _). unfold zs. rewrite lookup_fmap, Hz. simpl.
    eexists. split; [done|]. intros _. by destruct (z_is_default z) eqn:E.
Qed.

Lemma SetDefaultZone_ok env actor id db : ok db → ok (SetDefaultZone env actor id db).2.
Proof.
  set (P := λ d, zones_ok (zones d) ∧ rules_ok (zones d) (rules d) ∧
    assignments_at serial (zones d) (assignments d) ∧ requests_at serial (requests d) ∧ denials_ok d ∧
    ∀ i z, zones d !! i = Some z → z_is_default z = false).
  set (Q := λ n d, n ≠ 0 → ∃ u, uuid_in id = Some u ∧ zones_ok (zones d) ∧
    rules_ok (zones d) (rules d) ∧ requests_at serial (requests d) ∧ denials_ok d ∧
    ∀ w a, assignments d !! w = Some a → a_zone_id a ≠ u →
      ∃ z, zones d !! a_zone_id a = Some z ∧ (serial → z_is_default z = false)).
  apply run_tx_inv. eapply triple_bind.
  { apply (triple_sql _ _ (λ _, P)). intros d [] d' Hok [= <-]. by apply clear_zones_ok. }
  intros []. eapply triple_bind.
  { apply (triple_sql _ _ Q). intros d n d' (Hz & Hr & Ha & Hq & Hd & _) (u & Hu & Hn)%result_bind_Ok.
    unfold Q. intros Hne. exists u.
    destruct (zones d !! u) as [z|] eqn:Ez; [|by simplify_eq].
    apply result_bind_Ok in Hn as (m & Hm & [= <- <-]).
    pose proof (put_zone_ok _ _ _ _ Hm Hz). apply put_zone_Ok in Hm as (-> & _). simpl.
    unfold uuid_param in Hu. destruct (uuid_in id); simplify_eq. split_and!; [done|done| |done|done|].
    - eapply rules_ok_zones; [|exact Hr]. intros y Hs. by apply lookup_insert_is_Some'; right.
    - intros w a Hw Hau. destruct (Ha w a Hw) as (y & Hy & ?). exists y.
      by rewrite lookup_insert_ne. }
  intros n. eapply triple_bind.
  { apply (triple_one _ _ (λ _ d, Q n d ∧ n ≠ 0)). auto. }
  intros []. apply (triple_bind _ _ (λ _, ok)); [|intros []; apply triple_audit_ok].
  apply (triple_sql _ _ (λ _, ok)). intros d [] d' [HQ Hn] (u & Hu & [= <-])%result_bind_Ok.
  destruct (HQ Hn) as (u' & Hu' & ? & ? & ? & ? & Ha).
  unfold uuid_param in Hu. rewrite Hu' in Hu. simplify_eq.
  split_and!; simpl; [done|done| |done|done].
  intros w a [Hw Hne]%map_lookup_filter_Some. by eapply Ha.
Qed.

Lemma AddZoneRule_ok env actor zone r db : ok db → ok (AddZoneRule env actor zone r db).2.
Proof.
  intros Hok. unfold AddZoneRule. destruct (ValidRule r) eqn:Hv; [|done]. simpl.
  revert Hok. apply run_tx_inv. apply (triple_bind _ _ (λ _, ok)); [|intros []; apply triple_audit_ok].
  apply (triple_insert_rule_ok _ (λ z, mkRuleRec (Some z) None (rule_Kind r) (rule_Value r)
    (rule_Port r) None actor (now env))). intros z. by destruct r.
Qed.

Lemma ok_rules_sub db rs :
  (∀ i r, rs !! i = Some r → rules db !! i = Some r) → ok db → ok (set_rules db rs).
Proof.
  intros Hsub (? & Hr & ? & ? & ?). split_and!; [done| |done|done|done].
  by eapply rules_ok_sub.
Qed.

Lemma DeleteRule_ok env actor id db : ok db → ok (DeleteRule env actor id db).2.
Proof.
  apply run_tx_inv. eapply triple_bind.
  { apply (triple_sql _ _ (λ _, ok)). intros d o d' Hok (u & _ & [= <- <-])%result_bind_Ok.
    apply ok_rules_sub; [|done]. by intros i r [_ ?]%lookup_delete_Some. }
  intros [r|]; [apply triple_audit_ok|apply triple_throw].
Qed.

Lemma Assign_torn_ok seen env actor ws zone db :
  (serial → ∀ d, seen d = d) → ok db → ok (Assign_torn seen env actor ws zone db).2.
Proof.
  intros Hseen.
  set (Q := λ o d, ok d ∧ ∃ u, uuid_in zone = Some u ∧ (serial → o = z_is_default <$> zones d !! u)).
  apply run_tx_inv. eapply triple_bind.
  { apply (triple_sql _ _ Q). intros d o d' Hok (u & Hu & [= <- <-])%result_bind_Ok.
    split; [done|]. exists u. split; [|intros Hs; by rewrite Hseen].
    unfold uuid_param in Hu. by destruct (uuid_in zone); simplify_eq. }
  intros [[]|]; [| |apply triple_throw].
  all: apply (triple_bind _ _ (λ _, ok)); [|intros []; apply triple_audit_ok].
  all: apply triple_sql; intros d [] d' [(? & ? & Ha & ? & ?) (u & Hu & Ho)]
    (w & _ & Hw)%result_bind_Ok.
  - injection Hw as <-. split_and!; [done|done| |done|done].
    eapply assignments_ok_sub; [|exact Ha]. simpl. by intros i a [_ ?]%lookup_delete_Some.
  - apply result_bind_Ok in Hw as (z & Hz & Hw). unfold uuid_param in Hz.
    rewrite Hu in Hz. injection Hz as <-. simpl in Hw. case_bool_decide as Hex; [|done].
    injection Hw as <-. split_and!; [done|done| |done|done]. intros i a. simpl. rewrite lookup_insert.
    case_decide; [|apply Ha]. intros [= <-]. simpl. destruct Hex as [y Hy]. exists y.
    split; [done|]. intros Hs. rewrite Hy in Ho. by specialize (Ho Hs) as [= <-].
Qed.

Lemma grant_ok env actor ws r ttl extra :
  triple ok (grant env actor ws r ttl extra) (λ _, ok).
Proof.
  unfold grant. destruct (ValidRule r) eqn:Hv; [|apply triple_throw]. simpl.
  destruct (ttl <=? 0)%Z; [apply triple_throw|]. eapply triple_bind.
  - apply (triple_insert_rule_ok _ (λ w, mkRuleRec None (Some w) (rule_Kind r) (rule_Value r)
      (rule_Port r) (Some (now env + interval_secs ttl)%Z) actor (now env))).
    intros z. by destruct r.
  - intros []. destruct (foldl _ _ extra). apply triple_audit_ok.
Qed.

Lemma ExpireGrants_ok env db : ok db → ok (ExpireGrants env db).2.
Proof.
  apply run_tx_inv. eapply triple_bind.
  { apply (triple_sql _ _ (λ _, ok)). intros d o d' Hok [= <- <-].
    apply ok_rules_sub; [|done]. by intros i r [? _]%map_lookup_filter_Some. }
  intros gone. apply (triple_bind _ _ (λ _, ok)); [|intros []; by apply triple_ret].
  apply (triple_foldr ok (λ r, audit env "system" "expire" _)).
  intros r _. apply triple_audit_ok.
Qed.

Lemma FileRequest_torn_ok seen env actor ws host port j db :
  (serial → ∀ d, seen d = d) → ok db → ok (FileRequest_torn seen env actor ws host port j db).2.
Proof.
  intros Hseen Hok. unfold FileRequest_torn.
  destruct (ValidRule (mkRule "host" host port)) eqn:Hv; [|done]. simpl.
  set (Q := λ (o : option string) d, ok d ∧ (serial → o = None → ∀ w, uuid_in ws = Some w →
    ∀ i q, requests d !! i = Some q → ¬ same_pending w host port q)).
  revert Hok. apply run_tx_inv. eapply triple_bind.
  { apply (triple_sql _ _ Q). intros d o d' Hok (u & Hu & [= <- <-])%result_bind_Ok.
    split; [done|]. intros Hs Ho w Hw. unfold uuid_param in Hu. rewrite Hw in Hu.
    injection Hu as <-. rewrite Hseen in Ho by done. by apply no_pending_found. }
  intros [id|]; [apply triple_ret; by intros ? []|]. eapply triple_bind.
  { apply (triple_stmt _ _ (λ _, ok)).
    intros st id st' [(? & ? & ? & Hq & ?) Hno] (w & Hw & Hi)%result_bind_Ok.
    unfold insert_request in Hi. simpl in Hi.
    destruct (request_checks _) eqn:Hc; [|done]. simpl in Hi.
    case_bool_decide as Hid; [done|]. injection Hi as <- <-. simpl.
    split_and!; [done|done|done| |done].
    rewrite <- eq_None_not_Some in Hid. apply requests_ok_file; simpl; [done| |done| |done].
    - split_and!; [done|done|]. by left.
    - intros Hs. apply Hno; [done|done|]. unfold uuid_param in Hw. by destruct (uuid_in ws); simplify_eq. }
  intros id. eapply triple_bind; [apply triple_audit_ok|]. intros []. by apply triple_ret.
Qed.

Lemma Decide_ok env actor id approve ttl db :
  ok db → ok (Decide env actor id approve ttl db).2.
Proof.
  apply run_tx_inv. eapply triple_bind.
  { apply (triple_sql _ _ (λ _, ok)).
    intros d o d' Hok (u & _ & Hu)%result_bind_Ok.
    destruct (requests d !! u) as [q|] eqn:Eq; [|by simplify_eq].
    destruct (String.eqb_spec (q_status q) "pending") as [Hp|]; [|by simplify_eq].
    injection Hu as <- <-. destruct Hok as (? & ? & ? & [Hq1 Hq2] & ?).
    destruct (Hq1 u q Eq) as (Hc & Hv & _).
    split_and!; [done|done|done| |done]. apply (requests_ok_decide _ _ q); [done| | |done].
    - split_and!; [done|done|]. simpl. right. destruct approve; [left|right]; eauto.
    - simpl. by destruct approve. }
  intros [q|]; [|apply triple_throw]. destruct approve; simpl.
  - apply grant_ok.
  - apply triple_audit_ok.
Qed.

Lemma RecordDenial_ok env ws host port db :
  ok db → ok (RecordDenial env ws host port db).2.
Proof.
  set (Q := λ b d, ok (set_denials d ∅) ∧
    (∀ k r, denials d !! k = Some r →
      (1 ≤ d_count r ≤ max_int32)%Z ∧ (d_first_seen r ≤ d_last_seen r)%Z) ∧
    (∀ w, (b = Some true → uuid_in ws ≠ Some w) → length (denials_of d w) ≤ denial_cap)).
  apply run_tx_inv. eapply triple_bind.
  { apply (triple_sql _ _ Q).
    intros d b d' (? & ? & ? & ? & [Hd1 Hd2]) (u & Hu & (p & _ & Hp)%result_bind_Ok)%result_bind_Ok.
    destruct (upsert_denial_Ok _ _ _ _ _ Hp Hd1) as (Hc & [m ->] & Hne & Hin).
    split_and!; [split_and!; try done|done|].
    { split; [|unfold denials_of; simpl; rewrite map_to_list_empty; simpl; lia].
      intros k r. simpl. by rewrite lookup_empty. }
    intros w Hw. trans (length (denials_of d w)); [|done].
    apply denials_of_length_le. intros k Hk Hkw.
    destruct (decide (k = (u, host, p))) as [->|]; [|by rewrite <- Hne].
    apply Hin. intros ->. apply Hw; [done|]. simpl in Hkw. subst.
    unfold uuid_param in Hu. by destruct (uuid_in ws); simplify_eq. }
  assert (∀ b d, b ≠ Some true → Q b d → ok d) as HQ.
  { intros b d Hb ((? & ? & ? & ? & _) & ? & Hl). split_and!; [done..|].
    split; [done|]. intros w. by apply Hl. }
  intros [[]|]; [|apply triple_ret; intros; by eapply HQ; [|eauto]..].
  apply triple_sql. intros d [] d' ((? & ? & ? & ? & _) & Hc & Hl) (u & Hu & [= <-])%result_bind_Ok.
  split_and!; [done..|]. split.
  - intros k r [Hk _]%map_lookup_filter_Some. eauto.
  - intros w. destruct (decide (w = u)) as [->|Hne]; [apply denials_capped|].
    trans (length (denials_of d w)).
    + apply denials_of_length_le. intros k [r [Hk _]%map_lookup_filter_Some] _. eauto.
    + apply Hl. intros _ Hw. unfold uuid_param in Hu. by destruct (uuid_in ws); simplify_eq.
Qed.

Lemma exec_at env op db : ok db → ok (exec env op db).2.
Proof.
  destruct op; simpl; eauto using Seed_torn_ok, CreateZone_ok, CloneZone_ok, RenameZone_ok,
    DeleteZone_torn_ok, SetDefaultZone_ok, AddZoneRule_ok, DeleteRule_ok, ExpireGrants_ok, Decide_ok,
    RecordDenial_ok.
  - by apply Assign_torn_ok.
  - apply run_tx_inv, grant_ok.
  - by apply FileRequest_torn_ok.
  - apply run_tx_inv, triple_audit_ok.
Qed.
End preservation.

Section reached.
Context `{Postgres}.

Lemma exec_ok env op db : db_ok db → db_ok (exec env op db).2.
Proof. intros Hok. by apply db_at_True, exec_at, db_at_True. Qed.

Lemma migrated_db_ok : db_ok migrated_db.
Proof.
  split_and!; try (intros ?; intros; simplify_map_eq; done).
  - split_and!; intros; simplify_map_eq.
  - split; intros; simplify_map_eq.
  - split; intros; simplify_map_eq.
  - split; [intros; simplify_map_eq|]. intros ws. unfold denials_of. simpl.
    rewrite map_to_list_empty. simpl. lia.
Qed.

Lemma reachable_ok db : reachable db → db_ok db.
Proof.
  unfold reachable. apply (rtc_ind_r (λ d, db_ok d)); [apply migrated_db_ok|].
  intros d d' _ [env op db0] Hok. by apply exec_ok.
Qed.
End reached.
