(* ===== verification/StoreSpec.v ===== *)
(** * What each store operation does

For every operation, the exact database after a successful call (the [*_Ok] lemmas), by
inverting the transaction that ran. *)
From S2P Require Import Prelude GoLib Regex Policy Json Store StoreInv.
From stdpp Require Import gmap strings list sorting fin_maps.

(** ** Inverting transactions *)
Lemma run_tx_Ok {A} env (fn : Tx A) db a db' :
  run_tx env fn db = (Ok a, db') →
  ∃ fs st', fn (mkTxState db fs (uuids env)) = Ok (a, st') ∧ tx_db st' = db'.
Proof.
  unfold run_tx, sql, stmt, mbind, Tx_bind, mret, Tx_ret. simpl. intros Heq.
  destruct (faults env) as [|[e|] fs]; simpl in Heq; [|done|].
  - exists []. destruct (fn _) as [[a' st']|]; [|done]. exists st'.
    destruct (tx_faults st') as [|[]], (ack_lost env); by simplify_eq/=.
  - exists fs. destruct (fn _) as [[a' st']|]; [|done]. exists st'.
    destruct (tx_faults st') as [|[]], (ack_lost env); by simplify_eq/=.
Qed.

(** An error: nothing happened, or everything did and only the answer is missing. *)
Lemma run_tx_Err {A} env (fn : Tx A) db e db' :
  run_tx env fn db = (Err e, db') →
  db' = db ∨ is_Some (ack_lost env) ∧ ∃ a, run_tx (acked env) fn db = (Ok a, db').
Proof.
  unfold run_tx. simpl. destruct (_ : result error (A * TxState)) as [[a st]|]; [|intros [= _ <-]; by left].
  destruct (ack_lost env); [|done]. intros [= _ <-]. right. eauto.
Qed.

(** When the answer arrives, an error means that nothing happened. *)
Lemma run_tx_Err_acked {A} env (fn : Tx A) db e db' :
  ack_lost env = None → run_tx env fn db = (Err e, db') → db' = db.
Proof. intros Ha [?|[[? ?] _]]%run_tx_Err; [done|congruence]. Qed.

Lemma bind_Ok {A B} (m : Tx A) (k : A → Tx B) st b st' :
  (m ≫= k) st = Ok (b, st') → ∃ a st1, m st = Ok (a, st1) ∧ k a st1 = Ok (b, st').
Proof. unfold mbind, Tx_bind. destruct (m st) as [[a st1]|]; [eauto|done]. Qed.

Lemma stmt_Ok {A} f st (r : A * TxState) :
  stmt f st = Ok r → ∃ fs, f (mkTxState (tx_db st) fs (tx_uuids st)) = Ok r.
Proof. unfold stmt. destruct (tx_faults st) as [|[e|] fs]; [eauto|done|eauto]. Qed.

Lemma sql_Ok {A} f st (a : A) st' :
  sql f st = Ok (a, st') → f (tx_db st) = Ok (a, tx_db st') ∧ tx_uuids st' = tx_uuids st.
Proof.
  unfold sql. intros [fs Hf]%stmt_Ok. simpl in Hf.
  destruct (f (tx_db st)) as [[a' db']|]; by simplify_eq/=.
Qed.

Lemma audit_Ok env actor action detail st u st' :
  audit env actor action detail st = Ok (u, st') →
  tx_db st' = set_audit (tx_db st)
    (audit_log (tx_db st) ++ [mkAuditRow (now env) actor action detail]).
Proof. by intros [[= _ <-] _]%sql_Ok. Qed.

Lemma one_Ok n st u st' : one n st = Ok (u, st') → n ≠ 0 ∧ st' = st.
Proof. unfold one. destruct (Nat.eqb_spec n 0); [done|]. by intros [= _ <-]. Qed.

(** Decompose a successful transaction into its successful steps. *)
Ltac tx_inv :=
  repeat match goal with
  | H : run_tx _ _ _ = (Ok _, _) |- _ => apply run_tx_Ok in H as (? & ? & H & ?)
  | H : (_ ≫= _) _ = Ok (_, _) |- _ => apply bind_Ok in H as (? & ? & ? & H)
  | H : result_bind _ _ = Ok _ |- _ => apply result_bind_Ok in H as (? & ? & H)
  | H : audit _ _ _ _ _ = Ok (_, _) |- _ => apply audit_Ok in H
  | H : one _ _ = Ok (_, _) |- _ => apply one_Ok in H as [? ->]
  | H : sql _ _ = Ok (_, _) |- _ => apply sql_Ok in H as [H ?]; simpl in H
  | H : stmt _ _ = Ok (_, _) |- _ => apply stmt_Ok in H as [? H]; simpl in H
  | H : mret _ _ = Ok (_, _) |- _ => injection H as ? ?
  | H : throw _ _ = Ok _ |- _ => discriminate H
  | H : Ok _ = Ok _ |- _ => injection H as H
  | H : (_, _) = (_, _) |- _ => injection H as ? ?
  | u : unit |- _ => destruct u
  end; simplify_eq/=.

Section specs.
Context `{Postgres}.

Lemma uuid_param_Ok s u : uuid_param s = Ok u ↔ uuid_in s = Some u.
Proof. unfold uuid_param. destruct (uuid_in s); naive_solver. Qed.

Definition log (env : Env) (db : DB) (actor action : string) (detail : list (string * json))
    : DB := set_audit db (audit_log db ++ [mkAuditRow (now env) actor action detail]).

(** [tx_inv], then follow the equations on databases. *)
Ltac tx_solve :=
  tx_inv;
  repeat match goal with
  | H : uuid_param _ = Ok _ |- _ => apply uuid_param_Ok in H
  | H : insert_zone _ _ _ _ = Ok _ |- _ => apply insert_zone_Ok in H as (? & ? & ? & ? & ?)
  | H : insert_rule _ _ = Ok _ |- _ => apply insert_rule_Ok in H as (? & ? & ? & ? & ?)
  | H : uuid_in ?s = Some ?u, H' : uuid_in ?s = Some ?v |- _ =>
      assert (u = v) by congruence; clear H'; subst
  end; simplify_eq/=;
  repeat match goal with
  | H : tx_db ?x = _ |- _ => rewrite H in *; clear H
  | H : _ = tx_db ?x |- _ => rewrite <- H in *; clear H
  end; simpl in *.

Lemma CreateZone_Ok env actor name db id db' :
  CreateZone env actor name db = (Ok id, db') →
  let z := mkZoneRow name false (now env) in
  id = uuids env 0 ∧ zones db !! id = None ∧
  put_zone (zones db) id z = Ok (<[id := z]> (zones db)) ∧
  db' = log env (set_zones db (<[id := z]> (zones db))) actor "zone_create"
          [("zone", JStr id); ("name", JStr name)].
Proof.
  unfold CreateZone. intros. tx_solve. split_and!; [done|done| |].
  - match goal with H : put_zone _ _ _ = Ok _ |- _ => pose proof H as Hp end.
    by apply put_zone_Ok in Hp as (-> & _).
  - match goal with H : put_zone _ _ _ = Ok _ |- _ => by apply put_zone_Ok in H as (-> & _) end.
Qed.

Lemma insert_rules_Ok rs st u st' :
  insert_rules rs st = Ok (u, st') →
  ∃ m, tx_db st' = set_rules (tx_db st) m ∧
    (∀ i r, rules (tx_db st) !! i = Some r → m !! i = Some r) ∧
    (∀ r, (∃ i, m !! i = Some r ∧ rules (tx_db st) !! i = None) ↔ r ∈ rs).
Proof.
  revert st. induction rs as [|r rs IH]; simpl; intros st.
  - intros [= _ <-]. exists (rules (tx_db st)). split_and!; [by destruct (tx_db st)|done|].
    intros r. split; [|set_solver]. intros (i & ? & ?). congruence.
  - intros ([u1 st1] & (Hid & _ & _ & _ & E1)%insert_rule_Ok & H2)%result_bind_Ok.
    simpl in H2. destruct (IH _ H2) as (m & E2 & Hold & Hnew).
    rewrite E1 in E2, Hold, Hnew. exists m. simpl in *. split_and!; [by rewrite E2| |].
    + intros i r' Hi. apply Hold. rewrite lookup_insert_ne; congruence.
    + intros r'. rewrite elem_of_cons, <- Hnew. split.
      * intros (i & Hi & Hni). destruct (decide (i = tx_uuids st 0)) as [->|Hne].
        -- left. specialize (Hold (tx_uuids st 0) r). rewrite lookup_insert_eq in Hold.
           specialize (Hold eq_refl). congruence.
        -- right. exists i. by rewrite lookup_insert_ne.
      * intros [->|(i & Hi & Hni)].
        -- exists (tx_uuids st 0). split; [|done]. apply Hold. by rewrite lookup_insert_eq.
        -- exists i. split; [done|]. by apply lookup_insert_None in Hni as [? _].
Qed.

Lemma CloneZone_Ok env actor src name db id db' :
  CloneZone env actor src name db = (Ok id, db') →
  ∃ s m, uuid_in src = Some s ∧ is_Some (zones db !! s) ∧
    id = uuids env 0 ∧ zones db !! id = None ∧
    (∀ i r, rules db !! i = Some r → m !! i = Some r) ∧
    (∀ r, (∃ i, m !! i = Some r ∧ rules db !! i = None) ↔
       ∃ j r0 z, uuid_in id = Some z ∧ rules db !! j = Some r0 ∧ r_zone_id r0 = Some s ∧
         r = mkRuleRec (Some z) None (r_kind r0) (r_value r0) (r_port r0) None actor (now env)) ∧
    db' = log env (set_rules (set_zones db
            (<[id := mkZoneRow name false (now env)]> (zones db))) m) actor "zone_clone"
            [("zone", JStr id); ("from", JStr src); ("name", JStr name)].
Proof.
  unfold CloneZone. intros Heq.
  apply run_tx_Ok in Heq as (fs & st' & Heq & <-).
  apply bind_Ok in Heq as ([id'|] & st1 & H1 & H2); [|done].
  apply stmt_Ok in H1 as [fs1 H1]. simpl in H1.
  apply result_bind_Ok in H1 as (s & Hs%uuid_param_Ok & H1).
  case_bool_decide as Hsrc; [|done].
  destruct (insert_zone _ _ _ _) as [[id1 st2]|] eqn:Ei; [|done]. injection H1 as -> ->.
  apply insert_zone_Ok in Ei as (Hid & Hnone & m & (-> & _)%put_zone_Ok & E1). simpl in *.
  tx_inv. match goal with Hr : insert_rules _ _ = Ok _ |- _ =>
    apply insert_rules_Ok in Hr as (m' & E2 & Hold & Hnew) end. simpl in *.
  rewrite E1 in E2, Hold, Hnew. simpl in *.
  match goal with H : tx_db st' = _ |- _ => rewrite H, E2 end.
  repeat match goal with H : uuid_param _ = Ok _ |- _ => apply uuid_param_Ok in H end.
  exists s, m'. split_and!; [done..| |done].
  intros r. rewrite Hnew, list_elem_of_fmap. unfold zone_rules. simpl.
  setoid_rewrite list_elem_of_filter. setoid_rewrite list_elem_of_fmap. split.
  - intros (r0 & -> & Hz & [j r1] & -> & Hj%elem_of_map_to_list). simpl in *.
    exists j, r1. eexists. split_and!; [done|done|congruence|done].
  - intros (j & r0 & z & Hz & Hj & Hz0 & ->). exists r0. split_and!; [congruence|congruence|].
    exists (j, r0). split; [done|]. by apply elem_of_map_to_list.
Qed.

Lemma RenameZone_Ok env actor id name db db' :
  RenameZone env actor id name db = (Ok (), db') →
  ∃ u z, uuid_in id = Some u ∧ zones db !! u = Some z ∧
    let z' := mkZoneRow name (z_is_default z) (z_created_at z) in
    put_zone (zones db) u z' = Ok (<[u := z']> (zones db)) ∧
    db' = log env (set_zones db (<[u := z']> (zones db))) actor "zone_rename"
            [("zone", JStr id); ("name", JStr name)].
Proof.
  unfold RenameZone. intros Heq. tx_solve.
  match goal with H : context [zones ?d !! ?u] |- _ =>
    destruct (zones d !! u) as [z|] eqn:Ez; [exists u, z|by tx_inv] end. tx_solve.
  match goal with H : put_zone _ _ _ = Ok _ |- _ => pose proof H as (-> & _)%put_zone_Ok end.
  done.
Qed.

Lemma DeleteZone_torn_Ok seen env actor id db db' :
  DeleteZone_torn seen env actor id db = (Ok (), db') →
  ∃ u z, uuid_in id = Some u ∧ zones (seen db) !! u = Some z ∧ z_is_default z = false ∧
    has_assignments (seen db) u = false ∧ has_assignments db u = false ∧
    db' = log env (set_rules (set_zones db (delete u (zones db)))
            (filter (λ kr, r_zone_id kr.2 ≠ Some u) (rules db))) actor "zone_delete"
            [("zone", JStr id)].
Proof.
  unfold DeleteZone_torn. intros Heq. tx_solve.
  match goal with H : context [zones (seen ?d) !! ?u] |- _ =>
    destruct (zones (seen d) !! u) as [z|] eqn:Ez; [exists u, z|by tx_inv] end. simpl in *.
  destruct (z_is_default z); [by tx_inv|].
  destruct (has_assignments (seen _) _) eqn:Ea; [by tx_inv|]. simpl in *. tx_solve.
  match goal with H : delete_zone ?u ?d = Ok _ |- _ =>
    unfold delete_zone in H; destruct (has_assignments d u) eqn:Eb; [done|] end. tx_solve. done.
Qed.

Lemma DeleteZone_Ok env actor id db db' :
  DeleteZone env actor id db = (Ok (), db') →
  ∃ u z, uuid_in id = Some u ∧ zones db !! u = Some z ∧ z_is_default z = false ∧
    has_assignments db u = false ∧
    db' = log env (set_rules (set_zones db (delete u (zones db)))
            (filter (λ kr, r_zone_id kr.2 ≠ Some u) (rules db))) actor "zone_delete"
            [("zone", JStr id)].
Proof. intros (u & z & ? & ? & ? & ? & _ & ?)%DeleteZone_torn_Ok. by exists u, z. Qed.

(** The zones table after clearing every default flag. *)
Definition clear_default (z : ZoneRow) : ZoneRow :=
  if z_is_default z then mkZoneRow (z_name z) false (z_created_at z) else z.

Lemma SetDefaultZone_Ok env actor id db db' :
  SetDefaultZone env actor id db = (Ok (), db') →
  ∃ u z, uuid_in id = Some u ∧ zones db !! u = Some z ∧
    db' = log env (set_assignments (set_zones db
            (<[u := mkZoneRow (z_name z) true (z_created_at z)]> (clear_default <$> zones db)))
            (filter (λ ka, a_zone_id ka.2 ≠ u) (assignments db))) actor "zone_default"
            [("zone", JStr id)].
Proof.
  unfold SetDefaultZone. intros Heq. tx_solve.
  rewrite lookup_fmap in *.
  match goal with H : context [zones ?d !! ?u] |- _ =>
    destruct (zones d !! u) as [z|] eqn:Ez; simpl in *; [exists u, z|by tx_inv] end. tx_solve.
  match goal with H : put_zone _ _ _ = Ok _ |- _ => apply put_zone_Ok in H as (-> & _) end.
  split_and!; [done..|]. unfold log, clear_default. simpl. by destruct (z_is_default z).
Qed.

Lemma AddZoneRule_Ok env actor zone r db db' :
  AddZoneRule env actor zone r db = (Ok (), db') →
  ValidRule r = true ∧ ∃ z, uuid_in zone = Some z ∧ is_Some (zones db !! z) ∧
    rules db !! uuids env 0 = None ∧
    db' = log env (set_rules db (<[uuids env 0 := mkRuleRec (Some z) None (rule_Kind r)
            (rule_Value r) (rule_Port r) None actor (now env)]> (rules db))) actor "rule_add"
            [("zone", JStr zone); ("kind", JStr (rule_Kind r)); ("value", JStr (rule_Value r));
             ("port", JNum (rule_Port r))].
Proof.
  unfold AddZoneRule. destruct (ValidRule r); [|done]. intros Heq. simpl in Heq. tx_solve.
  split; [done|]. eexists. split_and!; [done| |done|done]. by eapply bool_decide_eq_true.
Qed.

Lemma DeleteRule_Ok env actor id db db' :
  DeleteRule env actor id db = (Ok (), db') →
  ∃ u r, uuid_in id = Some u ∧ rules db !! u = Some r ∧
    db' = log env (set_rules db (delete u (rules db))) actor "rule_delete"
            [("zone", JStr (default "" (r_zone_id r)));
             ("workspace", JStr (default "" (r_workspace_id r)));
             ("kind", JStr (r_kind r)); ("value", JStr (r_value r)); ("port", JNum (r_port r))].
Proof.
  unfold DeleteRule. intros Heq. tx_solve.
  match goal with H : context [rules ?d !! ?u] |- _ =>
    destruct (rules d !! u) as [r|] eqn:Er; [exists u, r|by tx_inv] end. tx_solve. done.
Qed.

Lemma Assign_torn_Ok seen env actor ws zone db db' :
  Assign_torn seen env actor ws zone db = (Ok (), db') →
  ∃ w z row, uuid_in ws = Some w ∧ uuid_in zone = Some z ∧ zones (seen db) !! z = Some row ∧
    db' = log env (set_assignments db
            (if z_is_default row then delete w (assignments db)
             else <[w := mkAssignRow z actor (now env)]> (assignments db))) actor "assign"
            [("workspace", JStr ws); ("zone", JStr zone)].
Proof.
  unfold Assign_torn. intros Heq. tx_solve.
  match goal with H : context [zones (seen ?d) !! ?u] |- _ =>
    destruct (zones (seen d) !! u) as [row|] eqn:Ez; simpl in *; [|by tx_inv] end.
  destruct (z_is_default row) eqn:Ed; tx_solve.
  - eexists _, _, row. rewrite Ed. done.
  - case_bool_decide; simpl in *; tx_solve. eexists _, _, row. rewrite Ed. done.
Qed.

Lemma Assign_Ok env actor ws zone db db' :
  Assign env actor ws zone db = (Ok (), db') →
  ∃ w z row, uuid_in ws = Some w ∧ uuid_in zone = Some z ∧ zones db !! z = Some row ∧
    db' = log env (set_assignments db
            (if z_is_default row then delete w (assignments db)
             else <[w := mkAssignRow z actor (now env)]> (assignments db))) actor "assign"
            [("workspace", JStr ws); ("zone", JStr zone)].
Proof. apply (Assign_torn_Ok (λ db, db)). Qed.

(** A grant's row and its audit detail. *)
Definition grant_row (env : Env) (actor ws : string) (r : Rule) (ttl : Z) : RuleRec :=
  mkRuleRec None (Some ws) (rule_Kind r) (rule_Value r) (rule_Port r)
    (Some (now env + interval_secs ttl)%Z) actor (now env).

Definition grant_detail (ws : string) (r : Rule) (ttl : Z) : list (string * json) :=
  [("workspace", JStr ws); ("kind", JStr (rule_Kind r)); ("value", JStr (rule_Value r));
   ("port", JNum (rule_Port r)); ("ttl", JStr (Duration_String ttl))].

Lemma grant_fold detail action k v k' v' :
  foldl (λ '(d, _) '(k, v), (jset d k v, "approve")) (detail, action) [(k, v); (k', v')] =
  (jset (jset detail k v) k' v', "approve").
Proof. done. Qed.

Lemma Grant_Ok env actor ws r ttl db db' :
  Grant env actor ws r ttl db = (Ok (), db') →
  ValidRule r = true ∧ (0 < ttl)%Z ∧ ∃ w, uuid_in ws = Some w ∧
    rules db !! uuids env 0 = None ∧
    db' = log env (set_rules db (<[uuids env 0 := grant_row env actor w r ttl]> (rules db)))
            actor "grant" (grant_detail ws r ttl).
Proof.
  unfold Grant, grant. intros Heq. apply run_tx_Ok in Heq as (fs & st & Heq & <-).
  destruct (ValidRule r); [|done]. destruct (Z.leb_spec ttl 0); [done|]. simpl in Heq.
  tx_solve. split_and!; [done..|]. eexists. split_and!; done.
Qed.

(** The audit row of one expired grant. *)
Definition expire_row (env : Env) (r : RuleRec) : AuditRow :=
  mkAuditRow (now env) "system" "expire"
    [("workspace", JStr (default "" (r_workspace_id r))); ("kind", JStr (r_kind r));
     ("value", JStr (r_value r)); ("port", JNum (r_port r))].

Lemma audits_Ok {A} env (f : A → string * string * list (string * json)) l st u st' :
  foldr (λ x (k : Tx unit), _ ← audit env (f x).1.1 (f x).1.2 (f x).2; k) (mret ()) l st =
    Ok (u, st') →
  tx_db st' = set_audit (tx_db st) (audit_log (tx_db st) ++
    ((λ x, mkAuditRow (now env) (f x).1.1 (f x).1.2 (f x).2) <$> l)).
Proof.
  revert st. induction l as [|x l IH]; simpl; intros st Heq.
  - injection Heq as _ <-. rewrite app_nil_r. by destruct (tx_db st).
  - apply bind_Ok in Heq as (? & st1 & H1%audit_Ok & H2). rewrite (IH _ H2), H1. simpl.
    by rewrite <- app_assoc.
Qed.

Definition expired_rows (t : Z) (db : DB) : gmap string RuleRec :=
  filter (λ kr, Is_true (expired t kr.2)) (rules db).

Lemma ExpireGrants_Ok env db n db' :
  ExpireGrants env db = (Ok n, db') →
  n = size (expired_rows (now env) db) ∧
  db' = set_audit (set_rules db (filter (λ kr, ¬ Is_true (expired (now env) kr.2)) (rules db)))
    (audit_log db ++ (expire_row env <$> (map_to_list (expired_rows (now env) db)).*2)).
Proof.
  unfold ExpireGrants. intros Heq. tx_inv.
  match goal with H : foldr _ _ _ _ = Ok _ |- _ =>
    apply (audits_Ok env (λ r, ("system", "expire",
      [("workspace", JStr (rv_WorkspaceID r)); ("kind", JStr (rv_Kind r));
       ("value", JStr (rv_Value r)); ("port", JNum (rv_Port r))]))) in H end.
  tx_solve. rewrite length_fmap, length_map_to_list. split; [done|].
  f_equal. f_equal. rewrite <- !list_fmap_compose. apply list_fmap_ext.
  by intros ? [i r] _.
Qed.

(** Either a pending request for the same destination exists and is returned, or a
new one is filed. *)
Lemma FileRequest_torn_Ok seen env actor ws host port j db id db' :
  FileRequest_torn seen env actor ws host port j db = (Ok id, db') →
  ValidRule (mkRule "host" host port) = true ∧ ∃ w, uuid_in ws = Some w ∧
  ((∃ q, requests (seen db) !! id = Some q ∧ same_pending w host port q ∧ db' = db) ∨
   let q := mkRequestRow w host port j actor "pending" None None (now env) None in
   (∀ i q', requests (seen db) !! i = Some q' → ¬ same_pending w host port q') ∧
   id = uuids env 0 ∧ requests db !! id = None ∧ request_checks q = true ∧
   db' = log env (set_requests db (<[id := q]> (requests db))) actor "request"
           [("request", JStr id); ("workspace", JStr ws); ("host", JStr host);
            ("port", JNum port)]).
Proof.
  unfold FileRequest_torn. destruct (ValidRule _); [|done]. simpl. intros Heq.
  split; [done|]. apply run_tx_Ok in Heq as (fs & st & Heq & <-).
  apply bind_Ok in Heq as (found & st1 & (H1 & E1)%sql_Ok & H2). simpl in H1, E1.
  apply result_bind_Ok in H1 as (w & Hw%uuid_param_Ok & [= <- E2]).
  exists w. split; [done|].
  destruct (head _) as [id0|] eqn:Eh.
  - left. injection H2 as <- <-. apply head_Some_elem_of in Eh.
    apply list_elem_of_fmap in Eh as ([i q] & -> & Hin).
    apply elem_of_map_to_list, map_lookup_filter_Some in Hin as [Hi Hq]. by exists q.
  - right. pose proof (no_pending_found _ _ _ _ Eh) as Hnone.
    tx_solve. unfold insert_request in *. simpl in *. rewrite E1 in *.
    destruct (request_checks _); simpl in *; [|by tx_inv].
    case_bool_decide as Hid; tx_solve. rewrite <- eq_None_not_Some in Hid. done.
Qed.

Lemma FileRequest_Ok env actor ws host port j db id db' :
  FileRequest env actor ws host port j db = (Ok id, db') →
  ValidRule (mkRule "host" host port) = true ∧ ∃ w, uuid_in ws = Some w ∧
  ((∃ q, requests db !! id = Some q ∧ same_pending w host port q ∧ db' = db) ∨
   let q := mkRequestRow w host port j actor "pending" None None (now env) None in
   (∀ i q', requests db !! i = Some q' → ¬ same_pending w host port q') ∧
   id = uuids env 0 ∧ requests db !! id = None ∧ request_checks q = true ∧
   db' = log env (set_requests db (<[id := q]> (requests db))) actor "request"
           [("request", JStr id); ("workspace", JStr ws); ("host", JStr host);
            ("port", JNum port)]).
Proof. apply (FileRequest_torn_Ok (λ db, db)). Qed.

Definition decided (env : Env) (actor : string) (approve : bool) (ttl : Z) (q : RequestRow)
    : RequestRow :=
  mkRequestRow (q_workspace_id q) (q_host q) (q_port q) (q_justification q) (q_requester q)
    (if approve then "approved" else "denied") (Some actor)
    (if approve then Some (interval_secs ttl) else None) (q_created_at q) (Some (now env)).

Definition decision_detail (actor id : string) (q : RequestRow) : list (string * json) :=
  [("request", JStr id); ("self_approved", JBool (actor =? q_requester q)%string)].

Lemma Decide_Ok env actor id approve ttl db db' :
  Decide env actor id approve ttl db = (Ok (), db') →
  ∃ u q, uuid_in id = Some u ∧ requests db !! u = Some q ∧ q_status q = "pending" ∧
    let db1 := set_requests db (<[u := decided env actor approve ttl q]> (requests db)) in
    let r := mkRule "host" (q_host q) (q_port q) in
    if approve
    then (0 < ttl)%Z ∧ ValidRule r = true ∧ ∃ w, uuid_in (q_workspace_id q) = Some w ∧
      rules db !! uuids env 0 = None ∧
      db' = log env (set_rules db1 (<[uuids env 0 := grant_row env actor w r ttl]> (rules db)))
              actor "approve"
              (grant_detail (q_workspace_id q) r ttl ++ decision_detail actor id q)
    else db' = log env db1 actor "deny" (decision_detail actor id q).
Proof.
  unfold Decide. intros Heq. apply run_tx_Ok in Heq as (fs & st & Heq & <-).
  apply bind_Ok in Heq as (row & st1 & (H1 & E1)%sql_Ok & H2). simpl in H1, E1.
  apply result_bind_Ok in H1 as (u & Hu%uuid_param_Ok & H1).
  destruct (requests db !! u) as [q|] eqn:Eq; [|by injection H1 as <- _].
  destruct (String.eqb_spec (q_status q) "pending") as [Ep|]; [|by injection H1 as <- _].
  injection H1 as <- E2. exists u, q. split_and!; [done..|].
  destruct approve; simpl in H2; [|by tx_solve].
  unfold grant in H2. destruct (ValidRule _); [|done].
  destruct (Z.leb_spec ttl 0); [done|]. simpl in H2. split_and!; [done..|].
  tx_solve. rewrite E1 in *. eexists. split_and!; done.
Qed.

Lemma RecordDenial_Ok env ws host port db db' :
  RecordDenial env ws host port db = (Ok (), db') →
  ∃ w new db1, uuid_in ws = Some w ∧ (min_int32 ≤ port ≤ max_int32)%Z ∧
    upsert_denial (now env) (w, host, port) db = Ok (new, db1) ∧
    db' = if bool_decide (new = Some true)
          then set_denials db1 (filter (λ kd, kd.1 ∉ denials_over_cap db1 w) (denials db1))
          else db1.
Proof.
  unfold RecordDenial. intros Heq. apply run_tx_Ok in Heq as (fs & st & Heq & <-).
  apply bind_Ok in Heq as (row & st1 & (H1 & _)%sql_Ok & H2). simpl in H1.
  apply result_bind_Ok in H1 as (w & Hw%uuid_param_Ok & H1).
  apply result_bind_Ok in H1 as (p & Hp & H1).
  unfold int4_param in Hp. destruct (_ && _) eqn:Er in Hp; [|done]. injection Hp as <-.
  exists w, row, (tx_db st1). split_and!; [done|bsimp; lia|bsimp; lia|done|].
  destruct row as [[]|]; simpl; [|by injection H2 as <-..]. tx_solve. done.
Qed.

Lemma upsert_denial_frame t k db b db' :
  upsert_denial t k db = Ok (b, db') → ∃ m, db' = set_denials db m.
Proof.
  unfold upsert_denial. intros Hu.
  destruct (denials db !! k) as [d|]; [|simplify_eq/=; eauto].
  destruct (_ <? _)%Z; [|simplify_eq/=; exists (denials db'); by destruct db'].
  destruct (_ <? _)%Z; simplify_eq/=; eauto.
Qed.

Lemma RecordDenial_frame env ws host port db db' :
  RecordDenial env ws host port db = (Ok (), db') → ∃ m, db' = set_denials db m.
Proof.
  intros (w & new & db1 & _ & _ & (m & ->)%upsert_denial_frame & ->)%RecordDenial_Ok.
  case_bool_decide; eauto.
Qed.

Definition seed_rule (env : Env) (zone : string) (port : Z) : RuleRec :=
  mkRuleRec (Some zone) None "host" "example.com" port None "bootstrap" (now env).

Lemma Seed_Ok env db db' :
  Seed env db = (Ok (), db') →
  if bool_decide (zones db = ∅)
  then ∃ z i j, z = uuids env 0 ∧ uuid_in z = Some z ∧ rules db !! i = None ∧ rules db !! j = None ∧ i ≠ j ∧
    db' = log env (set_rules (set_zones db {[z := mkZoneRow "default" true (now env)]})
            (<[j := seed_rule env z 80]> (<[i := seed_rule env z 443]> (rules db))))
            "bootstrap" "seed"
            [("zone", JStr z); ("hosts", JArr [JStr "example.com:443"; JStr "example.com:80"])]
  else db' = db.
Proof.
  unfold Seed, Seed_torn. intros Heq. apply run_tx_Ok in Heq as (fs & st & Heq & <-).
  apply bind_Ok in Heq as (n & st1 & (H1 & E1)%sql_Ok & H2). simpl in H1, E1.
  injection H1 as <- E2. case_bool_decide as Hz.
  - rewrite Hz, map_size_empty in H2. simpl in H2.
    apply bind_Ok in H2 as (id & st2 & [fs2 Hi]%stmt_Ok & H2). simpl in Hi.
    apply insert_zone_Ok in Hi as (-> & _ & m & (-> & _)%put_zone_Ok & E3). simpl in E3.
    rewrite <- E2, Hz, insert_empty in E3. rewrite E1 in *.
    apply bind_Ok in H2 as ([] & st3 & H3 & ->%audit_Ok).
    tx_inv. unfold uuid_param in *. destruct (uuid_in (uuids env 0)) as [u|] eqn:Eu; [|by tx_inv].
    tx_inv. repeat match goal with H : insert_rule _ _ = Ok _ |- _ =>
      apply insert_rule_Ok in H as (? & _ & _ & ? & ?) end. simpl in *.
    rewrite E3 in *. simpl in *. bsimp.
    match goal with H : is_Some ({[_ := _]} !! _) |- _ =>
      apply lookup_singleton_is_Some in H; subst end.
    match goal with H : mret () _ = Ok ((), st3) |- _ => injection H as <- end.
    tx_solve.
    match goal with H : <[?i := _]> _ !! ?j = None |- _ =>
      apply lookup_insert_None in H as [? ?]; exists (uuids env 0), i, j end. done.
  - destruct (Nat.eqb_spec (size (zones db)) 0) as [Hs|]; [by apply map_size_empty_iff in Hs|].
    by injection H2 as <-.
Qed.
End specs.
