(* ===== verification/StoreThms.v ===== *)
(** * Sequences of store operations

Every operation by cases of its [*_Ok] lemma ([on_success], [op_cases]), and what holds
along any sequence of them: after [Seed] there is a default zone ([operating]), and the
identifiers in the tables are canonical. *)
From S2P Require Import Prelude GoLib Regex Policy Json Store StoreInv StoreSpec.
From stdpp Require Import gmap strings list sorting fin_maps relations.

(** A transaction that reported an error, as an operation: nothing, or the whole operation
with its answer lost. *)
Ltac run_tx_error E :=
  apply run_tx_Err in E as [?|[? [? E]]]; [by left|right; split; [done|exact (f_equal outcome E)]].

Section store.
Context `{Postgres}.

(** ** Operations by cases *)
Lemma exec_Err env op db e db' :
  exec env op db = (Some e, db') →
  db' = db ∨ is_Some (ack_lost env) ∧ exec (acked env) op db = (None, db').
Proof.
  destruct op; unfold exec, outcome; intros Heq;
    match type of Heq with context [match fst ?x with _ => _ end] =>
      destruct x as [[?|?] ?] eqn:E end; simplify_eq/=;
    try (by run_tx_error E).
  - unfold AddZoneRule in E |- *. destruct (ValidRule _); simpl in E; [by run_tx_error E|].
    left. congruence.
  - unfold FileRequest, FileRequest_torn in E |- *. destruct (ValidRule _); simpl in E;
      [by run_tx_error E|]. left. congruence.
Qed.

Lemma exec_Err_acked env op db e db' :
  ack_lost env = None → exec env op db = (Some e, db') → db' = db.
Proof. intros Ha [?|[[? ?] _]]%exec_Err; [done|congruence]. Qed.

(** Who an operation acts for: the name its audit rows bear. *)
Definition op_actor (op : store_op) : string :=
  match op with
  | OpSeed => "bootstrap"
  | OpCreateZone a _ | OpCloneZone a _ _ | OpRenameZone a _ _ | OpDeleteZone a _
  | OpSetDefaultZone a _ | OpAddZoneRule a _ _ | OpDeleteRule a _ | OpAssign a _ _
  | OpGrant a _ _ _ | OpFileRequest a _ _ _ _ | OpDecide a _ _ _ => a
  | OpExpireGrants | OpRecordDenial _ _ _ | OpAuditSystem _ _ => "system"
  end.

Lemma AuditSystem_Ok env action detail db db' :
  AuditSystem env action detail db = (Ok (), db') → db' = log env db "system" action detail.
Proof. unfold AuditSystem. intros Heq. by tx_inv. Qed.

(** What a successful operation does to the tables, as its [*_Ok] lemma says. *)
Definition on_success (env : Env) (op : store_op) (db db' : DB) : Prop :=
  match op with
  | OpSeed => Seed env db = (Ok (), db')
  | OpCreateZone actor name => ∃ id, CreateZone env actor name db = (Ok id, db')
  | OpCloneZone actor src name => ∃ id, CloneZone env actor src name db = (Ok id, db')
  | OpRenameZone actor id name => RenameZone env actor id name db = (Ok (), db')
  | OpDeleteZone actor id => DeleteZone env actor id db = (Ok (), db')
  | OpSetDefaultZone actor id => SetDefaultZone env actor id db = (Ok (), db')
  | OpAddZoneRule actor zone r => AddZoneRule env actor zone r db = (Ok (), db')
  | OpDeleteRule actor id => DeleteRule env actor id db = (Ok (), db')
  | OpAssign actor ws zone => Assign env actor ws zone db = (Ok (), db')
  | OpGrant actor ws r ttl => Grant env actor ws r ttl db = (Ok (), db')
  | OpExpireGrants => ∃ n, ExpireGrants env db = (Ok n, db')
  | OpFileRequest actor ws host port j => ∃ id, FileRequest env actor ws host port j db = (Ok id, db')
  | OpDecide actor id approve ttl => Decide env actor id approve ttl db = (Ok (), db')
  | OpRecordDenial ws host port => RecordDenial env ws host port db = (Ok (), db')
  | OpAuditSystem action detail => AuditSystem env action detail db = (Ok (), db')
  end.

Lemma exec_Ok env op db db' : exec env op db = (None, db') → on_success env op db db'.
Proof.
  destruct op; unfold exec, outcome, on_success; intros Heq;
    match type of Heq with context [match fst ?x with _ => _ end] =>
      destruct x as [[?|?] ?] eqn:E end; simplify_eq/=; eauto;
    match goal with u : unit |- _ => by destruct u end.
Qed.
End store.

(** Split a successful operation into the cases of its [*_Ok] lemma. *)
Ltac op_cases op :=
  destruct op; simpl in *;
  repeat match goal with
  | H : ∃ _ : string, CreateZone _ _ _ _ = _ |- _ => destruct H as [? H]
  | H : ∃ _ : string, CloneZone _ _ _ _ _ = _ |- _ => destruct H as [? H]
  | H : ∃ _ : nat, ExpireGrants _ _ = _ |- _ => destruct H as [? H]
  | H : ∃ _ : string, FileRequest _ _ _ _ _ _ _ = _ |- _ => destruct H as [? H]
  | H : Seed _ _ = _ |- _ => apply Seed_Ok in H; case_bool_decide;
      [destruct H as (? & ? & ? & ? & ? & ? & ? & ? & ?)|]
  | H : CreateZone _ _ _ _ = _ |- _ => apply CreateZone_Ok in H as (? & ? & ? & ?)
  | H : CloneZone _ _ _ _ _ = _ |- _ =>
      apply CloneZone_Ok in H as (? & ? & ? & ? & ? & ? & ? & ? & ?)
  | H : RenameZone _ _ _ _ _ = _ |- _ => apply RenameZone_Ok in H as (? & ? & ? & ? & ? & ?)
  | H : DeleteZone _ _ _ _ = _ |- _ => apply DeleteZone_Ok in H as (? & ? & ? & ? & ? & ? & ?)
  | H : SetDefaultZone _ _ _ _ = _ |- _ => apply SetDefaultZone_Ok in H as (? & ? & ? & ? & ?)
  | H : AddZoneRule _ _ _ _ _ = _ |- _ =>
      apply AddZoneRule_Ok in H as (? & ? & ? & ? & ? & ?)
  | H : DeleteRule _ _ _ _ = _ |- _ => apply DeleteRule_Ok in H as (? & ? & ? & ? & ?)
  | H : Assign _ _ _ _ _ = _ |- _ => apply Assign_Ok in H as (? & ? & ? & ? & ? & ? & ?)
  | H : Grant _ _ _ _ _ _ = _ |- _ => apply Grant_Ok in H as (? & ? & ? & ? & ? & ?)
  | H : ExpireGrants _ _ = _ |- _ => apply ExpireGrants_Ok in H as [? ?]
  | H : FileRequest _ _ _ _ _ _ _ = _ |- _ =>
      apply FileRequest_Ok in H as (? & ? & ? & [(? & ? & ? & ?)|(? & ? & ? & ? & ?)])
  | H : Decide _ _ _ ?approve _ _ = _ |- _ => apply Decide_Ok in H as (? & ? & ? & ? & ? & H);
      destruct approve; [destruct H as (? & ? & ? & ? & ? & ?)|]
  | H : RecordDenial _ _ _ _ _ = _ |- _ =>
      apply RecordDenial_frame in H as [? ?]
  | H : AuditSystem _ _ _ _ = _ |- _ => apply AuditSystem_Ok in H
  end; simpl in *; subst.

Section claims.
Context `{Postgres}.

Lemma step_cases (I : DB → DB → Prop) db db' :
  (∀ d, I d d) → (∀ env op d d', on_success env op d d' → I d d') →
  store_step db db' → I db db'.
Proof.
  intros Hrefl Hok [env op d]. destruct (exec env op d) as [[e|] d'] eqn:E; simpl.
  - apply exec_Err in E as [->|[_ E]]; [apply Hrefl|]. eapply Hok, exec_Ok, E.
  - eapply Hok, exec_Ok, E.
Qed.

(** ** Exactly one default zone *)
Definition has_default (db : DB) : Prop :=
  ∃ u z, zones db !! u = Some z ∧ z_is_default z = true.

Lemma has_default_step db db' : store_step db db' → has_default db → has_default db'.
Proof.
  apply (step_cases (λ db db', has_default db → has_default db')); [done|].
  clear db db'. intros env op db db' Hop (u & z & Hu & Hz).
  assert (∀ id z', zones db !! id = None → has_default (set_zones db (<[id := z']> (zones db))))
    as Hins.
  { intros id z' Hid. exists u, z. simpl. rewrite lookup_insert_ne by congruence. done. }
  op_cases op; try (by exists u, z); try (by apply Hins).
  - rewrite H0, lookup_empty in Hu. done.
  - destruct (decide (u = x)) as [->|].
    + exists x. eexists. simpl. rewrite lookup_insert_eq. split; [done|]. simpl. congruence.
    + exists u, z. simpl. by rewrite lookup_insert_ne.
  - exists u, z. simpl. rewrite lookup_delete_ne; [done|]. congruence.
  - exists x. eexists. simpl. by rewrite lookup_insert_eq.
Qed.

(** What [Seed] makes of a freshly migrated database, and all that follows. *)
Definition operating (db : DB) : Prop :=
  ∃ env db0, Seed env migrated_db = (Ok (), db0) ∧ rtc store_step db0 db.

Lemma operating_reachable db : operating db → reachable db.
Proof.
  intros (env & db0 & Hs & Hr). eapply rtc_l; [|exact Hr].
  pose proof (store_step_exec env OpSeed migrated_db) as Hstep.
  unfold exec, outcome in Hstep. by rewrite Hs in Hstep.
Qed.

Lemma operating_has_default db : operating db → has_default db.
Proof.
  intros (env & db0 & Hs & Hr). assert (has_default db0) as Hd.
  { apply Seed_Ok in Hs. rewrite bool_decide_eq_true_2 in Hs by done.
    destruct Hs as (z & i & j & -> & _ & _ & _ & _ & ->). exists (uuids env 0).
    eexists. simpl. by rewrite lookup_singleton_eq. }
  clear Hs. induction Hr; eauto using has_default_step.
Qed.

(** ** Identifiers in the tables are canonical UUIDs *)
Definition rule_ids_ok (r : RuleRec) : Prop :=
  (∀ z, r_zone_id r = Some z → uuid_in z = Some z) ∧
  (∀ w, r_workspace_id r = Some w → uuid_in w = Some w).

Definition ids_ok (db : DB) : Prop :=
  (∀ i r, rules db !! i = Some r → rule_ids_ok r) ∧
  (∀ w a, assignments db !! w = Some a → uuid_in w = Some w) ∧
  (∀ i q, requests db !! i = Some q → uuid_in (q_workspace_id q) = Some (q_workspace_id q)).

Context `{!PostgresLaws}.

Lemma insert_forall {A} (P : A → Prop) (m : gmap string A) i x :
  (∀ j y, m !! j = Some y → P y) → P x → ∀ j y, <[i := x]> m !! j = Some y → P y.
Proof. intros Hm Hx j y. rewrite lookup_insert. case_decide; naive_solver. Qed.

Lemma rule_ids_ok_zone z k v p e a t :
  uuid_in z = Some z → rule_ids_ok (mkRuleRec (Some z) None k v p e a t).
Proof. split; simpl; naive_solver. Qed.

Lemma rule_ids_ok_ws w k v p e a t :
  uuid_in w = Some w → rule_ids_ok (mkRuleRec None (Some w) k v p e a t).
Proof. split; simpl; naive_solver. Qed.

Lemma ids_ok_step db db' : store_step db db' → ids_ok db → ids_ok db'.
Proof.
  apply (step_cases (λ db db', ids_ok db → ids_ok db')); [done|].
  clear db db'. intros env op db db' Hop (Hr & Ha & Hq).
  op_cases op; try done.
  all: repeat match goal with H : uuid_in ?s = Some ?u |- _ =>
    assert_fails (constr_eq s u); apply uuid_in_canonical in H end.
  all: split_and!; simpl; try done.
  all: try (apply insert_forall; [done|]).
  all: try (by apply rule_ids_ok_zone); try (by apply rule_ids_ok_ws); 
    try (simpl; by eauto).
  - apply insert_forall; [apply insert_forall|]; [done|by apply rule_ids_ok_zone..].
  - intros i r Hi. destruct (rules db !! i) as [r0|] eqn:Ei.
    + match goal with Hold : ∀ i r, rules db !! i = Some r → _ = _ |- _ =>
        pose proof (Hold _ _ Ei) end. simplify_eq. eauto.
    + match goal with Hnew : ∀ r, (∃ i, _) ↔ _ |- _ =>
        destruct (proj1 (Hnew r)) as (? & ? & z & Hz & _ & _ & ->); [by exists i|] end.
      apply rule_ids_ok_zone. by eapply uuid_in_canonical.
  - intros i r [? _]%map_lookup_filter_Some. eauto.
  - intros w a [? _]%map_lookup_filter_Some. eauto.
  - intros i r [_ ?]%lookup_delete_Some. eauto.
  - intros w a. destruct (z_is_default _).
    + intros [_ ?]%lookup_delete_Some. eauto.
    + rewrite lookup_insert. case_decide; [by intros _; subst|eauto].
  - intros i r [? _]%map_lookup_filter_Some. eauto.
Qed.

Lemma ids_ok_migrated : ids_ok migrated_db.
Proof. split_and!; intros ??; simpl; by rewrite lookup_empty. Qed.

Lemma reachable_ids_ok db : reachable db → ids_ok db.
Proof.
  assert (∀ db1 db2, rtc store_step db1 db2 → ids_ok db1 → ids_ok db2) as Hr.
  { induction 1; eauto using ids_ok_step. }
  intros Hdb. eapply Hr; [exact Hdb|]. apply ids_ok_migrated.
Qed.

(** ** What loading the policy relies on

The constraints of the schema and canonical identifiers: less than is true after operations
one by one, and true also when they overtake each other. *)
Definition sound (db : DB) : Prop := db_at False db ∧ ids_ok db.

Lemma sound_exec env op db : sound db → sound (exec env op db).2.
Proof. intros [Hs Hi]. split; [by apply exec_at|]. by eapply ids_ok_step; [apply store_step_exec|]. Qed.

Lemma sound_migrated : sound migrated_db.
Proof. split; [apply db_ok_schema, migrated_db_ok|apply ids_ok_migrated]. Qed.

Lemma reachable_sound db : reachable db → sound db.
Proof. intros Hr. split; [by apply db_ok_schema, reachable_ok|by apply reachable_ids_ok]. Qed.

Lemma operating_sound db : operating db → sound db.
Proof. intros Hop. by apply reachable_sound, operating_reachable. Qed.

Lemma uuid_nonempty s u : uuid_in s = Some u → u ≠ "".
Proof. intros Hu ->. apply uuid_in_canonical in Hu. by rewrite uuid_in_empty in Hu. Qed.
End claims.
