(* ===== verification/PolicyLoad.v ===== *)
(** * PolicyInput: from the tables to the policy

What the three queries of [Store.PolicyInput] load, for any three databases, and
the refinement: on one database, the effective rules of a workspace are those the
tables mean ([granted]). *)
From S2P Require Import Prelude GoLib Regex Policy Json Store StoreInv StoreSpec StoreThms.
From stdpp Require Import gmap strings list sorting fin_maps relations.

Section load.
Context `{Postgres}.

Lemma load_zones_rest l inp :
  let inp' := foldl load_zone inp l in
  in_Assign inp' = in_Assign inp ∧ in_Grants inp' = in_Grants inp ∧ in_Pods inp' = in_Pods inp.
Proof.
  revert inp. induction l as [|[id z] l IH]; intros inp; cbn [foldl]; [done|].
  destruct (IH (load_zone inp (id, z))) as (-> & -> & ->). done.
Qed.

(** Zones start with no rules. *)
Lemma load_zones_rules l inp z :
  slice_at (in_ZoneRules inp) z = [] →
  slice_at (in_ZoneRules (foldl load_zone inp l)) z = [].
Proof.
  revert inp. induction l as [|[id row] l IH]; intros inp Hz; simpl; [done|].
  apply IH. unfold slice_at in *. simpl. rewrite lookup_insert. by case_decide.
Qed.

Lemma load_zones_default l inp u z :
  (u, z) ∈ l → z_is_default z = true →
  (∀ v y, (v, y) ∈ l → z_is_default y = true → v = u) →
  in_DefaultZone (foldl load_zone inp l) = u.
Proof.
  intros Hin Hz Hu.
  assert (∀ l' inp', (∀ v y, (v, y) ∈ l' → z_is_default y = true → v = u) →
    in_DefaultZone inp' = u → in_DefaultZone (foldl load_zone inp' l') = u) as Hkeep.
  { induction l' as [|[v y] l' IH]; intros inp' Hl Hd; simpl; [done|].
    apply IH; [set_solver|]. simpl. destruct (z_is_default y) eqn:Ey; [|done].
    eapply Hl; [|done]. set_solver. }
  apply list_elem_of_split in Hin as (l1 & l2 & ->). rewrite foldl_app. simpl.
  apply Hkeep; [set_solver|]. simpl. by rewrite Hz.
Qed.

Lemma load_zones_no_default l inp :
  (∀ v y, (v, y) ∈ l → z_is_default y = false) →
  in_DefaultZone (foldl load_zone inp l) = in_DefaultZone inp.
Proof.
  revert inp. induction l as [|[v y] l IH]; intros inp Hl; simpl; [done|].
  rewrite IH by set_solver. simpl. by rewrite (Hl v y) by set_solver.
Qed.

Lemma load_rules_rest l inp :
  let inp' := foldl load_rule inp l in
  in_Assign inp' = in_Assign inp ∧ in_DefaultZone inp' = in_DefaultZone inp ∧
  in_Pods inp' = in_Pods inp.
Proof.
  revert inp. induction l as [|row l IH]; intros inp; cbn [foldl]; [done|].
  destruct (IH (load_rule inp row)) as (-> & -> & ->). unfold load_rule.
  by destruct (negb _).
Qed.

Lemma slice_at_append_at m k r k' :
  slice_at (append_at m k r) k' = slice_at m k' ++ (if decide (k = k') then [r] else []).
Proof.
  unfold append_at, slice_at. rewrite lookup_insert. case_decide; subst; [done|].
  by rewrite app_nil_r.
Qed.

(** A zone's slice holds the zone's rules, a workspace's slice its grants. *)
Lemma elem_of_load_zone_rules l inp z r :
  (∀ row, row ∈ l → r_zone_id row ≠ Some "") →
  r ∈ slice_at (in_ZoneRules (foldl load_rule inp l)) z ↔
  r ∈ slice_at (in_ZoneRules inp) z ∨ ∃ row, row ∈ l ∧ r_zone_id row = Some z ∧ rule_of row = r.
Proof.
  revert inp. induction l as [|row l IH]; intros inp Hl; simpl; [set_solver|].
  rewrite IH by set_solver. unfold load_rule. fold (rule_of row).
  pose proof (Hl row ltac:(set_solver)).
  destruct (r_zone_id row) as [z0|] eqn:E; simpl.
  - destruct (String.eqb_spec z0 ""); simpl; [set_solver|].
    rewrite slice_at_append_at. case_decide; set_solver.
  - set_solver.
Qed.

Lemma elem_of_load_grants l inp w r :
  w ≠ "" → (∀ row, row ∈ l → rule_checks row = true ∧ r_zone_id row ≠ Some "") →
  r ∈ slice_at (in_Grants (foldl load_rule inp l)) w ↔
  r ∈ slice_at (in_Grants inp) w ∨
  ∃ row, row ∈ l ∧ r_workspace_id row = Some w ∧ rule_of row = r.
Proof.
  intros Hw. revert inp. induction l as [|row l IH]; intros inp Hl; simpl; [set_solver|].
  rewrite IH by set_solver. destruct (Hl row) as [Hc Hne]; [set_solver|].
  unfold load_rule. fold (rule_of row). unfold rule_checks in Hc. bsimp.
  destruct (r_zone_id row) as [z0|] eqn:E, (r_workspace_id row) as [w0|] eqn:Ew;
    simpl in *; try done.
  - destruct (String.eqb_spec z0 ""); simpl; set_solver.
  - rewrite slice_at_append_at. case_decide; set_solver.
Qed.

Lemma load_assigns_rest l inp :
  let inp' := foldl load_assign inp l in
  in_ZoneRules inp' = in_ZoneRules inp ∧ in_DefaultZone inp' = in_DefaultZone inp ∧
  in_Grants inp' = in_Grants inp ∧ in_Pods inp' = in_Pods inp.
Proof.
  revert inp. induction l as [|row l IH]; intros inp; cbn [foldl]; [done|].
  destruct (IH (load_assign inp row)) as (-> & -> & -> & ->). done.
Qed.

Lemma lookup_load_assigns l inp w :
  NoDup l.*1 →
  in_Assign (foldl load_assign inp l) !! w =
  match (list_to_map l : gmap string AssignRow) !! w with
  | Some a => Some (a_zone_id a)
  | None => in_Assign inp !! w
  end.
Proof.
  revert inp. induction l as [|[v a] l IH]; intros inp Hnd; simpl in *; [done|].
  apply NoDup_cons in Hnd as [Hv Hnd]. rewrite IH by done. simpl. rewrite !lookup_insert.
  destruct (decide (v = w)) as [->|]; [|done].
  by rewrite (not_elem_of_list_to_map_1 _ _ Hv).
Qed.
End load.

(** ** What the tables mean *)

(** The zone of a workspace: its assignment, or else the default zone. *)
Definition zone_of_db (db : DB) (ws z : string) : Prop :=
  match assignments db !! ws with
  | Some a => a_zone_id a = z
  | None => ∃ row, zones db !! z = Some row ∧ z_is_default row = true
  end.

(** A rule is in force at [t]. *)
Definition alive (t : Z) (row : RuleRec) : Prop := ∀ e, r_expires_at row = Some e → (t < e)%Z.

Lemma unexpired_alive t row : unexpired t row = true ↔ alive t row.
Proof.
  unfold unexpired, alive. destruct (r_expires_at row) as [e|]; [|done]. rewrite Z.ltb_lt.
  naive_solver.
Qed.

(** A rule reaches a workspace through its zone or through a grant of its own, while
it has not expired. *)
Definition granted (db : DB) (t : Z) (ws : string) (r : Rule) : Prop :=
  ∃ i row, rules db !! i = Some row ∧ rule_of row = r ∧ alive t row ∧
    ((∃ z, r_zone_id row = Some z ∧ zone_of_db db ws z) ∨ r_workspace_id row = Some ws).

Section refine.
Context `{Postgres}.

Lemma in_Assign_PolicyInput db1 db2 db3 t w :
  in_Assign (PolicyInput_torn db1 db2 db3 t) !! w = a_zone_id <$> assignments db3 !! w.
Proof.
  unfold PolicyInput_torn. rewrite lookup_load_assigns by apply NoDup_fst_map_to_list.
  rewrite list_to_map_to_list. destruct (assignments db3 !! w); [done|]. simpl.
  destruct (load_rules_rest (rules_query t db2)
    (foldl load_zone (mkInput "" ∅ ∅ ∅ []) (map_to_list (zones db1)))) as (-> & _ & _).
  by destruct (load_zones_rest (map_to_list (zones db1)) (mkInput "" ∅ ∅ ∅ [])) as (-> & _ & _).
Qed.

Lemma in_DefaultZone_PolicyInput db1 db2 db3 t u z :
  zones_ok (zones db1) → zones db1 !! u = Some z → z_is_default z = true →
  in_DefaultZone (PolicyInput_torn db1 db2 db3 t) = u.
Proof.
  intros (_ & _ & Huniq) Hu Hz. unfold PolicyInput_torn.
  destruct (load_assigns_rest (map_to_list (assignments db3))
    (foldl load_rule (foldl load_zone (mkInput "" ∅ ∅ ∅ []) (map_to_list (zones db1)))
      (rules_query t db2))) as (_ & -> & _ & _).
  destruct (load_rules_rest (rules_query t db2)
    (foldl load_zone (mkInput "" ∅ ∅ ∅ []) (map_to_list (zones db1)))) as (_ & -> & _).
  apply (load_zones_default _ _ u z); [by apply elem_of_map_to_list|done|].
  intros v y Hv Hy. apply elem_of_map_to_list in Hv. eauto.
Qed.

Lemma in_Pods_PolicyInput db1 db2 db3 t : in_Pods (PolicyInput_torn db1 db2 db3 t) = [].
Proof.
  unfold PolicyInput_torn.
  destruct (load_assigns_rest (map_to_list (assignments db3))
    (foldl load_rule (foldl load_zone (mkInput "" ∅ ∅ ∅ []) (map_to_list (zones db1)))
      (rules_query t db2))) as (_ & _ & _ & ->).
  destruct (load_rules_rest (rules_query t db2)
    (foldl load_zone (mkInput "" ∅ ∅ ∅ []) (map_to_list (zones db1)))) as (_ & _ & ->).
  by destruct (load_zones_rest (map_to_list (zones db1)) (mkInput "" ∅ ∅ ∅ [])) as (_ & _ & ->).
Qed.

Lemma elem_of_rules_query t db row :
  row ∈ rules_query t db ↔ ∃ i, rules db !! i = Some row ∧ alive t row.
Proof.
  unfold rules_query. rewrite elem_of_merge_sort, list_elem_of_filter, list_elem_of_fmap, Is_true_true, unexpired_alive.
  split.
  - intros (Hu & [i row'] & -> & Hi%elem_of_map_to_list). eauto.
  - intros (i & Hi & Hu). split; [done|]. exists (i, row). split; [done|].
    by apply elem_of_map_to_list.
Qed.

Lemma elem_of_ZoneRules_PolicyInput db1 db2 db3 t z r :
  (∀ i row, rules db2 !! i = Some row → r_zone_id row ≠ Some "") →
  r ∈ slice_at (in_ZoneRules (PolicyInput_torn db1 db2 db3 t)) z ↔
  ∃ i row, rules db2 !! i = Some row ∧ alive t row ∧
    r_zone_id row = Some z ∧ rule_of row = r.
Proof.
  intros Hz. unfold PolicyInput_torn.
  destruct (load_assigns_rest (map_to_list (assignments db3))
    (foldl load_rule (foldl load_zone (mkInput "" ∅ ∅ ∅ []) (map_to_list (zones db1)))
      (rules_query t db2))) as (-> & _ & _ & _).
  rewrite elem_of_load_zone_rules by (intros row (i & Hi & _)%elem_of_rules_query; eauto).
  rewrite load_zones_rules by done. setoid_rewrite elem_of_rules_query. set_solver.
Qed.

Lemma elem_of_Grants_PolicyInput db1 db2 db3 t w r :
  w ≠ "" → (∀ i row, rules db2 !! i = Some row →
    rule_checks row = true ∧ r_zone_id row ≠ Some "") →
  r ∈ slice_at (in_Grants (PolicyInput_torn db1 db2 db3 t)) w ↔
  ∃ i row, rules db2 !! i = Some row ∧ alive t row ∧
    r_workspace_id row = Some w ∧ rule_of row = r.
Proof.
  intros Hw Hok. unfold PolicyInput_torn.
  destruct (load_assigns_rest (map_to_list (assignments db3))
    (foldl load_rule (foldl load_zone (mkInput "" ∅ ∅ ∅ []) (map_to_list (zones db1)))
      (rules_query t db2))) as (_ & _ & -> & _).
  rewrite elem_of_load_grants; [|done|intros row (i & Hi & _)%elem_of_rules_query; eauto].
  destruct (load_zones_rest (map_to_list (zones db1)) (mkInput "" ∅ ∅ ∅ [])) as (_ & -> & _).
  setoid_rewrite elem_of_rules_query. unfold slice_at. simpl. rewrite lookup_empty. set_solver.
Qed.

Lemma no_default_zone db t :
  (∀ i z, zones db !! i = Some z → z_is_default z = false) →
  in_DefaultZone (PolicyInput db t) = "".
Proof.
  intros Hno. unfold PolicyInput, PolicyInput_torn.
  rewrite (proj1 (proj2 (load_assigns_rest _ _))), (proj1 (proj2 (load_rules_rest _ _))).
  rewrite load_zones_no_default; [done|]. intros v y Hv%elem_of_map_to_list. by eapply Hno.
Qed.

Context `{!PostgresLaws}.

(** [PolicyInput] puts each workspace in the zone the tables give it, or in none ("") if
it is not assigned and there is no default zone. *)
Lemma ZoneOf_sound db t ws z :
  sound db → z ≠ "" → ZoneOf (PolicyInput db t) ws = z ↔ zone_of_db db ws z.
Proof.
  intros [(Hz & _) _] Hne. unfold ZoneOf, zone_of_db. unfold PolicyInput at 1. rewrite in_Assign_PolicyInput.
  destruct (assignments db !! ws) as [a|]; simpl; [done|].
  destruct (decide (map_Exists (λ _ z, z_is_default z = true) (zones db))) as [(u & row & Hu & Hd)|Hno].
  - unfold PolicyInput. rewrite (in_DefaultZone_PolicyInput _ _ _ _ u row) by done. split.
    + intros <-. eauto.
    + intros (row' & Hz' & Hd'). destruct Hz as (_ & _ & Huniq). eauto.
  - rewrite no_default_zone.
    + split; [done|]. intros (row & Hr & Hd). destruct Hno. by exists z, row.
    + intros i y Hy. destruct (z_is_default y) eqn:E; [|done]. destruct Hno. by exists i, y.
Qed.

(** [PolicyInput] puts each workspace in the zone the tables give it. *)
Lemma ZoneOf_PolicyInput db t ws z :
  operating db → ZoneOf (PolicyInput db t) ws = z ↔ zone_of_db db ws z.
Proof.
  intros Hop. pose proof (reachable_ok _ (operating_reachable _ Hop)) as (Hz & _).
  destruct (operating_has_default _ Hop) as (u & row & Hu & Hd).
  unfold ZoneOf, zone_of_db, PolicyInput. rewrite in_Assign_PolicyInput.
  destruct (assignments db !! ws) as [a|]; simpl; [done|].
  rewrite (in_DefaultZone_PolicyInput _ _ _ _ u row) by done. split.
  - intros <-. eauto.
  - intros (row' & Hz' & Hd'). destruct Hz as (_ & _ & Huniq). eauto.
Qed.

Lemma zone_of_db_ZoneOf db t ws : operating db → zone_of_db db ws (ZoneOf (PolicyInput db t) ws).
Proof. intros Hop. by eapply (proj1 (ZoneOf_PolicyInput db t ws _ Hop)). Qed.

Lemma sound_rules db :
  sound db → ∀ i row, rules db !! i = Some row →
  rule_checks row = true ∧ r_zone_id row ≠ Some "" ∧ ValidRule (rule_of row) = true.
Proof.
  intros [(_ & (Hc & _) & _) (Hr & _)] i row Hi.
  destruct (Hc i row Hi) as (? & ? & _). split_and!; [done| |done].
  intros Hz. destruct (Hr i row Hi) as [Hz' _]. by eapply uuid_nonempty; eauto.
Qed.

(** The effective rules are those the tables grant. *)
Lemma Effective_PolicyInput db t ws kind r :
  sound db → ws ≠ "" →
  r ∈ Effective (PolicyInput db t) ws kind ↔ granted db t ws r ∧ rule_Kind r = kind.
Proof.
  intros Hs Hws. rewrite elem_of_Effective. pose proof (sound_rules db Hs) as Hrules.
  unfold PolicyInput at 1 3. rewrite elem_of_ZoneRules_PolicyInput, elem_of_Grants_PolicyInput;
    [|done|naive_solver..].
  unfold granted. split.
  - intros ([(i & row & Hi & Hu & Hzr & <-)|(i & row & Hi & Hu & Hw & <-)] & Hk & Hv);
      (split; [|done]); exists i, row; split_and!; eauto.
    left. eexists. split; [done|]. apply (ZoneOf_sound db t); [done| |done].
    intros E. destruct (Hrules i row Hi) as (_ & Hne & _). by rewrite Hzr, E in Hne.
  - intros [(i & row & Hi & <- & Hu & Hor) Hk]. split_and!; [|done|naive_solver].
    destruct Hor as [(z & Hzr & Hzd)|Hw]; [left|right]; exists i, row; split_and!; try done.
    rewrite Hzr. f_equal. symmetry. apply ZoneOf_sound; [done| |done].
    intros ->. by destruct (Hrules i row Hi) as (_ & Hne & _).
Qed.
End refine.
