(* ===== verification/Demo.v ===== *)
(** * A concrete server

An instance of the [Postgres] interface that evaluates, with the laws it must
satisfy, and a few databases reached from it: the concrete inputs at which the
store's theorems are applied. *)
From Stdlib Require Import Ascii.
From S2P Require Import Prelude GoLib Regex Policy Json Store StoreInv StoreSpec StoreThms.
From stdpp Require Import gmap strings list sorting fin_maps relations.

(** Canonical UUID text only: 36 bytes of lower-case hexadecimal and dashes. *)
Definition uuid_byte (c : ascii) : bool :=
  is_digit c || in_range "a" "f" c || Ascii.eqb c "-".

#[export] Instance demo_pg : Postgres := {|
  uuid_in s := if (String.length s =? 36) && string_forall uuid_byte s then Some s else None;
  interval_secs d := (d / 1000)%Z;
  text_leb := String.leb
|}.

#[export] Instance demo_pg_laws : PostgresLaws.
Proof.
  split; [|done|]; cycle 1.
  { intros k _. change ((k * (1000000 * 1000)) / 1000 = k * 1000000)%Z. by rewrite Z.mul_assoc, Z.div_mul. }
  intros s u. simpl.
  destruct ((String.length s =? 36) && string_forall uuid_byte s) eqn:E; [|done].
  intros [= <-]. by rewrite E.
Qed.

(** The [n]th UUID of this world, for n below 100. *)
Definition demo_digit (k : nat) : ascii := digit_char (Z.of_nat (k mod 10)).
Definition demo_uuid (n : nat) : string :=
  "00000000-0000-4000-8000-0000000000" +:+
  String (demo_digit (n / 10)) (String (demo_digit n) "").

Lemma demo_uuid_canonical n : uuid_in (demo_uuid n) = Some (demo_uuid n).
Proof.
  assert (∀ k, uuid_byte (demo_digit k) = true) as Hd.
  { intros k. unfold demo_digit. pose proof (Nat.mod_upper_bound k 10 ltac:(lia)).
    destruct (k mod 10) as [|[|[|[|[|[|[|[|[|[|m]]]]]]]]]]; [done..|lia]. }
  unfold demo_uuid. cbn [uuid_in demo_pg]. rewrite string_length_app, string_forall_app. simpl.
  by rewrite !Hd.
Qed.

Definition demo_env (t : Z) (k : nat) : Env := mkEnv t [] (λ n, demo_uuid (k + n)) None.

Lemma demo_quiet t k : quiet (demo_env t k).
Proof. done. Qed.

(** The outcome of a run, from its first component alone. *)
Lemma ran {A B} (x : A * B) a : x.1 = a → x = (a, x.2).
Proof. by intros <-; destruct x. Qed.

Definition run_ops (l : list (Env * store_op)) (db : DB) : DB :=
  foldl (λ db eo, (exec eo.1 eo.2 db).2) db l.

Lemma run_ops_rtc l db : rtc store_step db (run_ops l db).
Proof.
  revert db. induction l as [|[env op] l IH]; intros db; [apply rtc_refl|].
  eapply rtc_l; [apply store_step_exec|]. apply IH.
Qed.

(** Seeded: zone 10 is the default and allows example.com. *)
Definition seeded : DB := (Seed (demo_env 0 10) migrated_db).2.

Lemma run_ops_operating l : operating (run_ops l seeded).
Proof.
  exists (demo_env 0 10), seeded. split; [|apply run_ops_rtc].
  rewrite (surjective_pairing (Seed _ _)). f_equal.
Qed.

(** Workspaces 50 and 51; zone 20 ("strict") with one rule and workspace 50 in it;
a pending request (40) of workspace 50 for api.example.org. *)
Definition ws0 : string := demo_uuid 50.
Definition ws1 : string := demo_uuid 51.
Definition zone0 : string := demo_uuid 10.
Definition zone1 : string := demo_uuid 20.
Definition request0 : string := demo_uuid 40.

Definition demo_ops : list (Env * store_op) := [
  (demo_env 1 20, OpCreateZone "ann" "strict");
  (demo_env 2 30, OpAddZoneRule "ann" zone1 (mkRule "host" "*.example.net" 443));
  (demo_env 3 0, OpAssign "ann" ws0 zone1);
  (demo_env 4 40, OpFileRequest "dev" ws0 "api.example.org" 443 "build")].

Definition demo_db : DB := run_ops demo_ops seeded.

Lemma demo_operating : operating demo_db.
Proof. apply run_ops_operating. Qed.

Example demo_db_tables :
  (size (zones demo_db), size (rules demo_db), size (assignments demo_db),
   size (requests demo_db), length (audit_log demo_db)) = (2, 3, 1, 1, 5).
Proof. vm_compute. done. Qed.
