(* ===== verification/StoreClaims.v ===== *)
(** * Claims about the store

The properties of the store that the rest of the system relies on, each at a
concrete database of [Demo.v] as well. *)
From S2P Require Import Prelude GoLib Regex Policy Json Store StoreInv StoreSpec StoreThms PolicyLoad Demo.
From stdpp Require Import gmap strings list sorting fin_maps relations.

Section effects.
Context `{Postgres}.

(** ** How the tables' meaning changes *)
Lemma zone_of_db_ext db db' ws z :
  assignments db' = assignments db →
  (∀ z, (∃ row, zones db' !! z = Some row ∧ z_is_default row = true) ↔
        (∃ row, zones db !! z = Some row ∧ z_is_default row = true)) →
  zone_of_db db' ws z ↔ zone_of_db db ws z.
Proof. intros Ha Hd. unfold zone_of_db. rewrite Ha. destruct (assignments db !! ws); auto. Qed.

Lemma granted_ext db db' t ws r :
  rules db' = rules db → (∀ z, zone_of_db db' ws z ↔ zone_of_db db ws z) →
  granted db' t ws r ↔ granted db t ws r.
Proof. intros Hr Hz. unfold granted. rewrite Hr. by setoid_rewrite Hz. Qed.

(** A fresh zone is nobody's zone, so adding one changes no default. *)
Lemma default_insert_fresh (zs : gmap string ZoneRow) id name t z :
  zs !! id = None →
  (∃ row, <[id := mkZoneRow name false t]> zs !! z = Some row ∧ z_is_default row = true) ↔
  (∃ row, zs !! z = Some row ∧ z_is_default row = true).
Proof.
  intros Hid. rewrite lookup_insert. case_decide; [subst; rewrite Hid|done].
  split; [|naive_solver]. intros (row & [= <-] & Hd). done.
Qed.

Lemma fresh_zone_empty db id ws :
  db_ok db → zones db !! id = None → ¬ zone_of_db db ws id.
Proof.
  intros (_ & _ & Ha & _) Hid. unfold zone_of_db. destruct (assignments db !! ws) eqn:E.
  - intros <-. destruct (Ha _ _ E) as (z & Hz & _). congruence.
  - intros (row & Hrow & _). congruence.
Qed.

Lemma workspace_rule_no_zone db i row w z :
  db_ok db → rules db !! i = Some row → r_workspace_id row = Some w →
  r_zone_id row = Some z → False.
Proof.
  intros (_ & (Hr & _) & _) Hi Hw Hz. destruct (Hr _ _ Hi) as (Hc & _).
  unfold rule_checks in Hc. rewrite Hw, Hz in Hc. simpl in Hc. by rewrite andb_false_r in Hc.
Qed.

(** What every UUID the server generates looks like. *)
Definition good_uuids (env : Env) : Prop := ∀ n, uuid_in (uuids env n) = Some (uuids env n).

(** The operations that touch no workspace's policy. *)
Definition policy_neutral (op : store_op) : bool :=
  match op with
  | OpSeed | OpCreateZone _ _ | OpCloneZone _ _ _ | OpRenameZone _ _ _ | OpDeleteZone _ _
  | OpExpireGrants | OpFileRequest _ _ _ _ _ | OpDecide _ _ false _ | OpRecordDenial _ _ _
  | OpAuditSystem _ _ => true
  | _ => false
  end.

Lemma CloneZone_granted env actor src name db id db' t ws r :
  db_ok db → good_uuids env → CloneZone env actor src name db = (Ok id, db') →
  granted db' t ws r ↔ granted db t ws r.
Proof.
  intros Hok Hg (s & m & Hs & Hsz & -> & Hnone & Hold & Hnew & Edb)%CloneZone_Ok.
  assert (∀ z, zone_of_db db' ws z ↔ zone_of_db db ws z) as Hz.
  { intros z. subst db'. apply zone_of_db_ext; [done|]. intros z'.
    by apply default_insert_fresh. }
  unfold granted. setoid_rewrite Hz. subst db'. simpl. split.
  - intros (i & row & Hi & <- & Hu & Hor). destruct (rules db !! i) as [row0|] eqn:E.
    { pose proof (Hold _ _ E). simplify_eq. eauto 10. }
    destruct (proj1 (Hnew row)) as (j & r0 & z & Hz0 & _ & _ & ->); [by eauto|].
    destruct Hor as [(z1 & [= <-] & Hz1)|]; [|done].
    rewrite Hg in Hz0. injection Hz0 as <-. by apply fresh_zone_empty in Hz1.
  - intros (i & row & Hi & ? & Hu & Hor). apply Hold in Hi. eauto 10.
Qed.

Lemma DeleteZone_granted env actor id db db' t ws r :
  db_ok db → DeleteZone env actor id db = (Ok (), db') →
  granted db' t ws r ↔ granted db t ws r.
Proof.
  intros Hok (u & z & Hid & Hu & Hd & Ha & Edb)%DeleteZone_Ok.
  assert (¬ zone_of_db db ws u) as Hnot.
  { unfold zone_of_db. destruct (assignments db !! ws) as [a|] eqn:E; [|intros (? & ? & ?); congruence].
    intros Hau. apply bool_decide_eq_false in Ha. apply Ha. by exists ws, a. }
  assert (∀ v, zone_of_db db' ws v ↔ zone_of_db db ws v) as Hz.
  { intros v. subst db'. apply zone_of_db_ext; [done|]. simpl. clear v. intros v.
    setoid_rewrite lookup_delete_Some. split; [naive_solver|].
    intros (row & Hv & Hrow). exists row. split_and!; [intros ->; congruence|done|done]. }
  unfold granted. setoid_rewrite Hz. subst db'. simpl.
  setoid_rewrite map_lookup_filter_Some. simpl. split; [naive_solver|].
  intros (i & row & Hi & <- & Hun & Hor). exists i, row. split_and!; try done.
  destruct Hor as [(v & Hv & Hzv)|Hw].
  - rewrite Hv. intros [= ->]. done.
  - intros Hzr. by destruct (workspace_rule_no_zone db i row ws u).
Qed.

Lemma ExpireGrants_granted env db n db' t ws r :
  ExpireGrants env db = (Ok n, db') → (now env ≤ t)%Z →
  granted db' t ws r ↔ granted db t ws r.
Proof.
  intros [_ Edb]%ExpireGrants_Ok Ht.
  assert (∀ v, zone_of_db db' ws v ↔ zone_of_db db ws v) as Hz.
  { intros v. subst db'. by apply zone_of_db_ext. }
  unfold granted. setoid_rewrite Hz. subst db'. simpl.
  setoid_rewrite map_lookup_filter_Some. simpl. split; [naive_solver|].
  intros (i & row & Hi & Hr & Hu & Hor). exists i, row. split_and!; try done.
  unfold expired. destruct (r_workspace_id row); [|by intros []].
  destruct (r_expires_at row) as [e|] eqn:Ee; [|by intros []]. rewrite Is_true_true, Z.leb_le.
  specialize (Hu e Ee). lia.
Qed.

Lemma RenameZone_granted env actor id name db db' t ws r :
  RenameZone env actor id name db = (Ok (), db') → granted db' t ws r ↔ granted db t ws r.
Proof.
  intros (u & z & Hid & Hu & _ & ->)%RenameZone_Ok. apply granted_ext; [done|]. intros v.
  apply zone_of_db_ext; [done|]. simpl. clear v. intros v. rewrite lookup_insert.
  case_decide; [subst|done]. rewrite Hu. naive_solver.
Qed.

Lemma neutral_granted env op db db' t ws r :
  operating db → good_uuids env → policy_neutral op = true → (now env ≤ t)%Z →
  on_success env op db db' → granted db' t ws r ↔ granted db t ws r.
Proof.
  intros Hop Hg Hn Ht Hs. pose proof (reachable_ok _ (operating_reachable _ Hop)) as Hok.
  destruct op as [| | | | | | | | | | | | ? ? [] ?| |]; try discriminate Hn; simpl in Hs.
  - apply Seed_Ok in Hs. destruct (operating_has_default _ Hop) as (u & z & Hu & _).
    rewrite bool_decide_eq_false_2 in Hs; [by subst|]. intros E. by rewrite E in Hu.
  - destruct Hs as [id (-> & Hid & _ & ->)%CreateZone_Ok]. apply granted_ext; [done|].
    intros z. apply zone_of_db_ext; [done|]. intros v. by apply default_insert_fresh.
  - destruct Hs as [id Hs]. by eapply CloneZone_granted.
  - by eapply RenameZone_granted.
  - by eapply DeleteZone_granted.
  - destruct Hs as [n Hs]. by eapply ExpireGrants_granted.
  - destruct Hs as [id (_ & w & _ & [(q & _ & _ & ->)|(_ & _ & _ & _ & ->)])%FileRequest_Ok];
      [done|]. by apply granted_ext.
  - apply Decide_Ok in Hs as (u & q & _ & _ & _ & ->). by apply granted_ext.
  - apply RecordDenial_frame in Hs as [m ->]. by apply granted_ext.
  - apply AuditSystem_Ok in Hs as ->. by apply granted_ext.
Qed.

Lemma operating_exec env op db : operating db → operating (exec env op db).2.
Proof.
  intros (e & db0 & Hs & Hr). exists e, db0. split; [done|]. eapply rtc_r; [exact Hr|].
  apply store_step_exec.
Qed.

Lemma operating_run env op db e db' : operating db → exec env op db = (e, db') → operating db'.
Proof. intros Hop E. apply (operating_exec env op) in Hop. by rewrite E in Hop. Qed.
End effects.

(** The database after a successful operation is an operating one too. *)
Ltac after op env Hop Hrun Hop' :=
  match type of Hrun with _ = (_, ?db') =>
    assert (operating db') as Hop'
      by (eapply (operating_run env op); [exact Hop|unfold exec, outcome; by rewrite Hrun])
  end.

(** ** More about single operations *)
Section helpers.
Context `{Postgres}.

Lemma no_expired_rows t db :
  (map_to_list (expired_rows t db)).*2 = [] →
  filter (λ kr, ¬ Is_true (expired t kr.2)) (rules db) = rules db.
Proof.
  intros Hnil%fmap_nil_inv%map_to_list_empty_iff. apply map_filter_id. intros i r Hi Hr.
  assert (expired_rows t db !! i = Some r) as E by by apply map_lookup_filter_Some.
  by rewrite Hnil in E.
Qed.

(** A decided request is never touched again. *)
Lemma decided_step db db' u q :
  store_step db db' → requests db !! u = Some q → q_status q ≠ "pending" →
  requests db' !! u = Some q.
Proof.
  intros Hstep. revert Hstep u q.
  apply (step_cases (λ db db', ∀ u q, requests db !! u = Some q → q_status q ≠ "pending" →
    requests db' !! u = Some q)); [done|].
  clear db db'. intros env op db db' Hop u q Hu Hq.
  op_cases op; simpl; try done; rewrite lookup_insert_ne; congruence.
Qed.

Lemma decided_rtc db db' u q :
  rtc store_step db db' → requests db !! u = Some q → q_status q ≠ "pending" →
  requests db' !! u = Some q.
Proof. induction 1; eauto using decided_step. Qed.

(** A new grant reaches its workspace until it expires, and nobody else. *)
Lemma granted_insert_grant db db' env actor w rule ttl i t ws r :
  rules db !! i = None → zones db' = zones db → assignments db' = assignments db →
  rules db' = <[i := grant_row env actor w rule ttl]> (rules db) →
  granted db' t ws r ↔ granted db t ws r ∨
    (ws = w ∧ r = rule ∧ (t < now env + interval_secs ttl)%Z).
Proof.
  intros Hi Hz Ha Hr. assert (∀ v, zone_of_db db' ws v ↔ zone_of_db db ws v) as Hzone.
  { intros v. apply zone_of_db_ext; [done|]. by rewrite Hz. }
  unfold granted. setoid_rewrite Hzone. rewrite Hr. split.
  - intros (j & row & Hj & <- & Hu & Hor). rewrite lookup_insert in Hj.
    case_decide; [|left; eauto 10]. injection Hj as <-. right. specialize (Hu _ eq_refl).
    simpl in *. destruct Hor as [(? & ? & _)|[= ->]]; [done|]. by destruct rule.
  - intros [(j & row & Hj & ? & Hu & Hor)|(-> & -> & Ht)].
    + exists j, row. rewrite lookup_insert_ne by congruence. auto.
    + exists i, (grant_row env actor w rule ttl). rewrite lookup_insert_eq.
      split_and!; [done|by destruct rule| |by right]. by intros e [= <-].
Qed.

Lemma denials_of_insert_length db k d :
  denials db !! k = None →
  length (denials_of (set_denials db (<[k := d]> (denials db))) k.1.1) =
  S (length (denials_of db k.1.1)).
Proof.
  intros Hk. unfold denials_of. simpl. rewrite (map_to_list_insert _ _ _ Hk).
  by rewrite filter_cons_True.
Qed.

Lemma nothing_over_cap db ws :
  length (denials_of db ws) ≤ denial_cap →
  filter (λ kd, kd.1 ∉ denials_over_cap db ws) (denials db) = denials db.
Proof.
  intros Hlen. apply map_filter_id. intros k d Hk. unfold denials_over_cap.
  rewrite drop_ge; [by intros ?%elem_of_nil|].
  by rewrite (Permutation_length (merge_sort_Permutation _ _)).
Qed.

(** The single pending request of a destination is the one the lookup finds. *)
Lemma find_pending db i q w host port :
  requests_ok (requests db) → requests db !! i = Some q → same_pending w host port q →
  head (map_to_list (filter (λ kq, same_pending w host port kq.2) (requests db))).*1 = Some i.
Proof.
  intros [_ Huniq] Hi Hq.
  destruct (map_to_list _) as [|[j q'] l] eqn:E.
  - apply map_to_list_empty_iff in E.
    assert (filter (λ kq : string * RequestRow, same_pending w host port kq.2) (requests db)
      !! i = Some q) as Hf by by apply map_lookup_filter_Some. by rewrite E in Hf.
  - simpl. f_equal.
    assert (requests db !! j = Some q' ∧ same_pending w host port q') as [Hj Hq'].
    { apply (map_lookup_filter_Some (λ kq, same_pending w host port kq.2)).
      apply elem_of_map_to_list. rewrite E. set_solver. }
    destruct Hq' as (<- & <- & <- & Hp). eapply Huniq; eauto.
Qed.
End helpers.

(** ** Claims *)
Section claims.
Context `{Postgres}.

(** [C7] Every database the operations can reach from a migrated one, with any
transaction times, generated identifiers and faults, satisfies the store's invariant:
zone names well formed and unique, at most one default zone, rules that pass both the
schema's checks and [ValidRule] and belong to an existing zone or to a workspace with an
expiry, no duplicate zone rules, assignments only to existing non-default zones, at most
one pending request per workspace and destination, and at most 200 denial rows a
workspace with counters that fit their column. *)
Theorem store_invariant (db : DB) : reachable db → db_ok db.
Proof. apply reachable_ok. Qed.

(** [C13] Once seeded, the store always has exactly one default zone, whatever operations
run and fail after that. *)
Theorem one_default_zone (db : DB) :
  operating db →
  ∃ u z, zones db !! u = Some z ∧ z_is_default z = true ∧
    ∀ v y, zones db !! v = Some y → z_is_default y = true → v = u.
Proof.
  intros Hop. destruct (operating_has_default _ Hop) as (u & z & Hu & Hd).
  destruct (reachable_ok _ (operating_reachable _ Hop)) as ((_ & _ & Huniq) & _).
  exists u, z. split_and!; [done..|]. intros v y Hv Hy. eauto.
Qed.

(** What a successful operation appends to the audit log. *)
Lemma success_audited env op db db' :
  on_success env op db db' →
  ∃ l, audit_log db' = audit_log db ++ l ∧
    Forall (λ a, au_At a = now env ∧ au_Actor a = op_actor op) l ∧
    (l = [] → zones db' = zones db ∧ rules db' = rules db ∧
      assignments db' = assignments db ∧ requests db' = requests db).
Proof.
  intros E. op_cases op; try (eexists [_]; split_and!; [done|by repeat constructor|done]);
    try (exists []; rewrite app_nil_r; by split_and!).
  eexists. split_and!; [done| |].
  - apply Forall_fmap, Forall_true. done.
  - intros Hnil%fmap_nil_inv. simpl. by rewrite no_expired_rows.
Qed.

(** [C12] The audit trail is complete and append-only. Whether an operation reports an error
or not, the rows it appends bear the transaction's time and the actor, and if it appends none
then zones, rules, assignments and requests are unchanged (only denial counters are kept
without audit). An operation that reports an error leaves the database as it was, unless the
answer to COMMIT was lost: then everything it does on success has been done, its audit rows
included. *)
Theorem every_change_audited env op db :
  let '(e, db') := exec env op db in
  (e ≠ None → db' = db ∨ is_Some (ack_lost env) ∧ exec (acked env) op db = (None, db')) ∧
  ∃ l, audit_log db' = audit_log db ++ l ∧
    Forall (λ a, au_At a = now env ∧ au_Actor a = op_actor op) l ∧
    (l = [] → zones db' = zones db ∧ rules db' = rules db ∧
      assignments db' = assignments db ∧ requests db' = requests db).
Proof.
  destruct (exec env op db) as [[e|] db'] eqn:E.
  - apply exec_Err in E as Hdb. split; [done|]. destruct Hdb as [->|[_ Hdb%exec_Ok]].
    + exists []. rewrite app_nil_r. by split_and!.
    + exact (success_audited _ _ _ _ Hdb).
  - split; [done|]. by apply success_audited, exec_Ok.
Qed.

(** [C6] Approving a request gives the requesting workspace the requested host and port
until the decision's time plus the granted duration, and changes no other effective rule
of any workspace. *)
Theorem approve_grants_exactly `{!PostgresLaws} env actor id ttl db db' u q t ws kind r :
  operating db → uuid_in id = Some u → requests db !! u = Some q →
  Decide env actor id true ttl db = (Ok (), db') → ws ≠ "" →
  r ∈ Effective (PolicyInput db' t) ws kind ↔
  r ∈ Effective (PolicyInput db t) ws kind ∨
    (ws = q_workspace_id q ∧ r = mkRule "host" (q_host q) (q_port q) ∧ kind = "host" ∧
     (t < now env + interval_secs ttl)%Z).
Proof.
  intros Hop Hu Hq Hd Hws. after (OpDecide actor id true ttl) env Hop Hd Hop'.
  rewrite !Effective_PolicyInput by (done || by apply operating_sound).
  apply Decide_Ok in Hd as (u' & q' & Hu' & Hq' & _ & Httl & Hv & w & Hw & Hi & Edb).
  assert (u' = u) as -> by congruence. assert (q' = q) as -> by congruence.
  destruct (reachable_ids_ok _ (operating_reachable _ Hop)) as (_ & _ & Hids).
  rewrite (Hids _ _ Hq) in Hw. injection Hw as <-.
  rewrite (granted_insert_grant db db' env actor (q_workspace_id q)
    (mkRule "host" (q_host q) (q_port q)) ttl _ t ws r Hi); [|by rewrite Edb..].
  naive_solver.
Qed.

(** A pending request can be approved: with a positive duration, no server fault
and a fresh identifier, [Decide] succeeds; the request becomes approved by the actor at
the transaction's time, the grant is one new rule row, and the audit row says whether the
approver was the requester. *)
Theorem Decide_approves `{!PostgresLaws} env actor id ttl db u q :
  reachable db → quiet env → uuid_in id = Some u → requests db !! u = Some q →
  q_status q = "pending" → (0 < ttl)%Z → rules db !! uuids env 0 = None →
  let r := mkRule "host" (q_host q) (q_port q) in
  Decide env actor id true ttl db =
  (Ok (), mkDB (zones db)
     (<[uuids env 0 := mkRuleRec None (Some (q_workspace_id q)) "host" (q_host q) (q_port q)
          (Some (now env + interval_secs ttl)%Z) actor (now env)]> (rules db))
     (assignments db)
     (<[u := mkRequestRow (q_workspace_id q) (q_host q) (q_port q) (q_justification q)
          (q_requester q) "approved" (Some actor) (Some (interval_secs ttl))
          (q_created_at q) (Some (now env))]> (requests db))
     (denials db)
     (audit_log db ++ [mkAuditRow (now env) actor "approve"
        (grant_detail (q_workspace_id q) r ttl ++
         [("request", JStr id); ("self_approved", JBool (actor =? q_requester q)%string)])])).
Proof.
  intros Hr [Hf Hack] Hu Hq Hp Httl Hi.
  destruct (reachable_ids_ok _ Hr) as (_ & _ & Hids).
  destruct (reachable_ok _ Hr) as (_ & _ & _ & (Hreq & _) & _).
  destruct (Hreq _ _ Hq) as (Hc & Hv & _).
  unfold Decide, run_tx, sql, stmt, mbind, Tx_bind. simpl. rewrite Hf. simpl.
  unfold uuid_param. rewrite Hu. simpl. rewrite Hq, Hp. simpl.
  unfold grant. rewrite Hv. simpl. destruct (Z.leb_spec ttl 0); [lia|]. simpl.
  unfold mbind, Tx_bind, stmt. simpl. unfold uuid_param. rewrite (Hids _ _ Hq). simpl.
  unfold insert_rule, gen_uuid. simpl. unfold rule_taken, rule_checks. simpl.
  rewrite Hi. unfold request_checks in Hc. simpl.
  destruct ((q_port q =? 80)%Z || (q_port q =? 443)%Z); [|done]. simpl. by rewrite Hack.
Qed.

(** [C15] A decision is final: once a request has been approved or denied, its row never
changes again, whatever runs later, and any later attempt to decide it reports an error
(ErrConflict unless the server itself fails) and changes nothing. *)
Theorem decision_final env actor id approve ttl db db1 u q :
  rtc store_step db db1 → uuid_in id = Some u → requests db !! u = Some q →
  q_status q ≠ "pending" →
  requests db1 !! u = Some q ∧ (Decide env actor id approve ttl db1).2 = db1 ∧
  (∃ e, (Decide env actor id approve ttl db1).1 = Err e) ∧
  (faults env = [] → (Decide env actor id approve ttl db1).1 = Err ErrConflict).
Proof.
  intros Hr Hu Hq Hp. pose proof (decided_rtc _ _ _ _ Hr Hq Hp) as Hq1.
  split_and!; [done|..].
  - destruct (Decide _ _ _ _ _ _) as [[[]|e] db2] eqn:E;
      [|apply run_tx_Err in E as [->|(_ & [] & E)]; [done|]].
    + apply Decide_Ok in E as (u' & q' & Hu' & Hq' & ? & _). congruence.
    + apply (Decide_Ok (acked env)) in E as (u' & q' & Hu' & Hq' & ? & _). congruence.
  - destruct (Decide _ _ _ _ _ _) as [[[]|e] db2] eqn:E; [|eauto].
    apply Decide_Ok in E as (u' & q' & Hu' & Hq' & ? & _). congruence.
  - intros Hf. unfold Decide, run_tx, sql, stmt, mbind, Tx_bind. rewrite Hf. simpl.
    unfold uuid_param. rewrite Hu. simpl. rewrite Hq1.
    destruct (String.eqb_spec (q_status q) "pending"); [done|]. done.
Qed.

(** [C16] The housekeeping operations leave policy alone: creating, cloning, renaming and
deleting zones, expiring grants, filing and denying requests, recording denials and audit
rows change no workspace's effective rules, at any time from the transaction on. In
particular a deleted zone was nobody's zone, and an expired grant had stopped working
before the ticker removed it. *)
Theorem housekeeping_keeps_policy `{!PostgresLaws} env op db t ws kind r :
  operating db → good_uuids env → policy_neutral op = true → (now env ≤ t)%Z → ws ≠ "" →
  r ∈ Effective (PolicyInput (exec env op db).2 t) ws kind ↔
  r ∈ Effective (PolicyInput db t) ws kind.
Proof.
  intros Hop Hg Hn Ht Hws. pose proof (operating_exec env op db Hop) as Hop'.
  rewrite !Effective_PolicyInput by (done || by apply operating_sound).
  destruct (exec env op db) as [[e|] db'] eqn:E; simpl.
  - apply exec_Err in E as [->|[_ E%exec_Ok]]; [done|].
    by rewrite (neutral_granted (acked env) op db db' t ws r).
  - apply exec_Ok in E. by rewrite (neutral_granted env op db db' t ws r).
Qed.

(** [C5] [PolicyInput] refines the tables: the rules in force for a workspace are exactly
the unexpired rules of its zone (its assignment, or the default zone) and its own
unexpired grants. This holds of every database that satisfies the schema with canonical
identifiers, also after races. *)
Theorem PolicyInput_refines `{!PostgresLaws} db t ws kind r :
  sound db → ws ≠ "" →
  r ∈ Effective (PolicyInput db t) ws kind ↔ granted db t ws r ∧ rule_Kind r = kind.
Proof. apply Effective_PolicyInput. Qed.

(** Assigning a workspace puts it in the named zone, the default zone included, and
moves no other workspace. *)
Theorem Assign_moves `{!PostgresLaws} env actor ws zone db db' w z t :
  operating db → uuid_in ws = Some w → uuid_in zone = Some z →
  Assign env actor ws zone db = (Ok (), db') →
  ZoneOf (PolicyInput db' t) w = z ∧
  ∀ v, v ≠ w → ZoneOf (PolicyInput db' t) v = ZoneOf (PolicyInput db t) v.
Proof.
  intros Hop Hw Hz Ha. after (OpAssign actor ws zone) env Hop Ha Hop'.
  apply Assign_Ok in Ha as (w' & z' & row & Hw' & Hz' & Hrow & Edb). simplify_eq.
  split; [|intros v Hv]; apply ZoneOf_PolicyInput; try done; unfold zone_of_db; simpl.
  - destruct (z_is_default row) eqn:E; [rewrite lookup_delete_eq; eauto|].
    by rewrite lookup_insert_eq.
  - pose proof (zone_of_db_ZoneOf db t v Hop) as Hzv.
    unfold zone_of_db in Hzv. destruct (z_is_default row).
    + by rewrite lookup_delete_ne.
    + by rewrite lookup_insert_ne.
Qed.

(** Changing the default zone moves exactly the workspaces without an explicit
assignment, all of them to the new default; the others stay where they were. *)
Theorem SetDefaultZone_moves `{!PostgresLaws} env actor id db db' u t ws :
  operating db → uuid_in id = Some u → SetDefaultZone env actor id db = (Ok (), db') →
  ZoneOf (PolicyInput db' t) ws =
  if decide (assignments db !! ws = None) then u else ZoneOf (PolicyInput db t) ws.
Proof.
  intros Hop Hu Hs. after (OpSetDefaultZone actor id) env Hop Hs Hop'.
  apply SetDefaultZone_Ok in Hs as (u' & z & Hu' & Hz & Edb). simplify_eq.
  apply ZoneOf_PolicyInput; [done|]. unfold zone_of_db. simpl.
  rewrite map_lookup_filter. case_decide as Hnone.
  - rewrite Hnone. simpl. eexists. by rewrite lookup_insert_eq.
  - destruct (assignments db !! ws) as [a|] eqn:Ea; [|done]. simpl.
    pose proof (zone_of_db_ZoneOf db t ws Hop) as Hzv.
    unfold zone_of_db in Hzv. rewrite Ea in Hzv. rewrite <- Hzv.
    destruct (decide (a_zone_id a = u)) as [E|E].
    + rewrite option_guard_False by (simpl; naive_solver). simpl.
      eexists. by rewrite E, lookup_insert_eq.
    + by rewrite option_guard_True.
Qed.

(** [C19] [PolicyInput] reads the tables in three separate statements. When a change of the
default zone commits between the first and the third, a workspace explicitly assigned to
the new default is handed the policy of the old default zone, in which it was neither
before nor after the change. *)
Theorem PolicyInput_torn_zone `{!PostgresLaws} env actor id db db' u t ws a :
  operating db → uuid_in id = Some u → SetDefaultZone env actor id db = (Ok (), db') →
  assignments db !! ws = Some a → a_zone_id a = u →
  ZoneOf (PolicyInput db t) ws = u ∧ ZoneOf (PolicyInput db' t) ws = u ∧
  ∃ old z, zones db !! old = Some z ∧ z_is_default z = true ∧ old ≠ u ∧
    ZoneOf (PolicyInput_torn db db db' t) ws = old.
Proof.
  intros Hop Hu Hs Ha Hau. after (OpSetDefaultZone actor id) env Hop Hs Hop'.
  apply SetDefaultZone_Ok in Hs as (u' & z & Hu' & Hz & Edb).
  assert (u' = u) as -> by congruence.
  assert (assignments db' !! ws = None) as Hnone.
  { rewrite Edb. simpl. rewrite map_lookup_filter, Ha. simpl.
    by rewrite option_guard_False by (simpl; naive_solver). }
  split_and!.
  - apply ZoneOf_PolicyInput; [done|]. unfold zone_of_db. by rewrite Ha.
  - apply ZoneOf_PolicyInput; [done|]. unfold zone_of_db. rewrite Hnone, Edb. simpl.
    eexists. by rewrite lookup_insert_eq.
  - destruct (operating_has_default _ Hop) as (old & y & Hold & Hy).
    pose proof (reachable_ok _ (operating_reachable _ Hop)) as (Hzs & _ & Has & _).
    exists old, y. split_and!; [done|done| |].
    + intros ->. destruct (Has _ _ Ha) as (y' & Hy' & Hd). congruence.
    + unfold ZoneOf. rewrite in_Assign_PolicyInput, Hnone. simpl.
      by apply (in_DefaultZone_PolicyInput _ _ _ _ old y).
Qed.

(** A cloned zone starts with exactly its source's rules: whatever the time, a rule
row of the new zone exists for a rule if and only if one of the source's rows has it. *)
Theorem CloneZone_copies env actor src name db id db' s r :
  db_ok db → good_uuids env → uuid_in src = Some s →
  CloneZone env actor src name db = (Ok id, db') →
  (∃ i row, rules db' !! i = Some row ∧ r_zone_id row = Some id ∧ rule_of row = r) ↔
  (∃ i row, rules db !! i = Some row ∧ r_zone_id row = Some s ∧ rule_of row = r).
Proof.
  intros Hok Hg Hs Hc. apply CloneZone_Ok in Hc as
    (s' & m & Hs' & Hsz & -> & Hnone & Hold & Hnew & ->). simplify_eq. simpl. split.
  - intros (i & row & Hi & Hz & <-). destruct (rules db !! i) as [row0|] eqn:E.
    + pose proof (Hold _ _ E). simplify_eq. destruct Hok as (_ & (Hr & _) & _).
      destruct (Hr _ _ E) as (_ & _ & Hzone). destruct (Hzone _ Hz). congruence.
    + destruct (proj1 (Hnew row)) as (j & r0 & z & Hz0 & Hj & Hzs & ->); [by eauto|].
      by exists j, r0.
  - intros (j & r0 & Hj & Hz & <-).
    destruct (proj2 (Hnew (mkRuleRec (Some (uuids env 0)) None (r_kind r0) (r_value r0)
      (r_port r0) None actor (now env)))) as (i & Hi & _); [|by eexists i, _].
    exists j, r0, (uuids env 0). by rewrite Hg.
Qed.

(** [C22] Recording a denial is bounded and isolated: it touches only its workspace's rows,
adds at most its own row, keeps at most 200 of them, counts a repeated denial at most once
a second, and a new destination is kept while the workspace has fewer than 200. *)
Theorem RecordDenial_bounded env ws host port db db' w :
  reachable db → uuid_in ws = Some w → RecordDenial env ws host port db = (Ok (), db') →
  let k := (w, host, port) in
  (∀ k', k'.1.1 ≠ w → denials db' !! k' = denials db !! k') ∧
  (∀ k' d, k' ≠ k → denials db' !! k' = Some d → denials db !! k' = Some d) ∧
  length (denials_of db' w) ≤ 200 ∧
  match denials db !! k with
  | Some d => denials db' =
      if (d_last_seen d <? now env - second_us)%Z
      then <[k := mkDenialRow (d_count d + 1) (d_first_seen d) (now env)]> (denials db)
      else denials db
  | None => length (denials_of db w) < 200 →
      denials db' = <[k := mkDenialRow 1 (now env) (now env)]> (denials db)
  end.
Proof.
  intros Hr Hw Hd k. pose proof (exec_ok env (OpRecordDenial ws host port) db) as Hok.
  unfold exec, outcome in Hok. rewrite Hd in Hok. simpl in Hok.
  destruct (Hok (reachable_ok _ Hr)) as (_ & _ & _ & _ & _ & Hcap).
  apply RecordDenial_Ok in Hd as (w' & new & db1 & Hw' & _ & Hu & ->).
  assert (w' = w) as -> by congruence. fold k in Hu.
  unfold upsert_denial in Hu. destruct (denials db !! k) as [d|] eqn:Ek.
  - destruct (_ <? _)%Z; [destruct (_ <? _)%Z; [done|]|]; simplify_eq/=; split_and!; try done;
      try apply (Hcap w).
    + intros k' Hk'. rewrite lookup_insert_ne; [done|]. by intros <-.
    + intros k' d' Hk'. by rewrite lookup_insert_ne.
  - simplify_eq/=. split_and!; [| |apply (Hcap w)|].
    + intros k' Hk'. rewrite map_lookup_filter, lookup_insert_ne by (by intros <-).
      destruct (denials db !! k') as [d|]; [|done]. simpl. apply option_guard_True. simpl.
      by intros ?%over_cap_ws.
    + intros k' d Hk' [Hd _]%map_lookup_filter_Some. by rewrite lookup_insert_ne in Hd.
    + intros Hlen. apply (nothing_over_cap (set_denials db _)).
      rewrite (denials_of_insert_length _ k); [|done]. unfold denial_cap. simpl. lia.
Qed.

(** Filing a request is idempotent: filing it again, by anybody and with any
justification, returns the same pending request and changes nothing. *)
Theorem FileRequest_idempotent env env' actor actor' ws host port j j' db id db' :
  reachable db → FileRequest env actor ws host port j db = (Ok id, db') → quiet env' →
  FileRequest env' actor' ws host port j' db' = (Ok id, db').
Proof.
  intros Hr Hf [Hnf Hack]. pose proof (exec_ok env (OpFileRequest actor ws host port j) db) as Hok.
  unfold exec, outcome in Hok. rewrite Hf in Hok. simpl in Hok.
  destruct (Hok (reachable_ok _ Hr)) as (_ & _ & _ & Hreq & _).
  apply FileRequest_Ok in Hf as (Hv & w & Hw & Hcase).
  assert (∃ q, requests db' !! id = Some q ∧ same_pending w host port q) as (q & Hq & Hp).
  { destruct Hcase as [(q & Hq & Hp & ->)|(_ & -> & _ & _ & ->)]; [eauto|].
    eexists. simpl. rewrite lookup_insert_eq. by split. }
  unfold FileRequest, FileRequest_torn. rewrite Hv. simpl.
  unfold run_tx, sql, stmt, mbind, Tx_bind. rewrite Hnf. simpl.
  unfold uuid_param. rewrite Hw. simpl. rewrite (find_pending db' id q) by done. simpl. by rewrite Hack.
Qed.

(** [DeleteZone] refuses with ErrConflict the default zone and any zone with an
assigned workspace, and with ErrNotFound a zone that does not exist; it then changes
nothing. *)
Theorem DeleteZone_refuses env actor id db u :
  faults env = [] → uuid_in id = Some u →
  match zones db !! u with
  | None => DeleteZone env actor id db = (Err ErrNotFound, db)
  | Some z => z_is_default z = true ∨ (∃ w a, assignments db !! w = Some a ∧ a_zone_id a = u) →
      DeleteZone env actor id db = (Err ErrConflict, db)
  end.
Proof.
  intros Hf Hu. unfold DeleteZone, DeleteZone_torn, run_tx, sql, stmt, mbind, Tx_bind. rewrite Hf. simpl.
  unfold uuid_param. rewrite Hu. simpl. destruct (zones db !! u) as [z|]; [|done].
  intros Hor. simpl. assert (z_is_default z || has_assignments db u = true) as ->; [|done].
  destruct Hor as [->|(w & a & Hw & Ha)]; [done|]. apply orb_true_intro. right.
  apply bool_decide_eq_true. by exists w, a.
Qed.

(** Violated constraints surface as the store's sentinels: creating a zone with a
malformed name is ErrInvalid, with a name already taken is ErrConflict, and otherwise it
succeeds (given a fresh identifier and no fault). *)
Theorem CreateZone_errors env actor name db :
  quiet env → zones db !! uuids env 0 = None →
  match CreateZone env actor name db with
  | (Ok id, _) => rmatch zone_nameRE name = true ∧
      ∀ v z, zones db !! v = Some z → z_name z ≠ name
  | (Err e, db') => db' = db ∧
      (errors_Is e "invalid" = true ∧ rmatch zone_nameRE name = false ∨
       errors_Is e "conflict" = true ∧ ∃ v z, zones db !! v = Some z ∧ z_name z = name)
  end.
Proof.
  intros [Hf Hack] Hid. unfold CreateZone, run_tx, sql, stmt, mbind, Tx_bind. rewrite Hf. simpl.
  unfold insert_zone. simpl. rewrite Hid. unfold put_zone. simpl.
  destruct (rmatch zone_nameRE name); simpl; [|auto].
  destruct (name_taken (zones db) (uuids env 0) name) eqn:E; simpl.
  - split; [done|]. right. split; [done|]. apply bool_decide_eq_true in E.
    destruct E as (v & z & Hv & _ & Hz). eauto.
  - rewrite Hack. split; [done|]. intros v z Hv Hz. pose proof (name_taken_false _ _ _ _ _ E Hv Hz). congruence.
Qed.

(** The expiry ticker removes exactly the grants whose time has come and writes one
audit row for each. *)
Theorem ExpireGrants_exact env db n db' :
  ExpireGrants env db = (Ok n, db') →
  (∀ i r, rules db' !! i = Some r ↔ rules db !! i = Some r ∧ expired (now env) r = false) ∧
  n = size (expired_rows (now env) db) ∧
  audit_log db' = audit_log db ++ (expire_row env <$> (map_to_list (expired_rows (now env) db)).*2).
Proof.
  intros [-> ->]%ExpireGrants_Ok. simpl. split_and!; [|done|done]. intros i r.
  rewrite map_lookup_filter_Some. simpl. destruct (expired _ r); simpl; naive_solver.
Qed.
End claims.

(** ** The claims at a concrete database *)
Definition request_row0 : RequestRow :=
  mkRequestRow ws0 "api.example.org" 443 "build" "dev" "pending" None None 4 None.
Definition approved_db : DB := (Decide (demo_env 10 60) "ann" request0 true Hour demo_db).2.
Definition default_db : DB := (SetDefaultZone (demo_env 10 60) "ann" zone1 demo_db).2.
Definition cloned_db : DB := (CloneZone (demo_env 10 60) "ann" zone1 "copy" demo_db).2.
Definition assigned_db : DB := (Assign (demo_env 10 60) "ann" ws1 zone1 demo_db).2.
Definition denied_db : DB := (RecordDenial (demo_env 10 60) ws1 "evil.test" 443 demo_db).2.

Lemma demo_reachable : reachable demo_db.
Proof. apply operating_reachable, demo_operating. Qed.

Lemma demo_good_uuids t k : good_uuids (demo_env t k).
Proof. intros n. apply demo_uuid_canonical. Qed.

Lemma store_invariant_witness : db_ok demo_db.
Proof. apply store_invariant. apply demo_reachable. Defined.

Lemma one_default_zone_witness :
  ∃ u z, zones demo_db !! u = Some z ∧ z_is_default z = true ∧
    ∀ v y, zones demo_db !! v = Some y → z_is_default y = true → v = u.
Proof. apply one_default_zone. apply demo_operating. Defined.

Lemma approve_grants_exactly_witness :
  mkRule "host" "api.example.org" 443 ∈ Effective (PolicyInput approved_db 20) ws0 "host".
Proof.
  apply (approve_grants_exactly (demo_env 10 60) "ann" request0 Hour demo_db approved_db request0
    request_row0 20 ws0 "host" (mkRule "host" "api.example.org" 443)).
  - apply demo_operating.
  - reflexivity.
  - vm_compute. reflexivity.
  - unfold approved_db. apply ran. vm_compute. reflexivity.
  - discriminate.
  - right. repeat split.
Defined.

Lemma Decide_approves_witness :
  (Decide (demo_env 10 60) "ann" request0 true Hour demo_db).1 = Ok ().
Proof.
  rewrite (Decide_approves (demo_env 10 60) "ann" request0 Hour demo_db request0 request_row0);
    [reflexivity|apply demo_reachable|apply demo_quiet|reflexivity|..];
    vm_compute; reflexivity.
Defined.

Lemma decision_final_witness :
  (Decide (demo_env 11 70) "bob" request0 false 0 approved_db).1 = Err ErrConflict.
Proof.
  eapply (decision_final (demo_env 11 70) "bob" request0 false 0 approved_db approved_db request0).
  - apply rtc_refl.
  - reflexivity.
  - vm_compute. reflexivity.
  - discriminate.
  - reflexivity.
Defined.

Lemma housekeeping_keeps_policy_witness :
  mkRule "host" "*.example.net" 443 ∈ Effective (PolicyInput
    (exec (demo_env 10 60) (OpCloneZone "ann" zone1 "copy") demo_db).2 20) ws0 "host".
Proof.
  refine (proj2 (housekeeping_keeps_policy (demo_env 10 60) (OpCloneZone "ann" zone1 "copy") demo_db 20
    ws0 "host" (mkRule "host" "*.example.net" 443) _ _ _ _ _) _).
  - apply demo_operating.
  - apply demo_good_uuids.
  - reflexivity.
  - simpl. lia.
  - discriminate.
  - vm_compute. left.
Defined.

Lemma PolicyInput_refines_witness :
  granted demo_db 20 ws0 (mkRule "host" "*.example.net" 443).
Proof.
  apply (PolicyInput_refines demo_db 20 ws0 "host" (mkRule "host" "*.example.net" 443)).
  - apply operating_sound, demo_operating.
  - discriminate.
  - vm_compute. left.
Defined.

Lemma Assign_moves_witness : ZoneOf (PolicyInput assigned_db 20) ws1 = zone1.
Proof.
  refine (proj1 (Assign_moves (demo_env 10 60) "ann" ws1 zone1 demo_db assigned_db ws1 zone1 20
    _ _ _ _)).
  - apply demo_operating.
  - reflexivity.
  - reflexivity.
  - unfold assigned_db. apply ran. vm_compute. reflexivity.
Defined.

Lemma SetDefaultZone_moves_witness : ZoneOf (PolicyInput default_db 20) ws1 = zone1.
Proof.
  rewrite (SetDefaultZone_moves (demo_env 10 60) "ann" zone1 demo_db default_db zone1 20 ws1).
  - reflexivity.
  - apply demo_operating.
  - reflexivity.
  - unfold default_db. apply ran. vm_compute. reflexivity.
Defined.

Lemma PolicyInput_torn_zone_witness :
  ZoneOf (PolicyInput demo_db 20) ws0 = zone1 ∧ ZoneOf (PolicyInput default_db 20) ws0 = zone1 ∧
  ∃ old z, zones demo_db !! old = Some z ∧ z_is_default z = true ∧ old ≠ zone1 ∧
    ZoneOf (PolicyInput_torn demo_db demo_db default_db 20) ws0 = old.
Proof.
  eapply (PolicyInput_torn_zone (demo_env 10 60) "ann" zone1 demo_db default_db zone1 20 ws0).
  - apply demo_operating.
  - reflexivity.
  - unfold default_db. apply ran. vm_compute. reflexivity.
  - vm_compute. reflexivity.
  - reflexivity.
Defined.

Lemma CloneZone_copies_witness :
  ∃ i row, rules cloned_db !! i = Some row ∧ r_zone_id row = Some (demo_uuid 60) ∧
    rule_of row = mkRule "host" "*.example.net" 443.
Proof.
  eapply (CloneZone_copies (demo_env 10 60) "ann" zone1 "copy" demo_db (demo_uuid 60) cloned_db).
  - apply reachable_ok, demo_reachable.
  - apply demo_good_uuids.
  - reflexivity.
  - unfold cloned_db. apply ran. vm_compute. reflexivity.
  - exists (demo_uuid 30). eexists. split; [vm_compute; reflexivity|split; reflexivity].
Defined.

Lemma RecordDenial_bounded_witness :
  length (denials_of denied_db ws1) ≤ 200 ∧
  denials denied_db !! (ws1, "evil.test", 443%Z) = Some (mkDenialRow 1 10 10).
Proof.
  destruct (RecordDenial_bounded (demo_env 10 60) ws1 "evil.test" 443 demo_db denied_db ws1)
    as (_ & _ & Hlen & _).
  - apply demo_reachable.
  - reflexivity.
  - unfold denied_db. apply ran. vm_compute. reflexivity.
  - split; [exact Hlen|]. vm_compute. reflexivity.
Defined.

Lemma FileRequest_idempotent_witness :
  (FileRequest (demo_env 9 80) "eve" ws0 "api.example.org" 443 "again" demo_db).1 = Ok request0.
Proof.
  rewrite (FileRequest_idempotent (demo_env 8 70) (demo_env 9 80) "dev" "eve" ws0
    "api.example.org" 443 "build" "again" demo_db request0 demo_db); [reflexivity|apply demo_reachable| |apply demo_quiet].
  vm_compute. reflexivity.
Defined.

Lemma DeleteZone_refuses_witness :
  DeleteZone (demo_env 10 60) "ann" zone1 demo_db = (Err ErrConflict, demo_db).
Proof.
  pose proof (DeleteZone_refuses (demo_env 10 60) "ann" zone1 demo_db zone1 eq_refl eq_refl) as Hd.
  destruct (zones demo_db !! zone1) as [z|] eqn:E.
  - apply Hd. right. exists ws0. eexists. split; [vm_compute; reflexivity|reflexivity].
  - vm_compute in E. discriminate E.
Defined.

Lemma CreateZone_errors_witness :
  ∃ e, CreateZone (demo_env 10 60) "ann" "strict" demo_db = (Err e, demo_db) ∧
    errors_Is e "conflict" = true.
Proof.
  pose proof (CreateZone_errors (demo_env 10 60) "ann" "strict" demo_db (demo_quiet _ _) eq_refl) as Hc.
  destruct (CreateZone (demo_env 10 60) "ann" "strict" demo_db) as [[id|e] db'] eqn:E.
  - vm_compute in E. discriminate E.
  - destruct Hc as [-> [[_ Hn]|[Hc _]]]; [vm_compute in Hn; discriminate Hn|]. exists e. split; [reflexivity|exact Hc].
Defined.

Lemma ExpireGrants_exact_witness :
  (ExpireGrants (demo_env 9000000000 70) approved_db).1 = Ok 1 ∧
  size (expired_rows 9000000000 approved_db) = 1.
Proof.
  destruct (ExpireGrants_exact (demo_env 9000000000 70) approved_db 1
    (ExpireGrants (demo_env 9000000000 70) approved_db).2) as (_ & Hn & _).
  - vm_compute. reflexivity.
  - split; [vm_compute; reflexivity|symmetry; exact Hn].
Defined.
