(* ===== verification/Races.v ===== *)
(** * The store under concurrent transactions

The other files let transactions run one after the other. Here the operations that look
before they write ([Seed], [DeleteZone], [Assign], [FileRequest]) may have looked at an older
database: they run in read committed transactions and their first query takes no locks. What
the schema states survives this ([sound]), and with it the loading of the policy; what only
the code checks does not. An operation that writes in its first statement still runs at
once. *)
From S2P Require Import Prelude GoLib Regex Policy Json Store StoreInv StoreSpec StoreThms PolicyLoad Demo StoreClaims.
From stdpp Require Import gmap strings list sorting fin_maps relations.

Section races.
Context `{Postgres, !PostgresLaws}.

(** An operation whose first query ran when the database was [old]. *)
Definition exec_seeing (old : DB) (env : Env) (op : store_op) (db : DB) : option error * DB :=
  match op with
  | OpSeed => outcome (Seed_torn (λ _, old) env db)
  | OpDeleteZone actor id => outcome (DeleteZone_torn (λ _, old) env actor id db)
  | OpAssign actor wsID zoneID => outcome (Assign_torn (λ _, old) env actor wsID zoneID db)
  | OpFileRequest actor wsID host port j =>
      outcome (FileRequest_torn (λ _, old) env actor wsID host port j db)
  | _ => exec env op db
  end.

(** The databases that were committed, the newest first. *)
Inductive history : list DB → Prop :=
| history_migrated : history [migrated_db]
| history_step env op old db h :
    history (db :: h) → old ∈ db :: h → history ((exec_seeing old env op db).2 :: db :: h).

(** Nobody in between: the operation as it is. *)
Lemma exec_seeing_self env op db : exec_seeing db env op db = exec env op db.
Proof.
  destruct op as [| | | |actor id| | | |actor ws zone| | |actor ws host port j| | |]; try done;
    unfold exec_seeing, exec, outcome, Seed, DeleteZone, Assign, FileRequest, Seed_torn,
      DeleteZone_torn, Assign_torn, FileRequest_torn; try (destruct (ValidRule _); [|done]);
    unfold run_tx, sql, stmt, mbind, Tx_bind; simpl;
    by destruct (faults env) as [|[e|] [|[e'|] fs]], (ack_lost env).
Qed.

Lemma exec_seeing_at old env op db : db_at False db → db_at False (exec_seeing old env op db).2.
Proof.
  intros Hok. destruct op; try (by apply exec_at); simpl.
  - by apply Seed_torn_ok.
  - by apply DeleteZone_torn_ok.
  - by apply Assign_torn_ok.
  - by apply FileRequest_torn_ok.
Qed.

(** Canonical identifiers survive, too. *)
Lemma Seed_torn_ids seen env db : ids_ok db → ids_ok (Seed_torn seen env db).2.
Proof.
  apply run_tx_inv. eapply triple_bind.
  { apply (triple_sql _ _ (λ _, ids_ok)). by intros ??? ? [= <- <-]. }
  intros n. destruct (negb (n =? 0)); [by apply triple_ret|]. eapply triple_bind.
  { apply (triple_stmt _ _ (λ _, ids_ok)). intros st id st' Hok Hi.
    by apply insert_zone_Ok in Hi as (_ & _ & m & _ & ->). }
  intros id. apply (triple_bind _ _ (λ _, ids_ok)).
  - apply (triple_foldr ids_ok (λ port, stmt (λ st, let? z := uuid_param id in
      insert_rule (mkRuleRec (Some z) None "host" "example.com" port None
        "bootstrap" (now env)) st))).
    intros port _. apply (triple_stmt _ _ (λ _, ids_ok)).
    intros st [] st' (Hr & Ha & Hq) (z & Hz & Hi)%result_bind_Ok.
    unfold uuid_param in Hz. destruct (uuid_in id) as [z'|] eqn:Ez; simplify_eq/=.
    apply uuid_in_canonical in Ez.
    apply insert_rule_Ok in Hi as (i & _ & _ & _ & ->). split_and!; simpl; [|done..].
    apply insert_forall; [done|by apply rule_ids_ok_zone].
  - intros []. apply (triple_stmt _ _ (λ _, ids_ok)). intros st [] st' Hok Hi. by tx_inv.
Qed.

(** An operation that reports an error did nothing, or all it does with its answer lost. *)
Lemma exec_seeing_Err old env op db e db' :
  exec_seeing old env op db = (Some e, db') →
  db' = db ∨ is_Some (ack_lost env) ∧ exec_seeing old (acked env) op db = (None, db').
Proof.
  destruct op; try apply exec_Err; unfold exec_seeing; intros Heq;
    match type of Heq with outcome ?x = _ => destruct x as [[?|?] ?] eqn:E end; unfold outcome in Heq; simplify_eq/=;
    try (by run_tx_error E).
  unfold FileRequest_torn in E |- *. destruct (ValidRule _); simpl in E; [by run_tx_error E|].
  left. congruence.
Qed.

Lemma exec_seeing_Ok_ids old env op db db' :
  exec_seeing old env op db = (None, db') → ids_ok db → ids_ok db'.
Proof.
  intros Hx Hok. destruct op as [| | | |actor id| | | |actor ws zone| | |actor ws host port j| | |];
    try (match type of Hx with exec_seeing _ _ ?op _ = _ =>
      pose proof (ids_ok_step _ _ (store_step_exec env op db) Hok) as Hi;
      change (exec env op db = (None, db')) in Hx; by rewrite Hx in Hi end);
    unfold exec_seeing, outcome in Hx.
  - pose proof (Seed_torn_ids (λ _, old) env db Hok) as Hi. simpl in Hx. apply (f_equal snd) in Hx. simpl in Hx. by rewrite <- Hx.
  - destruct (DeleteZone_torn _ _ _ _ _) as [[[]|e] db1] eqn:E; simplify_eq/=.
    apply DeleteZone_torn_Ok in E as (u & z & _ & _ & _ & _ & _ & ->).
    destruct Hok as (Hr & Ha & Hq). split_and!; simpl; [|done..].
    intros i r [? _]%map_lookup_filter_Some. eauto.
  - destruct (Assign_torn _ _ _ _ _ _) as [[[]|e] db1] eqn:E; simplify_eq/=.
    apply Assign_torn_Ok in E as (w & z & row & Hw%uuid_in_canonical & _ & _ & ->).
    destruct Hok as (Hr & Ha & Hq). split_and!; simpl; [done| |done].
    intros w' r. destruct (z_is_default row); [intros [_ ?]%lookup_delete_Some; eauto|].
    rewrite lookup_insert. case_decide; [by intros _; subst|eauto].
  - destruct (FileRequest_torn _ _ _ _ _ _ _ _) as [[id|e] db1] eqn:E; simplify_eq/=.
    apply FileRequest_torn_Ok in E as (_ & w & Hw%uuid_in_canonical & [(_ & _ & _ & ->)|(_ & _ & _ & _ & ->)]);
      [done|]. destruct Hok as (Hr & Ha & Hq). split_and!; simpl; [done..|].
    by apply insert_forall.
Qed.

Lemma exec_seeing_ids old env op db : ids_ok db → ids_ok (exec_seeing old env op db).2.
Proof.
  intros Hok. destruct (exec_seeing old env op db) as [[e|] db'] eqn:E; simpl.
  - apply exec_seeing_Err in E as [->|[_ E]]; [done|]. by eapply exec_seeing_Ok_ids.
  - by eapply exec_seeing_Ok_ids.
Qed.

Lemma exec_seeing_sound old env op db : sound db → sound (exec_seeing old env op db).2.
Proof. intros [Hs Hi]. split; [by apply exec_seeing_at|by apply exec_seeing_ids]. Qed.

(** [C14] Whatever operations were overtaken by others between their first query and their first
write, the constraints of the schema hold: zone names are well formed and unique, there is at
most one default zone, rules are valid and unique in their zone, rules and assignments name
existing zones, requests and denials are well formed. The identifiers in the tables are
canonical, so that the policy is loaded from them as from any other database. *)
Theorem races_keep_schema db h : history (db :: h) → sound db.
Proof.
  intros Hh.
  remember (db :: h) as l eqn:El. revert db h El.
  induction Hh as [|env op old db0 h0 Hh IH Hold]; intros db h [= <- <-].
  - apply sound_migrated.
  - by apply exec_seeing_sound, (IH _ h0).
Qed.

(** A transaction without faults. *)
Ltac run_clean Hq :=
  destruct Hq as [Hf Hack];
  unfold run_tx, sql, stmt, mbind, Tx_bind; rewrite Hf, Hack; simpl; unfold uuid_param.

Lemma DeleteZone_torn_runs old env actor id u z db :
  quiet env → uuid_in id = Some u → zones old !! u = Some z → z_is_default z = false →
  has_assignments old u = false → has_assignments db u = false →
  DeleteZone_torn (λ _, old) env actor id db =
  (Ok (), log env (set_rules (set_zones db (delete u (zones db)))
            (filter (λ kr, r_zone_id kr.2 ≠ Some u) (rules db))) actor "zone_delete" [("zone", JStr id)]).
Proof.
  intros Hq Hu Hz Hd Ho Ha. unfold DeleteZone_torn. run_clean Hq. rewrite Hu. simpl.
  rewrite Hz. simpl. rewrite Hd, Ho. simpl. rewrite ?Hu. simpl. unfold delete_zone. simpl. rewrite Ha. done.
Qed.

Lemma Assign_torn_runs old env actor ws w zone u z db :
  quiet env → uuid_in ws = Some w → uuid_in zone = Some u → zones old !! u = Some z →
  is_Some (zones db !! u) →
  Assign_torn (λ _, old) env actor ws zone db =
  (Ok (), log env (set_assignments db
            (if z_is_default z then delete w (assignments db)
             else <[w := mkAssignRow u actor (now env)]> (assignments db))) actor "assign"
            [("workspace", JStr ws); ("zone", JStr zone)]).
Proof.
  intros Hq Hw Hu Hz Hex. unfold Assign_torn. run_clean Hq. rewrite Hu. simpl. rewrite Hz. simpl.
  destruct (z_is_default z); simpl; rewrite Hw; simpl; [done|]. rewrite ?Hu. simpl.
  by rewrite bool_decide_eq_true_2.
Qed.

Lemma Seed_again env db : zones db ≠ ∅ → (Seed env db).2 = db.
Proof.
  intros Hne. destruct (Seed env db) as [[[]|e] db'] eqn:E; simpl.
  - apply Seed_Ok in E. by rewrite bool_decide_eq_false_2 in E.
  - apply run_tx_Err in E as [?|(_ & [] & E)]; [done|].
    apply (Seed_Ok (acked env)) in E. by rewrite bool_decide_eq_false_2 in E.
Qed.

(** [C20] [DeleteZone] can delete the default zone: if the zone is made the default after
[DeleteZone] saw that it is neither the default nor assigned, the zone is deleted
all the same. No default zone is left, every workspace without an assignment is
in no zone, and no later start of the service seeds a default again. *)
Theorem DeleteZone_race env env' actor actor' id u z db db1 :
  operating db → uuid_in id = Some u → zones db !! u = Some z → z_is_default z = false →
  has_assignments db u = false → SetDefaultZone env actor id db = (Ok (), db1) → quiet env' →
  ∃ db2, DeleteZone_torn (λ _, db) env' actor' id db1 = (Ok (), db2) ∧
    (∀ i y, zones db2 !! i = Some y → z_is_default y = false) ∧
    (∀ t ws, assignments db2 !! ws = None → ZoneOf (PolicyInput db2 t) ws = "") ∧
    (∀ env2, (Seed env2 db2).2 = db2).
Proof.
  intros Hop Hu Hz Hd Ha Hs Hf. apply SetDefaultZone_Ok in Hs as (u' & z' & Hu' & _ & ->). simplify_eq.
  eexists. split; [apply DeleteZone_torn_runs with (u := u) (z := z); try done|].
  { unfold has_assignments. apply bool_decide_eq_false. intros (w & b & Hw & Hb). simpl in Hw.
    by apply map_lookup_filter_Some in Hw as [_ ?]. }
  simpl. rewrite delete_insert_eq.
  assert (∀ i y, delete u (clear_default <$> zones db) !! i = Some y → z_is_default y = false) as Hno.
  { intros i y [_ (y0 & <- & _)%lookup_fmap_Some]%lookup_delete_Some.
    unfold clear_default. by destruct (z_is_default y0) eqn:E. }
  split_and!; [done| |].
  - intros t ws Hws. unfold ZoneOf, PolicyInput. rewrite in_Assign_PolicyInput. simpl. rewrite Hws.
    by apply no_default_zone.
  - intros env2. apply Seed_again. destruct (operating_has_default _ Hop) as (o & y & Ho & Hy).
    intros E. assert (u ≠ o) as Hne by (intros ->; congruence). simpl in E.
    assert (delete u (clear_default <$> zones db) !! o = None) as Hn by (by rewrite E).
    rewrite lookup_delete_ne, lookup_fmap, Ho in Hn; done.
Qed.

(** A change of the default zone moves the workspaces without a row and those of the new
default, and no other. *)
Lemma stays_behind env actor id v db db' u w t a :
  sound db → uuid_in id = Some v → u ≠ "" → v ≠ u → SetDefaultZone env actor id db = (Ok (), db') →
  assignments db !! w = Some (mkAssignRow u a.1 a.2) →
  ZoneOf (PolicyInput db' t) w = u ∧
  ∀ ws, assignments db !! ws = None → ZoneOf (PolicyInput db' t) ws = v.
Proof.
  intros Hdb Hv Hu Hne Hs Hw.
  pose proof (sound_exec env (OpSetDefaultZone actor id) db Hdb) as Hdb'.
  unfold exec, outcome in Hdb'. rewrite Hs in Hdb'. simpl in Hdb'.
  apply SetDefaultZone_Ok in Hs as (v' & z & Hv' & Hz & Edb). assert (v' = v) as -> by congruence.
  split; [|intros ws Hws]; apply ZoneOf_sound; try done; [|by eapply uuid_nonempty|];
    unfold zone_of_db; rewrite Edb; simpl.
  - rewrite (map_lookup_filter_Some_2 _ _ _ (mkAssignRow u a.1 a.2)); [done..|]. simpl. congruence.
  - rewrite map_lookup_filter_None_2 by (by left). rewrite lookup_insert_eq. by eexists.
Qed.

(** [C21] [Assign] and a change of the default zone. If the workspace is moved to the default
zone and another becomes the default meanwhile, the assignment is recorded in the audit log
but the workspace is in the other zone. If it is moved to a zone that becomes the default
meanwhile, it is left with a row of its own: when the default changes again, the workspaces
without a row follow it and this one stays behind. *)
Theorem Assign_race env env' actor actor' ws w zone u id v y db db1 :
  operating db → uuid_in ws = Some w → uuid_in zone = Some u → uuid_in id = Some v →
  zones db !! u = Some y → (z_is_default y = false ↔ u = v) →
  SetDefaultZone env actor id db = (Ok (), db1) → quiet env' →
  ∃ db2, Assign_torn (λ _, db) env' actor' ws zone db1 = (Ok (), db2) ∧
    audit_log db2 = audit_log db1 ++
      [mkAuditRow (now env') actor' "assign" [("workspace", JStr ws); ("zone", JStr zone)]] ∧
    if z_is_default y then ∀ t, ZoneOf (PolicyInput db2 t) w = v
    else (∀ t, ZoneOf (PolicyInput db2 t) w = u) ∧
      ∀ env3 actor3 id3 v3 db3 t, uuid_in id3 = Some v3 → v3 ≠ u →
        SetDefaultZone env3 actor3 id3 db2 = (Ok (), db3) →
        ZoneOf (PolicyInput db3 t) w = u ∧
        ∀ ws', assignments db2 !! ws' = None → ZoneOf (PolicyInput db3 t) ws' = v3.
Proof.
  intros Hop Hw Hu Hv Hy Hyv Hs Hf.
  assert (sound db1) as Hs1.
  { pose proof (sound_exec env (OpSetDefaultZone actor id) db (operating_sound _ Hop)) as Hok.
    unfold exec, outcome in Hok. by rewrite Hs in Hok. }
  apply SetDefaultZone_Ok in Hs as (v' & z & Hv' & Hz & Edb).
  assert (v' = v) as -> by congruence.
  assert (is_Some (zones db1 !! u)) as Hex.
  { rewrite Edb. simpl. apply lookup_insert_is_Some'. right. by rewrite lookup_fmap, Hy. }
  pose proof (Assign_torn_runs db env' actor' ws w zone u y db1 Hf Hw Hu Hy Hex) as Has.
  pose proof (exec_seeing_sound db env' (OpAssign actor' ws zone) db1 Hs1) as Hs2.
  unfold exec_seeing, outcome in Hs2. rewrite Has in Hs2. simpl in Hs2.
  eexists. split; [exact Has|]. split; [done|]. clear Has. destruct (z_is_default y) eqn:Ed.
  - intros t. apply ZoneOf_sound; [done|by eapply uuid_nonempty|].
    unfold zone_of_db. simpl. rewrite lookup_delete_eq, Edb. simpl. rewrite lookup_insert_eq. by eexists.
  - pose proof (uuid_nonempty _ _ Hu) as Hune. split.
    { intros t. apply ZoneOf_sound; [done..|]. unfold zone_of_db. simpl. by rewrite lookup_insert_eq. }
    intros env3 actor3 id3 v3 db3 t Hv3 Hne Hs3.
    apply (stays_behind env3 actor3 id3 v3 _ db3 u w t (actor', now env') Hs2 Hv3 Hune Hne Hs3 (lookup_insert_eq _ _ _)).
Qed.

(** Two identical requests filed at the same time are both recorded. *)
Lemma FileRequest_race env env' actor ws w host port j db id1 db1 :
  uuid_in ws = Some w → (∀ i q, requests db !! i = Some q → ¬ same_pending w host port q) →
  FileRequest env actor ws host port j db = (Ok id1, db1) → quiet env' →
  requests db1 !! uuids env' 0 = None →
  ∃ db2, FileRequest_torn (λ _, db) env' actor ws host port j db1 = (Ok (uuids env' 0), db2) ∧
    ∀ i, i ∈ [id1; uuids env' 0] → ∃ q, requests db2 !! i = Some q ∧ same_pending w host port q.
Proof.
  intros Hw Hno Hfile Hf Hfresh.
  apply FileRequest_Ok in Hfile as (Hv & w' & Hw' & [(q & Hq & Hs & ->)|(_ & -> & Hid & Hc & Edb)]).
  { simplify_eq. by destruct (Hno _ _ Hq). }
  assert (w' = w) as -> by congruence.
  assert (filter (λ kq, same_pending w host port kq.2) (requests db) = ∅) as Hnone.
  { apply map_empty. intros i. apply map_lookup_filter_None. right. intros q Hi. by apply (Hno i). }
  set (row := λ t, mkRequestRow w host port j actor "pending" None None t None).
  exists (log env' (set_requests db1 (<[uuids env' 0 := row (now env')]> (requests db1))) actor "request"
    [("request", JStr (uuids env' 0)); ("workspace", JStr ws); ("host", JStr host); ("port", JNum port)]).
  split.
  - unfold FileRequest_torn. rewrite Hv. simpl. run_clean Hf. rewrite Hw. simpl.
    rewrite Hnone, map_to_list_empty. simpl. unfold insert_request. simpl.
    assert (request_checks (mkRequestRow w host port j actor "pending" None None (now env') None) = true)
      as -> by exact Hc. simpl.
    rewrite bool_decide_eq_false_2; [done|]. rewrite Hfresh. by intros [].
  - intros i Hi. simpl. destruct (decide (i = uuids env' 0)) as [->|Hne].
    { rewrite lookup_insert_eq. by eexists. }
    apply elem_of_cons in Hi as [->|?%list_elem_of_singleton]; [|done].
    rewrite lookup_insert_ne by done. rewrite Edb. simpl. rewrite lookup_insert_eq. by eexists.
Qed.
End races.

(** ** Concrete races, on the demonstration store *)
Definition race_env : Env := demo_env 11 70.

(** Zone 60 ("lab") is nobody's and not the default. *)
Definition lab_db : DB := (CreateZone (demo_env 9 60) "ann" "lab" demo_db).2.
Definition lab : string := demo_uuid 60.
Definition lab_default : DB := (SetDefaultZone (demo_env 10 65) "ann" lab lab_db).2.

Lemma lab_operating : operating lab_db.
Proof. exact (run_ops_operating (demo_ops ++ [(demo_env 9 60, OpCreateZone "ann" "lab")])). Qed.

Lemma lab_becomes_default : SetDefaultZone (demo_env 10 65) "ann" lab lab_db = (Ok (), lab_default).
Proof. unfold lab_default. apply ran. vm_compute. reflexivity. Qed.

Definition deleted_db : DB := (DeleteZone_torn (λ _, lab_db) race_env "bob" lab lab_default).2.

Lemma DeleteZone_race_witness :
  DeleteZone_torn (λ _, lab_db) race_env "bob" lab lab_default = (Ok (), deleted_db) ∧
  ZoneOf (PolicyInput deleted_db 20) ws1 = "" ∧ (Seed race_env deleted_db).2 = deleted_db.
Proof.
  destruct (DeleteZone_race (demo_env 10 65) race_env "ann" "bob" lab lab (mkZoneRow "lab" false 9)
    lab_db lab_default) as (db2 & Hdel & _ & Hzone & Hseed).
  - apply lab_operating.
  - reflexivity.
  - vm_compute. reflexivity.
  - reflexivity.
  - vm_compute. reflexivity.
  - apply lab_becomes_default.
  - apply demo_quiet.
  - assert (deleted_db = db2) as E by (unfold deleted_db; rewrite Hdel; reflexivity).
    rewrite <- E in Hdel, Hzone, Hseed. split; [exact Hdel|]. split; [|apply Hseed]. apply Hzone.
    vm_compute. reflexivity.
Defined.

Lemma Assign_race_witness :
  ∃ db2, Assign_torn (λ _, lab_db) race_env "bob" ws1 zone0 lab_default = (Ok (), db2) ∧
    ZoneOf (PolicyInput db2 20) ws1 = lab.
Proof.
  destruct (Assign_race (demo_env 10 65) race_env "ann" "bob" ws1 ws1 zone0 zone0 lab lab
    (mkZoneRow "default" true 0) lab_db lab_default) as (db2 & Has & _ & Hzone).
  - apply lab_operating.
  - reflexivity.
  - reflexivity.
  - reflexivity.
  - vm_compute. reflexivity.
  - split; [discriminate|]. intros E. vm_compute in E. discriminate E.
  - apply lab_becomes_default.
  - apply demo_quiet.
  - exists db2. split; [exact Has|]. apply Hzone.
Defined.

Definition first_db : DB := (exec_seeing migrated_db (demo_env 0 10) OpSeed migrated_db).2.

(** A second process seeds the database having seen it empty, too; its insert fails. *)
Lemma races_keep_schema_witness :
  sound (exec_seeing migrated_db race_env OpSeed first_db).2 ∧
  (exec_seeing migrated_db race_env OpSeed first_db).2 = first_db.
Proof.
  split; [|vm_compute; reflexivity]. apply (races_keep_schema _ [first_db; migrated_db]).
  apply history_step; [|constructor 2; constructor 1].
  apply history_step; [apply history_migrated|constructor 1].
Defined.
