(* ===== verification/Watch.v ===== *)
(** * internal/watch: which pods are running

A translation of [admin/internal/watch/pods.go]. The informer's cache is the list
of pods the lister returns, in the order it happens to return them. *)
From S2P Require Import Prelude GoLib Regex Policy.
From stdpp Require Import gmap strings list sorting fin_maps.

Record Pod := mkPod {
  pod_Labels : gmap string string;
  pod_Phase : string;
  pod_PodIP : string;
  pod_DeletionTimestamp : option Z
}.

Definition wsLabel : string := "com.coder.workspace.id".
Definition PodRunning : string := "Running".

(** [l[k]] on a Go map of strings. *)
Definition label (p : Pod) (k : string) : string := default "" (pod_Labels p !! k).

(** The guard of the loop in [Running], and the workspace it appends. *)
Definition skipped (p : Pod) : bool :=
  (label p wsLabel =? "")%string || negb (pod_Phase p =? PodRunning)%string ||
  (pod_PodIP p =? "")%string || negb (bool_decide (pod_DeletionTimestamp p = None)).

Definition workspace_of (p : Pod) : Workspace :=
  mkWorkspace (label p wsLabel) (label p "com.coder.workspace.name")
    (label p "com.coder.user.id") (pod_PodIP p).

Definition ws_le : relation Workspace := lex_le ws_ID String.le ws_IP String.le.

Fixpoint running_loop (pods : list Pod) (out : list Workspace) : list Workspace :=
  match pods with
  | [] => out
  | p :: pods => running_loop pods (if skipped p then out else out ++ [workspace_of p])
  end.

Definition Running (pods : list Pod) : list Workspace :=
  merge_sort ws_le (running_loop pods []).

Fixpoint find_ws (f : Workspace → bool) (l : list Workspace) : option Workspace :=
  match l with
  | [] => None
  | w :: l => if f w then Some w else find_ws f l
  end.

Definition ByIP (pods : list Pod) (ip : string) : option Workspace :=
  find_ws (λ w, (ws_IP w =? ip)%string) (Running pods).

Definition ByID (pods : list Pod) (id : string) : option Workspace :=
  find_ws (λ w, (ws_ID w =? id)%string) (Running pods).

(** [Start]: what client-go reports when the handlers are added and the cache is awaited,
and the pods it then holds. Afterwards every change of the cache calls [onChange]; those
are steps of [System.v]. *)
Record Informer := mkInformer {
  inf_AddEventHandler : option error;
  inf_HasSynced : bool;
  inf_cache : list Pod
}.

Definition Start (inf : Informer) : result error (list Pod) :=
  match inf_AddEventHandler inf with
  | Some e => Err e
  | None =>
      if inf_HasSynced inf then Ok (inf_cache inf)
      else Err (EMsg "workspace pod cache did not sync")
  end.

Lemma Start_Ok inf pods : Start inf = Ok pods → pods = inf_cache inf.
Proof.
  unfold Start. destruct (inf_AddEventHandler inf); [done|]. destruct (inf_HasSynced inf); [|done].
  by intros [= <-].
Qed.

(** ** Facts *)

(** A pod that counts: labelled, running, with an IP, not terminating. *)
Definition live (p : Pod) : Prop :=
  label p wsLabel ≠ "" ∧ pod_Phase p = "Running" ∧ pod_PodIP p ≠ "" ∧
  pod_DeletionTimestamp p = None.

Lemma skipped_live p : skipped p = false ↔ live p.
Proof.
  unfold skipped, live. rewrite !orb_false_iff, !negb_false_iff, bool_decide_eq_true.
  rewrite !String.eqb_neq, String.eqb_eq. unfold PodRunning. tauto.
Qed.

Lemma running_loop_app pods out : running_loop pods out = out ++ running_loop pods [].
Proof.
  revert out. induction pods as [|p pods IH]; intros out; simpl; [by rewrite app_nil_r|].
  rewrite IH, (IH (if skipped p then [] else _)).
  destruct (skipped p); [done|]. by rewrite <- app_assoc.
Qed.

Lemma running_loop_perm pods pods' :
  pods ≡ₚ pods' → running_loop pods [] ≡ₚ running_loop pods' [].
Proof.
  induction 1 as [|p l l' _ IH|p q l|l1 l2 l3 _ IH1 _ IH2]; simpl; [done| | |by etrans].
  - rewrite running_loop_app, (running_loop_app l'). by rewrite IH.
  - rewrite running_loop_app, (running_loop_app l (if skipped q then _ else _)).
    destruct (skipped p), (skipped q); simpl; auto. by apply perm_swap.
Qed.

Lemma elem_of_Running pods w :
  w ∈ Running pods ↔ ∃ p, p ∈ pods ∧ live p ∧ w = workspace_of p.
Proof.
  unfold Running. rewrite elem_of_merge_sort.
  induction pods as [|p pods IH]; simpl; [set_solver|].
  rewrite running_loop_app, elem_of_app, IH. setoid_rewrite elem_of_cons.
  destruct (skipped p) eqn:E.
  - assert (¬ live p) by (rewrite <- skipped_live; congruence). set_solver.
  - apply skipped_live in E. set_solver.
Qed.

Lemma find_ws_Some f l w : find_ws f l = Some w → w ∈ l ∧ f w = true.
Proof.
  induction l as [|x l IH]; simpl; [done|]. destruct (f x) eqn:E.
  - intros [= <-]. set_solver.
  - intros [??]%IH. set_solver.
Qed.

Lemma find_ws_None f l : find_ws f l = None ↔ ∀ w, w ∈ l → f w = false.
Proof.
  induction l as [|x l IH]; simpl; [set_solver|]. destruct (f x) eqn:E.
  - split; [done|]. intros Hl. specialize (Hl x ltac:(set_solver)). congruence.
  - rewrite IH. set_solver.
Qed.

(** Kubernetes gives no two live pods the same IP. *)
Definition distinct_ips (pods : list Pod) : Prop :=
  ∀ p q, p ∈ pods → q ∈ pods → live p → live q → pod_PodIP p = pod_PodIP q →
    workspace_of p = workspace_of q.

(** What the sort compares, and the order it makes of it. *)
Definition ws_key (w : Workspace) : string * string := (ws_ID w, ws_IP w).
Definition ws_key_le : relation (string * string) := lex_le fst String.le snd String.le.

Lemma Sorted_ws_keys l : Sorted ws_le l → Sorted ws_key_le (ws_key <$> l).
Proof.
  induction 1 as [|w l _ IH Hw]; csimpl; constructor; [done|]. by destruct Hw; csimpl; constructor.
Qed.

(** Whatever order the cache lists the pods in and however the sort breaks ties, the sorted
list has the same workspaces and addresses. *)
Lemma Running_keys pods pods' l :
  pods' ≡ₚ pods → l ≡ₚ running_loop pods' [] → Sorted ws_le l → ws_key <$> l = ws_key <$> Running pods.
Proof.
  intros Hp Hl Hs. apply (Sorted_unique_strong ws_key_le).
  - intros [a b] [c d] _ _ Hxy Hyx. destruct (lex_le_antisymm _ _ _ _ _ _ Hxy Hyx) as [Ha Hb].
    simpl in *. congruence.
  - by apply Sorted_ws_keys.
  - apply Sorted_ws_keys, (Sorted_merge_sort ws_le).
  - apply fmap_Permutation. unfold Running. rewrite merge_sort_Permutation, Hl. by apply running_loop_perm.
Qed.

(** The first in a sorted list is the least. *)
Lemma find_ws_least f l w v :
  Sorted ws_le l → find_ws f l = Some w → v ∈ l → f v = true → ws_le w v.
Proof.
  intros Hs%Sorted_StronglySorted; [|apply _]. induction Hs as [|x l _ IH Hx]; [done|]. simpl.
  destruct (f x) eqn:E; intros Hw [->|Hv]%elem_of_cons Hfv; simplify_eq.
  - destruct (total ws_le w w); done.
  - rewrite Forall_forall in Hx. by apply Hx.
  - congruence.
  - by apply IH.
Qed.

(** [C39] [Running] reports exactly the labelled, running, non-terminating pods with an IP.
The workspaces and addresses it lists, and their order, depend neither on the order of the
cache nor on how the sort breaks ties. [ByIP] finds a pod whenever a live one has the
address, and then one with that address. Should two live pods have it, as when an address is
used again before the old pod is seen to end, it is the one with the least workspace ID; if
none share an address it is the only one. *)
Theorem Running_spec pods :
  (∀ w, w ∈ Running pods ↔ ∃ p, p ∈ pods ∧ live p ∧ w = workspace_of p) ∧
  (∀ pods' l, pods' ≡ₚ pods → l ≡ₚ running_loop pods' [] → Sorted ws_le l →
    ws_key <$> l = ws_key <$> Running pods) ∧
  (∀ ip, ByIP pods ip = None ↔ ∀ p, p ∈ pods → live p → pod_PodIP p ≠ ip) ∧
  (∀ ip w, ByIP pods ip = Some w → w ∈ Running pods ∧ ws_IP w = ip ∧
    ∀ v, v ∈ Running pods → ws_IP v = ip → String.le (ws_ID w) (ws_ID v)) ∧
  (distinct_ips pods → ∀ ip w, ByIP pods ip = Some w ↔ w ∈ Running pods ∧ ws_IP w = ip).
Proof.
  assert (∀ ip w, ByIP pods ip = Some w → w ∈ Running pods ∧ ws_IP w = ip) as Hby.
  { intros ip w [Hin Hw]%find_ws_Some. split; [done|]. by apply String.eqb_eq. }
  assert (∀ ip, ByIP pods ip = None ↔ ∀ p, p ∈ pods → live p → pod_PodIP p ≠ ip) as Hnone.
  { intros ip. unfold ByIP. rewrite find_ws_None. setoid_rewrite elem_of_Running.
    setoid_rewrite String.eqb_neq. split.
    - intros Hall p Hp Hl. apply (Hall (workspace_of p)). eauto.
    - by intros Hall w (p & Hp & Hl & ->); apply Hall. }
  split_and!; [intros w; apply elem_of_Running|intros pods' l; apply Running_keys|done| |].
  - intros ip w Hw. destruct (Hby ip w Hw) as [Hin Hip]. split_and!; [done..|]. intros v Hv Hvip.
    assert (ws_le w v) as Hle.
    { eapply find_ws_least; [|exact Hw|done|by apply String.eqb_eq]. by apply (Sorted_merge_sort ws_le). }
    unfold ws_le, lex_le in Hle. destruct (decide (ws_ID w = ws_ID v)) as [->|]; [|done].
    by destruct (total String.le (ws_ID v) (ws_ID v)).
  - intros Hd ip w. split; [apply Hby|]. intros [Hin Hip]. destruct (ByIP pods ip) as [v|] eqn:E.
    + apply Hby in E as [Hv Hvip]. f_equal.
      apply elem_of_Running in Hin as (p & Hp & Hlp & ->).
      apply elem_of_Running in Hv as (q & Hq & Hlq & ->). apply Hd; try done. simpl in *. congruence.
    + rewrite Hnone in E. apply elem_of_Running in Hin as (p & Hp & Hlp & ->). by apply E in Hp.
Qed.

(** Two live pods, one starting and one terminating. *)
Definition demo_pod (id phase ip : string) (deleted : option Z) : Pod :=
  mkPod {[ wsLabel := id; "com.coder.user.id" := "dev" ]} phase ip deleted.
Definition demo_pods : list Pod :=
  [demo_pod "w2" "Running" "10.0.0.2" None; demo_pod "w3" "Pending" "" None;
   demo_pod "w1" "Running" "10.0.0.1" None; demo_pod "w1" "Running" "10.0.0.9" (Some 5%Z)].

Lemma demo_pods_distinct : distinct_ips demo_pods.
Proof.
  intros p q Hp Hq (_ & Hp1 & _ & Hp2) (_ & Hq1 & _ & Hq2) Hip.
  repeat (apply elem_of_cons in Hp as [->|Hp]; simpl in *; try discriminate);
    try (by apply elem_of_nil in Hp);
  repeat (apply elem_of_cons in Hq as [->|Hq]; simpl in *; try discriminate);
    try (by apply elem_of_nil in Hq); done.
Qed.

Lemma Running_spec_witness :
  ByIP demo_pods "10.0.0.1" = Some (mkWorkspace "w1" "" "dev" "10.0.0.1") ∧
  ws_key <$> Running (reverse demo_pods) = ws_key <$> Running demo_pods.
Proof.
  destruct (Running_spec demo_pods) as (_ & Hord & _ & _ & Hip). split.
  - apply (Hip demo_pods_distinct). split; [|reflexivity]. vm_compute. left.
  - apply (Hord (reverse demo_pods)).
    + apply reverse_Permutation.
    + unfold Running. apply merge_sort_Permutation.
    + vm_compute. repeat constructor.
Defined.
