(* ===== verification/Cilium.v ===== *)
(** * internal/cilium: DNS policies

A translation of [admin/internal/cilium/cilium.go]: [Render] builds the per-zone
and per-grant CiliumNetworkPolicy objects, [Apply] reconciles them against the
Kubernetes API, which is a parameter with its documented behaviour as laws.

[Render]'s correctness is stated against what the objects mean to Cilium ([Dataplane.v]):
which endpoints their selectors match and which DNS queries they let through. *)
From Stdlib Require Import Ascii.
From S2P Require Import Prelude GoLib Regex Policy Json Dataplane.
From stdpp Require Import gmap strings list sorting fin_maps.

Definition Namespace : string := "sandcastle-workspaces".
Definition wsLabel : string := "com.coder.workspace.id".
Definition ownerLabel : string := "app.kubernetes.io/managed-by".
Definition ownerValue : string := "sandcastle-admin".

(** [match]; a nil [values] is [None]. *)
Definition match_ (op : string) (values : option (list string)) : json :=
  JObj ([("key", JStr wsLabel); ("operator", JStr op)] ++
        match values with Some vs => [("values", JArr (JStr <$> vs))] | None => [] end).

Definition dns_rule (r : Rule) : json :=
  if HasPrefix (rule_Value r) "*." then JObj [("matchPattern", JStr (rule_Value r))]
  else JObj [("matchName", JStr (rule_Value r))].

Fixpoint dnsRules (rules : list Rule) : list json :=
  match rules with
  | [] => []
  | r :: rules =>
      if negb (rule_Kind r =? "dns")%string || negb (ValidRule r) then dnsRules rules
      else dns_rule r :: dnsRules rules
  end.

Definition cnp (name : string) (expr dns : list json) : json :=
  JObj [
    ("apiVersion", JStr "cilium.io/v2");
    ("kind", JStr "CiliumNetworkPolicy");
    ("metadata", JObj [
      ("name", JStr name); ("namespace", JStr Namespace);
      ("labels", JObj [(ownerLabel, JStr ownerValue)])]);
    ("spec", JObj [
      ("endpointSelector", JObj [("matchExpressions", JArr expr)]);
      ("egress", JArr [JObj [
        ("toEndpoints", JArr [JObj [("matchLabels", JObj [
          ("k8s:io.kubernetes.pod.namespace", JStr "kube-system");
          ("k8s:k8s-app", JStr "kube-dns")])]]);
        ("toPorts", JArr [JObj [
          ("ports", JArr [
            JObj [("port", JStr "53"); ("protocol", JStr "UDP")];
            JObj [("port", JStr "53"); ("protocol", JStr "TCP")]]);
          ("rules", JObj [("dns", JArr dns)])]])]])])].

Definition GetName (o : json) : string := jstr_at ["metadata"; "name"] o.
Definition owner_of (o : json) : string := jstr_at ["metadata"; "labels"; ownerLabel] o.
Definition spec_of (o : json) : json := default JNull (jpath ["spec"] o).

(** The first loop: members by zone, and everybody not in the default zone. *)
Definition count_member (def : string) (acc : gmap string (list string) * list string)
    (row : string * string) : gmap string (list string) * list string :=
  let '(ws, z) := row in
  if (z =? def)%string then acc
  else (<[z := slice_at acc.1 z ++ [ws]]> acc.1, acc.2 ++ [ws]).

Definition render_zone (inp : Input) (members : gmap string (list string))
    (elsewhere : list string) (row : string * list Rule) : list json :=
  let '(z, rules) := row in
  let dns := dnsRules rules in
  if length dns =? 0 then [] else
  if (z =? in_DefaultZone inp)%string then
    let expr := [match_ "Exists" None] ++
      (if 0 <? length elsewhere then [match_ "NotIn" (Some elsewhere)] else []) in
    [cnp ("ws-dns-zone-" +:+ z) expr dns]
  else
    let ids := slice_at members z in
    if length ids =? 0 then [] else
    [cnp ("ws-dns-zone-" +:+ z) [match_ "In" (Some (merge_sort String.le ids))] dns].

Definition render_grant (row : string * list Rule) : list json :=
  let '(ws, rules) := row in
  let dns := dnsRules rules in
  if 0 <? length dns
  then [cnp ("ws-dns-grant-" +:+ ws) [match_ "In" (Some [ws])] dns] else [].

Definition name_le (a b : json) : Prop := String.le (GetName a) (GetName b).
#[export] Instance name_le_dec : RelDecision name_le.
Proof. intros a b. apply _. Defined.

(** [Render], with the orders in which its three [range] loops visit the maps. *)
Definition Render_with (assigns : list (string * string)) (zone_rules : list (string * list Rule))
    (grants : list (string * list Rule)) (inp : Input) : list json :=
  let '(members, elsewhere) := foldl (count_member (in_DefaultZone inp)) (∅, []) assigns in
  let elsewhere := merge_sort String.le elsewhere in
  merge_sort name_le
    ((zone_rules ≫= render_zone inp members elsewhere) ++ (grants ≫= render_grant)).

Definition Render (inp : Input) : list json :=
  Render_with (map_to_list (in_Assign inp)) (map_to_list (in_ZoneRules inp))
    (map_to_list (in_Grants inp)) inp.

(** ** Apply

The API: [Get], [Create], [Update], [List] (the managed objects) and [Delete] in the
namespace, each on the cluster's state. [IsNotFound] is [apierrors.IsNotFound];
[SetResourceVersion] gives the copy the version of the object it replaces. *)
Class KubeAPI (S : Type) := {
  api_Get : string → S → result error json * S;
  api_Create : json → S → option error * S;
  api_Update : json → S → option error * S;
  api_List : S → result error (list json) * S;
  api_Delete : string → S → option error * S;
  IsNotFound : error → bool;
  SetResourceVersion : json → string → json
}.

Section apply.
Context {S : Type} `{KubeAPI S}.

Definition wrap (verb name : string) (e : option error) : list error :=
  match e with Some e => [EWrap (verb +:+ " " +:+ name) e] | None => [] end.

(** One iteration of the first loop: the errors it appends and the new state. *)
Definition apply_one (d : json) (s : S) : list error * S :=
  match api_Get (GetName d) s with
  | (Err e, s) =>
      if IsNotFound e
      then let '(e, s) := api_Create d s in (wrap "create" (GetName d) e, s)
      else (wrap "get" (GetName d) (Some e), s)
  | (Ok cur, s) =>
      if negb (owner_of cur =? ownerValue)%string
      then ([EMsg (GetName d +:+ " exists and is not managed by " +:+ ownerValue)], s)
      else if negb (DeepEqual (spec_of cur) (spec_of d))
      then let '(e, s) := api_Update
             (SetResourceVersion d (jstr_at ["metadata"; "resourceVersion"] cur)) s in
           (wrap "update" (GetName d) e, s)
      else ([], s)
  end.

Fixpoint apply_all (desired : list json) (s : S) : list error * S :=
  match desired with
  | [] => ([], s)
  | d :: desired =>
      let '(es, s) := apply_one d s in
      let '(es', s) := apply_all desired s in (es ++ es', s)
  end.

Fixpoint prune (want : gset string) (items : list json) (s : S) : list error * S :=
  match items with
  | [] => ([], s)
  | item :: items =>
      if bool_decide (GetName item ∈ want) then prune want items s
      else
        let '(e, s) := api_Delete (GetName item) s in
        let es := match e with
          | Some e => if IsNotFound e then [] else wrap "delete" (GetName item) (Some e)
          | None => []
          end in
        let '(es', s) := prune want items s in (es ++ es', s)
  end.

Definition Apply (desired : list json) (s : S) : option error * S :=
  let want := list_to_set (C := gset string) (GetName <$> desired) in
  let '(errs, s) := apply_all desired s in
  match api_List s with
  | (Err e, s) => (errors_Join (errs ++ [EWrap "list" e]), s)
  | (Ok items, s) =>
      let '(errs', s) := prune want items s in (errors_Join (errs ++ errs'), s)
  end.
End apply.

(** ** What the objects mean to Cilium *)
Lemma GetName_cnp n e d : GetName (cnp n e d) = n.
Proof. done. Qed.
Lemma owner_of_cnp n e d : owner_of (cnp n e d) = ownerValue.
Proof. done. Qed.
Lemma selects_cnp l n e d : selects l (spec_of (cnp n e d)) = forallb (expr_matches l) e.
Proof. done. Qed.

(** The two protocols of DNS. *)
Abbreviation dns_protocols := ["UDP"; "TCP"].

Lemma allows_cnp proto q n e d :
  proto ∈ dns_protocols → d ≠ [] →
  allows_query proto q (spec_of (cnp n e d)) = existsb (dns_rule_allows q) d.
Proof.
  intros Hp Hd. unfold allows_query. cbn [spec_of cnp jpath jget jlookup default jarr existsb String.eqb].
  assert (∀ x, existsb (selector_matches kube_dns) (jarr (jpath ["toEndpoints"] (JObj [
    ("toEndpoints", JArr [JObj [("matchLabels", JObj [
      ("k8s:io.kubernetes.pod.namespace", JStr "kube-system"); ("k8s:k8s-app", JStr "kube-dns")])]]);
    ("toPorts", x)]))) = true) as Hsel by (intros x; vm_compute; reflexivity).
  destruct d as [|r d]; [done|].
  repeat (apply elem_of_cons in Hp as [->|Hp]); try (by apply elem_of_nil in Hp);
    unfold spec_of, cnp; simpl; rewrite ?orb_false_r; done.
Qed.

Lemma json_str_in s l :
  existsb (λ v, match v with JStr s' => (s' =? s)%string | _ => false end) (JStr <$> l) = bool_decide (s ∈ l).
Proof.
  induction l as [|x l IH]; csimpl; [done|]. rewrite IH.
  apply Bool.eq_true_iff_eq. rewrite orb_true_iff, !bool_decide_eq_true, elem_of_cons, String.eqb_eq.
  naive_solver.
Qed.

Section selectors.
Context (l : Labels).

Lemma key_match op vs : jstr_at ["key"] (match_ op vs) = wsLabel.
Proof. done. Qed.

Lemma match_In ws vs :
  l !! wsLabel = Some ws → expr_matches l (match_ "In" (Some vs)) = bool_decide (ws ∈ vs).
Proof. intros Hl. rewrite <- json_str_in. unfold expr_matches. rewrite key_match, Hl. done. Qed.

Lemma match_NotIn ws vs :
  l !! wsLabel = Some ws → expr_matches l (match_ "NotIn" (Some vs)) = negb (bool_decide (ws ∈ vs)).
Proof. intros Hl. rewrite <- json_str_in. unfold expr_matches. rewrite key_match, Hl. done. Qed.

Lemma match_Exists : expr_matches l (match_ "Exists" None) = bool_decide (is_Some (l !! wsLabel)).
Proof. done. Qed.

Lemma match_In_unlabelled vs : l !! wsLabel = None → expr_matches l (match_ "In" (Some vs)) = false.
Proof. intros Hl. unfold expr_matches. rewrite key_match, Hl. done. Qed.
End selectors.

(** A rule's entry lets through the names that the rule covers. *)
Lemma ValidName_no_star v :
  ValidName v = true → HasPrefix v "*." = false → ContainsByte v "*" = false.
Proof.
  intros (t & c & u & [->|Ht] & _ & _ & Hb)%ValidName_shape Hp; [by apply name_byte_not_star|].
  rewrite Ht in Hp. assert (HasPrefix ("*." +:+ t) "*." = true); [|congruence].
  apply HasPrefix_spec. by exists t.
Qed.

(** A valid name covers something. *)
Lemma ValidName_covers v : ValidName v = true → ∃ n, name_covers v n.
Proof.
  intros Hv. destruct (HasPrefix v "*.") eqn:Hp.
  - apply HasPrefix_spec in Hp as [t ->]. exists ("a" +:+ "." +:+ t). right. by exists "a", t.
  - exists v. left. split; [done|by apply ValidName_no_star].
Qed.

Lemma dns_rule_covers r n :
  ValidName (rule_Value r) = true → dns_rule_allows n (dns_rule r) = true ↔ name_covers (rule_Value r) n.
Proof.
  intros Hv. unfold dns_rule, name_covers. destruct (HasPrefix (rule_Value r) "*.") eqn:Hp.
  - apply HasPrefix_spec in Hp as [t Ht]. rewrite Ht in *.
    destruct (ValidName_wildcard (String "." t)) as (t' & [= <-] & Hb); [done|].
    pose proof (name_byte_not_star t Hb) as Hstar.
    change (pattern_allows ("*." +:+ t) n = true ↔
      "*." +:+ t = n ∧ ContainsByte ("*." +:+ t) "*" = false ∨
      ∃ label suffix, "*." +:+ t = "*." +:+ suffix ∧ n = label +:+ "." +:+ suffix ∧
        string_forall dns_byte label = true).
    assert (pattern_allows ("*." +:+ t) n = glob (String "*" (String "." t)) n) as ->.
    { unfold pattern_allows. by destruct t. }
    rewrite glob_star by (by rewrite ContainsByte_cons, Hstar). split.
    + intros (l & -> & Hl). right. by exists l, t.
    + intros [[_ Hc]|(l & suf & Heq & -> & Hl)]; [by rewrite ContainsByte_app in Hc|].
      ssimp. by exists l.
  - pose proof (ValidName_no_star _ Hv Hp) as Hstar. unfold dns_rule_allows. simpl. rewrite orb_false_r, String.eqb_eq. split; [naive_solver|].
    intros [[? _]|(l & suf & Heq & _)]; [done|]. rewrite Heq in Hstar. by rewrite ContainsByte_app in Hstar.
Qed.

Lemma elem_of_dnsRules rules j :
  j ∈ dnsRules rules ↔
  ∃ r, r ∈ rules ∧ rule_Kind r = "dns" ∧ ValidRule r = true ∧ j = dns_rule r.
Proof.
  induction rules as [|r rules IH]; simpl; [set_solver|].
  destruct (String.eqb_spec (rule_Kind r) "dns") as [Hk|Hk], (ValidRule r) eqn:Hv; simpl;
    rewrite ?elem_of_cons, IH; setoid_rewrite elem_of_cons.
  - split; [intros [->|(r' & ? & ?)]; eauto 10|]. intros (r' & [->|?] & ? & ? & ->); eauto 10.
  - split; [intros (r' & ? & ?); eauto 10|]. intros (r' & [->|?] & ? & ? & ->); [congruence|eauto 10].
  - split; [intros (r' & ? & ?); eauto 10|]. intros (r' & [->|?] & ? & ? & ->); [congruence|eauto 10].
  - split; [intros (r' & ? & ?); eauto 10|]. intros (r' & [->|?] & ? & ? & ->); [congruence|eauto 10].
Qed.

(** The first loop as filters of the visited assignments. *)
Lemma count_members def assigns m l z :
  let acc := foldl (count_member def) (m, l) assigns in
  slice_at acc.1 z = slice_at m z ++ (filter (λ a, a.2 = z ∧ a.2 ≠ def) assigns).*1 ∧
  acc.2 = l ++ (filter (λ a, a.2 ≠ def) assigns).*1.
Proof.
  revert m l. induction assigns as [|[ws z'] assigns IH]; intros m l; simpl.
  { by rewrite !app_nil_r. }
  destruct (String.eqb_spec z' def) as [->|Hne].
  - rewrite !filter_cons_False by (simpl; naive_solver). apply IH.
  - rewrite (filter_cons_True (λ a, a.2 ≠ def)) by done.
    destruct (IH (<[z' := slice_at m z' ++ [ws]]> m) (l ++ [ws])) as [E1 E2].
    cbn [fst snd] in *. rewrite E1, E2. split; [|csimpl; by rewrite <- app_assoc].
    unfold slice_at at 1. rewrite lookup_insert. case_decide as Hz; subst.
    + rewrite filter_cons_True by done. csimpl. by rewrite <- app_assoc.
    + rewrite filter_cons_False by (simpl; naive_solver). done.
Qed.

Lemma default_selector l es ws :
  l !! wsLabel = Some ws →
  forallb (expr_matches l) (match_ "Exists" None ::
    (if 0 <? length es then [match_ "NotIn" (Some es)] else [])) = negb (bool_decide (ws ∈ es)).
Proof.
  intros Hl. cbn [forallb]. rewrite match_Exists, Hl, bool_decide_eq_true_2 by eauto.
  destruct es as [|e es]; [done|].
  change (expr_matches l (match_ "NotIn" (Some (e :: es))) && true = negb (bool_decide (ws ∈ e :: es))).
  by rewrite (match_NotIn l ws), andb_true_r.
Qed.

(** What an object with the entries [dns] means: it selects the workspaces [members] and no
unlabelled pod, and lets them ask for what [dns] allows. *)
Definition object_means (o : json) (members : string → Prop) (dns : list json) : Prop :=
  dns ≠ [] ∧
  (∀ l, l !! wsLabel = None → selects l (spec_of o) = false) ∧
  (∀ l ws, l !! wsLabel = Some ws → selects l (spec_of o) = true ↔ members ws) ∧
  (∀ proto n, proto ∈ dns_protocols →
    allows_query proto n (spec_of o) = existsb (dns_rule_allows n) dns).

Section render.
Context (inp : Input).
Abbreviation def := (in_DefaultZone inp).
Abbreviation assigns := (map_to_list (in_Assign inp)).
Abbreviation members := (foldl (count_member def) (∅, []) assigns).1.
Abbreviation elsewhere := (merge_sort String.le (foldl (count_member def) (∅, []) assigns).2).

Lemma elem_of_members z ws : ws ∈ slice_at members z ↔ in_Assign inp !! ws = Some z ∧ z ≠ def.
Proof.
  destruct (count_members def assigns ∅ [] z) as [E _]. rewrite E. unfold slice_at.
  rewrite lookup_empty. simpl. rewrite list_elem_of_fmap.
  setoid_rewrite list_elem_of_filter. split.
  - intros ([w z'] & -> & [[<- Hne] Hin%elem_of_map_to_list]). done.
  - intros [Ha Hne]. exists (ws, z). split; [done|]. by rewrite elem_of_map_to_list.
Qed.

Lemma elem_of_elsewhere ws :
  ws ∈ elsewhere ↔ ∃ z, in_Assign inp !! ws = Some z ∧ z ≠ def.
Proof.
  rewrite elem_of_merge_sort. destruct (count_members def assigns ∅ [] "") as [_ E]. rewrite E.
  simpl. rewrite list_elem_of_fmap. setoid_rewrite list_elem_of_filter. split.
  - intros ([w z'] & -> & [Hne Hin%elem_of_map_to_list]). eauto.
  - intros (z & Ha & Hne). exists (ws, z). split; [done|]. by rewrite elem_of_map_to_list.
Qed.

(** A zone's object is for the zone's workspaces. *)
Lemma render_zone_meaning z rules o :
  o ∈ render_zone inp members elsewhere (z, rules) →
  object_means o (λ ws, ZoneOf inp ws = z) (dnsRules rules).
Proof.
  unfold render_zone. destruct (length (dnsRules rules) =? 0) eqn:El; [set_solver|].
  assert (dnsRules rules ≠ []) as Hne by (by destruct (dnsRules rules)).
  unfold ZoneOf. destruct (String.eqb_spec z def) as [->|Hz].
  - intros ->%list_elem_of_singleton. split_and!; [done| | |].
    + intros l Hl. rewrite selects_cnp. simpl. by rewrite match_Exists, Hl.
    + intros l ws Hl. rewrite selects_cnp. cbn [app]. rewrite (default_selector l _ ws Hl).
      rewrite negb_true_iff, bool_decide_eq_false, elem_of_elsewhere.
      destruct (in_Assign inp !! ws) as [z|]; [|naive_solver].
      split; [|naive_solver]. intros Hn. apply dec_stable. intros Hne'. apply Hn. eauto.
    + intros proto n Hp. by apply allows_cnp.
  - destruct (length (slice_at members z) =? 0) eqn:Ei; [set_solver|].
    intros ->%list_elem_of_singleton. split_and!; [done| | |].
    + intros l Hl. rewrite selects_cnp. cbn [forallb]. by rewrite match_In_unlabelled.
    + intros l ws Hl. rewrite selects_cnp. cbn [forallb].
      rewrite andb_true_r, (match_In l ws _ Hl), bool_decide_eq_true, elem_of_merge_sort, elem_of_members.
      destruct (in_Assign inp !! ws); naive_solver.
    + intros proto n Hp. by apply allows_cnp.
Qed.

(** A zone with dns rules and a workspace in it has an object. *)
Lemma render_zone_exists z rules ws :
  ZoneOf inp ws = z → dnsRules rules ≠ [] →
  ∃ o, o ∈ render_zone inp members elsewhere (z, rules).
Proof.
  unfold render_zone, ZoneOf. intros Hz Hd.
  destruct (dnsRules rules) as [|j dns]; [done|]. simpl.
  destruct (String.eqb_spec z def) as [->|Hne]; [eexists; by left|].
  destruct (slice_at members z) as [|i ids] eqn:Ei; [|eexists; by left].
  assert (ws ∈ slice_at members z) as Hin; [|rewrite Ei in Hin; set_solver].
  apply elem_of_members. destruct (in_Assign inp !! ws); naive_solver.
Qed.

Lemma elem_of_Render o :
  o ∈ Render inp ↔
  (∃ z rules, in_ZoneRules inp !! z = Some rules ∧
    o ∈ render_zone inp members elsewhere (z, rules)) ∨
  (∃ ws rules, in_Grants inp !! ws = Some rules ∧ o ∈ render_grant (ws, rules)).
Proof.
  unfold Render, Render_with.
  destruct (foldl (count_member def) (∅, []) assigns) as [m e].
  rewrite elem_of_merge_sort, elem_of_app, !list_elem_of_bind. f_equiv.
  - split.
    + intros ([z rules] & Ho & Hin%elem_of_map_to_list). eauto.
    + intros (z & rules & Hz & Ho). exists (z, rules). by rewrite elem_of_map_to_list.
  - split.
    + intros ([z rules] & Ho & Hin%elem_of_map_to_list). eauto.
    + intros (z & rules & Hz & Ho). exists (z, rules). by rewrite elem_of_map_to_list.
Qed.

Lemma render_grant_meaning ws' rules o :
  o ∈ render_grant (ws', rules) → object_means o (λ ws, ws = ws') (dnsRules rules).
Proof.
  unfold render_grant. destruct (0 <? length (dnsRules rules)) eqn:El; [|set_solver].
  assert (dnsRules rules ≠ []) as Hne by (by destruct (dnsRules rules)).
  intros ->%list_elem_of_singleton. split_and!; [done| | |].
  - intros l Hl. rewrite selects_cnp. cbn [forallb]. by rewrite match_In_unlabelled.
  - intros l ws Hl. rewrite selects_cnp. cbn [forallb].
    rewrite andb_true_r, (match_In l ws _ Hl), bool_decide_eq_true. set_solver.
  - intros proto n Hp. by apply allows_cnp.
Qed.

Lemma render_grant_exists ws rules :
  dnsRules rules ≠ [] → ∃ o, o ∈ render_grant (ws, rules).
Proof. unfold render_grant. destruct (dnsRules rules); [done|]. eexists. by left. Qed.
End render.

(** Objects are determined by their names. *)
Lemma render_zone_name inp m e z rules o :
  o ∈ render_zone inp m e (z, rules) →
  GetName o = "ws-dns-zone-" +:+ z ∧ owner_of o = ownerValue ∧ render_zone inp m e (z, rules) = [o].
Proof.
  unfold render_zone. destruct (length (dnsRules rules) =? 0); [set_solver|].
  destruct (z =? in_DefaultZone inp)%string.
  - by intros ->%list_elem_of_singleton.
  - destruct (length (slice_at m z) =? 0); [set_solver|]. by intros ->%list_elem_of_singleton.
Qed.

Lemma render_grant_name ws rules o :
  o ∈ render_grant (ws, rules) →
  GetName o = "ws-dns-grant-" +:+ ws ∧ owner_of o = ownerValue ∧ render_grant (ws, rules) = [o].
Proof.
  unfold render_grant. destruct (0 <? length (dnsRules rules)); [|set_solver].
  by intros ->%list_elem_of_singleton.
Qed.

Lemma Render_names_unique inp o o' :
  o ∈ Render inp → o' ∈ Render inp → GetName o = GetName o' → o = o'.
Proof.
  intros [(z & r & Hz & Ho)|(w & r & Hw & Ho)]%elem_of_Render
    [(z' & r' & Hz' & Ho')|(w' & r' & Hw' & Ho')]%elem_of_Render Hn.
  - apply render_zone_name in Ho as (En & _ & Eo), Ho' as (En' & _ & Eo').
    rewrite En, En' in Hn. ssimp. congruence.
  - apply render_zone_name in Ho as (En & _ & Eo). apply render_grant_name in Ho' as (En' & _ & Eo').
    rewrite En, En' in Hn. ssimp.
  - apply render_grant_name in Ho as (En & _ & Eo). apply render_zone_name in Ho' as (En' & _ & Eo').
    rewrite En, En' in Hn. ssimp.
  - apply render_grant_name in Ho as (En & _ & Eo), Ho' as (En' & _ & Eo').
    rewrite En, En' in Hn. ssimp. congruence.
Qed.

Lemma NoDup_Render inp : NoDup (Render inp).
Proof.
  unfold Render, Render_with. destruct (foldl _ _ _) as [m e].
  apply NoDup_merge_sort, NoDup_app. split_and!.
  - apply NoDup_bind; [| |apply NoDup_map_to_list].
    + intros [z r] [z' r'] o Hz%elem_of_map_to_list Hz'%elem_of_map_to_list
        (E & _)%render_zone_name (E' & _)%render_zone_name.
      rewrite E in E'. ssimp. congruence.
    + intros [z r] _. destruct (render_zone _ _ _ _) as [|o l] eqn:E; [constructor|].
      assert (o ∈ render_zone inp m (merge_sort String.le e) (z, r)) as Ho
        by (rewrite E; set_solver).
      apply render_zone_name in Ho as (_ & _ & E'). rewrite E' in E. simplify_eq.
      apply NoDup_singleton.
  - intros o ([z r] & (E & _)%render_zone_name & _)%list_elem_of_bind
      ([w r'] & (E' & _)%render_grant_name & _)%list_elem_of_bind.
    rewrite E in E'. ssimp.
  - apply NoDup_bind; [| |apply NoDup_map_to_list].
    + intros [z r] [z' r'] o Hz%elem_of_map_to_list Hz'%elem_of_map_to_list
        (E & _)%render_grant_name (E' & _)%render_grant_name.
      rewrite E in E'. ssimp. congruence.
    + intros [z r] _. unfold render_grant. case_match; [apply NoDup_singleton|constructor].
Qed.

Lemma NoDup_Render_names inp : NoDup (GetName <$> Render inp).
Proof.
  apply NoDup_fmap_2_strong; [intros o o'; apply Render_names_unique|apply NoDup_Render].
Qed.

Lemma Render_owner inp o : o ∈ Render inp → owner_of o = ownerValue.
Proof.
  intros [(z & r & Hz & (_ & ? & _)%render_zone_name)|(w & r & Hw & (_ & ? & _)%render_grant_name)]%elem_of_Render;
    done.
Qed.

(** The visiting order of the assignments shows in neither the sorted member lists nor
the sorted list of the others. *)
Lemma count_members_perm def assigns assigns' :
  assigns ≡ₚ assigns' →
  let acc := foldl (count_member def) (∅, []) assigns in
  let acc' := foldl (count_member def) (∅, []) assigns' in
  (∀ z, slice_at acc.1 z ≡ₚ slice_at acc'.1 z) ∧ acc.2 ≡ₚ acc'.2.
Proof.
  intros Hp acc acc'. unfold acc, acc'. split.
  - intros z. destruct (count_members def assigns ∅ [] z) as [-> _].
    destruct (count_members def assigns' ∅ [] z) as [-> _]. by rewrite Hp.
  - destruct (count_members def assigns ∅ [] "") as [_ ->].
    destruct (count_members def assigns' ∅ [] "") as [_ ->]. by rewrite Hp.
Qed.

Lemma render_zone_perm inp m m' e e' row :
  (∀ z, slice_at m z ≡ₚ slice_at m' z) → e = e' →
  render_zone inp m e row = render_zone inp m' e' row.
Proof.
  intros Hm <-. destruct row as [z rules]. unfold render_zone.
  by rewrite (merge_sort_perm_eq String.le _ _ (Hm z)), (Permutation_length (Hm z)).
Qed.

#[export] Instance name_le_trans : Transitive name_le.
Proof. intros a b c. unfold name_le. apply (transitivity (R := String.le)). Qed.
#[export] Instance name_le_total : Total name_le.
Proof. intros a b. apply (total String.le). Qed.

(** The entries of valid dns rules let through what one of the rules covers. *)
Lemma dnsRules_allow rules n :
  existsb (dns_rule_allows n) (dnsRules rules) = true ↔
  ∃ r, r ∈ rules ∧ rule_Kind r = "dns" ∧ ValidRule r = true ∧ name_covers (rule_Value r) n.
Proof.
  rewrite existsb_exists. setoid_rewrite <- list_elem_of_In. setoid_rewrite elem_of_dnsRules.
  assert (∀ r, rule_Kind r = "dns" → ValidRule r = true → ValidName (rule_Value r) = true) as Hn.
  { intros r. apply ValidRule_dns. }
  split.
  - intros (j & (r & Hr & Hk & Hv & ->) & Ha). exists r. split_and!; [done..|].
    apply dns_rule_covers; eauto.
  - intros (r & Hr & Hk & Hv & Hc). exists (dns_rule r). split; [eauto 10|].
    apply dns_rule_covers; eauto.
Qed.

(** The objects that select a workspace let through the names its effective dns rules
cover. *)
Lemma Render_selects inp l ws proto n :
  l !! wsLabel = Some ws → proto ∈ dns_protocols →
  (∃ o, o ∈ Render inp ∧ selects l (spec_of o) = true ∧ allows_query proto n (spec_of o) = true) ↔
  ∃ r, r ∈ Effective inp ws "dns" ∧ name_covers (rule_Value r) n.
Proof.
  intros Hl Hp. setoid_rewrite elem_of_Effective. split.
  - intros (o & [(z & rules & Hz & Ho)|(w & rules & Hw & Ho)]%elem_of_Render & Hs & Ha).
    + apply render_zone_meaning in Ho as (_ & _ & Hsel & Hq). rewrite Hq in Ha by done.
      apply (Hsel l ws Hl) in Hs. apply dnsRules_allow in Ha as (r & Hr & Hk & Hv & Hc).
      exists r. split_and!; [|done..]. left. by rewrite Hs; unfold slice_at; rewrite Hz.
    + apply render_grant_meaning in Ho as (_ & _ & Hsel & Hq). rewrite Hq in Ha by done.
      apply (Hsel l ws Hl) in Hs as ->. apply dnsRules_allow in Ha as (r & Hr & Hk & Hv & Hc).
      exists r. split_and!; [|done..]. right. by unfold slice_at; rewrite Hw.
  - assert (∀ rules, existsb (dns_rule_allows n) (dnsRules rules) = true → dnsRules rules ≠ []) as Hne.
    { intros rules Hx E. by rewrite E in Hx. }
    intros (r & ([Hr|Hr] & Hk & Hv) & Hc); unfold slice_at in Hr.
    + destruct (in_ZoneRules inp !! ZoneOf inp ws) as [rules|] eqn:Ez; simpl in Hr; [|set_solver].
      assert (existsb (dns_rule_allows n) (dnsRules rules) = true) as Hx by (apply dnsRules_allow; eauto).
      destruct (render_zone_exists inp _ rules ws eq_refl (Hne _ Hx)) as [o Ho].
      exists o. destruct (render_zone_meaning inp _ _ _ Ho) as (_ & _ & Hsel & Hq).
      split_and!; [apply elem_of_Render; left; eauto|by apply (Hsel l ws Hl)|by rewrite Hq].
    + destruct (in_Grants inp !! ws) as [rules|] eqn:Ez; simpl in Hr; [|set_solver].
      assert (existsb (dns_rule_allows n) (dnsRules rules) = true) as Hx by (apply dnsRules_allow; eauto).
      destruct (render_grant_exists ws rules (Hne _ Hx)) as [o Ho].
      exists o. destruct (render_grant_meaning _ _ _ Ho) as (_ & _ & Hsel & Hq).
      split_and!; [apply elem_of_Render; right; eauto|by apply (Hsel l ws Hl)|by rewrite Hq].
Qed.

Lemma Render_lets_some inp o proto :
  o ∈ Render inp → proto ∈ dns_protocols → ∃ n, allows_query proto n (spec_of o) = true.
Proof.
  intros Ho Hp.
  assert (∃ rules, dnsRules rules ≠ [] ∧
    ∀ n, allows_query proto n (spec_of o) = existsb (dns_rule_allows n) (dnsRules rules)) as (rules & Hne & Hq).
  { apply elem_of_Render in Ho as [(z & rules & Hz & Ho)|(w & rules & Hw & Ho)]; exists rules.
    - apply render_zone_meaning in Ho as (? & _ & _ & Hq). split; [done|]. intros n. by apply Hq.
    - apply render_grant_meaning in Ho as (? & _ & _ & Hq). split; [done|]. intros n. by apply Hq. }
  destruct (dnsRules rules) as [|j l] eqn:E; [done|].
  assert (j ∈ dnsRules rules) as (r & Hr & Hk & Hv & ->)%elem_of_dnsRules by (rewrite E; by left).
  destruct (ValidName_covers (rule_Value r)) as [n Hn]; [by apply ValidRule_dns|].
  exists n. rewrite Hq, <- E. apply dnsRules_allow. by exists r.
Qed.

Lemma Render_unlabelled inp l o :
  l !! wsLabel = None → o ∈ Render inp → selects l (spec_of o) = false.
Proof.
  intros Hl [(z & rules & Hz & Ho)|(w & rules & Hw & Ho)]%elem_of_Render.
  - apply render_zone_meaning in Ho as (_ & Hno & _). by apply Hno.
  - apply render_grant_meaning in Ho as (_ & Hno & _). by apply Hno.
Qed.

(** [C8] The rendered policies let a workspace resolve exactly the names its effective dns
rules cover: read the way Cilium reads them, some object selects a pod with the workspace's
label and lets it ask the cluster's DNS server for a name, over UDP or TCP, exactly when one
of the workspace's effective dns rules is that name or a wildcard one label above it. No
object selects a pod without the label, and none is empty: each lets some name through. *)
Theorem Render_enforces inp :
  (∀ l ws proto n, l !! "com.coder.workspace.id" = Some ws → proto ∈ ["UDP"; "TCP"] →
    (∃ o, o ∈ Render inp ∧ selects l (spec_of o) = true ∧ allows_query proto n (spec_of o) = true) ↔
    ∃ r, r ∈ Effective inp ws "dns" ∧ name_covers (rule_Value r) n) ∧
  (∀ l o, l !! "com.coder.workspace.id" = None → o ∈ Render inp → selects l (spec_of o) = false) ∧
  (∀ o proto, o ∈ Render inp → proto ∈ ["UDP"; "TCP"] → ∃ n, allows_query proto n (spec_of o) = true).
Proof.
  split_and!; [intros l ws proto n; apply Render_selects|intros l o; apply Render_unlabelled|].
  intros o proto. apply Render_lets_some.
Qed.

(** The list of policies does not depend on the orders in which the three loops of
[Render] visit its maps, nor on how the sort breaks ties; it is sorted by name, the names
are unique, and every object carries the managed-by label. *)
Theorem Render_deterministic inp assigns zone_rules grants l :
  assigns ≡ₚ map_to_list (in_Assign inp) → zone_rules ≡ₚ map_to_list (in_ZoneRules inp) →
  grants ≡ₚ map_to_list (in_Grants inp) →
  l ≡ₚ Render_with assigns zone_rules grants inp → Sorted name_le l →
  l = Render inp ∧ (∀ o o', o ∈ l → o' ∈ l → GetName o = GetName o' → o = o') ∧
  (∀ o, o ∈ l → owner_of o = ownerValue).
Proof.
  intros Ha Hz Hg Hl Hs.
  assert (l = Render inp) as ->; [|eauto using Render_names_unique, Render_owner].
  destruct (count_members_perm (in_DefaultZone inp) _ _ Ha) as [Hm He].
  assert (l ≡ₚ Render inp) as HR.
  { rewrite Hl. unfold Render, Render_with.
    destruct (foldl _ _ assigns) as [m e]. destruct (foldl _ _ (map_to_list _)) as [m' e'].
    simpl in *. rewrite !merge_sort_Permutation, Hz, Hg.
    rewrite (merge_sort_perm_eq String.le _ _ He), (merge_sort_Permutation name_le).
    apply Permutation_app_tail, reflexive_eq, list_bind_ext; [|done].
    intros row. by apply render_zone_perm. }
  apply (Sorted_unique_strong name_le); [|done| |done].
  - intros o o' Ho Ho' H1 H2. rewrite HR in Ho. apply (Render_names_unique inp); [done..|].
    by apply (anti_symm String.le).
  - unfold Render, Render_with. destruct (foldl _ _ (map_to_list _)). by apply (Sorted_merge_sort name_le).
Qed.

(** ** The API server

[objects] is what the namespace holds: for each name the value of the managed-by
label and the spec. A call that fails may or may not have taken effect before the
error came back. Nobody else writes to the namespace during a call of [Apply]. *)
Class KubeLaws (S : Type) `{KubeAPI S} := {
  objects : S → gmap string (string * json);
  Get_law n s : match api_Get n s with
    | (Ok o, s') => objects s' = objects s ∧ objects s !! n = Some (owner_of o, spec_of o)
    | (Err e, s') => objects s' = objects s ∧ (IsNotFound e = true → objects s !! n = None)
    end;
  Create_law d s : match api_Create d s with
    | (None, s') => objects s !! GetName d = None ∧
        objects s' = <[GetName d := (owner_of d, spec_of d)]> (objects s)
    | (Some _, s') => objects s' = objects s ∨
        (objects s !! GetName d = None ∧
         objects s' = <[GetName d := (owner_of d, spec_of d)]> (objects s))
    end;
  Update_law d s : match api_Update d s with
    | (None, s') => objects s' = <[GetName d := (owner_of d, spec_of d)]> (objects s)
    | (Some _, s') => objects s' = objects s ∨
        objects s' = <[GetName d := (owner_of d, spec_of d)]> (objects s)
    end;
  List_law s : match api_List s with
    | (Ok items, s') => objects s' = objects s ∧
        ∀ n, (∃ o, o ∈ items ∧ GetName o = n) ↔ ∃ spec, objects s !! n = Some (ownerValue, spec)
    | (Err _, s') => objects s' = objects s
    end;
  Delete_law n s : match api_Delete n s with
    | (None, s') => objects s' = delete n (objects s)
    | (Some e, s') => (objects s' = objects s ∨ objects s' = delete n (objects s)) ∧
        (IsNotFound e = true → objects s' = objects s ∧ objects s !! n = None)
    end;
  SetResourceVersion_law d v :
    GetName (SetResourceVersion d v) = GetName d ∧
    owner_of (SetResourceVersion d v) = owner_of d ∧ spec_of (SetResourceVersion d v) = spec_of d
}.

Section apply_facts.
Context {S : Type} `{KubeLaws S}.

(** The object at [n] is not ours. *)
Definition foreign (s : S) (n : string) : Prop :=
  ∃ owner spec, objects s !! n = Some (owner, spec) ∧ owner ≠ ownerValue.

(** The object at [d]'s name is ours and as desired. *)
Definition as_desired (s : S) (d : json) : Prop :=
  ∃ spec, objects s !! GetName d = Some (ownerValue, spec) ∧
    (spec = spec_of d ∨ DeepEqual spec (spec_of d) = true).

(** One iteration: other names are untouched, a foreign object too, and without an
error the object is as desired. *)
Lemma apply_one_spec d s es s' :
  apply_one d s = (es, s') →
  (∀ n, n ≠ GetName d → objects s' !! n = objects s !! n) ∧
  (foreign s (GetName d) → objects s' = objects s) ∧
  (owner_of d = ownerValue → es = [] → as_desired s' d).
Proof.
  unfold apply_one. pose proof (Get_law (GetName d) s) as HG.
  destruct (api_Get (GetName d) s) as [[cur|e] s1].
  - destruct HG as [E1 Hcur].
    destruct (String.eqb_spec (owner_of cur) ownerValue) as [Hown|Hown]; simpl.
    + destruct (DeepEqual (spec_of cur) (spec_of d)) eqn:Eq; simpl.
      * intros [= <- <-]. rewrite E1. split_and!; [done|done|]. intros _ _.
        exists (spec_of cur). rewrite E1, Hcur, Hown. auto.
      * set (u := SetResourceVersion d _).
        destruct (SetResourceVersion_law d (jstr_at ["metadata"; "resourceVersion"] cur))
          as (Hn & Ho & Hs). fold u in Hn, Ho, Hs.
        pose proof (Update_law u s1) as HU. rewrite Hn, Ho, Hs, E1 in HU.
        destruct (api_Update u s1) as [[e|] s2]; intros [= <- <-].
        -- split_and!; [|intros (o & sp & Hf & Hne); congruence|done].
           intros n Hne. destruct HU as [->| ->]; [done|]. by rewrite lookup_insert_ne.
        -- split_and!; [|intros (o & sp & Hf & Hne); congruence|].
           ++ intros n Hne. rewrite HU. by rewrite lookup_insert_ne.
           ++ intros Hd _. exists (spec_of d). rewrite HU, lookup_insert_eq, Hd. auto.
    + intros [= <- <-]. by rewrite E1.
  - destruct HG as [E1 Hnf]. destruct (IsNotFound e).
    + specialize (Hnf eq_refl). pose proof (Create_law d s1) as HC. rewrite E1 in HC.
      destruct (api_Create d s1) as [[e'|] s2]; intros [= <- <-].
      * split_and!; [|intros (o & sp & Hf & Hne); congruence|done].
        intros n Hne. destruct HC as [->|[_ ->]]; [done|]. by rewrite lookup_insert_ne.
      * destruct HC as [_ HC]. split_and!; [|intros (o & sp & Hf & Hne); congruence|].
        -- intros n Hne. rewrite HC. by rewrite lookup_insert_ne.
        -- intros Hd _. exists (spec_of d). rewrite HC, lookup_insert_eq, Hd. auto.
    + intros [= <- <-]. by rewrite E1.
Qed.

Lemma foreign_frame (s s' : S) n :
  objects s' !! n = objects s !! n → foreign s n ↔ foreign s' n.
Proof. unfold foreign. intros ->. done. Qed.

Lemma apply_one_foreign d s es s' n :
  apply_one d s = (es, s') → foreign s n → objects s' !! n = objects s !! n.
Proof.
  intros (Hother & Hf & _)%apply_one_spec Hn.
  destruct (decide (n = GetName d)) as [->|]; [by rewrite Hf|auto].
Qed.

Lemma apply_all_foreign desired s es s' n :
  apply_all desired s = (es, s') → foreign s n → objects s' !! n = objects s !! n.
Proof.
  revert s es. induction desired as [|d ds IH]; simpl; intros s es Heq Hn; [by simplify_eq|].
  destruct (apply_one d s) as [es1 s1] eqn:E1. destruct (apply_all ds s1) as [es2 s2] eqn:E2.
  simplify_eq. pose proof (apply_one_foreign _ _ _ _ _ E1 Hn) as Hn1.
  rewrite <- Hn1. eapply IH; [exact E2|]. by apply (foreign_frame _ _ _ Hn1).
Qed.

Lemma apply_all_frame desired s es s' n :
  apply_all desired s = (es, s') → n ∉ GetName <$> desired →
  objects s' !! n = objects s !! n.
Proof.
  revert s es. induction desired as [|d ds IH]; csimpl; intros s es Heq Hn; [by simplify_eq|].
  destruct (apply_one d s) as [es1 s1] eqn:E1. destruct (apply_all ds s1) as [es2 s2] eqn:E2.
  simplify_eq. apply not_elem_of_cons in Hn as [Hne Hn].
  rewrite (IH _ _ E2 Hn). by apply (apply_one_spec _ _ _ _ E1).
Qed.

Lemma as_desired_frame (s s' : S) d :
  objects s' !! GetName d = objects s !! GetName d → as_desired s d → as_desired s' d.
Proof. unfold as_desired. by intros ->. Qed.

Lemma apply_all_ok desired s s' :
  apply_all desired s = ([], s') → NoDup (GetName <$> desired) →
  (∀ d, d ∈ desired → owner_of d = ownerValue) →
  ∀ d, d ∈ desired → as_desired s' d.
Proof.
  revert s. induction desired as [|d ds IH]; csimpl; intros s Heq Hnd Hown d' Hd'; [set_solver|].
  destruct (apply_one d s) as [es1 s1] eqn:E1. destruct (apply_all ds s1) as [es2 s2] eqn:E2.
  injection Heq as [-> ->]%app_eq_nil <-. apply NoDup_cons in Hnd as [Hni Hnd].
  apply elem_of_cons in Hd' as [->|Hd'].
  - eapply as_desired_frame; [by eapply apply_all_frame|].
    apply (apply_one_spec _ _ _ _ E1); [apply Hown; set_solver|done].
  - eapply IH; [exact E2|done| |done]. set_solver.
Qed.

(** Pruning deletes only what it was given and does not want. *)
Lemma prune_frame want items s es s' n :
  prune want items s = (es, s') →
  n ∈ want ∨ n ∉ GetName <$> items → objects s' !! n = objects s !! n.
Proof.
  revert s es. induction items as [|o items IH]; csimpl; intros s es Heq Hn; [by simplify_eq|].
  case_bool_decide as Hw.
  - eapply IH; [exact Heq|]. set_solver.
  - pose proof (Delete_law (GetName o) s) as HD.
    destruct (api_Delete (GetName o) s) as [e s1]. destruct (prune want items s1) as [es2 s2] eqn:E2.
    simplify_eq. rewrite (IH _ _ E2) by set_solver.
    assert (GetName o ≠ n) as Hne by (destruct Hn as [Hn|Hn]; [congruence|set_solver]).
    destruct e as [e|]; [destruct HD as [[->| ->] _]|rewrite HD]; [done|by rewrite lookup_delete_ne..].
Qed.

(** An item is gone afterwards, unless it is wanted or its deletion failed. *)
Lemma prune_deletes want items s es s' n :
  prune want items s = (es, s') → n ∈ GetName <$> items → n ∉ want →
  (es = [] ∨ ∀ n s e s', api_Delete n s = (Some e, s') → IsNotFound e = true) →
  objects s' !! n = None.
Proof.
  revert s es. induction items as [|o items IH]; csimpl; intros s es Heq Ho Hw Hgood; [set_solver|].
  case_bool_decide as Hw'.
  { apply elem_of_cons in Ho as [->|Ho]; [done|]. by eapply IH. }
  pose proof (Delete_law (GetName o) s) as HD.
  destruct (api_Delete (GetName o) s) as [e s1] eqn:ED.
  destruct (prune want items s1) as [es2 s2] eqn:E2. injection Heq as <- <-.
  assert (es2 = [] ∨ ∀ n s e s', api_Delete n s = (Some e, s') → IsNotFound e = true) as Hgood2.
  { destruct Hgood as [[_ ->]%app_eq_nil|]; auto. }
  destruct (decide (n ∈ GetName <$> items)) as [Hin|Hno]; [by eapply IH|].
  apply elem_of_cons in Ho as [->|Ho]; [|done].
  rewrite (prune_frame _ _ _ _ _ _ E2); [|by right].
  destruct e as [e|]; [|rewrite HD; apply lookup_delete_eq].
  destruct HD as [_ Hnf]. destruct Hnf as [-> ?]; [|done].
  destruct Hgood as [[Hes _]%app_eq_nil|Hg]; [by destruct (IsNotFound e)|by eapply Hg].
Qed.

(** The steps of [Apply] in one place. *)
Lemma Apply_steps desired s e s' :
  Apply desired s = (e, s') →
  ∃ errs s1, apply_all desired s = (errs, s1) ∧
    let want := list_to_set (C := gset string) (GetName <$> desired) in
    match api_List s1 with
    | (Err l, s2) => objects s2 = objects s1 ∧ s' = s2 ∧ e ≠ None
    | (Ok items, s2) => objects s2 = objects s1 ∧
        (∀ n, n ∈ GetName <$> items ↔ ∃ spec, objects s1 !! n = Some (ownerValue, spec)) ∧
        ∃ errs', prune want items s2 = (errs', s') ∧ (e = None → errs = [] ∧ errs' = [])
    end.
Proof.
  unfold Apply. destruct (apply_all desired s) as [errs s1]. intros Heq.
  exists errs, s1. split; [done|]. pose proof (List_law s1) as HL.
  destruct (api_List s1) as [[items|l] s2].
  - destruct HL as [E HL]. split; [done|]. split.
    + intros n. rewrite list_elem_of_fmap, <- HL. naive_solver.
    + destruct (prune _ items s2) as [errs' s3]. simplify_eq. exists errs'. split; [done|].
      unfold errors_Join. destruct (errs ++ errs') eqn:Ea; [|done]. by apply app_eq_nil in Ea.
  - simplify_eq. split_and!; [done..|]. by destruct errs.
Qed.
End apply_facts.

Section apply_claims.
Context {S : Type} `{KubeLaws S}.

(** An [Apply] without an error leaves the managed objects as desired. *)
Lemma Apply_ok desired (s : S) s' :
  NoDup (GetName <$> desired) → (∀ d, d ∈ desired → owner_of d = ownerValue) →
  Apply desired s = (None, s') →
  (∀ d, d ∈ desired → ∃ spec, objects s' !! GetName d = Some (ownerValue, spec) ∧
    (spec = spec_of d ∨ DeepEqual spec (spec_of d) = true)) ∧
  (∀ n spec, objects s' !! n = Some (ownerValue, spec) → n ∈ GetName <$> desired).
Proof.
  intros Hnd Hown (errs & s1 & E1 & HL)%Apply_steps.
  destruct (api_List s1) as [[items|l] s2]; [|by destruct HL as (_ & _ & ?)].
  destruct HL as (E & Hitems & errs' & E2 & Hnil). destruct (Hnil eq_refl) as [-> ->]. split.
  - intros d Hd. apply (as_desired_frame s1); [|by eapply apply_all_ok].
    rewrite <- E. eapply prune_frame; [exact E2|]. left. apply elem_of_list_to_set.
    apply list_elem_of_fmap. eauto.
  - intros n spec Hn. apply dec_stable. intros Hno.
    assert (objects s' !! n = objects s2 !! n ∨ objects s' !! n = None) as [Hsame|]; [| |congruence].
    + destruct (decide (n ∈ GetName <$> items)) as [Hin|Hni].
      * right. eapply prune_deletes; [exact E2|done| |by left]. by rewrite elem_of_list_to_set.
      * left. eapply prune_frame; [exact E2|by right].
    + assert (n ∈ GetName <$> items) as Hin.
      { apply Hitems. exists spec. by rewrite <- E, <- Hsame. }
      rewrite (prune_deletes _ _ _ _ _ _ E2 Hin) in Hn; [done| |by left].
      by rewrite elem_of_list_to_set.
Qed.

(** [C18] [Apply] never touches an object that does not carry the managed-by label, whatever
fails and whatever is desired. *)
Theorem Apply_leaves_foreign desired (s : S) e s' n owner spec :
  Apply desired s = (e, s') → objects s !! n = Some (owner, spec) → owner ≠ ownerValue →
  objects s' !! n = Some (owner, spec).
Proof.
  intros (errs & s1 & E1 & HL)%Apply_steps Hn Hown.
  assert (objects s1 !! n = Some (owner, spec)) as Hn1.
  { rewrite <- Hn. eapply apply_all_foreign; [exact E1|]. by exists owner, spec. }
  destruct (api_List s1) as [[items|l] s2]; [|destruct HL as (E & -> & _); by rewrite E].
  destruct HL as (E & Hitems & errs' & E2 & _). rewrite <- Hn1, <- E.
  eapply prune_frame; [exact E2|]. right. intros (sp & Hsp)%Hitems. congruence.
Qed.

(** [C17] [Apply] converges: when it reports no error, every desired policy is in the cluster
with its spec, and every managed object of the cluster is a desired one. *)
Theorem Apply_converges desired (s : S) s' :
  NoDup (GetName <$> desired) → (∀ d, d ∈ desired → owner_of d = ownerValue) →
  Apply desired s = (None, s') →
  (∀ d, d ∈ desired → ∃ spec, objects s' !! GetName d = Some (ownerValue, spec) ∧
    (spec = spec_of d ∨ DeepEqual spec (spec_of d) = true)) ∧
  (∀ n spec, objects s' !! n = Some (ownerValue, spec) → n ∈ GetName <$> desired).
Proof. apply Apply_ok. Qed.

(** One bad object never blocks the rest: as long as the server can list and delete,
every managed object that is no longer desired is pruned, whatever went wrong while reading,
creating or updating the desired ones. *)
Theorem Apply_prunes desired (s : S) e s' n spec :
  (∀ s, ∃ items s', api_List s = (Ok items, s')) →
  (∀ n s e s', api_Delete n s = (Some e, s') → IsNotFound e = true) →
  Apply desired s = (e, s') → objects s' !! n = Some (ownerValue, spec) →
  n ∈ GetName <$> desired.
Proof.
  intros Hlist Hdel (errs & s1 & E1 & HL)%Apply_steps Hn.
  destruct (Hlist s1) as (items & s2 & El). rewrite El in HL.
  destruct HL as (E & Hitems & errs' & E2 & _). apply dec_stable. intros Hno.
  destruct (decide (n ∈ GetName <$> items)) as [Hin|Hni].
  - rewrite (prune_deletes _ _ _ _ _ _ E2 Hin) in Hn; [done| |by right].
    by rewrite elem_of_list_to_set.
  - apply Hni, Hitems. exists spec. rewrite <- E, <- Hn. symmetry.
    eapply prune_frame; [exact E2|by right].
Qed.
End apply_claims.

(** ** A server that keeps objects by name and never fails *)
Definition not_found : error := ESentinel "not found".
Definition managed_names (s : gmap string json) : list string :=
  (map_to_list (filter (λ no, owner_of no.2 = ownerValue) s)).*1.

#[export] Instance demo_api : KubeAPI (gmap string json) := {|
  api_Get n s := (match s !! n with Some o => Ok o | None => Err not_found end, s);
  api_Create d s :=
    match s !! GetName d with
    | Some _ => (Some (EMsg "already exists"), s)
    | None => (None, <[GetName d := d]> s)
    end;
  api_Update d s := (None, <[GetName d := d]> s);
  api_List s := (Ok ((λ n, JObj [("metadata", JObj [("name", JStr n)])]) <$> managed_names s), s);
  api_Delete n s := (None, delete n s);
  IsNotFound e := errors_Is e "not found";
  SetResourceVersion d _ := d
|}.

#[export, refine] Instance demo_laws : KubeLaws (gmap string json) := {|
  objects s := (λ o, (owner_of o, spec_of o)) <$> s
|}.
Proof.
  - intros n s. simpl. rewrite lookup_fmap. by destruct (s !! n).
  - intros d s. simpl. destruct (s !! GetName d) eqn:E; [by left|].
    by rewrite lookup_fmap, E, fmap_insert.
  - intros d s. simpl. by rewrite fmap_insert.
  - intros s. simpl. split; [done|]. intros n. setoid_rewrite list_elem_of_fmap.
    unfold managed_names. rewrite lookup_fmap. split.
    + intros (o & (m & -> & Hm) & Hn). change (m = n) in Hn. subst m.
      apply list_elem_of_fmap in Hm as ([m o] & -> & Hm).
      apply elem_of_map_to_list, map_lookup_filter_Some in Hm as [Hm Ho]. simpl in *.
      rewrite Hm. simpl. rewrite Ho. eauto.
    + intros (spec & Hs). destruct (s !! n) as [o|] eqn:E; [|done]. simpl in Hs.
      eexists. split; [exists n; split; [done|]|done]. apply list_elem_of_fmap. exists (n, o).
      split; [done|]. apply elem_of_map_to_list, map_lookup_filter_Some. simpl. naive_solver.
  - intros n s. simpl. by rewrite fmap_delete.
  - done.
Defined.

(** A cluster with a static policy of somebody else and a stale one of ours. *)
Definition static_policy : json :=
  JObj [("metadata", JObj [("name", JStr "ws-dns-base")]); ("spec", JObj [])].
Definition demo_cluster : gmap string json :=
  {[ "ws-dns-base" := static_policy;
     "ws-dns-grant-gone" := cnp "ws-dns-grant-gone" [match_ "In" (Some ["gone"])] [] ]}.
Definition demo_desired : list json := Render demo_input.
Definition demo_applied : gmap string json := (Apply demo_desired demo_cluster).2.

Lemma Render_enforces_witness :
  ∃ o, o ∈ Render demo_input ∧ selects {[ "com.coder.workspace.id" := "w1" ]} (spec_of o) = true ∧
    allows_query "UDP" "example.com" (spec_of o) = true.
Proof.
  apply (proj1 (Render_enforces demo_input) {[ "com.coder.workspace.id" := "w1" ]} "w1" "UDP" "example.com").
  - reflexivity.
  - left.
  - exists (mkRule "dns" "example.com" 0). split; [vm_compute; left|]. left. split; reflexivity.
Defined.

Lemma Render_deterministic_witness :
  merge_sort name_le (reverse (Render demo_input)) = Render demo_input.
Proof.
  apply (Render_deterministic demo_input (map_to_list (in_Assign demo_input))
    (map_to_list (in_ZoneRules demo_input)) (map_to_list (in_Grants demo_input))).
  - reflexivity.
  - reflexivity.
  - reflexivity.
  - rewrite merge_sort_Permutation. apply reverse_Permutation.
  - apply (Sorted_merge_sort name_le).
Defined.

Lemma Apply_leaves_foreign_witness :
  objects demo_applied !! "ws-dns-base" = Some ("", JObj []).
Proof.
  apply (Apply_leaves_foreign demo_desired demo_cluster None demo_applied).
  - vm_compute. reflexivity.
  - vm_compute. reflexivity.
  - discriminate.
Defined.

Definition demo_zone_policy : json :=
  cnp "ws-dns-zone-z" [match_ "Exists" None] [dns_rule (mkRule "dns" "example.com" 0)].

Lemma Apply_converges_witness :
  ∃ spec, objects demo_applied !! GetName demo_zone_policy = Some (ownerValue, spec) ∧
    (spec = spec_of demo_zone_policy ∨ DeepEqual spec (spec_of demo_zone_policy) = true).
Proof.
  apply (Apply_converges demo_desired demo_cluster demo_applied).
  - vm_compute. repeat constructor; set_solver.
  - apply Render_owner.
  - vm_compute. reflexivity.
  - vm_compute. left.
Defined.

Lemma Apply_prunes_witness : objects demo_applied !! "ws-dns-grant-gone" = None.
Proof.
  destruct (objects demo_applied !! "ws-dns-grant-gone") as [[owner spec]|] eqn:E; [exfalso|reflexivity].
  assert (owner = ownerValue) as -> by (vm_compute in E; discriminate E).
  assert ("ws-dns-grant-gone" ∈ GetName <$> demo_desired) as Hin.
  - apply (Apply_prunes demo_desired demo_cluster None demo_applied "ws-dns-grant-gone" spec).
    + intros s. eauto.
    + intros n s e s' Hd. discriminate Hd.
    + vm_compute. reflexivity.
    + exact E.
  - vm_compute in Hin. repeat (apply elem_of_cons in Hin as [Hin|Hin]; [discriminate Hin|]).
    by apply elem_of_nil in Hin.
Defined.
