(* ===== verification/Xds.v ===== *)
(** * internal/xds: the Envoy configuration

A translation of [admin/internal/xds/build.go] and [server.go]. Resources are JSON
values, as in the source, where they are maps written as JSON text and decoded by
protojson; SHA-256 and protojson with the messages' validation are parameters. [Push] runs against the
snapshot cache of go-control-plane, also a parameter.

The theorems read the configuration the way Envoy does ([Dataplane.v]): a request's
authority picks the virtual host with the most specific matching domain, its routes the
route, and the filters of the listener decide with the configuration of the virtual host. *)
From Stdlib Require Import Ascii.
From S2P Require Import Prelude GoLib Regex Policy Json JsonMarshal Dataplane.
From stdpp Require Import gmap strings list sorting fin_maps.

(** ** Parameters *)
Class Envoy := {
  Resource : Type;
  sha256 : string → string;                      (* [sha256.Sum256], 32 bytes *)
  protojson_Unmarshal : string → string → result error Resource; (* by message type *)
  ValidateAll : Resource → option error
}.

Definition NodeID : string := "sandcastle-egress".
Definition RouteName : string := "egress".

Record Params := mkParams {
  p_Hosts : gmap HostKey (list string);
  p_RequestURL : string;
  p_TunnelMax : Z
}.

Definition obj (fields : list (string * json)) : json := JObj fields.
Definition strs (l : list string) : json := JArr (JStr <$> l).

Definition typed (t : string) (fields : list (string * json)) : json :=
  obj (jset fields "@type" (JStr ("type.googleapis.com/" +:+ t))).

(** [hex.EncodeToString] *)
Definition hex_digit (n : N) : ascii :=
  if (n <? 10)%N then Ascii.ascii_of_N (48 + n) else Ascii.ascii_of_N (87 + n).
Fixpoint hex (s : string) : string :=
  match s with
  | "" => ""
  | String c s => String (hex_digit (byte c / 16)) (String (hex_digit (byte c mod 16)) (hex s))
  end.

Definition dnsCache : json := obj [("name", JStr "dfp"); ("dns_lookup_family", JStr "V4_ONLY")].

Definition principal (ip : string) : json :=
  obj [("direct_remote_ip", obj [("address_prefix", JStr ip); ("prefix_len", JNum 32)])].

Definition rbacPerRoute (ips : list string) : json :=
  typed "envoy.extensions.filters.http.rbac.v3.RBACPerRoute" [("rbac", obj [("rules", obj [
    ("action", JStr "ALLOW");
    ("policies", obj [("workspaces", obj [
      ("permissions", JArr [obj [("any", JBool true)]]);
      ("principals", JArr (principal <$> ips))])])])])].

Definition dfpCluster (name : string) : json :=
  obj [("name", JStr name); ("lb_policy", JStr "CLUSTER_PROVIDED"); ("cluster_type", obj [
    ("name", JStr "envoy.clusters.dynamic_forward_proxy");
    ("typed_config", typed "envoy.extensions.clusters.dynamic_forward_proxy.v3.ClusterConfig"
      [("dns_cache_config", dnsCache)])])].

Definition newline : string := String (chr 10) "".

Definition proxyListener (requestURL : string) : json :=
  let body := "sandcastle: egress to %REQ(:AUTHORITY)% is not allowed for this workspace." +:+ newline +:+
    "Request access: " +:+ requestURL +:+
    "?src=%DOWNSTREAM_REMOTE_ADDRESS_WITHOUT_PORT%&host=%REQ(:AUTHORITY)%" +:+ newline in
  let hcm := typed "envoy.extensions.filters.network.http_connection_manager.v3.HttpConnectionManager" [
    ("stat_prefix", JStr "egress");
    ("upgrade_configs", JArr [obj [("upgrade_type", JStr "CONNECT")]]);
    ("rds", obj [("route_config_name", JStr RouteName);
      ("config_source", obj [("ads", obj []); ("resource_api_version", JStr "V3")])]);
    ("access_log", JArr [
      obj [("name", JStr "envoy.access_loggers.stdout");
        ("typed_config", typed "envoy.extensions.access_loggers.stream.v3.StdoutAccessLog" [
          ("log_format", obj [("json_format", obj [
            ("time", JStr "%START_TIME%"); ("src", JStr "%DOWNSTREAM_REMOTE_ADDRESS_WITHOUT_PORT%");
            ("method", JStr "%REQ(:METHOD)%"); ("authority", JStr "%REQ(:AUTHORITY)%");
            ("code", JStr "%RESPONSE_CODE%"); ("flags", JStr "%RESPONSE_FLAGS%");
            ("bytes_up", JStr "%BYTES_RECEIVED%"); ("bytes_down", JStr "%BYTES_SENT%")])])])];
      obj [("name", JStr "envoy.access_loggers.http_grpc");
        ("typed_config", typed "envoy.extensions.access_loggers.grpc.v3.HttpGrpcAccessLogConfig" [
          ("common_config", obj [("log_name", JStr "egress"); ("transport_api_version", JStr "V3");
            ("grpc_service", obj [("envoy_grpc", obj [("cluster_name", JStr "admin")])])])])]]);
    ("local_reply_config", obj [("mappers", JArr [obj [
      ("filter", obj [("status_code_filter", obj [("comparison", obj [("op", JStr "EQ");
        ("value", obj [("default_value", JNum 403); ("runtime_key", JStr "sandcastle.deny")])])])]);
      ("headers_to_add", JArr [obj [("header", obj [("key", JStr "x-sandcastle-denied");
        ("value", JStr "host=%REQ(:AUTHORITY)%; source=%DOWNSTREAM_REMOTE_ADDRESS_WITHOUT_PORT%")])]]);
      ("body_format_override", obj [("text_format_source", obj [("inline_string", JStr body)])])]])]);
    ("http_filters", JArr [
      obj [("name", JStr "envoy.filters.http.rbac");
        ("typed_config", typed "envoy.extensions.filters.http.rbac.v3.RBAC"
          [("rules", obj [("action", JStr "ALLOW")])])];
      obj [("name", JStr "envoy.filters.http.dynamic_forward_proxy");
        ("typed_config", typed "envoy.extensions.filters.http.dynamic_forward_proxy.v3.FilterConfig"
          [("dns_cache_config", dnsCache)])];
      obj [("name", JStr "envoy.filters.http.router");
        ("typed_config", typed "envoy.extensions.filters.http.router.v3.Router" [])]])] in
  obj [
    ("name", JStr "proxy");
    ("address", obj [("socket_address", obj [("address", JStr "0.0.0.0"); ("port_value", JNum 3128)])]);
    ("filter_chains", JArr [obj [("filters", JArr [obj [
      ("name", JStr "envoy.filters.network.http_connection_manager"); ("typed_config", hcm)]])]])].

Definition sniListener (name host : string) : json :=
  obj [
    ("name", JStr name);
    ("internal_listener", obj []);
    ("listener_filters", JArr [obj [("name", JStr "envoy.filters.listener.tls_inspector");
      ("typed_config", typed "envoy.extensions.filters.listener.tls_inspector.v3.TlsInspector" [])]]);
    ("filter_chains", JArr [obj [
      ("filter_chain_match", obj [("server_names", strs [host])]);
      ("filters", JArr [
        obj [("name", JStr "envoy.filters.network.sni_dynamic_forward_proxy");
          ("typed_config", typed "envoy.extensions.filters.network.sni_dynamic_forward_proxy.v3.FilterConfig"
            [("port_value", JNum 443); ("dns_cache_config", dnsCache)])];
        obj [("name", JStr "envoy.filters.network.tcp_proxy");
          ("typed_config", typed "envoy.extensions.filters.network.tcp_proxy.v3.TcpProxy"
            [("stat_prefix", JStr name); ("cluster", JStr "dfp_sni")])]])]]);
    ("access_log", JArr [obj [("name", JStr "envoy.access_loggers.stdout");
      ("typed_config", typed "envoy.extensions.access_loggers.stream.v3.StdoutAccessLog" [
        ("log_format", obj [("json_format", obj [
          ("time", JStr "%START_TIME%"); ("stage", JStr "sni"); ("sni", JStr "%REQUESTED_SERVER_NAME%");
          ("flags", JStr "%RESPONSE_FLAGS%"); ("bytes_up", JStr "%BYTES_RECEIVED%");
          ("bytes_down", JStr "%BYTES_SENT%")])])])]])].

(** [int(d.Seconds())], exact for a whole number of seconds such as [tunnelMax]. *)
Definition int_Seconds (d : Z) : Z := Z.quot d Second.

Definition connect_vhost (hash host : string) (ips : list string) (tunnelMax : Z) : json :=
  let sni := "sni_" +:+ hash in
  obj [("name", JStr ("h_" +:+ hash)); ("domains", strs [host +:+ ":443"]);
    ("typed_per_filter_config", obj [("envoy.filters.http.rbac", rbacPerRoute ips)]);
    ("routes", JArr [obj [
      ("match", obj [("connect_matcher", obj [])]);
      ("route", obj [
        ("cluster", JStr sni);
        ("max_stream_duration", obj [("max_stream_duration",
          JStr (Itoa (int_Seconds tunnelMax) +:+ "s"))]);
        ("upgrade_configs", JArr [obj [("upgrade_type", JStr "CONNECT");
          ("connect_config", obj [])]])])]])].

Definition sni_cluster (sni : string) : json :=
  obj [("name", JStr sni);
    ("load_assignment", obj [("cluster_name", JStr sni); ("endpoints", JArr [obj [
      ("lb_endpoints", JArr [obj [("endpoint", obj [("address", obj [("envoy_internal_address",
        obj [("server_listener_name", JStr sni)])])])]])]])])].

Definition http_vhost (hash host : string) (ips : list string) : json :=
  obj [("name", JStr ("h_" +:+ hash)); ("domains", strs [host; host +:+ ":80"]);
    ("typed_per_filter_config", obj [("envoy.filters.http.rbac", rbacPerRoute ips)]);
    ("routes", JArr [obj [("match", obj [("prefix", JStr "/")]);
      ("route", obj [("cluster", JStr "dfp_http")])]])].

Definition deny_vhost : json :=
  obj [("name", JStr "deny"); ("domains", strs ["*"]); ("routes", JArr [
    obj [("match", obj [("connect_matcher", obj [])]); ("direct_response", obj [("status", JNum 403)])];
    obj [("match", obj [("prefix", JStr "/")]); ("direct_response", obj [("status", JNum 403)])]])].

(** The order of [sort.Slice] in [Build]. *)
Definition key_le : relation HostKey := lex_le hk_Host String.le hk_Port Z.le.

Record Resources {R : Type} := mkResources {
  rs_Listener : list R;
  rs_Cluster : list R;
  rs_Route : list R
}.
Arguments Resources : clear implicits.
Arguments mkResources {R}.

Section build.
Context `{Envoy}.

Definition hashName (k : HostKey) (ips : list string) : string :=
  hex (String.substring 0 5 (sha256 (hk_Host k +:+ "|" +:+ Itoa (hk_Port k) +:+ "|" +:+ GoLib.Join ips ","))).

(** The resources before decoding. *)
Record Draft := mkDraft { df_listeners : list json; df_clusters : list json; df_vhosts : list json }.

Definition add_host (p : Params) (d : Draft) (k : HostKey) : Draft :=
  let ips := slice_at (p_Hosts p) k in
  let hash := hashName k ips in
  if (hk_Port k =? 443)%Z then
    let sni := "sni_" +:+ hash in
    mkDraft (df_listeners d ++ [sniListener sni (hk_Host k)])
      (df_clusters d ++ [sni_cluster sni])
      (df_vhosts d ++ [connect_vhost hash (hk_Host k) ips (p_TunnelMax p)])
  else mkDraft (df_listeners d) (df_clusters d)
         (df_vhosts d ++ [http_vhost hash (hk_Host k) ips]).

Definition sorted_keys (p : Params) : list HostKey :=
  merge_sort key_le (map_to_list (p_Hosts p)).*1.

Definition draft (p : Params) : Draft :=
  let d := foldl (add_host p)
    (mkDraft [proxyListener (p_RequestURL p)] [dfpCluster "dfp_http"; dfpCluster "dfp_sni"] [])
    (sorted_keys p) in
  mkDraft (df_listeners d) (df_clusters d) (df_vhosts d ++ [deny_vhost]).

(** [json.Marshal] does not fail on these values. *)
Definition decode (type : string) (v : json) : result error Resource :=
  let? m := protojson_Unmarshal type (Marshal_json v) in
  match ValidateAll m with Some e => Err e | None => Ok m end.

Fixpoint decode_all (type what : string) (l : list json) : result error (list Resource) :=
  match l with
  | [] => Ok []
  | j :: l =>
      match decode type j with
      | Err e => Err (EWrap (what +:+ " " +:+ jstr_at ["name"] j) e)
      | Ok m => let? ms := decode_all type what l in Ok (m :: ms)
      end
  end.

Definition route_config (vhosts : list json) : json :=
  obj [("name", JStr RouteName); ("virtual_hosts", JArr vhosts)].

Definition Build (p : Params) : result error (Resources Resource) :=
  if ContainsByte (p_RequestURL p) "%" then Err (EMsg "request URL must not contain %") else
  let d := draft p in
  let? ls := decode_all "listener" "listener" (df_listeners d) in
  let? cs := decode_all "cluster" "cluster" (df_clusters d) in
  match decode "route" (route_config (df_vhosts d)) with
  | Err e => Err (EWrap "route" e)
  | Ok rc => Ok (mkResources ls cs [rc])
  end.
End build.

(** ** server.go *)

(** What the code reads of an [HTTPAccessLogEntry]. *)
Record LogEntry := mkLogEntry {
  le_ResponseCode : Z;
  le_RemoteAddress : string;
  le_Authority : string
}.

Record Denial := mkDenial { dn_SrcIP : string; dn_Host : string; dn_Port : Z }.

(** [host, port := host, 80], replaced when the host splits and its port is a number. *)
Definition denial_target (host : string) : string * Z :=
  match SplitHostPort host with
  | Some (h, p) => let '(n, ok) := Atoi p in if ok then (h, n) else (host, 80%Z)
  | None => (host, 80%Z)
  end.

Section server.
Context `{Unicode}.

Definition denial (e : LogEntry) : option Denial :=
  if negb (le_ResponseCode e =? 403)%Z then None else
  let ip := le_RemoteAddress e in
  let host := ToLower (le_Authority e) in
  let '(host, port) := denial_target host in
  if (ip =? "")%string || negb (ValidName host) then None
  else Some (mkDenial ip host port).

Definition io_EOF : error := ESentinel "EOF".

(** The receive loop, on what the stream delivers; [OnDenial] acts on a state. [None]
is the stream that has not ended yet. *)
Fixpoint StreamAccessLogs {A} (OnDenial : option (Denial → A → A))
    (recv : list (result error (list LogEntry))) (a : A) : option (option error) * A :=
  match recv with
  | [] => (None, a)
  | Err e :: _ => (Some (if errors_Is e "EOF" then None else Some e), a)
  | Ok entries :: recv =>
      StreamAccessLogs OnDenial recv
        (foldl (λ a e, match denial e, OnDenial with Some d, Some f => f d a | _, _ => a end)
           a entries)
  end.
End server.

(** go-control-plane's snapshot cache. *)
Class SnapshotCache (R C : Type) := {
  Snapshot : Type;
  NewSnapshot : string → Resources R → result error Snapshot;
  Consistent : Snapshot → option error;
  SetSnapshot : string → Snapshot → C → option error * C
}.

(** What is relied on: after [SetSnapshot] without error the node is served the snapshot's
resources, which are those it was made of. *)
Class SnapshotCacheLaws (R C : Type) `{SnapshotCache R C} := {
  resources_of : Snapshot → Resources R;
  served : string → C → option (Resources R);
  NewSnapshot_law v res snap : NewSnapshot v res = Ok snap → resources_of snap = res;
  SetSnapshot_law node snap c c' :
    SetSnapshot node snap c = (None, c') → served node c' = Some (resources_of snap)
}.

Record Server (C : Type) := mkServer { sv_cache : C; sv_version : Z }.
Arguments mkServer {C}.
Arguments sv_cache {C}.
Arguments sv_version {C}.

(** [c0] is the empty snapshot cache. *)
Definition NewServer {C : Type} (c0 : C) : Server C := mkServer c0 0.

Definition two64 : Z := (2 ^ 64)%Z.

Definition Push {R C} `{SnapshotCache R C} (res : Resources R) (s : Server C)
    : option error * Server C :=
  let v := ((sv_version s + 1) mod two64)%Z in
  let s := mkServer (sv_cache s) v in
  match NewSnapshot (print_nat v) res with
  | Err e => (Some e, s)
  | Ok snap =>
      match Consistent snap with
      | Some e => (Some e, s)
      | None =>
          let '(e, c) := SetSnapshot NodeID snap (sv_cache s) in (e, mkServer c v)
      end
  end.

(** ** The drafts in closed form *)
Section draft_facts.
Context `{Envoy}.

Definition vhost_of (p : Params) (k : HostKey) : json :=
  let ips := slice_at (p_Hosts p) k in
  if (hk_Port k =? 443)%Z then connect_vhost (hashName k ips) (hk_Host k) ips (p_TunnelMax p)
  else http_vhost (hashName k ips) (hk_Host k) ips.

Definition sni_of (p : Params) (k : HostKey) : string :=
  "sni_" +:+ hashName k (slice_at (p_Hosts p) k).

Definition tls_keys (ks : list HostKey) : list HostKey := filter (λ k, hk_Port k = 443%Z) ks.

Lemma add_hosts p ks d :
  foldl (add_host p) d ks =
  mkDraft (df_listeners d ++ ((λ k, sniListener (sni_of p k) (hk_Host k)) <$> tls_keys ks))
    (df_clusters d ++ ((λ k, sni_cluster (sni_of p k)) <$> tls_keys ks))
    (df_vhosts d ++ (vhost_of p <$> ks)).
Proof.
  revert d. induction ks as [|k ks IH]; intros [ls cs vs]; csimpl.
  { by rewrite !app_nil_r. }
  rewrite IH. unfold add_host, vhost_of, sni_of, tls_keys.
  destruct (Z.eqb_spec (hk_Port k) 443) as [E|E]; simpl.
  - rewrite filter_cons_True by done. csimpl. by rewrite <- !app_assoc.
  - rewrite filter_cons_False by done. by rewrite <- app_assoc.
Qed.

Lemma draft_eq p :
  draft p = mkDraft
    (proxyListener (p_RequestURL p) ::
      ((λ k, sniListener (sni_of p k) (hk_Host k)) <$> tls_keys (sorted_keys p)))
    ([dfpCluster "dfp_http"; dfpCluster "dfp_sni"] ++
      ((λ k, sni_cluster (sni_of p k)) <$> tls_keys (sorted_keys p)))
    ((vhost_of p <$> sorted_keys p) ++ [deny_vhost]).
Proof. unfold draft. by rewrite add_hosts. Qed.

Lemma elem_of_sorted_keys p k : k ∈ sorted_keys p ↔ k ∈ dom (p_Hosts p).
Proof.
  unfold sorted_keys. rewrite elem_of_merge_sort, list_elem_of_fmap, elem_of_dom. split.
  - intros ([k' v] & -> & Hk%elem_of_map_to_list). eauto.
  - intros [v Hv]. exists (k, v). by rewrite elem_of_map_to_list.
Qed.

(** Only the proxy is named so. *)
Lemma filter_proxy p url ks :
  List.filter (λ l, resource_name l =? "proxy")%string
    (proxyListener url :: ((λ k, sniListener (sni_of p k) (hk_Host k)) <$> ks)) = [proxyListener url].
Proof.
  assert (∀ ks, List.filter (λ l, resource_name l =? "proxy")%string
    ((λ k, sniListener (sni_of p k) (hk_Host k)) <$> ks) = []) as Hno.
  { intros l. induction l as [|k l IH]; [done|]. exact IH. }
  change (proxyListener url :: List.filter (λ l, resource_name l =? "proxy")%string
    ((λ k, sniListener (sni_of p k) (hk_Host k)) <$> ks) = [proxyListener url]). by rewrite Hno.
Qed.

Lemma NoDup_sorted_keys p : NoDup (sorted_keys p).
Proof. apply NoDup_merge_sort, NoDup_fst_map_to_list. Qed.
End draft_facts.

(** ** Domains and authorities *)

(** The port part of an authority for a port; plain HTTP may leave it out. *)
Definition port_suffixes (port : Z) : list string :=
  if (port =? 443)%Z then [":443"] else [""; ":80"].

Lemma colon_split x y s t :
  ContainsByte x ":" = false → ContainsByte y ":" = false →
  x +:+ String ":" s = y +:+ String ":" t → x = y ∧ s = t.
Proof.
  intros Hx Hy Heq.
  assert (CutByte (x +:+ String ":" s) ":" = Some (x, s)) as E1 by by apply CutByte_spec.
  assert (CutByte (y +:+ String ":" t) ":" = Some (y, t)) as E2 by by apply CutByte_spec.
  rewrite Heq, E2 in E1. by injection E1 as -> ->.
Qed.

(** No port part contains a dot, and each is empty or a colon and digits. *)
Lemma port_suffixes_shape port s :
  s ∈ port_suffixes port →
  s = "" ∨ ∃ t, s = String ":" t ∧ ContainsByte t ":" = false ∧ ContainsByte t "." = false.
Proof.
  unfold port_suffixes. destruct (port =? 443)%Z; intros Hs;
    repeat (apply elem_of_cons in Hs as [->|Hs]); try (by apply elem_of_nil in Hs);
    first [by left|right; by eexists].
Qed.

Lemma split_authority x y s t p q :
  s ∈ port_suffixes p → t ∈ port_suffixes q →
  ContainsByte x ":" = false → ContainsByte y ":" = false →
  x +:+ s = y +:+ t → x = y ∧ s = t.
Proof.
  intros Hs%port_suffixes_shape Ht%port_suffixes_shape Hx Hy Heq.
  destruct Hs as [->|(s' & -> & _)], Ht as [->|(t' & -> & _)].
  - by rewrite !string_app_nil_r in Heq.
  - rewrite string_app_nil_r in Heq. subst x. by rewrite ContainsByte_app, orb_comm in Hx.
  - rewrite string_app_nil_r in Heq. subst y. by rewrite ContainsByte_app, orb_comm in Hy.
  - by destruct (colon_split _ _ _ _ Hx Hy Heq) as [-> ->].
Qed.

Lemma ValidName_no_colon s : ValidName s = true → ContainsByte s ":" = false.
Proof.
  intros (t & c & u & Hs & _ & _ & Hb)%ValidName_shape.
  assert (ContainsByte t ":" = false) as Ht.
  { rewrite ContainsByte_forall. apply negb_false_iff. eapply string_forall_impl; [|exact Hb].
    intros d Hd. destruct (Ascii.eqb_spec d ":") as [->|]; [|done]. by vm_compute in Hd. }
  destruct Hs as [->| ->]; [done|]. by rewrite ContainsByte_app.
Qed.

(** The domain of a key matches the authority of a plain host exactly when the port
parts agree and the key serves the host. *)
Lemma domain_serves_key k h s t p q :
  ValidName (hk_Host k) = true → ContainsByte h ":" = false →
  s ∈ port_suffixes p → t ∈ port_suffixes q →
  domain_serves (hk_Host k +:+ s) (h +:+ t) ↔ s = t ∧ serves k h.
Proof.
  intros Hv Hh Hs Ht. pose proof (ValidName_no_colon _ Hv) as Hk. split.
  - intros [Heq|(suf & pre & Ek & Ea & Hpre)].
    + destruct (split_authority _ _ _ _ p q Hs Ht Hk Hh Heq) as [E ->]. split; [done|by left].
    + assert (∃ hs, hk_Host k = "*" +:+ String "." hs ∧ suf = String "." hs +:+ s) as (hs & Ehs & ->).
      { destruct (hk_Host k) as [|c host] eqn:E; [by vm_compute in Hv|]. ssimp.
        destruct (ValidName_wildcard host) as (u & -> & _); [by ssimp|]. exists u. by ssimp. }
      assert (ContainsByte pre ":" = false) as Hpc.
      { apply not_true_is_false. intros Hp. destruct (CutByte pre ":") as [[p1 p2]|] eqn:Ec;
          [|apply CutByte_None in Ec; congruence].
        apply CutByte_spec in Ec as [-> Hp1].
        apply port_suffixes_shape in Ht as [->|(t' & -> & _ & Hdot)].
        - rewrite string_app_nil_r in Ea. subst h. rewrite !ContainsByte_app in Hh.
          rewrite ContainsByte_cons in Hh. by rewrite orb_true_r in Hh.
        - rewrite <- string_app_assoc in Ea. rewrite (string_app_cons ":") in Ea.
          destruct (colon_split _ _ _ _ Hh Hp1 Ea) as [_ ->].
          rewrite !ContainsByte_app in Hdot. rewrite ContainsByte_cons in Hdot. simpl in Hdot.
          by rewrite orb_true_r in Hdot. }
      rewrite string_app_assoc in Ea.
      assert (ContainsByte (pre +:+ String "." hs) ":" = false) as Hph.
      { rewrite ContainsByte_app, Hpc. rewrite Ehs, ContainsByte_app in Hk. done. }
      symmetry in Ea. destruct (split_authority _ _ _ _ p q Hs Ht Hph Hh Ea) as [<- ->].
      split; [done|]. right. eauto.
  - intros [-> [->|(suf & pre & Ek & -> & Hpre)]]; [by left|]. right.
    exists (suf +:+ t), pre. by rewrite Ek, !string_app_assoc.
Qed.

Section routes.
Context `{Envoy}.

Lemma domains_vhost p k :
  domains (vhost_of p k) = (λ s, hk_Host k +:+ s) <$> port_suffixes (hk_Port k).
Proof.
  unfold vhost_of, port_suffixes. destruct (hk_Port k =? 443)%Z; [done|].
  unfold domains. simpl. by rewrite string_app_nil_r.
Qed.

(** *** The filters of the proxy *)
Lemma proxy_filters p :
  http_filters (df_listeners (draft p)) = [
    obj [("name", JStr "envoy.filters.http.rbac");
      ("typed_config", typed "envoy.extensions.filters.http.rbac.v3.RBAC"
        [("rules", obj [("action", JStr "ALLOW")])])];
    obj [("name", JStr "envoy.filters.http.dynamic_forward_proxy");
      ("typed_config", typed "envoy.extensions.filters.http.dynamic_forward_proxy.v3.FilterConfig"
        [("dns_cache_config", dnsCache)])];
    obj [("name", JStr "envoy.filters.http.router");
      ("typed_config", typed "envoy.extensions.filters.http.router.v3.Router" [])]].
Proof.
  rewrite draft_eq. cbn [df_listeners]. unfold http_filters. rewrite filter_proxy.
  reflexivity.
Qed.

(** The RBAC filter decides by the override, or by its own rules, which no policy matches. *)
Lemma answer_rbac p v q :
  answer (df_listeners (draft p)) v q =
  if match per_route "envoy.filters.http.rbac" v (find_route v q) with
     | Some c => rbac_allows (qy_src q)
         (match jpath ["rbac"] c with Some b => jpath ["rules"] b | None => None end)
     | None => false
     end
  then route_action (find_route v q) else Answered 403.
Proof.
  unfold answer. rewrite proxy_filters. generalize (find_route v q) as r. intros r.
  change (run_filters _ v r (qy_src q)) with
    (if rbac_allows (qy_src q)
        (match per_route "envoy.filters.http.rbac" v r with
         | Some c => match jpath ["rbac"] c with Some b => jpath ["rules"] b | None => None end
         | None => Some (obj [("action", JStr "ALLOW")])
         end)
     then route_action r else Answered 403).
  by destruct (per_route _ v r).
Qed.

(** The override made for a list of addresses admits exactly these. *)
Lemma rbac_ips src ips :
  rbac_allows src (jpath ["rbac"; "rules"] (rbacPerRoute ips)) = true ↔
  ∃ ip, ip ∈ ips ∧ parse_ipv4 ip = Some src.
Proof.
  assert (rbac_allows src (jpath ["rbac"; "rules"] (rbacPerRoute ips)) =
    existsb (principal_matches src) (principal <$> ips)) as ->.
  { simpl. by rewrite orb_false_r. }
  rewrite existsb_exists. setoid_rewrite <- list_elem_of_In. setoid_rewrite list_elem_of_fmap.
  assert (∀ ip, principal_matches src (principal ip) = true ↔ parse_ipv4 ip = Some src) as Hp.
  { intros ip. unfold principal_matches, in_cidr. cbn -[Z.shiftr Z.eqb Z.leb parse_ipv4 jstr_at].
    change (jstr_at ["address_prefix"] _) with ip. destruct (parse_ipv4 ip) as [a|]; [|done].
    change ((Z.shiftr a 0 =? Z.shiftr src 0)%Z = true ↔ Some a = Some src).
    rewrite !Z.shiftr_0_r, Z.eqb_eq. naive_solver. }
  split.
  - intros (j & (ip & -> & Hip) & Hm). exists ip. by rewrite <- Hp.
  - intros (ip & Hip & Hm). exists (principal ip). split; [eauto|]. by apply Hp.
Qed.

(** What Envoy answers at the virtual host of a key: a CONNECT where the port is 443, any
other request with a path where it is 80, is forwarded if the source is in the key's list. *)
Lemma answer_vhost p k q :
  (qy_connect q = false → HasPrefix (qy_path q) "/" = true) →
  answer (df_listeners (draft p)) (vhost_of p k) q =
  if Bool.eqb (qy_connect q) (hk_Port k =? 443)%Z &&
     rbac_allows (qy_src q) (jpath ["rbac"; "rules"] (rbacPerRoute (slice_at (p_Hosts p) k)))
  then Forwarded (if (hk_Port k =? 443)%Z then sni_of p k else "dfp_http") else Answered 403.
Proof.
  intros Hpath. rewrite answer_rbac. unfold vhost_of, sni_of.
  destruct (hk_Port k =? 443)%Z; destruct q as [[] path src]; simpl in Hpath; try done.
  assert (find_route (http_vhost (hashName k (slice_at (p_Hosts p) k)) (hk_Host k) (slice_at (p_Hosts p) k))
    (mkQuery false path src) = Some (obj [("match", obj [("prefix", JStr "/")]);
      ("route", obj [("cluster", JStr "dfp_http")])])) as ->; [|done].
  unfold find_route, route_matches. simpl. by rewrite Hpath.
Qed.

Lemma answer_deny p q : answer (df_listeners (draft p)) deny_vhost q = Answered 403.
Proof.
  rewrite answer_rbac. unfold find_route. simpl.
  destruct (route_matches q _); [done|]. by destruct (route_matches q _).
Qed.

Definition valid_hosts (hosts : gmap HostKey (list string)) : Prop :=
  ∀ k, k ∈ dom hosts → ValidName (hk_Host k) = true ∧ (hk_Port k = 443 ∨ hk_Port k = 80)%Z.

Lemma elem_of_vhosts p v :
  v ∈ df_vhosts (draft p) ↔ (∃ k, k ∈ dom (p_Hosts p) ∧ v = vhost_of p k) ∨ v = deny_vhost.
Proof.
  rewrite draft_eq. simpl. rewrite elem_of_app, list_elem_of_fmap, list_elem_of_singleton.
  setoid_rewrite elem_of_sorted_keys. naive_solver.
Qed.

Lemma port_suffixes_inj p q s :
  s ∈ port_suffixes p → s ∈ port_suffixes q → (p = 443 ∨ p = 80)%Z → (q = 443 ∨ q = 80)%Z → p = q.
Proof. intros Hp Hq [-> | ->] [-> | ->]; simpl in *; set_solver. Qed.

Lemma star_not_authority h s port :
  ContainsByte h "*" = false → (port = 443 ∨ port = 80)%Z → s ∈ port_suffixes port → "*" ≠ h +:+ s.
Proof.
  intros Hstar Hport Hs Heq. assert (ContainsByte (h +:+ s) "*" = true) as Hc by by rewrite <- Heq.
  rewrite ContainsByte_app, Hstar in Hc. simpl in Hc.
  destruct Hport as [-> | ->]; simpl in Hs; set_solver.
Qed.

Section authority.
Context (p : Params) (h s : string) (port : Z).
Context (Hvalid : valid_hosts (p_Hosts p)) (Hstar : ContainsByte h "*" = false).
Context (Hcolon : ContainsByte h ":" = false) (Hport : (port = 443 ∨ port = 80)%Z).
Context (Hs : s ∈ port_suffixes port).

Lemma domain_serves_authority k d :
  k ∈ dom (p_Hosts p) → d ∈ domains (vhost_of p k) →
  domain_serves d (h +:+ s) ↔ d = hk_Host k +:+ s ∧ hk_Port k = port ∧ serves k h.
Proof.
  intros Hk. destruct (Hvalid k Hk) as [Hv Hp]. rewrite domains_vhost.
  intros (s' & -> & Hs')%list_elem_of_fmap.
  rewrite (domain_serves_key k h s' s (hk_Port k) port) by done. split.
  - intros [-> Hserve]. split_and!; [done| |done]. by eapply port_suffixes_inj.
  - intros (Heq & _ & ?). split; [|done].
    by destruct (split_authority _ _ _ _ _ _ Hs' Hs (ValidName_no_colon _ Hv)
      (ValidName_no_colon _ Hv) Heq).
Qed.

Lemma authority_domain k :
  hk_Port k = port → hk_Host k +:+ s ∈ domains (vhost_of p k).
Proof. intros <-. rewrite domains_vhost. apply list_elem_of_fmap. eauto. Qed.

(** The virtual host of a key is picked exactly when the key is the most specific. *)
Lemma picks_key k :
  k ∈ dom (p_Hosts p) →
  picks (df_vhosts (draft p)) (h +:+ s) (vhost_of p k) ↔ most_specific (p_Hosts p) h port k.
Proof.
  intros Hk. split.
  - intros (_ & d & Hd & Hserve & Hbest).
    apply (domain_serves_authority k d Hk Hd) in Hserve as (-> & Hp & Hserve).
    split_and!; [done..|]. destruct Hbest as [Heq|Hbest].
    + left. by apply string_app_inv_r in Heq.
    + right. intros k' Hk' Hp' Hserve'.
      destruct (Hbest (vhost_of p k') (hk_Host k' +:+ s)) as [Hne Hlen].
      * apply elem_of_vhosts. eauto.
      * by apply authority_domain.
      * apply (domain_serves_authority k'); [done|by apply authority_domain|done].
      * split; [congruence|]. rewrite !string_length_app in Hlen. lia.
  - intros (_ & Hp & Hserve & Hbest). split; [apply elem_of_vhosts; eauto|].
    exists (hk_Host k +:+ s). split_and!; [by apply authority_domain| |].
    { apply (domain_serves_authority k); [done|by apply authority_domain|done]. }
    destruct Hbest as [->|Hbest]; [by left|right].
    intros v' d' [(k' & Hk' & ->)| ->]%elem_of_vhosts Hd' Hserve'.
    + apply (domain_serves_authority k' d' Hk' Hd') in Hserve' as (-> & Hp' & Hserve').
      destruct (Hbest k' Hk' Hp' Hserve') as [Hne Hlen]. rewrite !string_length_app.
      split; [|lia]. intros Heq. apply Hne. by apply string_app_inv_r in Heq.
    + change (d' ∈ ["*"]) in Hd'. apply list_elem_of_singleton in Hd' as ->. split.
      * by apply (star_not_authority h s port).
      * destruct (Hvalid k Hk) as [Hv _]. destruct (hk_Host k); [by vm_compute in Hv|].
        rewrite string_app_cons. simpl. lia.
Qed.

(** Otherwise the catch-all is picked. *)
Lemma picks_deny :
  (¬ ∃ k, k ∈ dom (p_Hosts p) ∧ hk_Port k = port ∧ serves k h) → h ≠ "" →
  picks (df_vhosts (draft p)) (h +:+ s) deny_vhost.
Proof.
  intros Hno Hh. split; [apply elem_of_vhosts; by right|]. exists "*".
  split_and!; [by left| |].
  - right. exists "", (h +:+ s). split_and!; [done|by rewrite string_app_nil_r|].
    by destruct h.
  - right. intros v' d' [(k' & Hk' & ->)| ->]%elem_of_vhosts Hd' Hserve'.
    + apply (domain_serves_authority k' d' Hk' Hd') in Hserve' as (-> & Hp' & Hserve').
      exfalso. eauto.
    + change (d' ∈ ["*"]) in Hd'. apply list_elem_of_singleton in Hd' as ->. split; [|done].
      by apply (star_not_authority h s port).
Qed.
End authority.
End routes.

Section claims.
Context `{Envoy}.

Lemma HostIPs_valid_hosts inp : valid_hosts (HostIPs inp).
Proof. intros k. apply dom_HostIPs_valid. Qed.

Lemma ValidName_length n : ValidName n = true → 2 ≤ String.length n.
Proof.
  intros [_ (star & [|l ls] & tld & Hne & Hl & [Ht _] & ->)]%ValidName_pattern; [done|].
  csimpl. rewrite !string_length_app. apply Forall_cons in Hl as [[Hll _] _]. simpl. lia.
Qed.

(** Some virtual host is always picked. *)
Lemma picks_exists inp url tmax h s port :
  h ≠ "" → ContainsByte h "*" = false → ContainsByte h ":" = false →
  (port = 443 ∨ port = 80)%Z → s ∈ port_suffixes port →
  ∃ v, picks (df_vhosts (draft (mkParams (HostIPs inp) url tmax))) (h +:+ s) v.
Proof.
  intros Hne Hstar Hcolon Hport Hs. pose proof (HostIPs_valid_hosts inp) as Hvalid.
  set (p := mkParams (HostIPs inp) url tmax).
  destruct (decide (Exists (λ k, hk_Port k = port ∧ serves k h) (elements (dom (HostIPs inp)))))
    as [(k & Hk & Hp & Hserve)%Exists_exists|Hno].
  - apply elem_of_elements in Hk.
    destruct (most_specific_exists (HostIPs inp) h port k Hk Hp Hserve) as [k' Hms].
    exists (vhost_of p k'). by apply (picks_key p h s port); [..|apply Hms|].
  - exists deny_vhost. apply (picks_deny p h s port); try done.
    intros (k & Hk & Hp & Hserve). apply Hno, Exists_exists. exists k.
    by rewrite elem_of_elements.
Qed.

(** The one picked forwards what the table allows. *)
Lemma picks_answer inp url tmax h s port v q :
  ContainsByte h "*" = false → ContainsByte h ":" = false →
  (port = 443 ∨ port = 80)%Z → s ∈ port_suffixes port →
  (qy_connect q = false → HasPrefix (qy_path q) "/" = true) →
  let d := draft (mkParams (HostIPs inp) url tmax) in
  picks (df_vhosts d) (h +:+ s) v →
  ((∃ c, answer (df_listeners d) v q = Forwarded c) ↔
    qy_connect q = (port =? 443)%Z ∧
    ∃ ip, table_allows (HostIPs inp) h port ip ∧ parse_ipv4 ip = Some (qy_src q)) ∧
  ((∃ c, answer (df_listeners d) v q = Forwarded c) ∨ answer (df_listeners d) v q = Answered 403).
Proof.
  intros Hstar Hcolon Hport Hs Hpath d Hv. pose proof (HostIPs_valid_hosts inp) as Hvalid. unfold d in *.
  set (p := mkParams (HostIPs inp) url tmax) in *. clear d.
  pose proof (proj1 Hv) as [(k & Hk & ->)| ->]%elem_of_vhosts.
  - apply (picks_key p h s port Hvalid) in Hv; [|done..]. rewrite (answer_vhost p k q Hpath).
    pose proof Hv as (_ & Hp & _). rewrite Hp.
    destruct (Bool.eqb_spec (qy_connect q) (port =? 443)%Z) as [Hc|Hc]; cbn [andb];
      [|split; [split; [by intros []|by intros [? _]]|by right]].
    assert (rbac_allows (qy_src q) (jpath ["rbac"; "rules"] (rbacPerRoute (slice_at (p_Hosts p) k))) = true ↔
      ∃ ip, table_allows (HostIPs inp) h port ip ∧ parse_ipv4 ip = Some (qy_src q)) as Hiff.
    { rewrite rbac_ips. f_equiv. intros ip. f_equiv. unfold slice_at. simpl in Hk |- *.
      apply elem_of_dom in Hk as [ips Hips]. rewrite Hips. simpl. split.
      - intros Hip. by exists k, ips.
      - intros (k' & ips' & Hms & Hk' & Hip).
        rewrite (most_specific_unique _ _ _ _ _ Hms Hv) in Hk'. congruence. }
    destruct (rbac_allows _ _).
    + split; [|by left; eexists]. split; [|by eexists]. intros _. split; [done|]. by apply Hiff.
    + split; [|by right]. split; [by intros []|]. by intros [_ ?%Hiff].
  - rewrite answer_deny. split; [|by right]. split; [by intros []|].
    intros (_ & ip & (k & ips & Hms & Hk & Hip) & _). exfalso.
    destruct Hv as (_ & d & Hd & _ & Hbest). change (d ∈ ["*"]) in Hd.
    apply list_elem_of_singleton in Hd as ->. pose proof Hms as (Hkd & Hp & Hserve & _).
    destruct Hbest as [Heq|Hbest]; [by apply (star_not_authority h s port) in Heq|].
    destruct (Hbest (vhost_of p k) (hk_Host k +:+ s)) as [_ Hlen].
    + apply elem_of_vhosts. eauto.
    + by apply (authority_domain p s port).
    + apply (domain_serves_authority p h s port Hvalid Hcolon Hport Hs k); [done| |done].
      by apply (authority_domain p s port).
    + destruct (Hvalid k Hkd) as [Hvn%ValidName_length _].
      rewrite string_length_app in Hlen. simpl in Hlen. lia.
Qed.


(** [C37] A TLS tunnel is bound to the host name it was asked for. Whenever Envoy forwards a
CONNECT at a virtual host of the configuration, that virtual host is for one host name at
port 443, the cluster it forwards to exists, and every cluster of that name leads to one
internal listener, which exists, takes a handshake only for that host name, and dials port
443. This holds as long as the truncated hashes of two of the TLS hosts do not collide. *)
Theorem tls_bound_to_host p v q c :
  (∀ k k', k ∈ dom (p_Hosts p) → k' ∈ dom (p_Hosts p) → hk_Port k = 443%Z → hk_Port k' = 443%Z →
    hashName k (slice_at (p_Hosts p) k) = hashName k' (slice_at (p_Hosts p) k') → k = k') →
  v ∈ df_vhosts (draft p) → qy_connect q = true → answer (df_listeners (draft p)) v q = Forwarded c →
  ∃ host, domains v = [host +:+ ":443"] ∧
    (∃ cl, cl ∈ df_clusters (draft p) ∧ resource_name cl = c) ∧
    ∀ cl, cl ∈ df_clusters (draft p) → resource_name cl = c →
      ∃ name, cluster_listeners cl = [name] ∧
        (∃ l, l ∈ df_listeners (draft p) ∧ resource_name l = name) ∧
        ∀ l, l ∈ df_listeners (draft p) → resource_name l = name →
          accepted_names l = [host] ∧ dialled_ports l = [443%Z].
Proof.
  intros Hinj [(k & Hk & ->)| ->]%elem_of_vhosts Hq Ha; [|by rewrite answer_deny in Ha].
  rewrite answer_vhost in Ha by congruence. rewrite Hq in Ha.
  destruct (Z.eqb_spec (hk_Port k) 443) as [Hp|Hp]; [|done]. cbn [Bool.eqb andb] in Ha.
  destruct (rbac_allows _ _); [|done]. injection Ha as <-.
  assert (k ∈ tls_keys (sorted_keys p)) as Hin.
  { apply list_elem_of_filter. by rewrite elem_of_sorted_keys. }
  assert (∀ k', k' ∈ tls_keys (sorted_keys p) → sni_of p k' = sni_of p k → k' = k) as Huniq.
  { intros k' [Hp' Hk'%elem_of_sorted_keys]%list_elem_of_filter Hn. unfold sni_of in Hn. ssimp. eauto. }
  exists (hk_Host k). rewrite draft_eq. cbn [df_clusters df_listeners]. split_and!.
  - rewrite domains_vhost. unfold port_suffixes. by rewrite Hp.
  - exists (sni_cluster (sni_of p k)). split; [|done].
    apply elem_of_app. right. apply list_elem_of_fmap. eauto.
  - intros cl [Hcl|(k' & -> & Hk')%list_elem_of_fmap]%elem_of_app Hn.
    { repeat (apply elem_of_cons in Hcl as [->|Hcl]; [by vm_compute in Hn|]). by apply elem_of_nil in Hcl. }
    change (sni_of p k' = sni_of p k) in Hn. apply Huniq in Hn as ->; [|done].
    exists (sni_of p k). split_and!; [done| |].
    + exists (sniListener (sni_of p k) (hk_Host k)). split; [|done].
      apply elem_of_cons. right. apply list_elem_of_fmap. by exists k.
    + intros l [->|(k'' & -> & Hk'')%list_elem_of_fmap]%elem_of_cons Hl; [done|].
      change (sni_of p k'' = sni_of p k) in Hl. by apply Huniq in Hl as ->.
Qed.

(** Rebuilding never disturbs the proxy listener: it depends on the request URL only,
is the first listener of every build, and every other listener is a per-host one. *)
Theorem proxy_listener_stable p :
  ∃ rest, df_listeners (draft p) = proxyListener (p_RequestURL p) :: rest ∧
    ∀ l, l ∈ rest → HasPrefix (resource_name l) "sni_" = true.
Proof.
  rewrite draft_eq. eexists. split; [reflexivity|].
  intros l (k & -> & _)%list_elem_of_fmap. change (HasPrefix (sni_of p k) "sni_" = true).
  apply HasPrefix_spec. by eexists.
Qed.

Lemma decode_all_Ok type what l rs :
  decode_all type what l = Ok rs ↔ Forall2 (λ j r, decode type j = Ok r) l rs.
Proof.
  revert rs. induction l as [|j l IH]; intros rs; simpl.
  { split; [intros [= <-]; constructor|by inversion 1]. }
  destruct (decode type j) as [r|e] eqn:E.
  - split.
    + intros (ms & Hms & [= <-])%result_bind_Ok. constructor; [done|]. by apply IH.
    + inversion 1 as [|? r' ? ms Hr Hms]; simplify_eq. apply IH in Hms.
      rewrite Hms. simpl. congruence.
  - split; [done|]. inversion 1; congruence.
Qed.

(** [Build] succeeds exactly when the request URL has no percent sign and Envoy's types
accept every resource, and then returns the decoded listeners, clusters and the one route
configuration, in order: nothing is dropped and nothing partial is returned. *)
Theorem Build_spec p res :
  Build p = Ok res ↔
  ContainsByte (p_RequestURL p) "%" = false ∧
  Forall2 (λ j r, decode "listener" j = Ok r) (df_listeners (draft p)) (rs_Listener res) ∧
  Forall2 (λ j r, decode "cluster" j = Ok r) (df_clusters (draft p)) (rs_Cluster res) ∧
  ∃ rc, decode "route" (route_config (df_vhosts (draft p))) = Ok rc ∧ rs_Route res = [rc].
Proof.
  unfold Build. rewrite <- (decode_all_Ok "listener" "listener"), <- (decode_all_Ok "cluster" "cluster").
  destruct (ContainsByte (p_RequestURL p) "%"); [split; [done|by intros [? _]]|]. cbv zeta.
  generalize (draft p) as d. intros d.
  destruct (decode_all "listener" "listener" (df_listeners d)) as [ls|e]; simpl;
    [|split; [done|by intros (_ & ? & _)]].
  destruct (decode_all "cluster" "cluster" (df_clusters d)) as [cs|e]; simpl;
    [|split; [done|by intros (_ & _ & ? & _)]].
  destruct (decode "route" _) as [rc|e]; [|split; [done|by intros (_ & _ & _ & ? & ? & _)]].
  destruct res as [ls' cs' rs']; simpl. split.
  - intros [= <- <- <-]. split_and!; [done..|]. by exists rc.
  - by intros (_ & [= <-] & [= <-] & rc' & [= <-] & ->).
Qed.

(** The domains of different keys differ. *)
Lemma domains_disjoint p k k' d :
  valid_hosts (p_Hosts p) → k ∈ dom (p_Hosts p) → k' ∈ dom (p_Hosts p) →
  d ∈ domains (vhost_of p k) → d ∈ domains (vhost_of p k') → k = k'.
Proof.
  intros Hv Hk Hk'. rewrite !domains_vhost.
  intros (s & -> & Hs)%list_elem_of_fmap (s' & Heq & Hs')%list_elem_of_fmap.
  destruct (Hv k Hk) as [Hn Hp], (Hv k' Hk') as [Hn' Hp'].
  destruct (split_authority _ _ _ _ _ _ Hs Hs' (ValidName_no_colon _ Hn) (ValidName_no_colon _ Hn') Heq)
    as [E ->].
  pose proof (port_suffixes_inj _ _ _ Hs Hs' Hp Hp'). destruct k, k'; simpl in *; congruence.
Qed.

(** [C38] No domain occurs twice in the route configuration, within a virtual host or across
two of them (Envoy rejects the whole configuration otherwise). *)
Theorem domains_unique inp url tmax :
  NoDup (df_vhosts (draft (mkParams (HostIPs inp) url tmax)) ≫= domains).
Proof.
  set (p := mkParams (HostIPs inp) url tmax). rewrite draft_eq. cbn [df_vhosts].
  pose proof (HostIPs_valid_hosts inp) as Hv.
  rewrite bind_app, list_fmap_bind. apply NoDup_app. split_and!; [| |repeat constructor; set_solver].
  - apply NoDup_bind; [| |apply NoDup_sorted_keys].
    + intros k k' d Hk Hk' Hd Hd'. rewrite elem_of_sorted_keys in Hk, Hk'.
      by eapply (domains_disjoint p).
    + intros k Hk. simpl. rewrite elem_of_sorted_keys in Hk. rewrite domains_vhost.
      apply NoDup_fmap_2_strong; [|unfold port_suffixes; case_match; repeat constructor; set_solver].
      intros s s' Hs Hs' Heq. destruct (Hv k Hk) as [Hn%ValidName_no_colon _].
      by destruct (split_authority _ _ _ _ _ _ Hs Hs' Hn Hn Heq).
  - intros d (k & Hd & Hk)%list_elem_of_bind Hstar. simpl in Hd. rewrite domains_vhost in Hd.
    rewrite elem_of_sorted_keys in Hk. destruct (Hv k Hk) as [Hn%ValidName_length _].
    change (d ∈ ["*"]) in Hstar. apply list_elem_of_singleton in Hstar as ->.
    apply list_elem_of_fmap in Hd as (s & Heq & _).
    apply (f_equal String.length) in Heq. rewrite string_length_app in Heq. simpl in Heq. lia.
Qed.
End claims.

(** ** Access logs *)
Section denial_claims.
Context `{Unicode}.

Lemma name_lower h :
  ValidName h = true →
  string_forall (λ c, (byte c <? 128)%N && negb (is_upper c)) h = true ∧
  ContainsByte h "[" = false ∧ ContainsByte h "]" = false.
Proof.
  intros (t & c & u & Hh & _ & _ & Hb)%ValidName_shape.
  assert (∀ (p : ascii → bool), (∀ c, name_byte c = true → p c = true) → p "*"%char = true →
    p "."%char = true → string_forall p h = true) as Hall.
  { intros p Hp Hstar Hdot. destruct Hh as [->| ->].
    - by eapply string_forall_impl.
    - rewrite string_forall_app. simpl. rewrite Hstar, Hdot. simpl. by eapply string_forall_impl. }
  split_and!.
  - apply Hall; [|done|done]. intros d Hd. clear -Hd.
    destruct d as [[] [] [] [] [] [] [] []]; vm_compute in Hd |- *; congruence.
  - rewrite ContainsByte_forall. apply negb_false_iff, Hall; [|done|done].
    intros d Hd. destruct (Ascii.eqb_spec d "[") as [->|]; [by vm_compute in Hd|done].
  - rewrite ContainsByte_forall. apply negb_false_iff, Hall; [|done|done].
    intros d Hd. destruct (Ascii.eqb_spec d "]") as [->|]; [by vm_compute in Hd|done].
Qed.

(** The denials reported are genuine and read back what was asked: only 403 responses
with a source address and a valid host name are reported, and a refused request for a host
name and port, written the way the routes match it, is reported as that host and port. *)
Theorem denial_spec e :
  (∀ d, denial e = Some d →
    le_ResponseCode e = 403%Z ∧ dn_SrcIP d = le_RemoteAddress e ∧ dn_SrcIP d ≠ "" ∧
    ValidName (dn_Host d) = true) ∧
  (∀ h port s, le_ResponseCode e = 403%Z → le_RemoteAddress e ≠ "" → ValidName h = true →
    (port = 443 ∨ port = 80)%Z → s ∈ port_suffixes port → le_Authority e = h +:+ s →
    denial e = Some (mkDenial (le_RemoteAddress e) h port)).
Proof.
  unfold denial. split.
  - intros d. destruct (Z.eqb_spec (le_ResponseCode e) 403) as [Hc|]; [|done]. simpl.
    destruct (denial_target _) as [host port].
    destruct (String.eqb_spec (le_RemoteAddress e) ""); [done|]. simpl.
    destruct (ValidName host) eqn:Ev; [|done]. intros [= <-]. done.
  - intros h port s -> Hip Hv Hport Hs ->. simpl.
    destruct (name_lower h Hv) as (Hlow & Hb1 & Hb2). pose proof (ValidName_no_colon h Hv) as Hcol.
    rewrite ToLower_id.
    + assert (denial_target (h +:+ s) = (h, port)) as ->.
      { unfold denial_target. destruct Hport as [-> | ->]; simpl in Hs;
          repeat (apply elem_of_cons in Hs as [-> |Hs]; [|]); try (by apply elem_of_nil in Hs).
        - by rewrite SplitHostPort_plain.
        - by rewrite string_app_nil_r, SplitHostPort_no_colon.
        - by rewrite SplitHostPort_plain. }
      destruct (String.eqb_spec (le_RemoteAddress e) ""); [done|]. simpl. by rewrite Hv.
    + rewrite string_forall_app, Hlow. simpl.
      destruct Hport as [-> | ->]; simpl in Hs;
        repeat (apply elem_of_cons in Hs as [-> |Hs]; [done|]); by apply elem_of_nil in Hs.
Qed.
End denial_claims.

(** [Push] is safe to fail: it takes a new version, different from the last one,
and when the resources make no consistent snapshot it reports the error and leaves the
served snapshot as it was; otherwise the node's snapshot is set with that version. *)
Theorem Push_spec {R C} `{SnapshotCache R C} (res : Resources R) (s s' : Server C) e :
  (0 ≤ sv_version s < two64 - 1)%Z → Push res s = (e, s') →
  sv_version s' = (sv_version s + 1)%Z ∧
  print_nat (sv_version s') ≠ print_nat (sv_version s) ∧
  match NewSnapshot (print_nat (sv_version s')) res with
  | Err err => e = Some err ∧ sv_cache s' = sv_cache s
  | Ok snap =>
      match Consistent snap with
      | Some err => e = Some err ∧ sv_cache s' = sv_cache s
      | None => SetSnapshot NodeID snap (sv_cache s) = (e, sv_cache s')
      end
  end.
Proof.
  intros Hv Heq. unfold Push in Heq. rewrite Z.mod_small in Heq by lia. simpl in Heq.
  assert (sv_version s' = (sv_version s + 1)%Z) as Ev.
  { repeat case_match; by simplify_eq. }
  rewrite Ev. split_and!; [done| |].
  - intros E%print_nat_inj; lia.
  - destruct (NewSnapshot _ res) as [snap|err]; [|by simplify_eq/=].
    destruct (Consistent snap); [by simplify_eq/=|].
    destruct (SetSnapshot NodeID snap (sv_cache s)). by simplify_eq/=.
Qed.

(** [Push] without an error: the node is served the resources. *)
Lemma Push_served {R C} `{SnapshotCacheLaws R C} (res : Resources R) (s s' : Server C) :
  Push res s = (None, s') → served NodeID (sv_cache s') = Some res.
Proof.
  unfold Push. destruct (NewSnapshot _ res) as [snap|e] eqn:En; [|done].
  destruct (Consistent snap); [done|].
  destruct (SetSnapshot NodeID snap _) as [[e|] c] eqn:Es; [done|]. intros [= <-].
  by rewrite (SetSnapshot_law _ _ _ _ Es), (NewSnapshot_law _ _ _ En).
Qed.

(** ** The claims at a concrete configuration

An Envoy that takes every resource, and a digest that keeps the input's first bytes. *)
#[export] Instance demo_envoy : Envoy := {|
  Resource := string;
  sha256 s := String.substring 0 32 s;
  protojson_Unmarshal _ text := Ok text;
  ValidateAll _ := None
|}.

#[export] Instance demo_unicode : Unicode := {| map_unicode_ToLower s := s |}.

#[export] Instance demo_cache : SnapshotCache string (list (string * Resources string)) := {|
  Snapshot := string * Resources string;
  NewSnapshot v r := Ok (v, r);
  Consistent snap := if (length (rs_Route snap.2) =? 1)%nat then None else Some (EMsg "inconsistent");
  SetSnapshot _ snap c := (None, snap :: c)
|}.

#[export, refine] Instance demo_cache_laws : SnapshotCacheLaws string (list (string * Resources string)) := {|
  resources_of snap := snap.2;
  served _ c := (λ snap : string * Resources string, snap.2) <$> head c
|}.
Proof.
  - by intros v res snap [= <-].
  - by intros node snap c c' [= <-].
Defined.

Definition demo_params : Params := mkParams (HostIPs demo_input) "http://admin/r" Hour.

(** A CONNECT from 10.0.0.1. *)
Definition demo_query : Query := mkQuery true "" 167772161.


Definition demo_vhost : json := vhost_of demo_params (mkHostKey "api.example.com" 443).

Lemma tls_bound_to_host_witness : ∃ host, domains demo_vhost = [host +:+ ":443"].
Proof.
  destruct (tls_bound_to_host demo_params demo_vhost demo_query
    (sni_of demo_params (mkHostKey "api.example.com" 443))) as (host & Hd & _).
  - intros k k' Hk Hk' _ _ Hn. apply elem_of_elements in Hk, Hk'. vm_compute in Hk, Hk'.
    repeat (apply elem_of_cons in Hk as [->|Hk]; [|]); try (by apply elem_of_nil in Hk);
      repeat (apply elem_of_cons in Hk' as [->|Hk']; [|]); try (by apply elem_of_nil in Hk');
      first [reflexivity|vm_compute in Hn; discriminate Hn].
  - vm_compute. right. left.
  - reflexivity.
  - vm_compute. reflexivity.
  - exists host. exact Hd.
Defined.

Lemma denial_spec_witness :
  denial (mkLogEntry 403 "10.0.0.1" "api.example.com:443") =
  Some (mkDenial "10.0.0.1" "api.example.com" 443).
Proof.
  apply (denial_spec (mkLogEntry 403 "10.0.0.1" "api.example.com:443")) with (s := ":443").
  - reflexivity.
  - discriminate.
  - reflexivity.
  - left. reflexivity.
  - left.
  - reflexivity.
Defined.

Lemma Push_spec_witness :
  sv_version (Push (R := string) (mkResources [] [] []) (mkServer [] 7)).2 = 8%Z.
Proof.
  apply (Push_spec (R := string) (mkResources [] [] [])
    (mkServer ([] : list (string * Resources string)) 7) _ (Some (EMsg "inconsistent"))).
  - vm_compute. split; congruence.
  - reflexivity.
Defined.
