(* ===== verification/XdsText.v ===== *)
(** * internal/xds: the text of the resources

[decode] of [admin/internal/xds/build.go] hands every drafted resource to protojson as
text. That text reads as the drafted value: nothing in a host name, an address or the
request URL can turn it into something else. *)
From S2P Require Import Prelude GoLib Regex Policy Json JsonText JsonMarshal JsonValid Xds.
From stdpp Require Import gmap strings list sorting fin_maps.

(** ** The drafted resources can be written *)
Lemma strs_clean l : forallb valid_utf8 l = true → clean_json (strs l) = true.
Proof.
  unfold strs. cbn [clean_json]. induction l as [|s l IH]; [done|].
  intros [Hs Hl]%andb_true_iff. csimpl. rewrite IH by done. cbn [clean_json]. by rewrite Hs.
Qed.

Lemma principals_clean ips : forallb valid_utf8 ips = true → forallb clean_json (principal <$> ips) = true.
Proof. induction ips as [|ip ips IH]; [done|]. intros [Hip Hips]%andb_true_iff. csimpl. rewrite IH by done. cbn -[valid_utf8]. by rewrite Hip. Qed.

Lemma and_intro (a b : bool) : a = true → b = true → a && b = true.
Proof. by intros -> ->. Qed.

(** Splits a goal [clean_json j = true] into its strings; the constant ones compute. *)
Ltac valid_string :=
  repeat lazymatch goal with |- valid_utf8 (_ +:+ _) = true => apply valid_app end;
  first [assumption | vm_compute; reflexivity].

Ltac clean_leaves :=
  cbn -[valid_utf8 String.append];
  repeat match goal with |- (_ && _ = true) => apply and_intro end;
  lazymatch goal with
  | |- valid_utf8 _ = true => valid_string
  | |- forallb clean_json _ = true => first [assumption | by apply principals_clean]
  | |- clean_json _ = true => assumption
  | |- _ => reflexivity
  end.

(** Every resource of the draft is shallow: [json_depth] does not see the strings. *)
Lemma principals_depth ips : (foldr (λ v d, N.max (json_depth v) d) 0 (principal <$> ips) ≤ 2)%N.
Proof. induction ips as [|ip ips IH]; csimpl; lia. Qed.

Definition writable (n : N) (j : json) : Prop := clean_json j = true ∧ (json_depth j ≤ n)%N.

Lemma proxyListener_writable url : valid_utf8 url = true → writable 20 (proxyListener url).
Proof. intros Hu. split; [unfold proxyListener; clean_leaves|]. vm_compute. discriminate. Qed.

Lemma dfpCluster_writable name : valid_utf8 name = true → writable 20 (dfpCluster name).
Proof. intros Hn. split; [unfold dfpCluster; clean_leaves|]. vm_compute. discriminate. Qed.

Lemma sniListener_writable name host :
  valid_utf8 name = true → valid_utf8 host = true → writable 20 (sniListener name host).
Proof. intros Hn Hh. split; [unfold sniListener; clean_leaves|]. vm_compute. discriminate. Qed.

Lemma sni_cluster_writable name : valid_utf8 name = true → writable 20 (sni_cluster name).
Proof. intros Hn. split; [unfold sni_cluster; clean_leaves|]. vm_compute. discriminate. Qed.

Lemma deny_vhost_writable : writable 20 deny_vhost.
Proof. split; [reflexivity|vm_compute; discriminate]. Qed.

Lemma rbacPerRoute_writable ips : forallb valid_utf8 ips = true → writable 12 (rbacPerRoute ips).
Proof.
  intros Hi. pose proof (principals_depth ips).
  split; [unfold rbacPerRoute, typed; clean_leaves|cbn -[N.add N.max]; lia].
Qed.

Lemma hex_valid s : valid_utf8 (hex s) = true.
Proof.
  apply is_ascii_valid. unfold is_ascii. induction s as [|c s IH]; [done|].
  destruct c as [[] [] [] [] [] [] [] []]; exact IH.
Qed.

Lemma Itoa_valid n : valid_utf8 (Itoa n) = true.
Proof.
  apply is_ascii_valid. pose proof (Itoa_clean n) as Hc. unfold is_ascii.
  induction (Itoa n) as [|c s IH]; [done|]. simpl in *. apply Forall_cons in Hc as [[Hg _] Hc].
  rewrite Hg. by apply IH.
Qed.

(** [clean_json] and [json_depth] go through a subterm kept folded. *)
Lemma connect_vhost_writable hash host ips d :
  valid_utf8 hash = true → valid_utf8 host = true → forallb valid_utf8 ips = true →
  writable 20 (connect_vhost hash host ips d).
Proof.
  intros Hh Hho Hi. pose proof (Itoa_valid (int_Seconds d)).
  destruct (rbacPerRoute_writable ips Hi) as [Hc Hd]. unfold connect_vhost.
  generalize dependent (rbacPerRoute ips). generalize dependent (Itoa (int_Seconds d)). intros t Ht j Hc Hd.
  split; [|cbn -[N.add N.max]; lia]. clean_leaves.
Qed.

Lemma http_vhost_writable hash host ips :
  valid_utf8 hash = true → valid_utf8 host = true → forallb valid_utf8 ips = true →
  writable 20 (http_vhost hash host ips).
Proof.
  intros Hh Hho Hi. destruct (rbacPerRoute_writable ips Hi) as [Hc Hd]. unfold http_vhost.
  generalize dependent (rbacPerRoute ips). intros j Hc Hd. split; [clean_leaves|cbn -[N.add N.max]; lia].
Qed.

Lemma route_config_writable vhosts :
  Forall (writable 20) vhosts → writable 22 (route_config vhosts).
Proof.
  intros Hv. split.
  - assert (forallb clean_json vhosts = true) as Hc.
    { apply forallb_Forall. eapply Forall_impl; [exact Hv|]. by intros j [? _]. }
    unfold route_config. clean_leaves.
  - assert (foldr (λ v d, N.max (json_depth v) d) 0 vhosts ≤ 20)%N.
    { apply foldr_max_le. eapply Forall_impl; [exact Hv|]. by intros j [_ ?]. }
    cbn -[N.add N.max]. lia.
Qed.

Section text.
Context `{Envoy}.

Definition valid_params (p : Xds.Params) : Prop :=
  valid_utf8 (p_RequestURL p) = true ∧
  map_Forall (λ k ips, valid_utf8 (hk_Host k) = true ∧ forallb valid_utf8 ips = true) (p_Hosts p).

Lemma draft_writable p : valid_params p →
  Forall (writable 20) (df_listeners (draft p)) ∧ Forall (writable 20) (df_clusters (draft p)) ∧
  Forall (writable 20) (df_vhosts (draft p)).
Proof.
  intros [Hu Hh]. rewrite draft_eq. cbn [df_listeners df_clusters df_vhosts].
  assert (∀ k, k ∈ sorted_keys p → valid_utf8 (hk_Host k) = true ∧
    forallb valid_utf8 (slice_at (p_Hosts p) k) = true ∧
    valid_utf8 (hashName k (slice_at (p_Hosts p) k)) = true ∧ valid_utf8 (sni_of p k) = true) as Hk.
  { intros k [ips Hi]%elem_of_sorted_keys%elem_of_dom. destruct (Hh k ips Hi) as [? Hips].
    unfold sni_of, slice_at, hashName. rewrite Hi. cbn [default].
    split_and!; [done|done|apply hex_valid|apply valid_app; [done|apply hex_valid]]. }
  assert (∀ k, k ∈ tls_keys (sorted_keys p) → k ∈ sorted_keys p) as Ht.
  { by intros k [_ ?]%list_elem_of_filter. }
  split_and!.
  - constructor; [by apply proxyListener_writable|]. apply Forall_fmap, Forall_forall.
    intros k (? & ? & ? & ?)%Ht%Hk. by apply sniListener_writable.
  - constructor; [by apply dfpCluster_writable|]. constructor; [by apply dfpCluster_writable|].
    apply Forall_fmap, Forall_forall. intros k (? & ? & ? & ?)%Ht%Hk. by apply sni_cluster_writable.
  - apply Forall_app. split; [|by constructor; [apply deny_vhost_writable|]].
    apply Forall_fmap, Forall_forall. intros k (? & ? & ? & ?)%Hk. unfold compose, vhost_of.
    case_match; [by apply connect_vhost_writable|by apply http_vhost_writable].
Qed.

(** The resource [r] of a message type was made from a text that reads as [j]. *)
Definition made_from (type : string) (j : json) (r : Resource) : Prop :=
  ∃ text v, protojson_Unmarshal type text = Ok r ∧ ValidateAll r = None ∧
    decode_all_text text = Some v ∧ DeepEqual j (of_jv v) = true.

Lemma decode_made n type j r : (n ≤ 100)%N → writable n j → Xds.decode type j = Ok r → made_from type j r.
Proof.
  intros Hn [Hc Hd]. unfold Xds.decode. intros (m & Hm & Hv)%result_bind_Ok.
  destruct (ValidateAll m) eqn:Ev; [done|]. injection Hv as <-.
  destruct (Marshal_json_reads j Hc) as (v & Hr & Hq); [unfold maxNestingDepth; lia|].
  by exists (Marshal_json j), v.
Qed.

Lemma decode_made_all n type l rs : (n ≤ 100)%N → Forall (writable n) l →
  Forall2 (λ j r, Xds.decode type j = Ok r) l rs → Forall2 (made_from type) l rs.
Proof.
  intros Hn Hw Hd. induction Hd as [|j r l rs Hj _ IH]; [done|]. apply Forall_cons in Hw as [? ?].
  constructor; [by eapply decode_made|by apply IH].
Qed.

(** Host names that passed [ValidName] are ASCII. *)
Lemma ValidName_utf8 n : ValidName n = true → valid_utf8 n = true.
Proof.
  intros Hn%name_lower. apply is_ascii_valid. destruct Hn as [Hn _]. unfold is_ascii.
  eapply string_forall_impl; [|exact Hn]. intros c Hc. by apply andb_true_iff in Hc as [? _].
Qed.

Lemma HostIPs_valid_params inp url tmax :
  valid_utf8 url = true → (∀ pod, pod ∈ in_Pods inp → valid_utf8 (ws_IP pod) = true) →
  valid_params (mkParams (HostIPs inp) url tmax).
Proof.
  intros Hu Hpods. split; [done|]. intros k ips Hk. split.
  - apply ValidName_utf8, (HostIPs_valid_hosts inp k). apply elem_of_dom. by eexists.
  - apply HostIPs_lookup in Hk as (_ & _ & _ & Hips). apply forallb_forall. intros ip Hip%list_elem_of_In.
    apply Hips in Hip as (pod & k' & (Hp & _) & <- & _). by apply Hpods.
Qed.

(** [C36] What Envoy is given is what was drafted. Let the request URL and the pods' addresses
be valid UTF-8, as strings of the Kubernetes API are (of the host names this is proved).
Whenever [Build] succeeds on the hosts of a policy, every resource was read by protojson, and
found valid, from a text whose JSON value is the drafted one, in order, with nothing left out;
no host name, address or URL of such bytes can change the structure. *)
Theorem Build_text inp url tmax res :
  valid_utf8 url = true → (∀ pod, pod ∈ in_Pods inp → valid_utf8 (ws_IP pod) = true) →
  let p := mkParams (HostIPs inp) url tmax in
  Build p = Ok res →
  Forall2 (made_from "listener") (df_listeners (draft p)) (rs_Listener res) ∧
  Forall2 (made_from "cluster") (df_clusters (draft p)) (rs_Cluster res) ∧
  ∃ rc, rs_Route res = [rc] ∧ made_from "route" (route_config (df_vhosts (draft p))) rc.
Proof.
  intros Hu Hpods p (_ & Hl & Hc & rc & Hrc & Hr)%Build_spec.
  destruct (draft_writable p (HostIPs_valid_params inp url tmax Hu Hpods)) as (Wl & Wc & Wv).
  split_and!; [by eapply (decode_made_all 20)..|]. exists rc. split; [done|].
  eapply (decode_made 22); [done|by apply route_config_writable|done].
Qed.
End text.

(** ** At the concrete configuration *)
Definition demo_resources : Resources string :=
  match Build demo_params with Ok res => res | Err _ => mkResources [] [] [] end.

Lemma Build_text_witness :
  ∃ rc, rs_Route demo_resources = [rc] ∧
    made_from "route" (route_config (df_vhosts (draft demo_params))) rc.
Proof.
  refine (proj2 (proj2 (Build_text demo_input "http://admin/r" Hour demo_resources _ _ _))).
  - reflexivity.
  - intros pod Hp. repeat (apply elem_of_cons in Hp as [->|Hp]; [reflexivity|]). by apply elem_of_nil in Hp.
  - vm_compute. reflexivity.
Defined.
