(* ===== verification/Main.v ===== *)
(** * cmd/sandcastle-admin: the reconciler

A translation of the parts of [admin/cmd/sandcastle-admin/main.go] that decide
anything: [throttle.allow], the [OnDenial] callback, [apply], and the [reconcile]
closure with its memory of the last error, over any run of reconciles. The loop around them is in [System.v]. *)
From Stdlib Require Import Ascii.
From S2P Require Import Prelude GoLib Regex Policy Json Store StoreInv StoreSpec StoreThms PolicyLoad Dataplane Watch Cilium Xds Demo.
From stdpp Require Import gmap strings list sorting fin_maps relations.

(** ** throttle *)
Definition throttle_max : Z := 10000.

(** A nil map reads like an empty one; a missing key is the zero time, so long ago
that [Sub] exceeds any bound. *)
Definition allow (now : Z) (key : string) (last : gmap string Z) : bool * gmap string Z :=
  if match last !! key with Some at_ => (now - at_ <? Second)%Z | None => false end
  then (false, last) else
  let last := <[key := now]> last in
  if (throttle_max <? Z.of_nat (size last))%Z then
    let last := filter (λ ka, ¬ (Minute < now - ka.2)%Z) last in
    if (throttle_max <? Z.of_nat (size last))%Z then (true, {[key := now]}) else (true, last)
  else (true, last).

(** ** OnDenial *)
Definition denial_key (ws : Workspace) (d : Denial) : string :=
  ws_ID ws +:+ "|" +:+ dn_Host d +:+ "|" +:+ Itoa (dn_Port d).

Definition OnDenial `{Postgres} (env : Env) (clock : Z) (pods : list Pod) (d : Denial)
    (st : gmap string Z * DB) : gmap string Z * DB :=
  let '(last, db) := st in
  match ByIP pods (dn_SrcIP d) with
  | None => (last, db)
  | Some ws =>
      match allow clock (denial_key ws d) last with
      | (false, last) => (last, db)
      | (true, last) => (last, (RecordDenial env (ws_ID ws) (dn_Host d) (dn_Port d) db).2)
      end
  end.

(** ** apply *)
Definition tunnelMax : Z := Hour.

Section apply.
Context `{Envoy} {C S : Type} `{SnapshotCache Resource C} `{KubeAPI S}.

Definition with_pods (inp : Input) (pods : list Workspace) : Input :=
  mkInput (in_DefaultZone inp) (in_ZoneRules inp) (in_Assign inp) (in_Grants inp) pods.

Definition params_of (inp : Input) (publicURL : string) : Xds.Params :=
  mkParams (HostIPs inp) (publicURL +:+ "/r") tunnelMax.

(** [loaded] is what [PolicyInput] returned. *)
Definition apply (loaded : result error Input) (pods : list Pod) (publicURL : string)
    (xs : Server C) (k : S) : option error * Server C * S :=
  match loaded with
  | Err e => (Some (EWrap "load policy" e), xs, k)
  | Ok inp =>
      let inp := with_pods inp (Running pods) in
      match Build (params_of inp publicURL) with
      | Err e => (Some (EWrap "build xds" e), xs, k)
      | Ok res =>
          match Push res xs with
          | (Some e, xs) => (Some (EWrap "push xds" e), xs, k)
          | (None, xs) =>
              match Apply (Render inp) k with
              | (Some e, k) => (Some (EWrap "apply cilium" e), xs, k)
              | (None, k) => (None, xs, k)
              end
          end
      end
  end.
End apply.

(** ** reconcile

[Error] is [err.Error()]. The audit row is written only when the message differs
from the last one; the message is remembered whether or not the write succeeded. *)
Section reconcile.
Context `{Postgres} (Error : error → string).

Definition reconcile (env : Env) (err : option error) (st : string * DB) : string * DB :=
  let '(lastErr, db) := st in
  match err with
  | None => ("", db)
  | Some e =>
      let msg := Error e in
      (msg, if (msg =? lastErr)%string then db
            else (AuditSystem env "reconcile_error" [("error", JStr msg)] db).2)
  end.

(** Reconciles one after the other, each with its outcome and the state of the server while
its audit row is written. *)
Definition reconcile_run (l : list (Env * option error)) (st : string * DB) : string * DB :=
  foldl (λ st x, reconcile x.1 x.2 st) st l.

Definition message (err : option error) : string := if err is Some e then Error e else "".

(** What is worth a row: a message that differs from the one before. *)
Fixpoint new_messages (last : string) (errs : list (option error)) : list string :=
  match errs with
  | [] => []
  | err :: errs =>
      (if err is Some e then if (Error e =? last)%string then [] else [Error e] else []) ++
      new_messages (message err) errs
  end.
End reconcile.

(** ** Facts *)
Lemma allow_refused now key last :
  (allow now key last).1 = false ↔ ∃ at_, last !! key = Some at_ ∧ (now - at_ < Second)%Z.
Proof.
  unfold allow. destruct (last !! key) as [at_|].
  - destruct (Z.ltb_spec (now - at_) Second); simpl; [split; [eauto|done]|].
    split; [by repeat case_match|]. intros (? & [= <-] & ?). lia.
  - split; [by repeat case_match|]. by intros (? & ? & _).
Qed.

(** The denial throttle: a key is refused exactly when it was let through less than a
second ago and is still remembered; letting it through records the time; other keys are
forgotten only when older than a minute or when more than 10000 are fresh; and the table
never holds more than 10000 keys. *)
Theorem throttle_spec now key last ok last' :
  allow now key last = (ok, last') →
  (Z.of_nat (size last) ≤ 10000)%Z →
  (ok = false ↔ ∃ at_, last !! key = Some at_ ∧ (now - at_ < Second)%Z) ∧
  (Z.of_nat (size last') ≤ 10000)%Z ∧
  (ok = false → last' = last) ∧ (ok = true → last' !! key = Some now) ∧
  (∀ k at_, k ≠ key → last !! k = Some at_ → last' !! k = Some at_ ∨
    (Minute < now - at_)%Z ∨ last' = {[key := now]}).
Proof.
  intros Ha Hsize. split; [by rewrite <- allow_refused, Ha|]. unfold allow in Ha.
  destruct (match last !! key with Some at_ => _ | None => _ end).
  { simplify_eq. split_and!; eauto. done. }
  destruct (Z.ltb_spec throttle_max (Z.of_nat (size (<[key := now]> last)))) as [Hbig|Hsmall].
  - set (kept := filter _ (<[key := now]> last)) in Ha.
    destruct (Z.ltb_spec throttle_max (Z.of_nat (size kept))) as [Hflood|Hok]; simplify_eq.
    + split_and!; [by rewrite map_size_singleton|done|intros _; apply lookup_singleton_eq|auto].
    + split_and!; [done|done| |].
      * intros _. apply map_lookup_filter_Some. rewrite lookup_insert_eq. split; [done|].
        simpl. unfold Minute, Second. lia.
      * intros k at_ Hk Hat. destruct (decide (Minute < now - at_)%Z); [auto|left].
        apply map_lookup_filter_Some. by rewrite lookup_insert_ne.
  - simplify_eq. split_and!; [done|done|intros _; apply lookup_insert_eq|].
    intros k at_ Hk Hat. left. by rewrite lookup_insert_ne.
Qed.

(** [Push] touches the cache only with a consistent snapshot. *)
Lemma Push_touches {R C} `{SnapshotCache R C} (res : Resources R) (xs : Server C) e xs' :
  Push res xs = (e, xs') → sv_cache xs' ≠ sv_cache xs →
  ∃ snap, NewSnapshot (print_nat (sv_version xs')) res = Ok snap ∧ Consistent snap = None.
Proof.
  unfold Push. destruct (NewSnapshot _ res) as [snap|err] eqn:En; [|intros [= <- <-]; done].
  destruct (Consistent snap) eqn:Es; [intros [= <- <-]; done|].
  destruct (SetSnapshot _ _ _) as [e0 c]. intros [= <- <-] _. by exists snap.
Qed.

(** ** The system *)
Section system.
Context `{Postgres, !PostgresLaws, Envoy} {C S : Type}.
Context `{SnapshotCacheLaws Resource C} `{KubeLaws S}.

Lemma Effective_with_pods inp pods ws kind :
  Effective (with_pods inp pods) ws kind = Effective inp ws kind.
Proof. done. Qed.

(** A running pod's effective rules are what the tables grant its workspace. *)
Lemma running_rules db t pods p kind r :
  sound db → p ∈ pods → live p →
  r ∈ Effective (with_pods (PolicyInput db t) (Running pods)) (ws_ID (workspace_of p)) kind ↔
  granted db t (label p Watch.wsLabel) r ∧ rule_Kind r = kind.
Proof.
  intros Hop Hp (Hl & _). rewrite Effective_with_pods. by apply Effective_PolicyInput.
Qed.

Lemma apply_steps loaded pods url (xs : Server C) (k : S) xs' k' :
  apply loaded pods url xs k = (None, xs', k') →
  ∃ inp res, loaded = Ok inp ∧ let inp := with_pods inp (Running pods) in
    Build (params_of inp url) = Ok res ∧ Push res xs = (None, xs') ∧
    Apply (Render inp) k = (None, k').
Proof.
  unfold apply. intros Ha. destruct loaded as [inp|e]; [|done].
  destruct (Build _) as [res|e] eqn:Eb; [|done].
  destruct (Push res xs) as [[e|] xs1] eqn:Ep; [done|].
  destruct (Apply _ k) as [[e|] k1] eqn:Ek; [done|]. simplify_eq. eauto 10.
Qed.

(** Envoy and Cilium enforce the tables of [db] at [t] for the pods [pods].

Envoy is served resources that protojson read from the texts of some listeners [ls], clusters
and virtual hosts [vhosts]; read the way Envoy reads them, these forward a request for a host
and port exactly when it is a CONNECT for port 443 or another request for port 80, and comes
from the IPv4 address of a running workspace pod to which the tables grant a matching host
rule; and every other request is answered with 403.

The managed policies in the cluster, with the specs they have there and read the way Cilium
reads them, let a pod with a workspace's label ask the cluster's DNS server for a name exactly
when the tables grant the workspace a dns rule that covers the name; they select no pod
without the label. *)
Definition envoy_enforces (db : DB) (t : Z) (pods : list Pod) (xs : Server C) : Prop :=
  ∃ res ls cs vhosts rc, served NodeID (sv_cache xs) = Some res ∧
    Forall2 (λ j r, Xds.decode "listener" j = Ok r) ls (rs_Listener res) ∧
    Forall2 (λ j r, Xds.decode "cluster" j = Ok r) cs (rs_Cluster res) ∧
    rs_Route res = [rc] ∧ Xds.decode "route" (route_config vhosts) = Ok rc ∧
    ∀ h s port q, h ≠ "" → ContainsByte h "*" = false → ContainsByte h ":" = false →
      (port = 443 ∨ port = 80)%Z → s ∈ port_suffixes port →
      (qy_connect q = false → HasPrefix (qy_path q) "/" = true) →
      (∃ v, picks vhosts (h +:+ s) v) ∧
      ∀ v, picks vhosts (h +:+ s) v →
        ((∃ c, answer ls v q = Forwarded c) ↔
          qy_connect q = (port =? 443)%Z ∧
          ∃ p r, p ∈ pods ∧ live p ∧ parse_ipv4 (pod_PodIP p) = Some (qy_src q) ∧
            granted db t (label p Watch.wsLabel) r ∧ rule_Kind r = "host" ∧ rule_Port r = port ∧
            serves (key_of r) h) ∧
        ((∃ c, answer ls v q = Forwarded c) ∨ answer ls v q = Answered 403).

Definition cilium_enforces (db : DB) (t : Z) (k : S) : Prop :=
  (∀ l ws proto n, l !! "com.coder.workspace.id" = Some ws → ws ≠ "" → proto ∈ ["UDP"; "TCP"] →
    (∃ name spec, objects k !! name = Some (ownerValue, spec) ∧ selects l spec = true ∧
      allows_query proto n spec = true) ↔
    ∃ r, granted db t ws r ∧ rule_Kind r = "dns" ∧ name_covers (rule_Value r) n) ∧
  (∀ l name spec, l !! "com.coder.workspace.id" = None →
    objects k !! name = Some (ownerValue, spec) → selects l spec = false).

Definition enforced (db : DB) (t : Z) (pods : list Pod) (xs : Server C) (k : S) : Prop :=
  envoy_enforces db t pods xs ∧ cilium_enforces db t k.

(** A managed object after a clean [Apply] means what the desired one does. *)
Lemma Apply_means desired (k k' : S) (P : json → Prop) :
  NoDup (GetName <$> desired) → (∀ d, d ∈ desired → owner_of d = ownerValue) →
  Apply desired k = (None, k') → (∀ a b, deq a b → P a ↔ P b) →
  (∃ name spec, objects k' !! name = Some (ownerValue, spec) ∧ P spec) ↔
  ∃ o, o ∈ desired ∧ P (spec_of o).
Proof.
  intros Hnd Hown Ha HP. destruct (Apply_ok _ _ _ Hnd Hown Ha) as [Hd Hm].
  assert (∀ d spec, d ∈ desired → objects k' !! GetName d = Some (ownerValue, spec) →
    P spec ↔ P (spec_of d)) as Hspec.
  { intros d spec Hin Hs. destruct (Hd d Hin) as (spec' & Hs' & Heq). rewrite Hs in Hs'.
    injection Hs' as <-. destruct Heq as [->|Heq]; [done|by apply HP]. }
  split.
  - intros (name & spec & Hn & Hp). pose proof (Hm name spec Hn) as (d & -> & Hin)%list_elem_of_fmap.
    exists d. split; [done|]. by apply (Hspec d spec).
  - intros (d & Hin & Hp). destruct (Hd d Hin) as (spec & Hs & _). exists (GetName d), spec.
    split; [done|]. by apply (Hspec d spec).
Qed.

Lemma apply_enforced db t pods url (xs : Server C) (k : S) xs' k' :
  sound db → apply (Ok (PolicyInput db t)) pods url xs k = (None, xs', k') →
  enforced db t pods xs' k'.
Proof.
  intros Hop (inp0 & res & [= <-] & Hb & Hp & Hk)%apply_steps.
  set (inp := with_pods _ _) in *. split.
  - apply Build_spec in Hb as (_ & Hl & Hc & rc & Hrc & Hr). unfold params_of in *.
    eexists res, _, _, _, rc. split_and!; [by eapply Push_served|exact Hl|exact Hc|done|exact Hrc|].
    intros h s port q Hne Hstar Hcolon Hport Hs Hpath.
    split; [by apply (picks_exists _ _ _ _ _ port)|]. intros v Hv.
    destruct (picks_answer inp _ _ h s port v q Hstar Hcolon Hport Hs Hpath Hv) as [Hiff H403].
    split; [|exact H403]. rewrite Hiff. f_equiv. setoid_rewrite table_allows_policy; [|done]. split.
    + intros (ip & (w & r & (p & Hpp & Hlive & ->)%elem_of_Running & <- & _ & Hrr & Hrp & Hserve) & Hip).
      apply running_rules in Hrr as [Hg Hkind]; [|done..]. by exists p, r.
    + intros (p & r & Hpp & Hlive & Hip & Hg & Hkind & Hrp & Hserve). exists (pod_PodIP p).
      split; [|done]. exists (workspace_of p), r. pose proof Hlive as (_ & _ & Hne' & _).
      split_and!; try done; [apply elem_of_Running; eauto|]. by apply running_rules.
  - split.
    + intros l ws proto n Hl Hws Hproto.
      rewrite (Apply_means _ _ _ (λ spec, selects l spec = true ∧ allows_query proto n spec = true)
        (NoDup_Render_names inp) (Render_owner inp) Hk).
      * rewrite (Render_selects inp l ws proto n Hl Hproto). unfold inp.
        setoid_rewrite Effective_with_pods. setoid_rewrite Effective_PolicyInput; [|done..].
        naive_solver.
      * intros a b Hab. by rewrite (selects_deq l a b Hab), (allows_query_deq proto n a b Hab).
    + intros l name spec Hl Hn.
      destruct (Apply_ok _ _ _ (NoDup_Render_names inp) (Render_owner inp) Hk) as [Hd Hm].
      pose proof (Hm name spec Hn) as (o & -> & Hin)%list_elem_of_fmap.
      destruct (Hd o Hin) as (spec' & Hs & Heq). rewrite Hn in Hs. injection Hs as <-.
      pose proof (Render_unlabelled inp l o Hl Hin) as Hu.
      destruct Heq as [->|Heq]; [done|]. by rewrite (selects_deq l _ _ Heq).
Qed.


(** [C30] A failed reconcile is safe. The cache Envoy is served from is touched only with a
consistent snapshot of resources built from a completely loaded policy, so a failure to
load, to build or to assemble a snapshot leaves the last one in place; and the Cilium
policies are touched only after the push succeeded. *)
Theorem apply_fails_safe loaded pods url (xs : Server C) (k : S) e xs' k' :
  apply loaded pods url xs k = (Some e, xs', k') →
  (sv_cache xs' ≠ sv_cache xs → ∃ inp res snap, loaded = Ok inp ∧
    Build (params_of (with_pods inp (Running pods)) url) = Ok res ∧
    NewSnapshot (print_nat (sv_version xs')) res = Ok snap ∧ Consistent snap = None) ∧
  (k' ≠ k → ∃ inp res, loaded = Ok inp ∧
    Build (params_of (with_pods inp (Running pods)) url) = Ok res ∧ Push res xs = (None, xs')).
Proof.
  unfold apply. intros Ha. destruct loaded as [inp|err]; [|by simplify_eq].
  destruct (Build _) as [res|err] eqn:Eb; [|by simplify_eq].
  destruct (Push res xs) as [e1 xs1] eqn:Ep.
  assert (xs1 = xs') as -> by (destruct e1; [|destruct (Apply _ k) as [[|] ?]]; by simplify_eq).
  split.
  - intros Hc. destruct (Push_touches res xs e1 xs' Ep Hc) as (snap & Hn & Hs).
    by exists inp, res, snap.
  - intros Hk. destruct e1; [by simplify_eq|]. by exists inp, res.
Qed.
End system.

(** ** Failures in the audit log *)
Section audit.
Context `{Postgres} (Error : error → string).

Lemma AuditSystem_faultless env action detail db :
  faults env = [] → (AuditSystem env action detail db).2 = log env db "system" action detail.
Proof. intros Hf. unfold AuditSystem, run_tx. by rewrite Hf. Qed.

Definition error_row (r : AuditRow) : Prop := au_Actor r = "system" ∧ au_Action r = "reconcile_error".

Lemma reconcile_run_rows l : Forall (λ x, faults x.1 = []) l → ∀ last db,
  ∃ rows, audit_log (reconcile_run Error l (last, db)).2 = audit_log db ++ rows ∧
    Forall error_row rows ∧
    au_Detail <$> rows = (λ m, [("error", JStr m)]) <$> new_messages Error last l.*2.
Proof.
  induction 1 as [|[env err] l Hf _ IH]; intros last db; simpl.
  { exists []. by rewrite app_nil_r. }
  destruct err as [e|]; simpl; [|apply IH].
  destruct (Error e =? last)%string; simpl; [apply IH|].
  rewrite AuditSystem_faultless by done.
  destruct (IH (Error e) (log env db "system" "reconcile_error" [("error", JStr (Error e))]))
    as (rows & Hl & Hr & Hd).
  eexists (mkAuditRow _ _ _ _ :: rows). unfold reconcile_run in Hl |- *. simpl. rewrite Hl.
  split_and!; [unfold log; simpl; by rewrite <- app_assoc|by constructor|by f_equal].
Qed.

Lemma reconcile_repeats msg l db :
  Forall (λ x, ∃ e, x.2 = Some e ∧ Error e = msg) l → reconcile_run Error l (msg, db) = (msg, db).
Proof.
  induction 1 as [|[env err] l (e & He' & He) _ IH]; [done|]. simpl in *. subst err. simpl.
  rewrite He, String.eqb_refl. apply IH.
Qed.

(** [C31] Failures are audited once: while the audit log can be written, a sequence of reconciles
adds exactly one row per failure that differs from the outcome before it, in order, with its
text. But a failure whose own row could not be written is not audited later either, however
often it recurs. *)
Theorem failures_audited_once last db l :
  (Forall (λ x, faults x.1 = []) l →
   ∃ rows, audit_log (reconcile_run Error l (last, db)).2 = audit_log db ++ rows ∧
     Forall (λ r, au_Actor r = "system" ∧ au_Action r = "reconcile_error") rows ∧
     au_Detail <$> rows = (λ m, [("error", JStr m)]) <$> new_messages Error last l.*2) ∧
  (∀ env e err, AuditSystem env "reconcile_error" [("error", JStr (Error e))] db = (Err err, db) →
     Forall (λ x, ∃ e', x.2 = Some e' ∧ Error e' = Error e) l →
     (reconcile_run Error ((env, Some e) :: l) (last, db)).2 = db).
Proof.
  split; [intros Hf; by apply reconcile_run_rows|]. intros env e err Ha Hl. simpl.
  rewrite Ha. simpl.
  assert ((if (Error e =? last)%string then db else db) = db) as -> by by case_match.
  pose proof (reconcile_repeats (Error e) l db Hl) as Hr. exact (f_equal snd Hr).
Qed.
End audit.

(** ** The claims at concrete inputs *)
Lemma throttle_spec_witness :
  (allow 500 "k" {[ "k" := 0%Z ]}).1 = false ∧ Z.of_nat (size (allow 500 "k" {[ "k" := 0%Z ]}).2) = 1%Z.
Proof.
  destruct (throttle_spec 500 "k" {[ "k" := 0%Z ]} false {[ "k" := 0%Z ]}) as (Hiff & _).
  - vm_compute. reflexivity.
  - vm_compute. congruence.
  - split; [|vm_compute; reflexivity].
    apply allow_refused. apply Hiff. reflexivity.
Defined.

Definition live_pods : list Pod := [demo_pod ws0 "Running" "10.0.0.1" None].
Definition demo_server : Server (list (string * Resources string)) := mkServer [] 0.
Definition demo_run :=
  apply (C := list (string * Resources string)) (S := gmap string json)
    (Ok (PolicyInput demo_db 20)) live_pods "http://admin" demo_server demo_cluster.


(** A Kubernetes server that refuses everything: Envoy is brought up to date, Cilium is not. *)
#[local] Instance refusing_api : KubeAPI unit := {|
  api_Get _ s := (Err (EMsg "refused"), s);
  api_Create _ s := (Some (EMsg "refused"), s);
  api_Update _ s := (Some (EMsg "refused"), s);
  api_List s := (Err (EMsg "refused"), s);
  api_Delete _ s := (Some (EMsg "refused"), s);
  IsNotFound _ := false;
  SetResourceVersion d _ := d
|}.

Definition failed_run : option error * Server (list (string * Resources string)) * unit :=
  apply (C := list (string * Resources string)) (S := unit) (Ok (PolicyInput demo_db 20)) live_pods
    "http://admin" demo_server ().

Lemma apply_fails_safe_witness :
  ∃ inp res snap, Ok (E := error) (PolicyInput demo_db 20) = Ok inp ∧
    Build (params_of (with_pods inp (Running live_pods)) "http://admin") = Ok res ∧
    NewSnapshot (print_nat (sv_version failed_run.1.2)) res = Ok snap ∧ Consistent snap = None.
Proof.
  refine (proj1 (apply_fails_safe (Ok (PolicyInput demo_db 20)) live_pods "http://admin" demo_server ()
    (default (EMsg "") failed_run.1.1) failed_run.1.2 failed_run.2 _) _).
  - fold failed_run. assert (is_Some failed_run.1.1) as Hs by (vm_compute; eauto).
    revert Hs. generalize failed_run. intros [[[e|] xs] k] Hs; [reflexivity|by destruct Hs].
  - vm_compute. discriminate.
Defined.

(** The database goes away for one reconcile, and the failure stays. *)
Definition lost_audit : list (Env * option error) :=
  [(demo_env 10 60, Some (EMsg "apply cilium")); (demo_env 20 60, Some (EMsg "apply cilium"))].

Lemma failures_audited_once_witness :
  (reconcile_run (λ _, "failed") ((mkEnv 5 [Some (EMsg "no server")] (λ _, "") None, Some (EMsg "apply cilium"))
     :: lost_audit) ("", demo_db)).2 = demo_db ∧
  new_messages (λ _, "failed") "" lost_audit.*2 = ["failed"] ∧
  ∃ rows, audit_log (reconcile_run (λ _, "failed") lost_audit ("", demo_db)).2 = audit_log demo_db ++ rows ∧
    Forall (λ r, au_Actor r = "system" ∧ au_Action r = "reconcile_error") rows ∧
    au_Detail <$> rows = [[("error", JStr "failed")]].
Proof.
  destruct (failures_audited_once (λ _, "failed") "" demo_db lost_audit) as [Honce Hlost].
  split_and!; [|reflexivity|apply Honce; by repeat constructor].
  apply (Hlost _ _ (EMsg "no server")); [reflexivity|].
  repeat constructor; eexists; split; reflexivity.
Defined.
