(* ===== verification/Base64.v ===== *)
(** * encoding/base64: RawURLEncoding

Encoding and decoding without padding over the URL alphabet, as Go's
[base64.RawURLEncoding]: the decoder skips line breaks, refuses any other byte
outside the alphabet and a lone final character, and ignores the unused low bits
of a final partial group. *)
From Stdlib Require Import Ascii.
From S2P Require Import Prelude GoLib.
From stdpp Require Import gmap strings list.

(** ** The alphabet *)
Definition enc64 (n : N) : ascii :=
  (if n <? 26 then Ascii.ascii_of_N (65 + n)
   else if n <? 52 then Ascii.ascii_of_N (97 + (n - 26))
   else if n <? 62 then Ascii.ascii_of_N (48 + (n - 52))
   else if n =? 62 then "-"%char else "_"%char)%N.

Definition dec64 (c : ascii) : option N :=
  if is_upper c then Some (byte c - 65)%N
  else if is_lower c then Some (byte c - 97 + 26)%N
  else if is_digit c then Some (byte c - 48 + 52)%N
  else if Ascii.eqb c "-" then Some 62%N
  else if Ascii.eqb c "_" then Some 63%N
  else None.

(** ** Encoding: three bytes become four characters *)
Fixpoint b64 (s : string) : string :=
  match s with
  | "" => ""
  | String a "" =>
      String (enc64 (byte a / 4)) (String (enc64 (byte a mod 4 * 16)) "")
  | String a (String b "") =>
      String (enc64 (byte a / 4)) (String (enc64 (byte a mod 4 * 16 + byte b / 16))
        (String (enc64 (byte b mod 16 * 4)) ""))
  | String a (String b (String c s)) =>
      String (enc64 (byte a / 4)) (String (enc64 (byte a mod 4 * 16 + byte b / 16))
        (String (enc64 (byte b mod 16 * 4 + byte c / 64)) (String (enc64 (byte c mod 64)) (b64 s))))
  end.

(** ** Decoding *)
Fixpoint drop_newlines (s : string) : string :=
  match s with
  | "" => ""
  | String c s =>
      if (byte c =? 10)%N || (byte c =? 13)%N then drop_newlines s
      else String c (drop_newlines s)
  end.

Definition chr_N (n : N) : ascii := Ascii.ascii_of_N n.

Fixpoint decode_groups (s : string) : option string :=
  match s with
  | "" => Some ""
  | String _ "" => None
  | String a (String b "") =>
      match dec64 a, dec64 b with
      | Some x, Some y => Some (String (chr_N (x * 4 + y / 16)) "")
      | _, _ => None
      end
  | String a (String b (String c "")) =>
      match dec64 a, dec64 b, dec64 c with
      | Some x, Some y, Some z =>
          Some (String (chr_N (x * 4 + y / 16)) (String (chr_N (y mod 16 * 16 + z / 4)) ""))
      | _, _, _ => None
      end
  | String a (String b (String c (String d s))) =>
      match dec64 a, dec64 b, dec64 c, dec64 d, decode_groups s with
      | Some x, Some y, Some z, Some w, Some t =>
          Some (String (chr_N (x * 4 + y / 16)) (String (chr_N (y mod 16 * 16 + z / 4))
            (String (chr_N (z mod 4 * 64 + w)) t)))
      | _, _, _, _, _ => None
      end
  end.

Definition DecodeString (s : string) : option string := decode_groups (drop_newlines s).

(** ** Facts *)
Lemma below_64 (P : N → bool) :
  forallb P (N.of_nat <$> seq 0 64) = true → ∀ n, (n < 64)%N → P n = true.
Proof.
  intros HP n Hn. rewrite forallb_forall in HP. apply HP. apply list_elem_of_In, list_elem_of_fmap.
  exists (N.to_nat n). rewrite N2Nat.id. split; [done|]. apply elem_of_seq. lia.
Qed.

Lemma dec_enc64 n : (n < 64)%N → dec64 (enc64 n) = Some n.
Proof.
  intros Hn. assert (bool_decide (dec64 (enc64 n) = Some n) = true) as E;
    [|by apply bool_decide_eq_true in E].
  revert n Hn. apply (below_64 (λ n, bool_decide (dec64 (enc64 n) = Some n))). by vm_compute.
Qed.

(** The alphabet has neither line breaks nor the separators of the cookies. *)
Definition b64_byte (c : ascii) : bool :=
  (byte c <? 128)%N && negb ((byte c =? 10)%N || (byte c =? 13)%N || Ascii.eqb c "." || Ascii.eqb c "|").

Lemma enc64_byte n : (n < 64)%N → b64_byte (enc64 n) = true.
Proof. revert n. apply below_64. by vm_compute. Qed.

Lemma byte_lt c : (byte c < 256)%N.
Proof. apply N_ascii_bounded. Qed.

Lemma chr_byte c : chr_N (byte c) = c.
Proof. apply ascii_N_embedding. Qed.

Lemma byte_div_mod c k : (0 < k)%N → (byte c / k * k + byte c mod k = byte c)%N.
Proof. intros Hk. rewrite (N.mul_comm _ k). symmetry. apply N.div_mod. lia. Qed.

(** Induction three bytes at a time. *)
Lemma string_ind3 (P : string → Prop) :
  P "" → (∀ a, P (String a "")) → (∀ a b, P (String a (String b ""))) →
  (∀ a b c s, P s → P (String a (String b (String c s)))) → ∀ s, P s.
Proof.
  intros H0 H1 H2 H3 s. remember (String.length s) as n eqn:En. revert s En.
  induction (lt_wf n) as [n _ IH]. intros [|a [|b [|c s]]] ->; auto.
  apply H3. eapply IH; [|reflexivity]. simpl. lia.
Qed.

(** Arithmetic on the numbers of the bytes. *)
Ltac solve_bytes :=
  repeat match goal with |- context [byte ?x] =>
    pose proof (byte_lt x); generalize dependent (byte x); intros end;
  zify; Z.to_euclidean_division_equations; lia.

Lemma b64_bytes s : string_forall b64_byte (b64 s) = true.
Proof.
  induction s as [|a|a b|a b c s IH] using string_ind3; cbn [b64 string_forall]; [done|..];
    rewrite ?IH, !andb_true_iff; split_and!; try done; apply enc64_byte;
    solve_bytes.
Qed.

Lemma drop_newlines_id s : string_forall b64_byte s = true → drop_newlines s = s.
Proof.
  induction s as [|c s IH]; simpl; [done|]. intros [Hc Hs]%andb_true_iff. rewrite IH by done.
  unfold b64_byte in Hc. apply andb_true_iff in Hc as [_ Hc%negb_true_iff].
  by destruct ((byte c =? 10)%N || (byte c =? 13)%N).
Qed.

Lemma chr_eq n c : n = byte c → chr_N n = c.
Proof. intros ->. apply chr_byte. Qed.

Lemma decode_b64 s : DecodeString (b64 s) = Some s.
Proof.
  unfold DecodeString. rewrite drop_newlines_id by apply b64_bytes.
  induction s as [|a|a b|a b c s IH] using string_ind3; cbn [b64 decode_groups]; [done|..];
    rewrite !dec_enc64 by solve_bytes; rewrite ?IH; apply (f_equal Some);
    repeat (apply (f_equal2 String); [apply chr_eq; solve_bytes|]); done.
Qed.

Lemma b64_inj s t : b64 s = b64 t → s = t.
Proof. intros E. pose proof (decode_b64 s) as Hs. rewrite E, decode_b64 in Hs. by injection Hs. Qed.
