(* ===== verification/JsonStruct.v ===== *)
(** * encoding/json: structs

How [json.Unmarshal] and [Decoder.Decode] store a value into a Go variable, for the kinds
of variable the code decodes into: strings, bools, int64, structs, slices of structs. A
decoder takes the variable's current content, because [null] and absent fields leave it. *)
From Stdlib Require Import Ascii.
From S2P Require Import Prelude GoLib JsonText.
From stdpp Require Import strings list.

(** [json.Marshal], [json.Unmarshal] into a zero value, and [Decoder.Decode] into one. *)
Class Codec (A : Type) := {
  Marshal : A → string; Unmarshal : string → option A; Decode : string → option A }.

(** ** Field names

The exact name first, then any field whose name is equal under simple case folding: two
letters outside ASCII fold to ASCII ones, U+017F to S and U+212A to K. *)
Definition upper_byte (c : ascii) : ascii := if is_lower c then chrN (byte c - 32) else c.

Definition fold_rune (r : rune) : string :=
  match r with
  | RAscii c => str1 (upper_byte c)
  | RMulti bs =>
      if (bs =? bytes [197; 191])%string then "S"
      else if (bs =? bytes [226; 132; 170])%string then "K" else bs
  | RBad _ => replacement
  end.
Definition fold_name (s : string) : string := foldr (λ r s, fold_rune r +:+ s) "" (runes s).

(** ** Decoders *)
Definition into (A : Type) : Type := A → jv → option A.

Definition into_string : into string := λ cur v,
  match v with JvStr s => Some s | JvNull => Some cur | _ => None end.
Definition into_bool : into bool := λ cur v,
  match v with JvBool b => Some b | JvNull => Some cur | _ => None end.
Definition into_int64 : into Z := λ cur v,
  match v with
  | JvNum lit => let '(n, ok) := Atoi lit in if ok then Some n else None
  | JvNull => Some cur
  | _ => None
  end.

(** A struct field: its name and how a value is stored into it. *)
Definition field (A : Type) : Type := string * into A.
Definition mk_field {A B} (name : string) (dec : into B) (get : A → B) (set : B → A → A) : field A :=
  (name, λ a v, b ← dec (get a) v; Some (set b a)).

Definition find_field {A} (fields : list (field A)) (k : string) : option (field A) :=
  match List.find (λ f, (f.1 =? k)%string) fields with
  | Some f => Some f
  | None => List.find (λ f, (fold_name f.1 =? fold_name k)%string) fields
  end.

(** Members in the order of the text, so the last of several wins; unknown ones are skipped.
A member of the wrong kind fails the whole call. *)
Fixpoint into_members {A} (fields : list (field A)) (a : A) (ms : list (string * jv)) : option A :=
  match ms with
  | [] => Some a
  | (k, v) :: ms =>
      match find_field fields k with
      | None => into_members fields a ms
      | Some (_, dec) => a ← dec a v; into_members fields a ms
      end
  end.

Definition into_struct {A} (fields : list (field A)) : into A := λ a v,
  match v with
  | JvNull => Some a
  | JvObj ms => into_members fields a ms
  | _ => None
  end.

(** A slice is the part in use of its backing array; elements are decoded into what the
backing array holds at their index. *)
Record slice (A : Type) := mkSlice { sl_back : list A; sl_len : nat }.
Arguments mkSlice {A}.
Arguments sl_back {A}.
Arguments sl_len {A}.
Definition nil_slice {A} : slice A := mkSlice [] 0.
Definition elems {A} (s : slice A) : list A := take (sl_len s) (sl_back s).

Fixpoint into_elems {A} (zero : A) (dec : into A) (back : list A) (l : list jv) : option (list A) :=
  match l with
  | [] => Some back
  | v :: l =>
      a ← dec (default zero (head back)) v;
      rest ← into_elems zero dec (tail back) l; Some (a :: rest)
  end.

Definition into_slice {A} (zero : A) (dec : into A) : into (slice A) := λ s v,
  match v with
  | JvNull | JvArr [] => Some nil_slice
  | JvArr l => back ← into_elems zero dec (sl_back s) l; Some (mkSlice back (length l))
  | _ => None
  end.

(** ** The two entry points *)
Definition unmarshal {A} (dec : into A) (zero : A) (text : string) : option A :=
  v ← decode_all_text text; dec zero v.
Definition decode_into {A} (dec : into A) (zero : A) (text : string) : option A :=
  '(v, _) ← decode_first text; dec zero v.

(** ** Facts *)
Definition int64_range (n : Z) : Prop := (min_int64 < n ≤ max_int64)%Z.

Lemma into_int64_Itoa cur n : int64_range n → into_int64 cur (JvNum (Itoa n)) = Some n.
Proof. intros Hn. simpl. by rewrite Atoi_Itoa. Qed.

Lemma unmarshal_encode {A} (dec : into A) zero v a :
  wf v → (depth v ≤ maxNestingDepth)%N → dec zero v = Some a →
  unmarshal dec zero (encode_text v) = Some a.
Proof. intros Hwf Hd Ha. unfold unmarshal. by rewrite decode_encode_text. Qed.

(** A property [P] of the content holds of what is decoded if every field keeps it, from
values that satisfy [Q]. *)
Definition keeps {A} (P : A → Prop) (Q : jv → Prop) (f : field A) : Prop :=
  ∀ a v a', P a → Q v → f.2 a v = Some a' → P a'.

Lemma into_members_inv {A} (P : A → Prop) Q fields : Forall (keeps P Q) fields →
  ∀ ms a a', P a → Forall (λ kv, Q kv.2) ms → into_members fields a ms = Some a' → P a'.
Proof.
  intros Hf ms. induction ms as [|[k v] ms IH]; intros a a' Ha Hq; simpl; [by intros [= <-]|].
  apply Forall_cons in Hq as [Hv Hq].
  destruct (find_field fields k) as [[k' dec]|] eqn:Ek; [|by apply IH].
  intros (b & Hb & Hm)%bind_Some. apply (IH b); [|done..].
  rewrite Forall_forall in Hf. refine (Hf (k', dec) _ a v b Ha Hv Hb).
  apply list_elem_of_In. unfold find_field in Ek.
  case_match eqn:E1; [injection Ek as ->; by apply find_some in E1 as [? _]|].
  by apply find_some in Ek as [? _].
Qed.

Lemma into_struct_inv {A} (P : A → Prop) (Q : jv → Prop) fields zero a' v :
  Forall (keeps P Q) fields → (∀ ms, v = JvObj ms → Forall (λ kv, Q kv.2) ms) →
  P zero → into_struct fields zero v = Some a' → P a'.
Proof.
  intros Hf Hq Hz. destruct v; simpl; try done; [by intros [= <-]|].
  apply (into_members_inv P Q); auto.
Qed.
