(* ===== verification/Url.v ===== *)
(** * What the program uses of net/url, path and net/http

[url.Parse] with its percent-decoding, [path.Clean], and the [Location] header that
[http.Redirect] writes. Of a URL the program looks at the scheme, the host and the path.

The checks on a bracketed IPv6 host are those of Go 1.24 (later releases refuse more):
the program refuses every URL with a host, so they decide nothing here. *)
From Stdlib Require Import Ascii.
From S2P Require Import Prelude GoLib.
From stdpp Require Import strings list.

(** ** Percent-decoding *)
Inductive encoding : Type :=
| encodePath | encodeHost | encodeZone | encodeUserPassword | encodeFragment.

#[export] Instance encoding_eq_dec : EqDecision encoding.
Proof. solve_decision. Defined.

Definition one_of (set : string) (c : ascii) : bool := ContainsByte set c.

(** [shouldEscape] in the two host modes. *)
Definition shouldEscapeHost (c : ascii) : bool :=
  negb (is_upper c || is_lower c || is_digit c || one_of "!$&'()*+,;=:[]<>" c ||
        Ascii.eqb c "034" || one_of "-_.~" c).

Definition host_mode (m : encoding) : bool := bool_decide (m = encodeHost ∨ m = encodeZone).

(** What an escape [%ab] of the byte [v] may not be in a host. *)
Definition bad_escape (m : encoding) (hi lo : N) : bool :=
  let v := (hi * 16 + lo)%N in
  match m with
  | encodeHost => (hi <? 8)%N && negb (v =? 37)%N
  | encodeZone => negb (v =? 37)%N && negb (v =? 32)%N && shouldEscapeHost (Ascii.ascii_of_N v)
  | _ => false
  end.

Fixpoint unescape (s : string) (m : encoding) : option string :=
  match s with
  | "" => Some ""
  | String c s' =>
      if Ascii.eqb c "%" then
        match s' with
        | String a (String b s'') =>
            match unhex a, unhex b with
            | Some hi, Some lo =>
                if bad_escape m hi lo then None
                else String (Ascii.ascii_of_N (hi * 16 + lo)) <$> unescape s'' m
            | _, _ => None
            end
        | _ => None
        end
      else if host_mode m && (byte c <? 128)%N && shouldEscapeHost c then None
      else String c <$> unescape s' m
  end.

(** ** Parse *)
Record URL := mkURL { url_Scheme : string; url_Host : string; url_Path : string }.

Definition is_ctl (c : ascii) : bool := (byte c <? 32)%N || (byte c =? 127)%N.

(** [getScheme]: the scheme and the rest; [None] is "missing protocol scheme". The
characters read so far are in [pre], reversed. *)
Fixpoint scan_scheme (pre : string) (s : string) : option (option (string * string)) :=
  match s with
  | "" => Some None
  | String c s' =>
      if is_upper c || is_lower c then scan_scheme (pre +:+ String c "") s'
      else if is_digit c || one_of "+-." c
      then if (pre =? "")%string then Some None else scan_scheme (pre +:+ String c "") s'
      else if Ascii.eqb c ":"
      then if (pre =? "")%string then None else Some (Some (pre, s'))
      else Some None
  end.

Definition getScheme (rawURL : string) : option (string * string) :=
  match scan_scheme "" rawURL with
  | None => None
  | Some None => Some ("", rawURL)
  | Some (Some r) => Some r
  end.

Definition validOptionalPort (port : string) : bool :=
  match port with "" => true | String c p => Ascii.eqb c ":" && string_forall is_digit p end.

Fixpoint CutString (s sep : string) : option (string * string) :=
  match CutPrefix s sep with
  | Some t => Some ("", t)
  | None =>
      match s with
      | "" => None
      | String c s' => (λ '(a, b), (String c a, b)) <$> CutString s' sep
      end
  end.

Definition parseHost (host : string) : option string :=
  if HasPrefix host "[" then
    match CutLastByte host "]" with
    | None => None
    | Some (inner, colonPort) =>
        if negb (validOptionalPort colonPort) then None else
        match CutString inner "%25" with
        | Some (addr, zone) =>
            h1 ← unescape addr encodeHost;
            h2 ← unescape ("%25" +:+ zone) encodeZone;
            h3 ← unescape ("]" +:+ colonPort) encodeHost;
            Some (h1 +:+ h2 +:+ h3)
        | None => unescape host encodeHost
        end
    end
  else
    match CutLastByte host ":" with
    | Some (_, port) => if string_forall is_digit port then unescape host encodeHost else None
    | None => unescape host encodeHost
    end.

Definition validUserinfo (s : string) : bool :=
  string_forall (λ c, is_upper c || is_lower c || is_digit c || one_of "-._:~!$&'()*+,;=%@" c) s.

(** The host; the user information must be valid but is not used. *)
Definition parseAuthority (authority : string) : option string :=
  match CutLastByte authority "@" with
  | None => parseHost authority
  | Some (userinfo, host) =>
      h ← parseHost host;
      if negb (validUserinfo userinfo) then None else
      match CutByte userinfo ":" with
      | None => _ ← unescape userinfo encodeUserPassword; Some h
      | Some (username, password) =>
          _ ← unescape username encodeUserPassword;
          _ ← unescape password encodeUserPassword; Some h
      end
  end.

(** [rest] without its query; [strings.Cut(rest, "?")] also covers a lone final [?]. *)
Definition cut_or_all (s : string) (c : ascii) : string * string :=
  match CutByte s c with Some (a, b) => (a, b) | None => (s, "") end.

(** [parse(rawURL, false)] *)
Definition parse (rawURL : string) : option URL :=
  if negb (string_forall (λ c, negb (is_ctl c)) rawURL) then None else
  if (rawURL =? "*")%string then Some (mkURL "" "" "*") else
  '(scheme, rest) ← getScheme rawURL;
  let scheme := string_map lower_byte scheme in
  let rest := (cut_or_all rest "?").1 in
  if negb (HasPrefix rest "/") && negb (scheme =? "")%string then Some (mkURL scheme "" "")
  else if negb (HasPrefix rest "/") && ContainsByte (cut_or_all rest "/").1 ":" then None
  else if (negb (scheme =? "")%string || negb (HasPrefix rest "///")) && HasPrefix rest "//" then
    let authority := String.substring 2 (String.length rest - 2) rest in
    let '(authority, rest) :=
      match CutByte authority "/" with Some (a, b) => (a, String "/" b) | None => (authority, "") end in
    host ← parseAuthority authority;
    path ← unescape rest encodePath;
    Some (mkURL scheme host path)
  else
    path ← unescape rest encodePath;
    Some (mkURL scheme "" path).

Definition Parse (rawURL : string) : option URL :=
  let '(u, frag) := cut_or_all rawURL "#" in
  url ← parse u;
  if (frag =? "")%string then Some url else _ ← unescape frag encodeFragment; Some url.

(** ** path.Clean *)
Fixpoint SplitByte (s : string) (c : ascii) : list string :=
  match s with
  | "" => [""]
  | String d s =>
      if Ascii.eqb d c then "" :: SplitByte s c
      else match SplitByte s c with
           | [] => [String d ""]
           | seg :: segs => String d seg :: segs
           end
  end.

(** The elements kept so far, the last one first. *)
Definition clean_step (rooted : bool) (out : list string) (seg : string) : list string :=
  if (seg =? "")%string || (seg =? ".")%string then out
  else if (seg =? "..")%string then
    match out with
    | [] => if rooted then [] else [".."]
    | top :: out' => if (top =? "..")%string then ".." :: out else out'
    end
  else seg :: out.

Definition Clean (path : string) : string :=
  let rooted := HasPrefix path "/" in
  let out := reverse (foldl (clean_step rooted) [] (SplitByte path "/")) in
  if rooted then "/" +:+ GoLib.Join out "/"
  else match out with [] => "." | _ => GoLib.Join out "/" end.

(** ** http.Redirect *)
Definition lower_hex (n : N) : ascii :=
  if (n <? 10)%N then Ascii.ascii_of_N (48 + n) else Ascii.ascii_of_N (87 + n).

Fixpoint hexEscapeNonASCII (s : string) : string :=
  match s with
  | "" => ""
  | String c s =>
      if (byte c <? 128)%N then String c (hexEscapeNonASCII s)
      else String "%" (String (lower_hex (byte c / 16)) (String (lower_hex (byte c mod 16))
             (hexEscapeNonASCII s)))
  end.

(** [path.Split(p)]: up to and including the last slash. *)
Definition split_dir (p : string) : string :=
  match CutLastByte p "/" with Some (d, _) => d +:+ "/" | None => "" end.

(** The URL [http.Redirect] writes on a request for [reqPath], and the [Location]. *)
Definition redirect_url (reqPath url : string) : string :=
  match Parse url with
  | Some u =>
      if (url_Scheme u =? "")%string && (url_Host u =? "")%string then
        let oldpath := if (reqPath =? "")%string then "/" else reqPath in
        let url := if HasPrefix url "/" then url else split_dir oldpath +:+ url in
        let '(url, query) :=
          match CutByte url "?" with Some (a, b) => (a, String "?" b) | None => (url, "") end in
        let trailing := HasSuffix url "/" in
        let url := Clean url in
        (if trailing && negb (HasSuffix url "/") then url +:+ "/" else url) +:+ query
      else url
  | None => url
  end.
Definition redirect_location (reqPath url : string) : string :=
  hexEscapeNonASCII (redirect_url reqPath url).

(** ** What a browser makes of a Location

Browsers drop tabs and line breaks anywhere and control characters and spaces at the ends,
and read a backslash as a slash. A reference stays on the page's origin unless it has a
scheme or names an authority, that is, starts with two slashes. *)
Fixpoint browser_input (s : string) : string :=
  match s with
  | "" => ""
  | String c s =>
      if (byte c =? 9)%N || (byte c =? 10)%N || (byte c =? 13)%N then browser_input s
      else String (if Ascii.eqb c "\" then "/"%char else c) (browser_input s)
  end.

Fixpoint drop_blanks (s : string) : string :=
  match s with
  | String c s' => if (byte c <=? 32)%N then drop_blanks s' else s
  | "" => ""
  end.

Definition same_origin (location : string) : bool :=
  let s := browser_input (drop_blanks location) in
  match scan_scheme "" s with
  | Some None => negb (HasPrefix s "//")
  | _ => false
  end.

Example redirect_examples :
  (redirect_location "/callback" "//evil.com/x", redirect_location "/callback" "/a/../..//b?q=//x",
   redirect_location "/callback" "%2fevil.com", redirect_location "/callback" "//user@/evil.com",
   redirect_location "/callback" "http://evil.com", redirect_location "/callback" "/x/") =
  ("//evil.com/x", "/b?q=//x", "/%2fevil.com", "/user@/evil.com", "http://evil.com", "/x/").
Proof. vm_compute. reflexivity. Qed.

Example same_origin_examples :
  (same_origin "/x", same_origin "//x", same_origin (String "009" "/\x"), same_origin "https://x",
   same_origin (String "/" (String "009" "/x"))) = (true, false, false, false, false).
Proof. vm_compute. reflexivity. Qed.

(** ** Facts *)
Lemma not_HasPrefix_slash c s : c ≠ "/"%char → HasPrefix (String c s) "/" = false.
Proof. intros Hc. apply not_true_is_false. by intros [u [= -> _]]%HasPrefix_spec. Qed.

Lemma SplitByte_cons s c : ∃ seg segs, SplitByte s c = seg :: segs.
Proof.
  destruct s as [|d s]; simpl; [by eexists _, _|]. destruct (Ascii.eqb d c); [by eexists _, _|].
  destruct (SplitByte s c); by eexists _, _.
Qed.

(** Every element of a split satisfies what all bytes satisfy, and lacks the separator. *)
Lemma SplitByte_Forall p s c :
  string_forall p s = true →
  Forall (λ seg, string_forall p seg = true ∧ ContainsByte seg c = false) (SplitByte s c).
Proof.
  induction s as [|d s IH]; simpl; [by repeat constructor|]. intros [Hd Hs]%andb_true_iff.
  specialize (IH Hs). destruct (Ascii.eqb_spec d c) as [->|Hne]; [by constructor|].
  destruct (SplitByte_cons s c) as (seg & segs & E). rewrite E in *.
  apply Forall_cons in IH as [[H1 H2] Hsegs]. constructor; [|done]. simpl.
  rewrite Hd, H1, ContainsByte_cons, H2. by destruct (Ascii.eqb_spec d c).
Qed.

Definition element (p : ascii → bool) (seg : string) : Prop :=
  seg ≠ "" ∧ string_forall p seg = true ∧ ContainsByte seg "/" = false.

Lemma clean_step_elements p out seg :
  string_forall p seg = true ∧ ContainsByte seg "/" = false →
  Forall (element p) out → Forall (element p) (clean_step true out seg).
Proof.
  intros Hseg Hout. unfold clean_step.
  destruct (String.eqb_spec seg "") as [|Hne]; [done|].
  destruct (seg =? ".")%string; [done|]. simpl.
  destruct (String.eqb_spec seg "..") as [->|]; [|by constructor].
  destruct out as [|top out]; [done|].
  destruct (top =? "..")%string; [by constructor|by apply Forall_cons in Hout as [_ ?]].
Qed.

Lemma clean_elements p segs out :
  Forall (λ seg, string_forall p seg = true ∧ ContainsByte seg "/" = false) segs →
  Forall (element p) out → Forall (element p) (foldl (clean_step true) out segs).
Proof.
  revert out. induction segs as [|seg segs IH]; intros out Hs Hout; [done|].
  apply Forall_cons in Hs as [Hseg Hs]. simpl. apply IH; [done|]. by apply clean_step_elements.
Qed.

Lemma Join_elements p out :
  p "/"%char = true → Forall (element p) out →
  string_forall p (GoLib.Join out "/") = true ∧ HasPrefix (GoLib.Join out "/") "/" = false.
Proof.
  intros Hp Hout. assert (string_forall p (GoLib.Join out "/") = true) as Hj.
  { induction Hout as [|x l (_ & Hx & _) _ IH]; [done|]. destruct l as [|y l]; [done|].
    change (GoLib.Join (x :: y :: l) "/") with (x +:+ "/" +:+ GoLib.Join (y :: l) "/").
    rewrite !string_forall_app, Hx, IH. simpl. by rewrite Hp. }
  split; [done|]. destruct Hout as [|x l (Hne & _ & Hslash) _]; [done|].
  destruct x as [|c x]; [done|]. rewrite ContainsByte_cons in Hslash.
  destruct (Ascii.eqb_spec c "/") as [|Hc]; [done|].
  assert (∃ t, GoLib.Join (String c x :: l) "/" = String c t) as [t ->].
  { destruct l; simpl; by eexists. }
  by apply not_HasPrefix_slash.
Qed.

(** [Clean] of a rooted path has one leading slash. *)
Lemma Clean_rooted p path :
  HasPrefix path "/" = true → string_forall p path = true →
  ∃ rest, Clean path = "/" +:+ rest ∧ string_forall p rest = true ∧ HasPrefix rest "/" = false.
Proof.
  intros Hr Hp. unfold Clean. rewrite Hr. eexists. split; [done|].
  apply Join_elements.
  - apply HasPrefix_spec in Hr as [t ->]. simpl in Hp. by apply andb_true_iff in Hp as [? _].
  - apply Forall_reverse, clean_elements; [|done]. by apply SplitByte_Forall.
Qed.

(** Bytes browsers do not rewrite into something else. *)
Definition plain (c : ascii) : bool := negb (is_ctl c) && negb (Ascii.eqb c "\").

Lemma plain_browser c s :
  plain c = true → browser_input (String c s) = String c (browser_input s).
Proof.
  unfold plain, is_ctl. rewrite andb_true_iff, !negb_true_iff, orb_false_iff, N.ltb_ge.
  intros [[Hc _] Hb]. simpl. rewrite Hb.
  by rewrite (proj2 (N.eqb_neq _ 9)), (proj2 (N.eqb_neq _ 10)), (proj2 (N.eqb_neq _ 13)) by lia.
Qed.

Lemma same_origin_path rest :
  string_forall plain rest = true → HasPrefix rest "/" = false →
  same_origin (hexEscapeNonASCII ("/" +:+ rest)) = true.
Proof.
  intros Hp Hs. unfold same_origin.
  change (drop_blanks (hexEscapeNonASCII ("/" +:+ rest))) with (String "/" (hexEscapeNonASCII rest)).
  rewrite plain_browser by done. change (scan_scheme "" (String "/" _)) with (Some (@None (string * string))).
  apply negb_true_iff, not_true_is_false. intros [u [= Hu]]%HasPrefix_spec.
  destruct rest as [|c rest]; [done|]. simpl in Hp, Hu. apply andb_true_iff in Hp as [Hc _].
  destruct (byte c <? 128)%N; [|done]. rewrite plain_browser in Hu by done. injection Hu as -> _.
  unfold HasPrefix in Hs. simpl in Hs. by destruct rest.
Qed.

Lemma CutByte_forall p s c a b :
  CutByte s c = Some (a, b) → string_forall p s = true →
  string_forall p a = true ∧ string_forall p (String c b) = true.
Proof.
  intros [-> _]%CutByte_spec. rewrite string_forall_app. intros [? ?]%andb_true_iff. done.
Qed.

(** A redirect from the root directory to a reference without scheme or host, of plain
bytes, stays on the origin. *)
Lemma redirect_same_origin reqPath url u :
  Parse url = Some u → url_Scheme u = "" → url_Host u = "" → string_forall plain url = true →
  HasPrefix url "/" = true ∨ reqPath ≠ "" ∧ split_dir reqPath = "/" →
  same_origin (redirect_location reqPath url) = true.
Proof.
  intros Hu Hs Hh Hp Hd. unfold redirect_location, redirect_url. rewrite Hu, Hs, Hh. simpl.
  set (url1 := if HasPrefix url "/" then url else _).
  assert (HasPrefix url1 "/" = true ∧ string_forall plain url1 = true) as [Hr Hp1].
  { unfold url1. destruct (HasPrefix url "/") eqn:E; [done|]. destruct Hd as [|[Hne Hd]]; [done|].
    destruct (String.eqb_spec reqPath ""); [done|]. rewrite Hd. split; [|done].
    apply HasPrefix_spec. by exists url. }
  set (cut := match CutByte url1 "?" with Some (a, b) => (a, String "?" b) | None => (url1, "") end).
  assert (∃ x q, cut = (x, q) ∧ HasPrefix x "/" = true ∧ string_forall plain x = true ∧
    string_forall plain q = true ∧ HasPrefix q "/" = false) as (x & q & -> & Hx & Hpx & Hpq & Hq).
  { unfold cut. destruct (CutByte url1 "?") as [[x b]|] eqn:Ec.
    - destruct (CutByte_forall plain _ _ _ _ Ec Hp1) as [? ?]. exists x, (String "?" b).
      split_and!; try done. apply CutByte_spec in Ec as [E Hx]. rewrite E in Hr.
      apply HasPrefix_spec. destruct x as [|c x]; [by apply HasPrefix_spec in Hr as [? ?]|].
      apply HasPrefix_spec in Hr as [t [= -> _]]. by exists x.
    - by exists url1, "". }
  destruct (Clean_rooted plain x Hx Hpx) as (rest & -> & Hrest & Hrs).
  match goal with |- context [(if ?b then ?t else ?e) +:+ q] => set (tail := if b then t else e) end.
  assert (∃ rest', tail +:+ q = "/" +:+ rest' ∧ string_forall plain rest' = true ∧
    HasPrefix rest' "/" = false) as (rest' & -> & ? & ?); [|by apply same_origin_path].
  unfold tail. destruct rest as [|c rest].
  - simpl. rewrite andb_false_r. by exists q.
  - assert (c ≠ "/"%char) as Hc.
    { intros ->. apply not_true_iff_false in Hrs. apply Hrs, HasPrefix_spec. by exists rest. }
    destruct (HasSuffix x "/" && _);
      [exists (String c rest +:+ "/" +:+ q)|exists (String c rest +:+ q)].
    all: rewrite !string_forall_app, Hrest, Hpq, ?string_app_assoc; split_and!;
      [by rewrite <- ?string_app_assoc|done|by apply not_HasPrefix_slash].
Qed.

(** A path with one leading slash is redirected to on the same origin, wherever from. *)
Definition local_target (url : string) : Prop :=
  ∃ rest, url = "/" +:+ rest ∧ string_forall plain rest = true ∧ HasPrefix rest "/" = false.

Lemma redirect_local reqPath url :
  local_target url → same_origin (redirect_location reqPath url) = true.
Proof.
  intros (rest & -> & Hp & Hs).
  assert (same_origin (hexEscapeNonASCII ("/" +:+ rest)) = true) by by apply same_origin_path.
  destruct (Parse ("/" +:+ rest)) as [u|] eqn:E;
    [|unfold redirect_location, redirect_url; by rewrite E].
  destruct ((url_Scheme u =? "")%string && (url_Host u =? "")%string) eqn:Eu;
    [|unfold redirect_location, redirect_url; by rewrite E, Eu].
  apply andb_true_iff in Eu as [Es%String.eqb_eq Eh%String.eqb_eq].
  apply (redirect_same_origin _ _ u); try done. left. apply HasPrefix_spec. by exists rest.
Qed.
