(* ===== verification/Auth.v ===== *)
(** * internal/auth: sessions

A translation of the deciding parts of [admin/internal/auth/auth.go]: signed cookies
([setSigned], [getSigned]), who a request comes from ([User]), the gate before every
handler ([Require]), and starting and ending sessions ([Issue], [Logout]).

HMAC-SHA256 is a parameter; the JSON of a session is that of [JsonText.v] and
[JsonStruct.v]. [New] and the OAuth exchange with Coder are in [OAuth.v]. *)
From Stdlib Require Import Ascii.
From S2P Require Import Prelude GoLib Base64 JsonText JsonStruct.
From stdpp Require Import gmap strings list.

Definition sessionCookie : string := "sc_session".
Definition flowCookie : string := "sc_oauth".
Definition sessionTTL : Z := (8 * Hour)%Z.

Record Config := mkConfig {
  c_CoderURL : string;           (* browser-facing *)
  c_CoderInternalURL : string;   (* server-side *)
  c_ClientID : string;
  c_ClientSecret : string;
  c_CallbackURL : string;
  c_Key : string;                (* cookie HMAC key *)
  c_TestToken : string           (* bearer of the test hook; empty disables it *)
}.

Record User := mkUser {
  u_ID : string; u_Name : string; u_Admin : bool; u_CSRF : string; u_Exp : Z; u_Bearer : bool
}.
Definition no_user : User := mkUser "" "" false "" 0 false.
Definition testUser : User := mkUser "test-hook" "test-hook" true "" 0 true.

(** ** Parameters *)
Class Crypto := { hmac_sha256 : string → string → string }.

(** ** The JSON of a session

[Bearer] is tagged out of the encoding. *)
Definition user_json (u : User) : jv :=
  JvObj [("ID", JvStr (u_ID u)); ("Name", JvStr (u_Name u)); ("Admin", JvBool (u_Admin u));
         ("CSRF", JvStr (u_CSRF u)); ("Exp", JvNum (Itoa (u_Exp u)))].

Definition user_fields : list (field User) :=
  [mk_field "ID" into_string u_ID
     (λ x u, mkUser x (u_Name u) (u_Admin u) (u_CSRF u) (u_Exp u) (u_Bearer u));
   mk_field "Name" into_string u_Name
     (λ x u, mkUser (u_ID u) x (u_Admin u) (u_CSRF u) (u_Exp u) (u_Bearer u));
   mk_field "Admin" into_bool u_Admin
     (λ x u, mkUser (u_ID u) (u_Name u) x (u_CSRF u) (u_Exp u) (u_Bearer u));
   mk_field "CSRF" into_string u_CSRF
     (λ x u, mkUser (u_ID u) (u_Name u) (u_Admin u) x (u_Exp u) (u_Bearer u));
   mk_field "Exp" into_int64 u_Exp
     (λ x u, mkUser (u_ID u) (u_Name u) (u_Admin u) (u_CSRF u) x (u_Bearer u))].

#[export] Instance User_codec : Codec User := {|
  Marshal u := encode_text (user_json u);
  Unmarshal := unmarshal (into_struct user_fields) no_user;
  Decode := decode_into (into_struct user_fields) no_user
|}.

Example user_text :
  Marshal (mkUser "u1" "R&D" true "x" 7 true) =
    dq "{'ID':'u1','Name':'R\u0026D','Admin':true,'CSRF':'x','Exp':7}" ∧
  Unmarshal (dq "{'id':'u1','Exp':null,'Bearer':true,'c\u017frf':'y'}") =
    Some (mkUser "u1" "" false "y" 0 false) ∧
  Unmarshal (A := User) (dq "{'Exp':1.5}") = None ∧ Unmarshal (A := User) "null" = Some no_user.
Proof. by vm_compute. Qed.

(** What can be encoded without loss. *)
Definition storable (u : User) : Prop :=
  valid_utf8 (u_ID u) = true ∧ valid_utf8 (u_Name u) = true ∧ valid_utf8 (u_CSRF u) = true ∧
  int64_range (u_Exp u).

Lemma Marshal_roundtrip u :
  storable u →
  Unmarshal (Marshal u) = Some (mkUser (u_ID u) (u_Name u) (u_Admin u) (u_CSRF u) (u_Exp u) false).
Proof.
  intros (Hid & Hname & Hcsrf & Hexp). apply unmarshal_encode.
  - repeat constructor; try done; by constructor.
  - done.
  - cbn -[Atoi Itoa]. by rewrite Atoi_Itoa.
Qed.

Lemma Unmarshal_bearer raw u : Unmarshal raw = Some u → u_Bearer u = false.
Proof.
  intros (v & _ & Hu)%bind_Some. revert Hu.
  apply (into_struct_inv (λ u, u_Bearer u = false) (λ _, True)); [|by intros; apply Forall_true|done].
  repeat constructor; intros a w a' Ha _ (x & _ & [= <-])%bind_Some; done.
Qed.

(** ** Requests and responses *)
Record Request := mkRequest {
  rq_Method : string;
  rq_Path : list string;                 (* the segments of the path *)
  rq_RequestURI : string;
  rq_Authorization : string;             (* the header, "" when absent *)
  rq_Cookies : list (string * string);
  rq_Query : list (string * string);     (* r.URL.Query() *)
  rq_Form : list (string * string)       (* what r.FormValue reads: body, then query *)
}.

Fixpoint kv_get (l : list (string * string)) (k : string) : option string :=
  match l with
  | [] => None
  | (k', v) :: l => if (k' =? k)%string then Some v else kv_get l k
  end.

Definition FormValue (r : Request) (k : string) : string := default "" (kv_get (rq_Form r) k).

(** What the program sets of [http.Cookie]; the modes of [SameSite] with its zero value. *)
Inductive SameSite : Type :=
| SameSiteUnset | SameSiteDefaultMode | SameSiteLaxMode | SameSiteStrictMode | SameSiteNoneMode.

Record Cookie := mkCookie {
  ck_Name : string;
  ck_Value : string;
  ck_Path : string;
  ck_MaxAge : Z;
  ck_HttpOnly : bool;
  ck_SameSite : SameSite
}.

(** [D] is what the templates are given. *)
Inductive Response (D : Type) : Type :=
| Redirect (to : string) (code : Z)
| HttpError (msg : string) (code : Z)
| Page (data : D)
| Text (body : string)
| WithCookie (c : Cookie) (resp : Response D).
Arguments Redirect {D}.
Arguments HttpError {D}.
Arguments Page {D}.
Arguments Text {D}.
Arguments WithCookie {D}.

(** [url.QueryEscape] *)
Definition unreserved (c : ascii) : bool :=
  is_upper c || is_lower c || is_digit c || Ascii.eqb c "-" || Ascii.eqb c "_" ||
  Ascii.eqb c "." || Ascii.eqb c "~".
Definition upper_hex (n : N) : ascii :=
  if (n <? 10)%N then Ascii.ascii_of_N (48 + n) else Ascii.ascii_of_N (55 + n).
Fixpoint QueryEscape (s : string) : string :=
  match s with
  | "" => ""
  | String c s =>
      if unreserved c then String c (QueryEscape s)
      else if Ascii.eqb c " " then String "+" (QueryEscape s)
      else String "%" (String (upper_hex (byte c / 16)) (String (upper_hex (byte c mod 16))
             (QueryEscape s)))
  end.

(** ** auth.go *)
Section auth.
Context `{Crypto}.

Definition mac (a : Config) (s : string) : string := hmac_sha256 (c_Key a) s.

Definition sign (a : Config) (name payload : string) : string :=
  b64 (mac a (name +:+ "|" +:+ payload)).

(** [int(ttl.Seconds())]: Go truncates toward zero. *)
Definition max_age (ttl : Z) : Z := Z.quot ttl Second.

Definition setSigned {A} `{Codec A} (a : Config) (name : string) (v : A) (ttl : Z) : Cookie :=
  let payload := Marshal v in
  {| ck_Name := name; ck_Value := b64 payload +:+ "." +:+ sign a name (b64 payload);
     ck_Path := "/"; ck_HttpOnly := true; ck_SameSite := SameSiteLaxMode;
     ck_MaxAge := max_age ttl |}.

Definition getSigned {A} `{Codec A} (a : Config) (r : Request) (name : string) : option A :=
  match kv_get (rq_Cookies r) name with
  | None => None
  | Some value =>
      match CutByte value "." with
      | None => None
      | Some (payload, sig) =>
          if negb (sig =? sign a name payload)%string then None else
          match DecodeString payload with
          | None => None
          | Some raw => Unmarshal raw
          end
      end
  end.

Definition bearer : string := "Bearer ".

(** [User]; [now] is [time.Now().Unix()]. *)
Definition User_of (a : Config) (now : Z) (r : Request) : option User :=
  match CutPrefix (rq_Authorization r) bearer with
  | Some tok =>
      if negb (c_TestToken a =? "")%string && (tok =? c_TestToken a)%string
      then Some testUser else None
  | None =>
      match getSigned (A := User) a r sessionCookie with
      | None => None
      | Some u =>
          if (u_Exp u <? now)%Z || (u_ID u =? "")%string || (u_CSRF u =? "")%string
          then None else Some u
      end
  end.

(** [Require] around a handler that acts on a state. *)
Definition Require_ {D S} (a : Config) (now : Z) (admin : bool)
    (h : Request → User → S → Response D * S) (r : Request) (s : S) : Response D * S :=
  match User_of a now r with
  | None =>
      if (rq_Method r =? "GET")%string
      then (Redirect ("/login?next=" +:+ QueryEscape (rq_RequestURI r)) 302, s)
      else (HttpError "login required" 401, s)
  | Some u =>
      if admin && negb (u_Admin u) then (HttpError "admin only" 403, s)
      else if negb (rq_Method r =? "GET")%string && negb (rq_Method r =? "HEAD")%string &&
              negb (u_Bearer u) && negb (FormValue r "csrf" =? u_CSRF u)%string
      then (HttpError "invalid CSRF token; reload the page" 403, s)
      else h r u s
  end.

(** [random], where [rnd] are the 32 bytes that [rand.Read] fills in. *)
Definition random (rnd : string) : string := b64 rnd.

Definition Issue (a : Config) (now : Z) (rnd : string) (u : User) : User * Cookie :=
  let u := mkUser (u_ID u) (u_Name u) (u_Admin u) (random rnd) (now + Z.quot sessionTTL Second)%Z false in
  (u, setSigned a sessionCookie u sessionTTL).

Definition Logout {D} (a : Config) : Response D :=
  WithCookie (setSigned a sessionCookie no_user (-1)) (Redirect "/" 302).

(** ** Facts *)
Lemma getSigned_Some {A} `{Codec A} a r name (v : A) :
  getSigned a r name = Some v ↔
  ∃ payload raw, kv_get (rq_Cookies r) name = Some (payload +:+ "." +:+ sign a name payload) ∧
    ContainsByte payload "." = false ∧ DecodeString payload = Some raw ∧ Unmarshal raw = Some v.
Proof.
  unfold getSigned. split.
  - destruct (kv_get _ name) as [value|]; [|done].
    destruct (CutByte value ".") as [[payload sig]|] eqn:Ec; [|done].
    destruct (String.eqb_spec sig (sign a name payload)) as [->|]; [|done]. simpl.
    apply CutByte_spec in Ec as [-> Hd].
    destruct (DecodeString payload) as [raw|] eqn:Er; [|done]. intros Hu.
    exists payload, raw. by ssimp.
  - intros (payload & raw & -> & Hd & Hr & Hu).
    assert (CutByte (payload +:+ "." +:+ sign a name payload) "." =
      Some (payload, sign a name payload)) as ->.
    { apply CutByte_spec. by ssimp. }
    by rewrite String.eqb_refl, Hr.
Qed.

Lemma b64_no_dot s : ContainsByte (b64 s) "." = false.
Proof.
  rewrite ContainsByte_forall. apply negb_false_iff. eapply string_forall_impl; [|apply b64_bytes].
  intros c Hc. destruct (Ascii.eqb_spec c ".") as [->|]; [by vm_compute in Hc|done].
Qed.

Lemma b64_valid s : valid_utf8 (b64 s) = true.
Proof.
  apply is_ascii_valid. eapply string_forall_impl; [|apply b64_bytes]. intros c.
  by intros [? _]%andb_true_iff.
Qed.

(** What [setSigned] sets, [getSigned] reads. *)
Lemma setSigned_getSigned {A} `{Codec A} a r name (v w : A) ttl :
  kv_get (rq_Cookies r) name = Some (ck_Value (setSigned a name v ttl)) →
  Unmarshal (Marshal v) = Some w → getSigned a r name = Some w.
Proof.
  intros Hc Hw. apply getSigned_Some. exists (b64 (Marshal v)), (Marshal v).
  split_and!; [done|apply b64_no_dot|apply decode_b64|done].
Qed.
End auth.

Section claims.
Context `{Crypto}.

(** [C10] A request is attributed to a user only with proof: either it carries the test-hook
bearer, enabled and equal to the configured token, or it carries no bearer and its session
cookie is a payload signed with the server's key for that cookie's name, holding an
unexpired user with an identity and a CSRF token; such a user never counts as a bearer. *)
Theorem User_authentic a now r u :
  User_of a now r = Some u →
  (∃ tok, rq_Authorization r = "Bearer " +:+ tok ∧ c_TestToken a ≠ "" ∧ tok = c_TestToken a ∧
     u = testUser) ∨
  (HasPrefix (rq_Authorization r) "Bearer " = false ∧ u_Bearer u = false ∧
   (now ≤ u_Exp u)%Z ∧ u_ID u ≠ "" ∧ u_CSRF u ≠ "" ∧
   ∃ payload raw, kv_get (rq_Cookies r) sessionCookie =
       Some (payload +:+ "." +:+ b64 (mac a (sessionCookie +:+ "|" +:+ payload))) ∧
     DecodeString payload = Some raw ∧ Unmarshal raw = Some u).
Proof.
  unfold User_of. destruct (CutPrefix (rq_Authorization r) bearer) as [tok|] eqn:Ep.
  - apply CutPrefix_spec in Ep. destruct (String.eqb_spec (c_TestToken a) ""); [done|]. simpl.
    destruct (String.eqb_spec tok (c_TestToken a)); [|done]. intros [= <-]. left. by exists tok.
  - destruct (getSigned _ _ _) as [v|] eqn:Eg; [|done].
    destruct (Z.ltb_spec (u_Exp v) now); [done|].
    destruct (String.eqb_spec (u_ID v) ""); [done|].
    destruct (String.eqb_spec (u_CSRF v) ""); [done|]. simpl. intros [= <-]. right.
    apply getSigned_Some in Eg as (payload & raw & Hc & _ & Hr & Hu).
    split_and!; [|by eapply Unmarshal_bearer|done..|by exists payload, raw].
    apply not_true_is_false. intros [t Ht]%HasPrefix_spec. change "Bearer " with bearer in Ht.
    apply CutPrefix_spec in Ht. congruence.
Qed.

(** A session lasts eight hours: what [Issue] sets is accepted as that user, with its
fresh CSRF token, at any time up to the expiry it records, and refused afterwards. *)
Theorem session_roundtrip a now rnd u r later :
  valid_utf8 (u_ID u) = true → valid_utf8 (u_Name u) = true → int64_range (now + 28800) →
  u_ID u ≠ "" → b64 rnd ≠ "" → CutPrefix (rq_Authorization r) "Bearer " = None →
  kv_get (rq_Cookies r) sessionCookie = Some (ck_Value (Issue a now rnd u).2) →
  User_of a later r =
  if (now + 28800 <? later)%Z then None
  else Some (mkUser (u_ID u) (u_Name u) (u_Admin u) (b64 rnd) (now + 28800) false).
Proof.
  intros Hvi Hvn Hexp Hid Hr Hb Hc. unfold User_of. change bearer with "Bearer ". rewrite Hb.
  set (v := mkUser (u_ID u) (u_Name u) (u_Admin u) (b64 rnd) (now + 28800) false).
  rewrite (setSigned_getSigned a r sessionCookie v v sessionTTL Hc);
    [|apply Marshal_roundtrip; split_and!; try done; apply b64_valid]. simpl.
  destruct (now + 28800 <? later)%Z; [done|].
  destruct (String.eqb_spec (u_ID u) ""); [done|].
  by destruct (String.eqb_spec (b64 rnd) "").
Qed.

(** A value signed for one cookie is no good for another: if the same value is accepted
under two names, the names are the same or the MAC collides on two different messages. *)
Theorem cookies_not_interchangeable {A B} `{Codec A, Codec B} a r1 r2 n1 n2 value (x : A) (y : B) :
  kv_get (rq_Cookies r1) n1 = Some value → kv_get (rq_Cookies r2) n2 = Some value →
  getSigned a r1 n1 = Some x → getSigned a r2 n2 = Some y →
  n1 = n2 ∨ ∃ m1 m2, m1 ≠ m2 ∧ mac a m1 = mac a m2.
Proof.
  intros Hv1 Hv2 (p1 & raw1 & E1 & Hd1 & _)%getSigned_Some (p2 & raw2 & E2 & Hd2 & _)%getSigned_Some.
  rewrite Hv1 in E1. rewrite Hv2 in E2. injection E1 as E1. injection E2 as E2.
  assert (CutByte value "." = Some (p1, sign a n1 p1)) as C1 by (apply CutByte_spec; subst; by ssimp).
  assert (CutByte value "." = Some (p2, sign a n2 p2)) as C2.
  { apply CutByte_spec. rewrite E2. by ssimp. }
  rewrite C2 in C1. injection C1 as -> Hsig. apply b64_inj in Hsig.
  destruct (decide (n1 = n2)) as [|Hne]; [by left|right].
  exists (n2 +:+ "|" +:+ p1), (n1 +:+ "|" +:+ p1). split; [|done].
  intros Heq. apply string_app_inv_r in Heq. congruence.
Qed.

(** The gate: a handler behind [Require] acts only for an authenticated user, an
administrator where one is required, and on a request that is GET or HEAD, comes from the
bearer, or carries the session's CSRF token; otherwise the state is unchanged and the
answer is a login redirect, 401 or 403. *)
Theorem Require_gate {D S} a now admin (h : Request → User → S → Response D * S) r s :
  (∃ u, User_of a now r = Some u ∧ (admin = true → u_Admin u = true) ∧
     (rq_Method r = "GET" ∨ rq_Method r = "HEAD" ∨ u_Bearer u = true ∨
      FormValue r "csrf" = u_CSRF u) ∧
     Require_ a now admin h r s = h r u s) ∨
  ((Require_ a now admin h r s).2 = s ∧
   ((∃ to, (Require_ a now admin h r s).1 = Redirect to 302 ∧ HasPrefix to "/login?next=" = true) ∨
    ∃ msg code, (Require_ a now admin h r s).1 = HttpError msg code ∧ (code = 401 ∨ code = 403)%Z)).
Proof.
  unfold Require_. destruct (User_of a now r) as [u|].
  - destruct admin, (u_Admin u) eqn:Ea; simpl; try (right; split; [done|right; by eauto]).
    all: destruct (String.eqb_spec (rq_Method r) "GET"); simpl; [left; exists u; naive_solver|].
    all: destruct (String.eqb_spec (rq_Method r) "HEAD"); simpl; [left; exists u; naive_solver|].
    all: destruct (u_Bearer u) eqn:Eb; simpl; [left; exists u; naive_solver|].
    all: destruct (String.eqb_spec (FormValue r "csrf") (u_CSRF u)); simpl;
      [left; exists u; naive_solver|right; split; [done|right; by eauto]].
  - right. destruct (String.eqb_spec (rq_Method r) "GET"); simpl; split; try done.
    + left. eexists. split; [done|]. apply HasPrefix_spec. by eexists.
    + right. eauto.
Qed.

(** [C40] Logging out ends the session, but not by deleting the cookie: the cookie it sets is
never accepted as a user, while its Max-Age is 0, which leaves the cookie in the browser
(-1 nanosecond truncates to 0 seconds; only a negative Max-Age deletes). *)
Theorem Logout_ends_session a r now :
  (0 < now)%Z → CutPrefix (rq_Authorization r) "Bearer " = None →
  ∃ ck, Logout (D := unit) a = WithCookie ck (Redirect "/" 302) ∧ ck_MaxAge ck = 0%Z ∧
    (kv_get (rq_Cookies r) sessionCookie = Some (ck_Value ck) → User_of a now r = None).
Proof.
  intros Hnow Hb. eexists. split_and!; [done..|]. intros Hc. unfold User_of. change bearer with "Bearer ". rewrite Hb.
  rewrite (setSigned_getSigned a r sessionCookie no_user no_user (-1) Hc);
    [|by apply Marshal_roundtrip]. simpl.
  by destruct (Z.ltb_spec 0 now); [|lia].
Qed.
End claims.

(** ** A concrete server

Its MAC merely prefixes the key. *)
#[export] Instance demo_crypto : Crypto := {| hmac_sha256 k s := k +:+ s |}.

Definition demo_config : Config :=
  mkConfig "http://coder/" "http://coder.svc/" "id" "secret" "http://admin/callback"
    "0123456789abcdef0123456789abcdef" "hook".

Definition demo_user : User := mkUser "u1" "dev" false "" 0 false.
Definition demo_session : User * Cookie := Issue demo_config 1000 "random" demo_user.

(** A request without bearer that carries the session. *)
Definition demo_request (m : string) (path : list string) (form : list (string * string)) : Request :=
  mkRequest m path "/" "" [(sessionCookie, ck_Value demo_session.2)] [] form.

Definition bearer_request (m : string) (path : list string) (form : list (string * string)) : Request :=
  mkRequest m path "/" "Bearer hook" [] [] form.

Lemma session_roundtrip_witness :
  User_of demo_config 29801 (demo_request "GET" ["mine"] []) = None ∧
  User_of demo_config 2000 (demo_request "GET" ["mine"] []) =
    Some (mkUser "u1" "dev" false (b64 "random") 29800 false).
Proof.
  split; refine (session_roundtrip demo_config 1000 "random" demo_user _ _ _ _ _ _ _ _ _);
    try reflexivity; try (vm_compute; discriminate); (split; vm_compute; [reflexivity|discriminate]).
Defined.

Lemma User_authentic_witness : u_Bearer testUser = true ∧ c_TestToken demo_config ≠ "".
Proof.
  split; [done|].
  destruct (User_authentic demo_config 2000 (bearer_request "GET" ["queue"] []) testUser)
    as [(tok & _ & Ht & _)|(_ & Hb & _)]; [reflexivity|exact Ht|discriminate Hb].
Defined.

Lemma cookies_not_interchangeable_witness :
  sessionCookie = sessionCookie ∨
  ∃ m1 m2, m1 ≠ m2 ∧ mac demo_config m1 = mac demo_config m2.
Proof.
  pose (r := demo_request "GET" ["mine"] []).
  pose (u := mkUser "u1" "dev" false (b64 "random") 29800 false).
  refine (cookies_not_interchangeable demo_config r r sessionCookie sessionCookie
    (ck_Value demo_session.2) u u _ _ _ _); reflexivity.
Defined.

Lemma Logout_ends_session_witness :
  ∃ ck, Logout (D := unit) demo_config = WithCookie ck (Redirect "/" 302) ∧ ck_MaxAge ck = 0%Z ∧
    (kv_get [(sessionCookie, ck_Value ck)] sessionCookie = Some (ck_Value ck) →
     User_of demo_config 2000 (mkRequest "GET" ["mine"] "/" "" [(sessionCookie, ck_Value ck)] [] [])
       = None).
Proof.
  pose (ck := setSigned demo_config sessionCookie no_user (-1)).
  destruct (Logout_ends_session demo_config
    (mkRequest "GET" ["mine"] "/" "" [(sessionCookie, ck_Value ck)] [] []) 2000) as (ck' & H1 & H2 & H3);
    [reflexivity..|].
  exists ck. split_and!; [reflexivity..|]. intros _. apply H3. injection H1 as <-. reflexivity.
Defined.
