(* ===== verification/OAuth.v ===== *)
(** * internal/auth: logging in through Coder

A translation of the OAuth part of [admin/internal/auth/auth.go]: [New], [Login] with
[localPath], [Callback] and [me]. The library golang.org/x/oauth2 and Coder are
parameters: the URL the library makes, and what the token endpoint and the user endpoint
answer. *)
From Stdlib Require Import Ascii.
From S2P Require Import Prelude GoLib Base64 JsonText JsonStruct JsonValid Url Auth.
From stdpp Require Import strings list.

(** ** Parameters *)
Record OAuthConfig := mkOAuthConfig {
  oc_ClientID : string; oc_ClientSecret : string; oc_RedirectURL : string;
  oc_AuthURL : string; oc_TokenURL : string
}.

(** [Config.AuthCodeURL] with the S256 challenge of a verifier. *)
Class OAuth2 := { AuthCodeURL : OAuthConfig → string → string → string }.

Record HTTPResponse := mkHTTPResponse { hr_StatusCode : Z; hr_Status : string; hr_Body : string }.

(** The outside world of one callback: the token endpoint for a code and a verifier, and
the answer to a GET of a URL with an [Authorization] header. *)
Record Coder := mkCoder {
  cd_Exchange : OAuthConfig → string → string → result error string;
  cd_Get : string → string → result error HTTPResponse
}.

(** ** auth.go *)
Record flow := mkFlow { f_State : string; f_Verifier : string; f_Next : string; f_Exp : Z }.
Definition no_flow : flow := mkFlow "" "" "" 0.

Definition flow_json (f : flow) : jv :=
  JvObj [("State", JvStr (f_State f)); ("Verifier", JvStr (f_Verifier f));
         ("Next", JvStr (f_Next f)); ("Exp", JvNum (Itoa (f_Exp f)))].

Definition flow_fields : list (field flow) :=
  [mk_field "State" into_string f_State (λ x f, mkFlow x (f_Verifier f) (f_Next f) (f_Exp f));
   mk_field "Verifier" into_string f_Verifier (λ x f, mkFlow (f_State f) x (f_Next f) (f_Exp f));
   mk_field "Next" into_string f_Next (λ x f, mkFlow (f_State f) (f_Verifier f) x (f_Exp f));
   mk_field "Exp" into_int64 f_Exp (λ x f, mkFlow (f_State f) (f_Verifier f) (f_Next f) x)].

#[export] Instance flow_codec : Codec flow := {|
  Marshal f := encode_text (flow_json f);
  Unmarshal := unmarshal (into_struct flow_fields) no_flow;
  Decode := decode_into (into_struct flow_fields) no_flow
|}.

(** The struct [me] decodes into; a role is its name. *)
Record Me := mkMe { me_ID : string; me_Username : string; me_Roles : slice string }.
Definition no_me : Me := mkMe "" "" nil_slice.

Definition role_fields : list (field string) := [mk_field "name" into_string id (λ x _, x)].
Definition me_fields : list (field Me) :=
  [mk_field "id" into_string me_ID (λ x m, mkMe x (me_Username m) (me_Roles m));
   mk_field "username" into_string me_Username (λ x m, mkMe (me_ID m) x (me_Roles m));
   mk_field "roles" (into_slice "" (into_struct role_fields)) me_Roles
     (λ x m, mkMe (me_ID m) (me_Username m) x)].
Definition decode_me : string → option Me := decode_into (into_struct me_fields) no_me.

Example me_text :
  (λ m, (me_ID m, me_Username m, elems (me_Roles m))) <$>
    decode_me (dq "{'id':'7','Username':'ann','roles':[{'name':'owner','x':[1]},null],'q':{}} tail") =
  Some ("7", "ann", ["owner"; ""]) ∧
  decode_me (dq "{'id':7}") = None ∧ decode_me "" = None.
Proof. by vm_compute. Qed.

Record Auth := mkAuth { a_c : Config; a_oauth : OAuthConfig }.

Definition New (c : Config) : result error Auth :=
  if String.length (c_Key c) <? 32
  then Err (EMsg "session key must be at least 32 bytes")
  else Ok (mkAuth c (mkOAuthConfig (c_ClientID c) (c_ClientSecret c) (c_CallbackURL c)
             (TrimRightByte (c_CoderURL c) "/" +:+ "/oauth2/authorize")
             (TrimRightByte (c_CoderInternalURL c) "/" +:+ "/oauth2/tokens"))).

Lemma New_Ok c a : New c = Ok a → a_c a = c ∧ 32 ≤ String.length (c_Key c).
Proof. unfold New. destruct (Nat.ltb_spec (String.length (c_Key c)) 32); [done|]. by intros [= <-]. Qed.

Definition localPath (next : string) : bool :=
  match Parse next with
  | None => false
  | Some u =>
      if negb (url_Scheme u =? "")%string || negb (url_Host u =? "")%string ||
         negb (HasPrefix (url_Path u) "/") || HasPrefix (url_Path u) "//"
      then false
      else string_forall plain (next +:+ url_Path u)
  end.

Definition flowTTL : Z := (10 * Minute)%Z.

Section oauth.
Context `{Crypto, OAuth2}.

(** [rnd] and [verifier] are what [random] and [GenerateVerifier] draw. *)
Definition Login {D} (a : Auth) (now : Z) (rnd verifier : string) (r : Request) : Response D :=
  let next := default "" (kv_get (rq_Query r) "next") in
  let next := if localPath next then next else "/" in
  let f := mkFlow (random rnd) verifier next (now + Z.quot flowTTL Second)%Z in
  WithCookie (setSigned (a_c a) flowCookie f flowTTL)
    (Redirect (AuthCodeURL (a_oauth a) (f_State f) (f_Verifier f)) 302).

Definition is_admin_role (role : string) : bool :=
  (role =? "owner")%string || (role =? "user-admin")%string.

Definition StatusOK : Z := 200.

(** Decoding errors and an empty ID are reported alike; the text is not spelled out. *)
Definition me (a : Auth) (w : Coder) (token : string) : result error User :=
  let? resp := cd_Get w (TrimRightByte (c_CoderInternalURL (a_c a)) "/" +:+ "/api/v2/users/me")
                 ("Bearer " +:+ token) in
  if negb (hr_StatusCode resp =? StatusOK)%Z
  then Err (EMsg ("users/me: " +:+ hr_Status resp)) else
  match decode_me (hr_Body resp) with
  | None => Err (EMsg "users/me: bad body")
  | Some m =>
      if (me_ID m =? "")%string then Err (EMsg "users/me: bad body") else
      Ok (foldl (λ u role, if is_admin_role role
                  then mkUser (u_ID u) (u_Name u) true (u_CSRF u) (u_Exp u) (u_Bearer u) else u)
           (mkUser (me_ID m) (me_Username m) false "" 0 false) (elems (me_Roles m)))
  end.

Definition Callback {D} (a : Auth) (w : Coder) (now : Z) (rnd : string) (r : Request)
    : Response D :=
  let state := default "" (kv_get (rq_Query r) "state") in
  match getSigned (A := flow) (a_c a) r flowCookie with
  | None => HttpError "login expired or invalid; start again at /login" 400
  | Some f =>
      if (f_Exp f <? now)%Z || negb (state =? f_State f)%string
      then HttpError "login expired or invalid; start again at /login" 400
      else WithCookie (setSigned (a_c a) flowCookie no_flow (-1))
        match cd_Exchange w (a_oauth a) (default "" (kv_get (rq_Query r) "code")) (f_Verifier f) with
        | Err _ => HttpError "coder token exchange failed" 502
        | Ok token =>
            match me a w token with
            | Err _ => HttpError "coder user lookup failed" 502
            | Ok u => WithCookie (Issue (a_c a) now rnd u).2 (Redirect (f_Next f) 302)
            end
        end
  end.

(** ** Facts *)
Lemma localPath_plain next :
  localPath next = true →
  ∃ u, Parse next = Some u ∧ url_Scheme u = "" ∧ url_Host u = "" ∧ string_forall plain next = true.
Proof.
  unfold localPath. destruct (Parse next) as [u|]; [|done].
  destruct (String.eqb_spec (url_Scheme u) ""); [|done].
  destruct (String.eqb_spec (url_Host u) ""); [|done]. simpl.
  destruct (_ || _); [done|]. rewrite string_forall_app. intros [? _]%andb_true_iff. by exists u.
Qed.

(** Where [Login] would send its user after the callback. *)
Definition login_next (r : Request) : string :=
  let next := default "" (kv_get (rq_Query r) "next") in if localPath next then next else "/".

Lemma login_next_same_origin r :
  same_origin (redirect_location "/callback" (login_next r)) = true.
Proof.
  unfold login_next. destruct (localPath _) eqn:E; [|done].
  apply localPath_plain in E as (u & ? & ? & ? & ?). apply (redirect_same_origin _ _ u); auto.
Qed.

(** The admin flag is the presence of an admin role. *)
Lemma roles_admin roles u :
  foldl (λ u role, if is_admin_role role
      then mkUser (u_ID u) (u_Name u) true (u_CSRF u) (u_Exp u) (u_Bearer u) else u) u roles =
  mkUser (u_ID u) (u_Name u) (u_Admin u || existsb is_admin_role roles) (u_CSRF u) (u_Exp u) (u_Bearer u).
Proof.
  revert u. induction roles as [|role roles IH]; intros u; simpl; [by rewrite orb_false_r; destruct u|].
  rewrite IH. destruct (is_admin_role role); simpl; by rewrite ?orb_true_r.
Qed.

Lemma me_Ok a w token u :
  me a w token = Ok u ↔
  ∃ status body m, cd_Get w (TrimRightByte (c_CoderInternalURL (a_c a)) "/" +:+ "/api/v2/users/me")
      ("Bearer " +:+ token) = Ok (mkHTTPResponse 200 status body) ∧
    decode_me body = Some m ∧ me_ID m ≠ "" ∧
    u = mkUser (me_ID m) (me_Username m) (existsb is_admin_role (elems (me_Roles m))) "" 0 false.
Proof.
  unfold me. rewrite result_bind_Ok. split.
  - intros ([code status body] & Hg & Hu). simpl in *.
    destruct (Z.eqb_spec code StatusOK) as [->|]; [|done]. simpl in Hu.
    destruct (decode_me body) as [m|] eqn:Em; [|done].
    destruct (String.eqb_spec (me_ID m) ""); [done|]. injection Hu as <-.
    rewrite roles_admin. by exists status, body, m.
  - intros (status & body & m & Hg & Hm & Hid & ->). eexists. split; [exact Hg|]. simpl.
    rewrite Hm. destruct (String.eqb_spec (me_ID m) ""); [done|]. by rewrite roles_admin.
Qed.
End oauth.

Lemma flow_roundtrip f :
  valid_utf8 (f_State f) = true → valid_utf8 (f_Verifier f) = true → valid_utf8 (f_Next f) = true →
  int64_range (f_Exp f) → Unmarshal (Marshal f) = Some f.
Proof.
  intros Hs Hv Hn He. apply unmarshal_encode.
  - repeat constructor; try done; by constructor.
  - done.
  - cbn -[Atoi Itoa]. rewrite Atoi_Itoa by done. by destruct f.
Qed.

(** Whatever Coder answers, the identity taken from it can be stored in a session. *)
Lemma into_string_valid cur v x :
  valid_utf8 cur = true → jv_valid v = true → into_string cur v = Some x → valid_utf8 x = true.
Proof. destruct v; simpl; naive_solver. Qed.

Lemma decode_me_valid body m :
  decode_me body = Some m → valid_utf8 (me_ID m) = true ∧ valid_utf8 (me_Username m) = true.
Proof.
  intros ([v rest] & Hv%decode_first_valid & Hm)%bind_Some.
  revert Hm. apply (into_struct_inv
    (λ m, valid_utf8 (me_ID m) = true ∧ valid_utf8 (me_Username m) = true) (λ v, jv_valid v = true));
    [|intros ms ->|done].
  - repeat first [apply Forall_nil_2|apply Forall_cons_2]; intros a w a' [Hi Hu] Hw (x & Hx & [= <-])%bind_Some;
      eauto using into_string_valid.
  - apply Forall_forall. intros kv Hkv%list_elem_of_In. cbn [jv_valid] in Hv.
    rewrite forallb_forall in Hv. by apply Hv, andb_true_iff in Hkv as [_ ?].
Qed.

Fixpoint cookies_of {D} (resp : Response D) : list Cookie :=
  match resp with WithCookie c resp => c :: cookies_of resp | _ => [] end.

Lemma b64_nonempty s : s ≠ "" → b64 s ≠ "".
Proof. intros Hs Hb. apply Hs, b64_inj. by rewrite Hb. Qed.

Section claims.
Context `{Crypto, OAuth2}.

(** [C26] No open redirect: wherever a login link asks to be sent, the [Location] written
after the callback is one that a browser resolves on the same origin. This holds for every
[next] that [localPath] accepts, and [Login] replaces the others. *)
Theorem login_stays_local (r : Request) (next : string) :
  (localPath next = true → same_origin (redirect_location "/callback" next) = true) ∧
  same_origin (redirect_location "/callback" (login_next r)) = true.
Proof.
  split; [|apply login_next_same_origin]. intros (u & ? & ? & ? & ?)%localPath_plain.
  apply (redirect_same_origin _ _ u); auto.
Qed.

(** [C11] A session is started only by a completed login: when [Callback] sets the session
cookie, the request carried a flow cookie signed by this server and not expired, repeated
its state, the token endpoint accepted the code with that flow's verifier, and Coder
answered for that token with the user of the session, administrator exactly if it has an
admin role. That cookie then stands for exactly this user, whatever text its name is, for
the eight hours of the session and not longer. *)
Theorem Callback_authentic {D} (a : Auth) (w : Coder) now rnd (r : Request) ck :
  ck ∈ cookies_of (Callback (D := D) a w now rnd r) → ck_Name ck = sessionCookie →
  rnd ≠ "" → int64_range (now + 28800) →
  ∃ payload raw f token status body m,
    kv_get (rq_Cookies r) flowCookie =
      Some (payload +:+ "." +:+ b64 (mac (a_c a) (flowCookie +:+ "|" +:+ payload))) ∧
    DecodeString payload = Some raw ∧ Unmarshal raw = Some f ∧ (now ≤ f_Exp f)%Z ∧
    default "" (kv_get (rq_Query r) "state") = f_State f ∧
    cd_Exchange w (a_oauth a) (default "" (kv_get (rq_Query r) "code")) (f_Verifier f) = Ok token ∧
    cd_Get w (TrimRightByte (c_CoderInternalURL (a_c a)) "/" +:+ "/api/v2/users/me")
      ("Bearer " +:+ token) = Ok (mkHTTPResponse 200 status body) ∧
    decode_me body = Some m ∧ me_ID m ≠ "" ∧
    ∀ later r', CutPrefix (rq_Authorization r') "Bearer " = None →
      kv_get (rq_Cookies r') sessionCookie = Some (ck_Value ck) →
      User_of (a_c a) later r' =
      if (now + 28800 <? later)%Z then None
      else Some (mkUser (me_ID m) (me_Username m) (existsb is_admin_role (elems (me_Roles m)))
                   (b64 rnd) (now + 28800) false).
Proof.
  unfold Callback. destruct (getSigned _ r flowCookie) as [f|] eqn:Ef; [|by intros ?%elem_of_nil].
  destruct (Z.ltb_spec (f_Exp f) now); [by intros ?%elem_of_nil|].
  destruct (String.eqb_spec (default "" (kv_get (rq_Query r) "state")) (f_State f));
    [|by intros ?%elem_of_nil].
  cbn [orb negb cookies_of]. intros [->|Hck]%elem_of_cons; [done|]. intros _ Hrnd Hnow.
  destruct (cd_Exchange _ _ _ _) as [token|] eqn:Ex; [|by apply elem_of_nil in Hck].
  destruct (me a w token) as [u|] eqn:Em; [|by apply elem_of_nil in Hck].
  apply list_elem_of_singleton in Hck as ->.
  apply me_Ok in Em as (status & body & m & Hg & Hb & Hid & ->).
  apply getSigned_Some in Ef as (payload & raw & Hc & _ & Hr & Hu).
  destruct (decode_me_valid _ _ Hb) as [Hvi Hvn].
  exists payload, raw, f, token, status, body, m. split_and!; try done.
  intros later r' Ha Hk. apply b64_nonempty in Hrnd.
  exact (session_roundtrip (a_c a) now rnd (mkUser _ _ _ _ _ _) r' later Hvi Hvn Hnow Hid Hrnd Ha Hk).
Qed.

End claims.

(** ** A concrete login *)
#[export] Instance demo_oauth2 : OAuth2 :=
  {| AuthCodeURL c state verifier := oc_AuthURL c +:+ "?state=" +:+ state |}.

Definition demo_auth : Auth := match New demo_config with Ok a => a | Err _ => mkAuth demo_config
  (mkOAuthConfig "" "" "" "" "") end.

Definition demo_coder : Coder := mkCoder
  (λ _ code verifier, if (code =? "code")%string && (verifier =? "verifier")%string
                      then Ok "token" else Err (EMsg "invalid_grant"))
  (λ url auth, if (auth =? "Bearer token")%string
     then Ok (mkHTTPResponse 200 "200 OK"
       (dq "{'id':'7','username':'ann','roles':[{'name':'owner'}]}"))
     else Ok (mkHTTPResponse 401 "401 Unauthorized" "")).

Definition login_request : Request :=
  mkRequest "GET" ["login"] "/login?next=/mine" "" [] [("next", "/mine")] [].
Definition login_cookie : Cookie :=
  default (mkCookie "" "" "" 0 false SameSiteUnset)
    (head (cookies_of (Login (D := unit) demo_auth 1000 "nonce" "verifier" login_request))).
Definition callback_request : Request :=
  mkRequest "GET" ["callback"] "/callback" "" [(flowCookie, ck_Value login_cookie)]
    [("state", b64 "nonce"); ("code", "code")] [].
Definition ann : User := mkUser "7" "ann" true "" 0 false.

Lemma int64_range_dec n : (min_int64 <? n)%Z && (n <=? max_int64)%Z = true → int64_range n.
Proof. intros [?%Z.ltb_lt ?%Z.leb_le]%andb_true_iff. by split. Qed.

Lemma login_stays_local_witness :
  localPath "/mine?x=1" = true ∧ same_origin (redirect_location "/callback" "/mine?x=1") = true.
Proof. split; [reflexivity|]. by apply (login_stays_local login_request "/mine?x=1"). Defined.


Lemma Callback_authentic_witness :
  User_of demo_config 2000 (mkRequest "GET" ["mine"] "/" ""
    [(sessionCookie, ck_Value (Issue demo_config 1500 "random" ann).2)] [] []) =
  Some (mkUser "7" "ann" true (b64 "random") 30300 false).
Proof.
  destruct (Callback_authentic (D := unit) demo_auth demo_coder 1500 "random" callback_request
    (Issue demo_config 1500 "random" ann).2)
    as (payload & raw & f & token & status & body & m & Hc & Hr & Hf & _ & _ & Hx & Hg & Hm & _ & Hu).
  - by vm_compute; apply list_elem_of_In; right; left.
  - reflexivity.
  - discriminate.
  - by apply int64_range_dec.
  - assert (token = "token") as -> by (revert Hx; simpl; case_match; congruence).
    assert (body = dq "{'id':'7','username':'ann','roles':[{'name':'owner'}]}") as -> by (revert Hg; simpl; congruence).
    rewrite (Hu 2000%Z); [|reflexivity..].
    injection Hm as <-. reflexivity.
Defined.
