(* ===== verification/Web.v ===== *)
(** * internal/web: the pages

A translation of [admin/internal/web/web.go] and [handlers.go]: the route table with
its guards, the form helpers, and every handler with the store call it makes. A
handler acts on the database and on the number of times [Changed] was called. Pages
carry the data their template is given. [secure], [render] and what the browser then
receives are in [Reply.v], the templates in [Pages.v]; Go's [ServeMux] beyond matching
method and path is not modelled. Any query of a page may fail ([ask]). *)
From Stdlib Require Import Ascii.
From S2P Require Import Prelude GoLib Regex Policy Json Store StoreInv StoreSpec StoreThms PolicyLoad Watch Base64 JsonStruct Url Auth OAuth Demo.
From stdpp Require Import gmap strings list sorting fin_maps relations.

(** ** Form helpers (web.go) *)
Definition ttls : list (string * Z) :=
  [("1h", Hour); ("24h", 24 * Hour); ("168h", 168 * Hour); ("720h", 720 * Hour)]%Z.

Fixpoint ttl_lookup (l : list (string * Z)) (v : string) : option Z :=
  match l with
  | [] => None
  | (k, d) :: l => if (k =? v)%string then Some d else ttl_lookup l v
  end.

(** [fmt.Errorf("%w: ttl %q", store.ErrInvalid, v)]; the quoting is not spelled out. *)
Definition ttlFor (r : Request) (u : User) : result error Z :=
  let v := FormValue r "ttl" in
  let v := if (v =? "")%string then "168h" else v in
  match ttl_lookup ttls v with
  | Some d => Ok d
  | None =>
      if (v =? "60s")%string && u_Bearer u then Ok Minute
      else Err (EWrap ("ttl " +:+ v) ErrInvalid)
  end.

Section web.
Context `{Unicode}.

Definition ruleFrom (r : Request) : Rule :=
  let kind := FormValue r "kind" in
  mkRule kind (ToLower (TrimSpace (FormValue r "value")))
    (if (kind =? "host")%string then (Atoi (FormValue r "port")).1 else 0%Z).

Definition hostPort (authority : string) : string * Z :=
  let authority := ToLower (TrimSpace authority) in
  match SplitHostPort authority with
  | Some (h, p) => (h, (Atoi p).1)
  | None => (authority, 80%Z)
  end.

Definition own (u : User) (ws : Workspace) : bool :=
  u_Admin u || (ws_OwnerID ws =? u_ID u)%string.

Definition back (r : Request) : string :=
  let b := FormValue r "back" in if (b =? "/workspaces")%string then b else "/zones".

(** ** Pages *)
Record wsRow := mkWsRow { wr_Workspace : Workspace; wr_Zone : string; wr_Grants : list RuleView }.

Inductive PageData : Type :=
| PRequest (u : User) (ws : Workspace) (host : string) (port : Z)
| PMine (u : User) (workspaces : list Workspace)
    (denials : list ((string * string * Z) * DenialRow)) (reqs : list (string * RequestRow))
    (names : gmap string string) (filed : string)
| PQueue (u : User) (reqs : list (string * RequestRow))
    (denials : list ((string * string * Z) * DenialRow)) (names : gmap string string)
| PZones (u : User) (zones : list Zone) (names : gmap string string)
| PWorkspaces (u : User) (rows : list wsRow) (zones : list Zone) (zoneNames : gmap string string)
| PAudit (u : User) (rows : list AuditRow).

Context `{Postgres} (Error : error → string).
Context (env : Env) (pods : list Pod).

(** The database and how often [Changed] was called. *)
Abbreviation World := (DB * nat)%type.
Abbreviation Handler := (Request → User → World → Response PageData * World).

Definition names : gmap string string :=
  foldl (λ m w, <[ws_ID w := ws_Name w]> m) ∅ (Running pods).

(** [done] on an error; [err == nil] is handled by [finish]. *)
Definition failed (e : error) : Response PageData :=
  if errors_Is e "invalid" then HttpError ("invalid input: " +:+ Error e) 400
  else if errors_Is e "conflict" then HttpError ("conflict: " +:+ Error e) 409
  else if errors_Is e "not found" then HttpError "not found" 404
  else HttpError "internal error" 500.

(** [s.done(w, r, err, to)] after a store call that left the database [db]. *)
Definition finish {A} (x : result error A * DB) (to : A → string) (n : nat)
    : Response PageData * World :=
  match x with
  | (Ok a, db) => (Redirect (to a) 303, (db, S n))
  | (Err e, db) => (failed e, (db, n))
  end.

(** A store call of a page that makes [n] queries and would give [x]: the first fault among
them ends the handler with [done], as an error of the call does; otherwise the handler goes
on with what was read and with the faults of its later queries. *)
Definition ask {A} (n : nat) (x : result error A)
    (k : A → list (option error) → Response PageData) (fs : list (option error))
    : Response PageData :=
  match omap id (take n fs), x with
  | e :: _, _ => failed e
  | [], Err e => failed e
  | [], Ok a => k a (drop n fs)
  end.

(** ** handlers.go *)
Definition home : Handler := λ r u w,
  (if u_Admin u then Redirect "/queue" 302 else Redirect "/mine" 302, w).

Definition requestForm : Handler := λ r u w,
  let q k := default "" (kv_get (rq_Query r) k) in
  let found := if bool_decide (kv_get (rq_Query r) "src" = None)
    then ByID pods (q "ws") else ByIP pods (q "src") in
  match found with
  | None => (HttpError
      "no running workspace matches this link; it may have restarted. Use My workspaces." 404, w)
  | Some ws =>
      if negb (own u ws) then (HttpError "not your workspace" 403, w) else
      let '(host, port) := hostPort (q "host") in
      if negb (ValidRule (mkRule "host" host port))
      then (HttpError "only host names on port 80 or 443 can be requested" 400, w)
      else (Page (PRequest u ws host port), w)
  end.

Definition fileRequest : Handler := λ r u w,
  match ByID pods (FormValue r "ws") with
  | None => (HttpError "workspace not running" 404, w)
  | Some ws =>
      if negb (own u ws) then (HttpError "not your workspace" 403, w) else
      let port := (Atoi (FormValue r "port")).1 in
      finish (FileRequest env (u_Name u) (ws_ID ws) (ToLower (TrimSpace (FormValue r "host"))) port
                (TrimSpace (FormValue r "justification")) w.1)
        (λ id, "/mine?filed=" +:+ QueryEscape id) w.2
  end.

Definition mine : Handler := λ r u w,
  let mine := filter (λ ws, Is_true (ws_OwnerID ws =? u_ID u)%string) (Running pods) in
  let ids := ws_ID <$> mine in
  let names : gmap string string := foldl (λ m ws, <[ws_ID ws := ws_Name ws]> m) ∅ mine in
  (ask 1 (Denials w.1 (Some ids)) (λ denials,
     ask 1 (Requests w.1 "" (Some ids)) (λ reqs _,
       Page (PMine u mine denials reqs names (default "" (kv_get (rq_Query r) "filed")))))
     (faults env), w).

Definition queue : Handler := λ r u w,
  (ask 1 (Requests w.1 "pending" None) (λ reqs,
     ask 1 (Denials w.1 None) (λ denials _, Page (PQueue u reqs denials names)))
     (faults env), w).

Definition approve (id : string) : Handler := λ r u w,
  match ttlFor r u with
  | Err e => finish (Err e, w.1) (λ _ : unit, "/queue") w.2
  | Ok ttl => finish (Decide env (u_Name u) id true ttl w.1) (λ _, "/queue") w.2
  end.

Definition deny (id : string) : Handler := λ r u w,
  finish (Decide env (u_Name u) id false 0 w.1) (λ _, "/queue") w.2.

(** [Zones] makes two queries. *)
Definition zones_page : Handler := λ r u w,
  (ask 2 (Ok (Zones w.1)) (λ zs _, Page (PZones u zs names)) (faults env), w).

Definition createZone : Handler := λ r u w,
  finish (CreateZone env (u_Name u) (TrimSpace (FormValue r "name")) w.1) (λ _, "/zones") w.2.

Definition cloneZone (id : string) : Handler := λ r u w,
  finish (CloneZone env (u_Name u) id (TrimSpace (FormValue r "name")) w.1) (λ _, "/zones") w.2.

Definition renameZone (id : string) : Handler := λ r u w,
  finish (RenameZone env (u_Name u) id (TrimSpace (FormValue r "name")) w.1) (λ _, "/zones") w.2.

Definition deleteZone (id : string) : Handler := λ r u w,
  finish (DeleteZone env (u_Name u) id w.1) (λ _, "/zones") w.2.

Definition defaultZone (id : string) : Handler := λ r u w,
  finish (SetDefaultZone env (u_Name u) id w.1) (λ _, "/zones") w.2.

Definition addZoneRule (id : string) : Handler := λ r u w,
  finish (AddZoneRule env (u_Name u) id (ruleFrom r) w.1) (λ _, "/zones") w.2.

Definition deleteRule (id : string) : Handler := λ r u w,
  finish (DeleteRule env (u_Name u) id w.1) (λ _, back r) w.2.

(** [PolicyInput] makes three queries, [Zones] two, [Grants] one. *)
Definition workspaces : Handler := λ r u w,
  (ask 3 (Ok (PolicyInput w.1 (now env))) (λ inp,
     ask 2 (Ok (Zones w.1)) (λ zs,
       ask 1 (Ok (Grants w.1 (now env))) (λ grants _,
         let zoneNames : gmap string string := foldl (λ m z, <[zn_ID z := zn_Name z]> m) ∅ zs in
         let rows := (λ ws, mkWsRow ws (ZoneOf inp (ws_ID ws))
           (filter (λ g, rv_WorkspaceID g = ws_ID ws) grants)) <$> Running pods in
         Page (PWorkspaces u rows zs zoneNames))))
     (faults env), w).

Definition assign (id : string) : Handler := λ r u w,
  finish (Assign env (u_Name u) id (FormValue r "zone") w.1) (λ _, "/workspaces") w.2.

Definition grant_handler (id : string) : Handler := λ r u w,
  match ttlFor r u with
  | Err e => finish (Err e, w.1) (λ _ : unit, "/workspaces") w.2
  | Ok ttl => finish (Grant env (u_Name u) id (ruleFrom r) ttl w.1) (λ _, "/workspaces") w.2
  end.

Definition audit_page : Handler := λ r u w,
  (ask 1 (Ok (Audit w.1 200)) (λ rows _, Page (PAudit u rows)) (faults env), w).

(** ** Routes

A pattern is a method and the segments of a path, one of which may be the wildcard
[{id}]; a GET pattern also matches HEAD. The patterns are disjoint, so the first match is
the only one. A route is open to anybody or behind [Require], for every user or for
administrators only. *)
Inductive segment : Type := Lit (s : string) | Id.

(** What [r.PathValue("id")] is if the path matches. *)
Fixpoint match_path (pat : list segment) (path : list string) : option string :=
  match pat, path with
  | [], [] => Some ""
  | Lit s :: pat, p :: path => if (s =? p)%string then match_path pat path else None
  | Id :: pat, p :: path => match match_path pat path with Some _ => Some p | None => None end
  | _, _ => None
  end.

Definition match_method (pat m : string) : bool :=
  (pat =? m)%string || ((pat =? "GET")%string && (m =? "HEAD")%string).

Inductive Route : Type :=
| Anybody (h : Request → World → Response PageData * World)
| user (h : Handler)
| admin (h : Handler).

Context `{Crypto, OAuth2}.

Definition healthz (r : Request) (w : World) : Response PageData * World :=
  (Text ("ok" +:+ String "010" ""), w).

(** What a request finds outside of the server: the time, Coder, and what [random] and
[GenerateVerifier] draw. *)
Record Visit := mkVisit { v_now : Z; v_Coder : Coder; v_random : string; v_verifier : string }.

Definition pattern : Type := string * list segment * (string → Route).

Definition table (a : Auth) (v : Visit) : list pattern :=
  [("GET", [Lit "healthz"], λ _, Anybody healthz);
   ("GET", [Lit "login"], λ _,
      Anybody (λ r w, (Login a (v_now v) (v_random v) (v_verifier v) r, w)));
   ("GET", [Lit "callback"], λ _,
      Anybody (λ r w, (Callback a (v_Coder v) (v_now v) (v_random v) r, w)));
   ("POST", [Lit "logout"], λ _, user (λ _ _ w, (Logout (a_c a), w)));

   ("GET", [], λ _, user home);
   ("GET", [Lit "r"], λ _, user requestForm);
   ("POST", [Lit "requests"], λ _, user fileRequest);
   ("GET", [Lit "mine"], λ _, user mine);

   ("GET", [Lit "queue"], λ _, admin queue);
   ("POST", [Lit "requests"; Id; Lit "approve"], λ id, admin (approve id));
   ("POST", [Lit "requests"; Id; Lit "deny"], λ id, admin (deny id));
   ("GET", [Lit "zones"], λ _, admin zones_page);
   ("POST", [Lit "zones"], λ _, admin createZone);
   ("POST", [Lit "zones"; Id; Lit "clone"], λ id, admin (cloneZone id));
   ("POST", [Lit "zones"; Id; Lit "rename"], λ id, admin (renameZone id));
   ("POST", [Lit "zones"; Id; Lit "delete"], λ id, admin (deleteZone id));
   ("POST", [Lit "zones"; Id; Lit "default"], λ id, admin (defaultZone id));
   ("POST", [Lit "zones"; Id; Lit "rules"], λ id, admin (addZoneRule id));
   ("POST", [Lit "rules"; Id; Lit "delete"], λ id, admin (deleteRule id));
   ("GET", [Lit "workspaces"], λ _, admin workspaces);
   ("POST", [Lit "workspaces"; Id; Lit "zone"], λ id, admin (assign id));
   ("POST", [Lit "workspaces"; Id; Lit "grants"], λ id, admin (grant_handler id));
   ("GET", [Lit "audit"], λ _, admin audit_page)].

Fixpoint dispatch (l : list pattern) (r : Request) : option Route :=
  match l with
  | [] => None
  | (m, pat, h) :: l =>
      match (if match_method m (rq_Method r) then match_path pat (rq_Path r) else None) with
      | Some id => Some (h id)
      | None => dispatch l r
      end
  end.

Definition Routes (a : Auth) (v : Visit) (r : Request) : option Route := dispatch (table a v) r.

(** One request through the route table and the gate. *)
Definition serve (a : Auth) (v : Visit) (r : Request) (w : World)
    : option (Response PageData) * World :=
  match Routes a v r with
  | None => (None, w)
  | Some (Anybody h) => let '(resp, w) := h r w in (Some resp, w)
  | Some (user h) => let '(resp, w) := Require_ (a_c a) (v_now v) false h r w in (Some resp, w)
  | Some (admin h) => let '(resp, w) := Require_ (a_c a) (v_now v) true h r w in (Some resp, w)
  end.
End web.

(** ** Facts *)
Section facts.
Context `{Unicode} `{Postgres} (Error : error → string) (env : Env) (pods : list Pod).
Abbreviation world := (DB * nat)%type.
Abbreviation handler := (Request → User → world → Response PageData * world).

(** One operation ran: it succeeded, [Changed] was called once and the browser is sent on; or
its transaction committed but the answer to COMMIT was lost, so the handler saw an error. *)
Definition ran_op (op : store_op) (w : world) (x : Response PageData * world) : Prop :=
  exec env op w.1 = (None, x.2.1) ∧ x.2.2 = S w.2 ∧ (∃ to, x.1 = Redirect to 303) ∨
  is_Some (ack_lost env) ∧ exec (acked env) op w.1 = (None, x.2.1) ∧ x.2.2 = w.2 ∧
    ∃ e, x.1 = failed Error e.

(** Either way the operation's success describes the change. *)
Lemma ran_op_Ok op w x :
  ran_op op w x → ∃ env', now env' = now env ∧ on_success env' op w.1 x.2.1.
Proof.
  intros [[He%exec_Ok _]|(_ & He%exec_Ok & _)]; [by exists env|by exists (acked env)].
Qed.

Lemma finish_ran {A} op (x : result error A * DB) to w :
  exec env op w.1 = outcome x →
  (finish Error x to w.2).2 = w ∨ ran_op op w (finish Error x to w.2).
Proof.
  unfold ran_op. destruct x as [[a|e] db]; intros He; simpl.
  - right. left. split_and!; [done..|by eexists].
  - unfold outcome in He. simpl in He. apply exec_Err in He as [->|[Hl He]].
    + left. by destruct w.
    + right. right. split_and!; [done..|by eexists].
Qed.

(** What a handler may do for [u]: nothing, or one of the operations [P] allows. *)
Definition acts (P : store_op → Prop) (r : Request) (u : User) (h : handler) : Prop :=
  ∀ w, (h r u w).2 = w ∨ ∃ op, P op ∧ op_actor op = u_Name u ∧ ran_op op w (h r u w).

Lemma acts_finish {A} P op r u (to : A → string) (f : DB → result error A * DB) :
  P op → op_actor op = u_Name u → (∀ db, exec env op db = outcome (f db)) →
  acts P r u (λ _ _ w, finish Error (f w.1) to w.2).
Proof.
  intros HP Ha Hf w. destruct (finish_ran op (f w.1) to w (Hf _)); [by left|right]. by exists op.
Qed.

(** The durations a person may choose. *)
Definition human_ttl (u : User) (d : Z) : Prop :=
  d ∈ [Hour; 24 * Hour; 168 * Hour; 720 * Hour]%Z ∨ d = Minute ∧ u_Bearer u = true.

Lemma ttlFor_human r u d : ttlFor r u = Ok d → human_ttl u d.
Proof.
  unfold ttlFor, human_ttl, ttl_lookup, ttls. rewrite !elem_of_cons.
  generalize (if (FormValue r "ttl" =? "")%string then "168h" else FormValue r "ttl"). intros v.
  destruct ("1h" =? v)%string; [intros [= <-]; auto|].
  destruct ("24h" =? v)%string; [intros [= <-]; auto|].
  destruct ("168h" =? v)%string; [intros [= <-]; auto 6|].
  destruct ("720h" =? v)%string; [intros [= <-]; auto 7|].
  destruct (v =? "60s")%string, (u_Bearer u); try done. intros [= <-]. auto.
Qed.

(** They are whole numbers of seconds. *)
Lemma human_ttl_secs u d :
  human_ttl u d → ∃ k, d = (k * Second)%Z ∧ k ∈ [3600; 86400; 604800; 2592000; 60]%Z ∧
    (0 ≤ k < 2 ^ 31)%Z.
Proof.
  unfold human_ttl. rewrite !elem_of_cons. intros [[->|[->|[->|[->|[]%elem_of_nil]]]]|[-> _]];
    [exists 3600%Z|exists 86400%Z|exists 604800%Z|exists 2592000%Z|exists 60%Z];
    (split; [done|]); rewrite !elem_of_cons; (split; [tauto|lia]).
Qed.

(** The duration of the grant an operation makes. *)
Definition op_ttl (op : store_op) : option Z :=
  match op with OpGrant _ _ _ d | OpDecide _ _ true d => Some d | _ => None end.

(** What the pages let [u] do: a member files requests for workspaces of its own. *)
Definition may (u : User) (op : store_op) : Prop :=
  (∀ d, op_ttl op = Some d → human_ttl u d) ∧
  (u_Admin u = true ∨ ∃ ws host port j, op = OpFileRequest (u_Name u) (ws_ID ws) host port j ∧
     ws ∈ Running pods ∧ ws_OwnerID ws = u_ID u).

Lemma may_admin u op : u_Admin u = true → op_ttl op = None → may u op.
Proof. intros Ha Ht. split; [|by left]. by rewrite Ht. Qed.

Lemma fileRequest_acts r u : acts (may u) r u (fileRequest Error env pods).
Proof.
  intros w. unfold fileRequest. destruct (ByID pods (FormValue r "ws")) as [ws|] eqn:Ew; [|by left].
  apply find_ws_Some in Ew as [Hin _]. destruct (own u ws) eqn:Eo; [|by left]. cbn [negb].
  match goal with |- context [FileRequest env ?a ?b ?c ?d ?e _] =>
    eapply (acts_finish (may u) (OpFileRequest a b c d e) r u _ (FileRequest env a b c d e)) end;
    try done.
  split; [done|]. unfold own in Eo. destruct (u_Admin u); [by left|right]. eexists _, _, _, _.
  split_and!; [done..|by apply String.eqb_eq].
Qed.

Lemma approve_acts id r u : u_Admin u = true → acts (may u) r u (approve Error env id).
Proof.
  intros Ha w. unfold approve. destruct (ttlFor r u) as [d|e] eqn:Et; [|left; by destruct w].
  eapply (acts_finish (may u) (OpDecide (u_Name u) id true d) r u _ (Decide env (u_Name u) id true d));
    try done.
  split; [|by left]. intros ? [= <-]. by eapply ttlFor_human.
Qed.

Lemma grant_acts id r u : u_Admin u = true → acts (may u) r u (grant_handler Error env id).
Proof.
  intros Ha w. unfold grant_handler. destruct (ttlFor r u) as [d|e] eqn:Et; [|left; by destruct w].
  eapply (acts_finish (may u) (OpGrant (u_Name u) id (ruleFrom r) d) r u _
    (Grant env (u_Name u) id (ruleFrom r) d)); try done.
  split; [|by left]. intros ? [= <-]. by eapply ttlFor_human.
Qed.

(** The handlers that make one store call and redirect. *)
Ltac admin_acts op f :=
  match goal with |- _ → acts _ ?r ?u _ =>
    intros Ha w; eapply (acts_finish (may u) op r u _ f); [by apply may_admin|done..] end.

Lemma deny_acts id r u : u_Admin u = true → acts (may u) r u (deny Error env id).
Proof. admin_acts (OpDecide (u_Name u) id false 0) (Decide env (u_Name u) id false 0). Qed.
Lemma createZone_acts r u : u_Admin u = true → acts (may u) r u (createZone Error env).
Proof.
  admin_acts (OpCreateZone (u_Name u) (TrimSpace (FormValue r "name")))
    (CreateZone env (u_Name u) (TrimSpace (FormValue r "name"))).
Qed.
Lemma cloneZone_acts id r u : u_Admin u = true → acts (may u) r u (cloneZone Error env id).
Proof.
  admin_acts (OpCloneZone (u_Name u) id (TrimSpace (FormValue r "name")))
    (CloneZone env (u_Name u) id (TrimSpace (FormValue r "name"))).
Qed.
Lemma renameZone_acts id r u : u_Admin u = true → acts (may u) r u (renameZone Error env id).
Proof.
  admin_acts (OpRenameZone (u_Name u) id (TrimSpace (FormValue r "name")))
    (RenameZone env (u_Name u) id (TrimSpace (FormValue r "name"))).
Qed.
Lemma deleteZone_acts id r u : u_Admin u = true → acts (may u) r u (deleteZone Error env id).
Proof. admin_acts (OpDeleteZone (u_Name u) id) (DeleteZone env (u_Name u) id). Qed.
Lemma defaultZone_acts id r u : u_Admin u = true → acts (may u) r u (defaultZone Error env id).
Proof. admin_acts (OpSetDefaultZone (u_Name u) id) (SetDefaultZone env (u_Name u) id). Qed.
Lemma addZoneRule_acts id r u : u_Admin u = true → acts (may u) r u (addZoneRule Error env id).
Proof.
  admin_acts (OpAddZoneRule (u_Name u) id (ruleFrom r)) (AddZoneRule env (u_Name u) id (ruleFrom r)).
Qed.
Lemma deleteRule_acts id r u : u_Admin u = true → acts (may u) r u (deleteRule Error env id).
Proof. admin_acts (OpDeleteRule (u_Name u) id) (DeleteRule env (u_Name u) id). Qed.
Lemma assign_acts id r u : u_Admin u = true → acts (may u) r u (assign Error env id).
Proof.
  admin_acts (OpAssign (u_Name u) id (FormValue r "zone"))
    (Assign env (u_Name u) id (FormValue r "zone")).
Qed.

Lemma new_grant_row env' op db db' i row ws :
  on_success env' op db db' → rules db' !! i = Some row → rules db !! i = None →
  r_workspace_id row = Some ws →
  ∃ d, op_ttl op = Some d ∧ r_expires_at row = Some (now env' + interval_secs d)%Z.
Proof.
  intros Hop Hi Hn Hw.
  op_cases op; cbn in Hi; try congruence;
    repeat match goal with
    | H : <[_ := _]> _ !! _ = Some _ |- _ => apply lookup_insert_Some in H as [[<- <-]|[? H]]
    end; try done; try congruence; try (by eexists).
  - match goal with H : ∀ r, (∃ i, _) ↔ _ |- _ => destruct (proj1 (H row)) as (? & ? & ? & _ & _ & _ & ->) end;
      [by exists i|done].
  - apply map_lookup_filter_Some in Hi as [? _]. congruence.
  - apply lookup_delete_Some in Hi as [_ ?]. congruence.
  - apply map_lookup_filter_Some in Hi as [? _]. congruence.
Qed.

Context `{Crypto, OAuth2}.

(** The route a request takes is one of the table whose method and path match. *)
Lemma Routes_in a v r rt :
  Routes Error env pods a v r = Some rt →
  ∃ p id, p ∈ table Error env pods a v ∧ match_method p.1.1 (rq_Method r) = true ∧
    match_path p.1.2 (rq_Path r) = Some id ∧ rt = p.2 id.
Proof.
  unfold Routes. induction (table _ _ _ a v) as [|[[m pat] h] l IH]; [done|]. simpl.
  destruct (match_method m (rq_Method r)) eqn:Em;
    [destruct (match_path pat (rq_Path r)) as [id|] eqn:Ep|].
  - intros [= <-]. exists (m, pat, h), id. split_and!; try done. by left.
  - intros (p & id & ? & ?)%IH. exists p, id. by split; [right|].
  - intros (p & id & ? & ?)%IH. exists p, id. by split; [right|].
Qed.

(** A property of every route holds of the one a request takes. *)
Lemma Routes_Forall (P : string → Route → Prop) a v r rt :
  Routes Error env pods a v r = Some rt →
  Forall (λ p, ∀ id, P p.1.1 (p.2 id)) (table Error env pods a v) →
  ∃ m, match_method m (rq_Method r) = true ∧ P m rt.
Proof.
  intros (p & id & Hin & Hm & _ & ->)%Routes_in Hf. rewrite Forall_forall in Hf.
  exists p.1.1. split; [done|]. by apply Hf.
Qed.

Lemma match_method_inv m m' :
  match_method m m' = true → m = m' ∨ m = "GET" ∧ m' = "HEAD".
Proof.
  unfold match_method. destruct (String.eqb_spec m m'); [by left|].
  destruct (String.eqb_spec m "GET"), (String.eqb_spec m' "HEAD"); try done. by right.
Qed.

(** What a route may do on a request [r]; only POST routes act. *)
Definition route_acts (r : Request) (m : string) (rt : Route) : Prop :=
  match rt with
  | Anybody h => ∀ w, (h r w).2 = w
  | user h => ∀ u, acts (λ op, m = "POST" ∧ may u op) r u h
  | admin h => ∀ u, u_Admin u = true → acts (λ op, m = "POST" ∧ may u op) r u h
  end.

Lemma acts_pure P r u (h : handler) : (∀ w, (h r u w).2 = w) → acts P r u h.
Proof. intros Hh w. left. apply Hh. Qed.

Lemma acts_post r u (h : handler) :
  acts (may u) r u h → acts (λ op, "POST" = "POST" ∧ may u op) r u h.
Proof. intros Hh w. destruct (Hh w) as [|(op & ? & ?)]; [by left|right; by exists op]. Qed.

Lemma table_acts a v r : Forall (λ p, ∀ id, route_acts r p.1.1 (p.2 id)) (table Error env pods a v).
Proof.
  unfold table. repeat (apply List.Forall_cons; [intros id|]); try apply Forall_nil_2;
    cbn [route_acts fst snd]; try (intros u Ha; apply acts_post).
  all: eauto 2 using approve_acts, deny_acts, createZone_acts, cloneZone_acts, renameZone_acts,
    deleteZone_acts, defaultZone_acts, addZoneRule_acts, deleteRule_acts, assign_acts, grant_acts,
    fileRequest_acts.
  - intros u. by apply acts_pure.
  - intros u. by apply acts_pure.
  - intros u. apply acts_pure. intros w. unfold requestForm. by repeat case_match.
  - intros u. by apply acts_pure.
  - intros u _. by apply acts_pure.
  - intros u _. by apply acts_pure.
  - intros u _. by apply acts_pure.
  - intros u _. by apply acts_pure.
Qed.

(** The gate, as far as the state goes. *)
Lemma Require_acts (m : string) a clock adm (h : handler) r w :
  match_method m (rq_Method r) = true →
  (∀ u, (adm = true → u_Admin u = true) → acts (λ op, m = "POST" ∧ may u op) r u h) →
  (Require_ a clock adm h r w).2 = w ∨
  ∃ u op, User_of a clock r = Some u ∧ rq_Method r = "POST" ∧
    (u_Bearer u = true ∨ FormValue r "csrf" = u_CSRF u) ∧ op_actor op = u_Name u ∧ may u op ∧
    ran_op op w (Require_ a clock adm h r w).
Proof.
  intros Hm Hh. unfold Require_. destruct (User_of a clock r) as [u|]; [|left; by case_match].
  destruct (adm && negb (u_Admin u)) eqn:Ea; [by left|].
  destruct (_ && _) eqn:Ec in |- *; [by left|].
  destruct (Hh u) with w as [|(op & [-> Hmay] & Ha & Hr)]; [by destruct adm, (u_Admin u)|by left|].
  right. exists u, op. apply match_method_inv in Hm as [Hm|[? _]]; [|done].
  rewrite <- Hm in Ec |- *. split_and!; try done. simpl in Ec.
  destruct (u_Bearer u); [by left|right]. by destruct (String.eqb_spec (FormValue r "csrf") (u_CSRF u)).
Qed.

Lemma serve_acts a v r w resp w' :
  serve Error env pods a v r w = (resp, w') →
  w' = w ∨
  ∃ u op x, User_of (a_c a) (v_now v) r = Some u ∧ rq_Method r = "POST" ∧
    (u_Bearer u = true ∨ FormValue r "csrf" = u_CSRF u) ∧ op_actor op = u_Name u ∧ may u op ∧
    ran_op op w (x, w') ∧ resp = Some x.
Proof.
  unfold serve. destruct (Routes Error env pods a v r) as [rt|] eqn:Er; [|intros [= _ <-]; by left].
  destruct (Routes_Forall (route_acts r) a v r rt Er (table_acts a v r)) as (m & Hm & Hrt).
  destruct rt as [h|h|h]; simpl in Hrt.
  - specialize (Hrt w). destruct (h r w). simpl in *. intros [= _ <-]. by left.
  - destruct (Require_acts m (a_c a) (v_now v) false h r w Hm) as [Hw|(u & op & Hx)];
      [intros u _; apply Hrt|..]; destruct (Require_ (a_c a) (v_now v) false h r w) as [x ?]; simpl in *;
      intros [= <- <-]; [by left|right; exists u, op, x; naive_solver].
  - destruct (Require_acts m (a_c a) (v_now v) true h r w Hm) as [Hw|(u & op & Hx)];
      [intros u Hu; by apply Hrt, Hu|..]; destruct (Require_ (a_c a) (v_now v) true h r w) as [x ?];
      simpl in *; intros [= <- <-]; [by left|right; exists u, op, x; naive_solver].
Qed.

(** ** Rows of a list of workspaces *)
Lemma uuid_array_elem l us u : uuid_array l = Ok us → u ∈ us → ∃ s, s ∈ l ∧ uuid_in s = Some u.
Proof.
  revert us. induction l as [|s l IH]; simpl; intros us Hus Hin.
  - injection Hus as <-. by apply not_elem_of_nil in Hin.
  - apply result_bind_Ok in Hus as (v & Hv%uuid_param_Ok & Hus).
    apply result_bind_Ok in Hus as (vs & Hvs & [= <-]).
    apply elem_of_cons in Hin as [->|Hin]; [exists s; by split; [left|]|].
    destruct (IH vs Hvs Hin) as (s' & ? & ?). exists s'. by split; [right|].
Qed.

Lemma Denials_of db l ds :
  Denials db (Some l) = Ok ds → Forall (λ kd, ∃ s, s ∈ l ∧ uuid_in s = Some kd.1.1.1) ds.
Proof.
  intros (keep & (us & Hus & [= <-])%result_bind_Ok & [= <-])%result_bind_Ok.
  apply Forall_forall. intros kd Hin. apply subseteq_take in Hin.
  rewrite merge_sort_Permutation in Hin. apply list_elem_of_filter in Hin as [Hk%bool_decide_unpack _].
  by eapply uuid_array_elem.
Qed.

Lemma Requests_of db st l qs :
  Requests db st (Some l) = Ok qs →
  Forall (λ kq, ∃ s, s ∈ l ∧ uuid_in s = Some (q_workspace_id kq.2)) qs.
Proof.
  intros (keep & (us & Hus & [= <-])%result_bind_Ok & [= <-])%result_bind_Ok.
  apply Forall_forall. intros kq Hin. apply subseteq_take in Hin.
  rewrite merge_sort_Permutation in Hin.
  apply list_elem_of_filter in Hin as [[_ Hk%bool_decide_unpack]%andb_prop_elim _].
  by eapply uuid_array_elem.
Qed.

(** A running workspace of [u]. *)
Definition owned (u : User) (ws : Workspace) : Prop := ws ∈ Running pods ∧ ws_OwnerID ws = u_ID u.

(** The row of a workspace of [u]. *)
Definition owned_row (u : User) (id : string) : Prop :=
  ∃ ws, owned u ws ∧ uuid_in (ws_ID ws) = Some id.

(** What a page shows a member. *)
Definition confined (u : User) (d : PageData) : Prop :=
  match d with
  | PRequest u' ws host port => u' = u ∧ owned u ws ∧ ValidRule (mkRule "host" host port) = true
  | PMine u' wss denials reqs names filed =>
      u' = u ∧ Forall (owned u) wss ∧ Forall (λ kd, owned_row u kd.1.1.1) denials ∧
      Forall (λ kq, owned_row u (q_workspace_id kq.2)) reqs
  | _ => False
  end.

Lemma requestForm_confined r u w d w' :
  u_Admin u = false → requestForm pods r u w = (Page d, w') → confined u d.
Proof.
  intros Ha. unfold requestForm. destruct (if bool_decide _ then _ else _) as [ws|] eqn:Ew; [|done].
  assert (ws ∈ Running pods) as Hin.
  { case_bool_decide; by apply find_ws_Some in Ew as [? _]. }
  destruct (own u ws) eqn:Eo; [|done]. unfold own in Eo. rewrite Ha in Eo. simpl in Eo.
  apply String.eqb_eq in Eo. simpl. destruct (hostPort _) as [host port].
  destruct (ValidRule _) eqn:Ev; [|done]. intros [= <- _]. done.
Qed.

Lemma failed_no_page e d : failed Error e ≠ Page d.
Proof. unfold failed. by repeat case_match. Qed.

(** A page is shown only if every query of its store calls succeeded. *)
Lemma ask_Page {A} n (x : result error A) k fs d :
  ask Error n x k fs = Page d → ∃ a fs', x = Ok a ∧ k a fs' = Page d.
Proof.
  unfold ask. destruct (omap id (take n fs)), x; intros Hp; try by apply failed_no_page in Hp. eauto.
Qed.

Lemma mine_confined r u w d w' : mine Error env pods r u w = (Page d, w') → confined u d.
Proof.
  unfold mine. set (ids := filter _ (Running pods)).
  assert (Forall (owned u) ids) as Hown.
  { apply Forall_forall. intros ws [Hw%Is_true_true Hin]%list_elem_of_filter.
    by apply String.eqb_eq in Hw. }
  assert (∀ s id, s ∈ ws_ID <$> ids → uuid_in s = Some id → owned_row u id) as Hrow.
  { intros s id [ws [-> Hin]]%list_elem_of_fmap Hu. exists ws. split; [|done].
    rewrite Forall_forall in Hown. by apply Hown. }
  intros [= (ds & fs & Ed & (qs & fs' & Eq & [= <-])%ask_Page)%ask_Page _]. apply Denials_of in Ed. apply Requests_of in Eq. simpl. split_and!; try done.
  - eapply Forall_impl; [exact Ed|]. intros kd (s & ? & ?). by eapply Hrow.
  - eapply Forall_impl; [exact Eq|]. intros kq (s & ? & ?). by eapply Hrow.
Qed.

Lemma fileRequest_no_page r u w d w' : fileRequest Error env pods r u w ≠ (Page d, w').
Proof.
  unfold fileRequest, finish, failed.
  destruct (ByID pods _) as [ws|]; [|done]. destruct (own u ws); [|done]. simpl.
  destruct (FileRequest _ _ _ _ _ _ _) as [[id|e] db]; by repeat case_match.
Qed.

Lemma table_confined a v r :
  Forall (λ p, ∀ id, match p.2 id with
    | Anybody h => ∀ w d w', h r w ≠ (Page d, w')
    | user h => ∀ u w d w', u_Admin u = false → h r u w = (Page d, w') → confined u d
    | admin _ => True
    end) (table Error env pods a v).
Proof.
  unfold table. repeat (apply List.Forall_cons; [intros id|]); try apply Forall_nil_2; try done;
    cbn [fst snd].
  - intros w d w'. unfold Callback. by repeat case_match.
  - intros u w d w' Ha. unfold home. by rewrite Ha.
  - intros u w d w'. apply requestForm_confined.
  - intros u w d w' _ Hf. by apply fileRequest_no_page in Hf.
  - intros u w d w' _. apply mine_confined.
Qed.

Lemma Require_page a clock adm (h : handler) r w d w' :
  Require_ a clock adm h r w = (Page d, w') →
  ∃ u, User_of a clock r = Some u ∧ (adm = true → u_Admin u = true) ∧ h r u w = (Page d, w').
Proof.
  unfold Require_. destruct (User_of a clock r) as [u|]; [|by case_match].
  destruct (adm && negb (u_Admin u)) eqn:Ea; [done|]. destruct (_ && _) in |- *; [done|].
  intros Hh. exists u. split_and!; [done| |done]. by destruct adm, (u_Admin u).
Qed.
End facts.

Section claims.
Context `{Unicode} `{Postgres, !PostgresLaws} `{Crypto, OAuth2}.
Context (Error : error → string) (env : Env) (pods : list Pod).

(** [C9] The pages change the store only on behalf of an authenticated user: a request that
changes anything is a POST that carries the session's CSRF token or the bearer; it runs
exactly one store operation, in whole, under that user's name; and unless the user is an
administrator the operation files an access request for a running workspace the user owns.
The operation succeeded, [Changed] was called once and the answer is a redirect, except
where the answer to COMMIT was lost: then the change stands, but the browser gets an error
page and nobody is told. *)
Theorem store_changes_authorised a v r w resp w' :
  serve Error env pods a v r w = (resp, w') → w' ≠ w →
  ∃ u op, User_of (a_c a) (v_now v) r = Some u ∧ rq_Method r = "POST" ∧
    (u_Bearer u = true ∨ FormValue r "csrf" = u_CSRF u) ∧ op_actor op = u_Name u ∧
    (exec env op w.1 = (None, w'.1) ∧ w'.2 = S w.2 ∧ (∃ to, resp = Some (Redirect to 303)) ∨
     is_Some (ack_lost env) ∧ exec (acked env) op w.1 = (None, w'.1) ∧ w'.2 = w.2 ∧
       ∃ e, resp = Some (failed Error e)) ∧
    (u_Admin u = true ∨ ∃ ws host port j,
       op = OpFileRequest (u_Name u) (ws_ID ws) host port j ∧ ws ∈ Running pods ∧
       ws_OwnerID ws = u_ID u).
Proof.
  intros [->|(u & op & x & Hu & Hm & Hc & Ha & [_ Hmay] & Hr & ->)]%serve_acts Hne; [done|].
  exists u, op. split_and!; try done. unfold ran_op in Hr. naive_solver.
Qed.

(** [C24] Every grant made through the pages expires: a workspace rule that a request adds
ends one hour, day, week or thirty days after the request, to the microsecond, or a minute
after it if the bearer asked for that. *)
Theorem grants_expire a v r w resp w' i row ws :
  serve Error env pods a v r w = (resp, w') →
  rules w'.1 !! i = Some row → rules w.1 !! i = None → r_workspace_id row = Some ws →
  ∃ d, r_expires_at row = Some (now env + interval_secs d)%Z ∧
    (d ∈ [Hour; 24 * Hour; 168 * Hour; 720 * Hour]%Z ∨
     d = Minute ∧ ∃ u, User_of (a_c a) (v_now v) r = Some u ∧ u_Bearer u = true) ∧
    ∃ k, d = (k * Second)%Z ∧ r_expires_at row = Some (now env + k * second_us)%Z ∧
      k ∈ [3600; 86400; 604800; 2592000; 60]%Z.
Proof.
  intros [->|(u & op & x & Hu & _ & _ & _ & [Ht _] & (env' & <- & Hr)%ran_op_Ok & _)]%serve_acts
    Hi Hn Hw;
    [congruence|].
  destruct (new_grant_row env' op w.1 w'.1 i row ws) as (d & Hd & ->); [done..|].
  exists d. specialize (Ht d Hd). split_and!; [done|destruct Ht as [|[-> Hb]]; [by left|right; eauto]|].
  destruct (human_ttl_secs u d Ht) as (k & -> & Hk & Hb). exists k. by rewrite interval_whole.
Qed.

(** [C25] A page shows a member nothing of others: unless the user is an administrator, a page
is the request form of a running workspace of the user with a valid destination, or the
list of the user's own running workspaces with only their denials and requests. *)
Theorem pages_confined a v r w d w' :
  serve Error env pods a v r w = (Some (Page d), w') →
  ∃ u, User_of (a_c a) (v_now v) r = Some u ∧
    (u_Admin u = true ∨ confined pods u d).
Proof.
  unfold serve. destruct (Routes Error env pods a v r) as [rt|] eqn:Er; [|done].
  destruct (Routes_Forall Error env pods (λ _ rt, match rt with
    | Anybody h => ∀ w d w', h r w ≠ (Page d, w')
    | user h => ∀ u w d w', u_Admin u = false → h r u w = (Page d, w') → confined pods u d
    | admin _ => True
    end) a v r rt Er (table_confined Error env pods a v r)) as (_ & _ & Hrt).
  destruct rt as [h|h|h].
  - specialize (Hrt w d). destruct (h r w) as [resp w0]. intros [= -> ->]. by specialize (Hrt w').
  - destruct (Require_ (a_c a) (v_now v) false h r w) as [resp w0] eqn:E. intros [= -> ->].
    apply Require_page in E as (u & Hu & _ & Hh). exists u. split; [done|].
    destruct (u_Admin u) eqn:Ea; [by left|right]. by eapply Hrt.
  - destruct (Require_ (a_c a) (v_now v) true h r w) as [resp w0] eqn:E. intros [= -> ->].
    apply Require_page in E as (u & Hu & Ha & Hh). exists u. split; [done|left]. by apply Ha.
Qed.
End claims.

(** ** Concrete requests

The demonstration store with one running workspace (51) of user [u1]. *)
#[local] Instance ascii_unicode : Unicode := {| map_unicode_ToLower s := s |}.

Definition web_pods : list Pod :=
  [mkPod {[ wsLabel := ws1; "com.coder.user.id" := "u1" ]} "Running" "10.0.0.7" None;
   mkPod {[ wsLabel := ws0; "com.coder.user.id" := "u2" ]} "Running" "10.0.0.8" None].

Definition demo_visit : Visit := mkVisit 2000 demo_coder "random" "verifier".

Definition web_serve (r : Request) : option (Response PageData) * (DB * nat) :=
  serve (λ _, "error") (demo_env 100 60) web_pods demo_auth demo_visit r (demo_db, 0).

Definition file_r : Request := demo_request "POST" ["requests"]
  [("csrf", b64 "random"); ("ws", ws1); ("host", " Api.Example.com "); ("port", "443");
   ("justification", "build")].

(** The member [dev] files a request; without the CSRF token, or for the workspace of
another, nothing happens. *)
Example file_request_runs :
  web_serve file_r =
    (Some (Redirect ("/mine?filed=" +:+ demo_uuid 60) 303), (web_serve file_r).2) ∧
  (web_serve file_r).2.2 = 1 ∧
  web_serve (demo_request "POST" ["requests"] [("ws", ws1); ("host", "a.com"); ("port", "80")]) =
    (Some (HttpError "invalid CSRF token; reload the page" 403), (demo_db, 0)) ∧
  web_serve (demo_request "POST" ["requests"]
      [("csrf", b64 "random"); ("ws", ws0); ("host", "a.com"); ("port", "80")]) =
    (Some (HttpError "not your workspace" 403), (demo_db, 0)).
Proof. split; [apply ran; vm_compute; reflexivity|]. split_and!; vm_compute; reflexivity. Qed.

Lemma store_changes_authorised_witness :
  ∃ u op, User_of demo_config 2000 file_r = Some u ∧ rq_Method file_r = "POST" ∧
    (u_Bearer u = true ∨ FormValue file_r "csrf" = u_CSRF u) ∧ op_actor op = u_Name u ∧
    (exec (demo_env 100 60) op demo_db = (None, (web_serve file_r).2.1) ∧
       (web_serve file_r).2.2 = 1 ∧ (∃ to, (web_serve file_r).1 = Some (Redirect to 303)) ∨
     is_Some (ack_lost (demo_env 100 60)) ∧
       exec (acked (demo_env 100 60)) op demo_db = (None, (web_serve file_r).2.1) ∧
       (web_serve file_r).2.2 = 0 ∧ ∃ e, (web_serve file_r).1 = Some (failed (λ _, "error") e)) ∧
    (u_Admin u = true ∨ ∃ ws host port j,
       op = OpFileRequest (u_Name u) (ws_ID ws) host port j ∧ ws ∈ Running web_pods ∧
       ws_OwnerID ws = u_ID u).
Proof.
  refine (store_changes_authorised (λ _, "error") (demo_env 100 60) web_pods demo_auth demo_visit file_r
    (demo_db, 0) (web_serve file_r).1 (web_serve file_r).2 (surjective_pairing _) _).
  intros Heq. apply (f_equal snd) in Heq. vm_compute in Heq. discriminate Heq.
Defined.

(** The same request with the connection lost during COMMIT: an error page for a change made. *)
Definition lost_env : Env :=
  mkEnv (now (demo_env 100 60)) [] (uuids (demo_env 100 60)) (Some (EMsg "connection lost")).

Example lost_answer :
  let x := serve (λ _, "error") lost_env web_pods demo_auth demo_visit file_r (demo_db, 0) in
  x.1 = Some (HttpError "internal error" 500) ∧ x.2 = ((web_serve file_r).2.1, 0).
Proof. split; vm_compute; reflexivity. Qed.

Definition approve_r : Request :=
  bearer_request "POST" ["requests"; request0; "approve"] [("ttl", "60s")].

Definition approved_row : RuleRec :=
  mkRuleRec None (Some ws0) "host" "api.example.org" 443 (Some (100 + Minute / 1000)%Z) "test-hook" 100.

Lemma grants_expire_witness :
  ∃ d, r_expires_at approved_row = Some (100 + interval_secs d)%Z ∧
    (d ∈ [Hour; 24 * Hour; 168 * Hour; 720 * Hour]%Z ∨
     d = Minute ∧ ∃ u, User_of demo_config 2000 approve_r = Some u ∧ u_Bearer u = true) ∧
    ∃ k, d = (k * Second)%Z ∧ r_expires_at approved_row = Some (100 + k * second_us)%Z ∧
      k ∈ [3600; 86400; 604800; 2592000; 60]%Z.
Proof.
  refine (grants_expire (λ _, "error") (demo_env 100 60) web_pods demo_auth demo_visit approve_r
    (demo_db, 0) (web_serve approve_r).1 (web_serve approve_r).2 (demo_uuid 60) approved_row ws0
    (surjective_pairing _) _ _ _); vm_compute; reflexivity.
Defined.

Definition mine_r : Request := demo_request "GET" ["mine"] [].
Definition mine_page : PageData :=
  match (web_serve mine_r).1 with Some (Page d) => d | _ => PAudit no_user [] end.

Lemma pages_confined_witness :
  ∃ u, User_of demo_config 2000 mine_r = Some u ∧ (u_Admin u = true ∨ confined web_pods u mine_page).
Proof.
  refine (pages_confined (λ _, "error") (demo_env 100 60) web_pods demo_auth demo_visit mine_r
    (demo_db, 0) mine_page (demo_db, 0) _). vm_compute. reflexivity.
Defined.
