(* ===== verification/Reply.v ===== *)
(** * internal/web: replies

What a browser receives: [secure] and [render] of [admin/internal/web/web.go], and the
parts of net/http that turn what a handler asked for into a status, headers and a body
([http.Redirect], [http.Error], [http.SetCookie], the answers of a [ServeMux] without a
match). Executing a template is an interface; [Pages.v] has the templates. *)
From Stdlib Require Import Ascii.
From S2P Require Import Prelude GoLib Regex Policy Json Store StoreInv StoreSpec StoreThms PolicyLoad Watch Base64 JsonStruct Url Auth OAuth Demo Web.
From stdpp Require Import gmap strings list.

(** ** net/http *)
Abbreviation Header := (list (string * string)).
Definition hset (k v : string) (h : Header) : Header :=
  filter (λ kv, kv.1 ≠ k) h ++ [(k, v)].
Definition hadd (k v : string) (h : Header) : Header := h ++ [(k, v)].

Record Reply := mkReply { rp_Code : Z; rp_Header : Header; rp_Body : string }.

Definition newline : string := String "010" "".

(** [Cookie.String]: a zero [MaxAge] is left out, a negative one written as 0. *)
Definition cookie_String (c : Cookie) : string :=
  ck_Name c +:+ "=" +:+ ck_Value c +:+
  (if (ck_Path c =? "")%string then "" else "; Path=" +:+ ck_Path c) +:+
  (if (0 <? ck_MaxAge c)%Z then "; Max-Age=" +:+ Itoa (ck_MaxAge c)
   else if (ck_MaxAge c <? 0)%Z then "; Max-Age=0" else "") +:+
  (if ck_HttpOnly c then "; HttpOnly" else "") +:+
  match ck_SameSite c with
  | SameSiteLaxMode => "; SameSite=Lax"
  | SameSiteStrictMode => "; SameSite=Strict"
  | SameSiteNoneMode => "; SameSite=None"
  | SameSiteUnset | SameSiteDefaultMode => ""
  end.

Fixpoint htmlEscape (s : string) : string :=
  match s with
  | "" => ""
  | String c s =>
      (if Ascii.eqb c "&" then "&amp;" else if Ascii.eqb c "<" then "&lt;"
       else if Ascii.eqb c ">" then "&gt;" else if Ascii.eqb c "034" then "&#34;"
       else if Ascii.eqb c "'" then "&#39;" else String c "") +:+ htmlEscape s
  end.

Definition StatusText (code : Z) : string :=
  if (code =? 302)%Z then "Found" else if (code =? 303)%Z then "See Other" else "".

Definition url_path (r : Request) : string := "/" +:+ GoLib.Join (rq_Path r) "/".

Definition htmlType : string := "text/html; charset=utf-8".

(** [http.Redirect], with no content type set before. *)
Definition http_Redirect (r : Request) (to : string) (code : Z) (h : Header) : Reply :=
  let h := hset "Location" (redirect_location (url_path r) to) h in
  let get := (rq_Method r =? "GET")%string in
  let h := if get || (rq_Method r =? "HEAD")%string then hset "Content-Type" htmlType h else h in
  mkReply code h
    (if get then "<a href=" +:+ String "034" (htmlEscape (redirect_url (url_path r) to)) +:+
       String "034" (">" +:+ StatusText code +:+ "</a>." +:+ newline +:+ newline) else "").

Definition http_Error (msg : string) (code : Z) (h : Header) : Reply :=
  mkReply code (hset "X-Content-Type-Options" "nosniff"
    (hset "Content-Type" "text/plain; charset=utf-8" h)) (msg +:+ newline).

(** ** web.go *)
Class Templates := { ExecuteTemplate : string → PageData → result error string }.

(** The template a handler names. *)
Definition page_name (d : PageData) : string :=
  match d with
  | PRequest _ _ _ _ => "request"
  | PMine _ _ _ _ _ _ => "mine"
  | PQueue _ _ _ _ => "queue"
  | PZones _ _ _ => "zones"
  | PWorkspaces _ _ _ _ => "workspaces"
  | PAudit _ _ => "audit"
  end.

Section reply.
Context `{Unicode} `{Postgres} `{Crypto, OAuth2, Templates}.
Context (Error : error → string) (env : Env) (pods : list Pod).

Definition render (d : PageData) (h : Header) : Reply :=
  match ExecuteTemplate (page_name d) d with
  | Err _ => http_Error "render error" 500 h
  | Ok body => mkReply 200 (hset "Content-Type" htmlType h) body
  end.

Fixpoint write (r : Request) (resp : Response PageData) (h : Header) : Reply :=
  match resp with
  | Redirect to code => http_Redirect r to code h
  | HttpError msg code => http_Error msg code h
  | Page d => render d h
  | Text body => mkReply 200 h body
  | WithCookie c resp => write r resp (hadd "Set-Cookie" (cookie_String c) h)
  end.

(** Without a match: 405 with the methods the path has, or 404. *)
Definition allowed (a : Auth) (v : Visit) (r : Request) : list string :=
  let ms := omap (λ p : pattern, match match_path p.1.2 (rq_Path r) with
    | Some _ => Some p.1.1 | None => None end) (table Error env pods a v) in
  (if bool_decide ("GET" ∈ ms) then ["GET"; "HEAD"] else []) ++
  (if bool_decide ("POST" ∈ ms) then ["POST"] else []).

Definition mux_error (a : Auth) (v : Visit) (r : Request) (h : Header) : Reply :=
  match allowed a v r with
  | [] => http_Error "404 page not found" 404 h
  | ms => http_Error "Method Not Allowed" 405 (hset "Allow" (GoLib.Join ms ", ") h)
  end.

Definition csp : string :=
  "default-src 'none'; style-src 'unsafe-inline'; form-action 'self'; frame-ancestors 'none'".

Definition secure (h : Header) : Header :=
  hset "Referrer-Policy" "no-referrer" (hset "X-Content-Type-Options" "nosniff"
    (hset "Content-Security-Policy" csp h)).

(** The handler [Routes] returns. *)
Definition ServeHTTP (a : Auth) (v : Visit) (r : Request) (w : DB * nat) : Reply * (DB * nat) :=
  let h := secure [] in
  match serve Error env pods a v r w with
  | (Some resp, w) => (write r resp h, w)
  | (None, w) => (mux_error a v r h, w)
  end.
End reply.

(** ** Facts *)
Lemma kv_get_app l1 l2 k :
  kv_get (l1 ++ l2) k = match kv_get l1 k with Some v => Some v | None => kv_get l2 k end.
Proof. induction l1 as [|[k' v'] l1 IH]; simpl; [done|]. by destruct (_ =? _)%string. Qed.

Lemma kv_get_filter (h : Header) k k' :
  kv_get (filter (λ kv, kv.1 ≠ k) h) k' = if (k =? k')%string then None else kv_get h k'.
Proof.
  induction h as [|[x y] h IH]; [by destruct (k =? k')%string|]. rewrite filter_cons. case_decide as Hx; simpl in *.
  - rewrite IH. destruct (String.eqb_spec x k') as [->|]; [|done].
    by destruct (String.eqb_spec k k') as [->|].
  - subst x. rewrite IH. by destruct (k =? k')%string.
Qed.

Lemma kv_get_hset k v h k' : kv_get (hset k v h) k' = if (k =? k')%string then Some v else kv_get h k'.
Proof.
  unfold hset. rewrite kv_get_app, kv_get_filter. simpl. destruct (k =? k')%string; [done|].
  by destruct (kv_get h k').
Qed.

(** The headers [secure] sets are there, and so is what every handler may rely on. *)
Definition secured (h : Header) : Prop :=
  kv_get h "Content-Security-Policy" = Some csp ∧
  kv_get h "X-Content-Type-Options" = Some "nosniff" ∧
  kv_get h "Referrer-Policy" = Some "no-referrer".

Lemma secured_hset k v h :
  k ∈ ["Location"; "Content-Type"; "Allow"] → secured h → secured (hset k v h).
Proof.
  intros Hk. unfold secured. rewrite !kv_get_hset.
  rewrite !elem_of_cons in Hk. destruct Hk as [->|[->|[->|[]%elem_of_nil]]]; done.
Qed.

Lemma secured_hadd k v h : secured h → secured (hadd k v h).
Proof. unfold secured, hadd. rewrite !kv_get_app. by intros (-> & -> & ->). Qed.

(** Of the other headers: cookies are out of reach of scripts and other sites' posts, and
[P] holds of the location. *)
Definition header_ok (P : string → Prop) (kv : string * string) : Prop :=
  (kv.1 = "Set-Cookie" → HasSuffix kv.2 "; HttpOnly; SameSite=Lax" = true) ∧
  (kv.1 = "Location" → P kv.2).

Definition reply_ok (P : string → Prop) (h : Header) : Prop := secured h ∧ Forall (header_ok P) h.

Lemma Forall_hdrop (P : string * string → Prop) k (h : Header) :
  Forall P h → Forall P (filter (λ kv, kv.1 ≠ k) h).
Proof. rewrite !Forall_forall. intros Hh kv [_ Hk]%list_elem_of_filter. auto. Qed.

Lemma reply_ok_hset P k v h :
  k ∈ ["Location"; "Content-Type"; "Allow"] → (k = "Location" → P v) → reply_ok P h →
  reply_ok P (hset k v h).
Proof.
  intros Hk HP [Hs Ho]. split; [by apply secured_hset|]. unfold hset. apply Forall_app. split.
  - by apply Forall_hdrop.
  - repeat constructor; simpl; [|done]. intros ->. rewrite !elem_of_cons, elem_of_nil in Hk. naive_solver.
Qed.

Lemma http_Error_ok P msg code h : reply_ok P h → reply_ok P (rp_Header (http_Error msg code h)).
Proof.
  intros Hh. simpl. apply (reply_ok_hset P "Content-Type" "text/plain; charset=utf-8") in Hh as [Hs Ho];
    [|by set_solver|done].
  split.
  - destruct Hs as (? & ? & ?). unfold secured. by rewrite !(kv_get_hset "X-Content-Type-Options").
  - apply Forall_app. split; [by apply Forall_hdrop|]. by repeat constructor.
Qed.

Lemma HasSuffix_app s t : HasSuffix (s +:+ t) t = true.
Proof. apply HasSuffix_spec. by exists s. Qed.

(** Out of reach of scripts, and not sent along with other sites' posts. *)
Definition safe_cookie (c : Cookie) : Prop := ck_HttpOnly c = true ∧ ck_SameSite c = SameSiteLaxMode.

Lemma setSigned_safe {A} `{Crypto} `{Codec A} a name (v : A) ttl : safe_cookie (setSigned a name v ttl).
Proof. done. Qed.

Lemma cookie_ok P c h :
  safe_cookie c → reply_ok P h → reply_ok P (hadd "Set-Cookie" (cookie_String c) h).
Proof.
  intros [Hh Hl] [Hs Ho]. split; [by apply secured_hadd|]. apply Forall_app. split; [done|].
  constructor; [|done]. split; [|done]. intros _. unfold cookie_String. cbn [snd].
  rewrite Hh, Hl. change ("; HttpOnly" +:+ "; SameSite=Lax") with "; HttpOnly; SameSite=Lax".
  rewrite !string_app_assoc. apply HasSuffix_app.
Qed.

(** Where a response sends the browser. *)
Fixpoint targets {D} (resp : Response D) : list string :=
  match resp with Redirect to _ => [to] | WithCookie _ resp => targets resp | _ => [] end.

Section facts.
Context `{Unicode} `{Postgres} `{Crypto, OAuth2, Templates}.
Context (Error : error → string) (env : Env) (pods : list Pod).

Lemma write_ok P r resp h :
  (∀ to, to ∈ targets resp → P (redirect_location (url_path r) to)) →
  Forall safe_cookie (cookies_of resp) → reply_ok P h → reply_ok P (rp_Header (write r resp h)).
Proof.
  revert h. induction resp as [to code|msg code|d|body|c resp IH]; intros h Hto Hck Hh; cbn [write].
  - assert (P (redirect_location (url_path r) to)) by (apply Hto; by left). simpl.
    case_match; repeat (apply reply_ok_hset; [by set_solver|done|]); done.
  - by apply http_Error_ok.
  - unfold render. destruct (ExecuteTemplate _ d); [|by apply http_Error_ok].
    apply reply_ok_hset; [by set_solver|done|done].
  - done.
  - apply Forall_cons in Hck as [Hc Hck]. apply IH; [done|done|by apply cookie_ok].
Qed.

Lemma plain_escape c s : string_forall plain (QueryEscape s) = true →
  string_forall plain (QueryEscape (String c s)) = true.
Proof.
  intros Hs. destruct c as [[] [] [] [] [] [] [] []]; simpl; rewrite Hs; reflexivity.
Qed.

Lemma QueryEscape_plain s : string_forall plain (QueryEscape s) = true.
Proof. induction s as [|c s IH]; [done|]. by apply plain_escape. Qed.

Lemma local_const to : (∃ rest, to = "/" +:+ rest ∧ string_forall plain rest && negb (HasPrefix rest "/") = true) → local_target to.
Proof. intros (rest & -> & [? ?%negb_true_iff]%andb_true_iff). by exists rest. Qed.

Lemma local_query p s :
  string_forall plain p = true → (∀ t, HasPrefix (p +:+ t) "/" = false) → local_target ("/" +:+ p +:+ QueryEscape s).
Proof.
  intros Hp Hs. eexists. split; [done|]. split; [|apply Hs]. rewrite string_forall_app, Hp. apply QueryEscape_plain.
Qed.

(** What holds of every response: its cookies are safe, and unless it answers [/login] or
[/callback] it redirects to paths of this server only. *)
Section request.
Context (rq : Request).
Definition all_local {D} (resp : Response D) : Prop :=
  (∀ to, to ∈ targets resp → rq_Path rq ∉ [["login"]; ["callback"]] → local_target to) ∧
  Forall safe_cookie (cookies_of resp).

Lemma local_none {D} (resp : Response D) : targets resp = [] → cookies_of resp = [] → all_local resp.
Proof. intros Hr Hc. split; [|by rewrite Hc]. intros to. rewrite Hr. by intros ?%elem_of_nil. Qed.

Lemma local_one {D} (resp : Response D) to :
  targets resp = [to] → Forall safe_cookie (cookies_of resp) → local_target to → all_local resp.
Proof. intros Hr Hc Hto. split; [|done]. intros t. rewrite Hr. by intros ->%list_elem_of_singleton. Qed.

Lemma local_away {D} (resp : Response D) :
  rq_Path rq ∈ [["login"]; ["callback"]] → Forall safe_cookie (cookies_of resp) → all_local resp.
Proof. by split. Qed.

Lemma local_failed e : all_local (failed Error e).
Proof. unfold failed. by repeat case_match; apply local_none. Qed.

Lemma local_finish {A} (x : result error A * DB) to n :
  (∀ a, local_target (to a)) → all_local (finish Error x to n).1.
Proof. intros Ht. destruct x as [[a|e] db]; simpl; [eapply local_one; [done|constructor|done]|apply local_failed]. Qed.

Lemma local_ask {A} n (x : result error A) k fs :
  (∀ a fs', all_local (k a fs')) → all_local (ask Error n x k fs).
Proof.
  intros Hk. unfold ask. destruct (omap id (take n fs)), x; try apply local_failed. apply Hk.
Qed.

Ltac local_path :=
  lazymatch goal with |- local_target (String "/" ?rest) => exists rest; done end.

Definition route_local (rt : Route) : Prop :=
  match rt with
  | Anybody h => ∀ w, all_local (h rq w).1
  | user h | admin h => ∀ u w, all_local (h rq u w).1
  end.

Lemma Callback_cookies {D} (a : Auth) co now rnd r :
  Forall safe_cookie (cookies_of (Callback (D := D) a co now rnd r)).
Proof.
  unfold Callback. repeat case_match; repeat (constructor || apply setSigned_safe).
Qed.

Lemma match_one lit path id : match_path [Lit lit] path = Some id → path = [lit].
Proof.
  destruct path as [|p [|q path]]; simpl; try done; by destruct (String.eqb_spec lit p) as [->|].
Qed.

Lemma back_local r : local_target (back r).
Proof. unfold back. destruct (String.eqb_spec (FormValue r "back") "/workspaces") as [->|]; local_path. Qed.

(** A handler that answers without redirecting, or finishes at a fixed path. *)
Ltac handler_local :=
  intros; repeat case_match; try done; simpl; repeat (apply local_ask; intros);
  first [ by apply local_none | apply local_failed | apply local_finish; intros; local_path ].

Lemma table_local a v :
  Forall (λ p : pattern, ∀ id, match_path p.1.2 (rq_Path rq) = Some id → route_local (p.2 id))
    (table Error env pods a v).
Proof.
  unfold table. repeat (apply List.Forall_cons; [intros id|]); try apply Forall_nil_2;
    cbn [route_local fst snd]; intros Hm.
  - by intros; apply local_none.
  - intros w. apply local_away; [rewrite (match_one _ _ _ Hm); by left|].
    constructor; [apply setSigned_safe|constructor].
  - intros w. apply local_away; [rewrite (match_one _ _ _ Hm); by right; left|apply Callback_cookies].
  - intros _ _. eapply local_one; [done| |local_path]. constructor; [apply setSigned_safe|constructor].
  - intros u w. unfold home. simpl. case_match; (eapply local_one; [done|constructor|local_path]).
  - unfold requestForm. handler_local.
  - unfold fileRequest. intros u w. case_match; [|by apply local_none]. case_match; [by apply local_none|].
    apply local_finish. intros id'. by apply (local_query "mine?filed=").
  - unfold mine. handler_local.
  - unfold queue. handler_local.
  - unfold approve. handler_local.
  - unfold deny. handler_local.
  - unfold zones_page. handler_local.
  - unfold createZone. handler_local.
  - unfold cloneZone. handler_local.
  - unfold renameZone. handler_local.
  - unfold deleteZone. handler_local.
  - unfold defaultZone. handler_local.
  - unfold addZoneRule. handler_local.
  - intros u w. apply local_finish. intros _. apply back_local.
  - unfold workspaces. handler_local.
  - unfold assign. handler_local.
  - unfold grant_handler. handler_local.
  - unfold audit_page. handler_local.
Qed.

Lemma Require_local (a : Config) clock adm (h : Request → User → DB * nat → Response PageData * (DB * nat)) w :
  (∀ u w, all_local (h rq u w).1) → all_local (Require_ a clock adm h rq w).1.
Proof.
  intros Hh. unfold Require_. destruct (User_of a clock rq) as [u|].
  - repeat case_match; try by apply local_none. apply Hh.
  - case_match; [|by apply local_none]. eapply local_one; [done|constructor|]. by apply (local_query "login?next=").
Qed.

Lemma serve_local a v w resp w' :
  serve Error env pods a v rq w = (Some resp, w') → all_local resp.
Proof.
  unfold serve. destruct (Routes Error env pods a v rq) as [rt|] eqn:Er; [|done].
  apply Routes_in in Er as (p & id & Hin & _ & Hm & ->).
  pose proof (table_local a v) as Hl. rewrite Forall_forall in Hl. specialize (Hl p Hin id Hm).
  destruct (p.2 id) as [h|h|h]; simpl in Hl.
  - specialize (Hl w). destruct (h rq w). by intros [= <- <-].
  - pose proof (Require_local (a_c a) (v_now v) false h w Hl). destruct (Require_ _ _ _ _ _ _). by intros [= <- <-].
  - pose proof (Require_local (a_c a) (v_now v) true h w Hl). destruct (Require_ _ _ _ _ _ _). by intros [= <- <-].
Qed.

End request.

Lemma mux_error_ok P a v r h : reply_ok P h → reply_ok P (rp_Header (mux_error Error env pods a v r h)).
Proof.
  intros Hh. unfold mux_error. case_match; apply http_Error_ok; [done|].
  apply reply_ok_hset; [by set_solver|done|done].
Qed.

Lemma secure_ok P : reply_ok P (secure []).
Proof. split; [done|]. repeat constructor; done. Qed.

(** [C27] Whatever is asked, the reply carries the content security policy that forbids
scripts, framing and foreign form targets, forbids content sniffing and sends no referrer;
every cookie it sets is out of reach of scripts and of cross-site posts; and except at
[/login] and [/callback] a redirect stays on this origin. *)
Theorem replies_secured (a : Auth) (v : Visit) (r : Request) (w : DB * nat) :
  let h := rp_Header (ServeHTTP Error env pods a v r w).1 in
  kv_get h "Content-Security-Policy" = Some
    "default-src 'none'; style-src 'unsafe-inline'; form-action 'self'; frame-ancestors 'none'" ∧
  kv_get h "X-Content-Type-Options" = Some "nosniff" ∧ kv_get h "Referrer-Policy" = Some "no-referrer" ∧
  Forall (λ kv, kv.1 = "Set-Cookie" → HasSuffix kv.2 "; HttpOnly; SameSite=Lax" = true) h ∧
  (rq_Path r ∉ [["login"]; ["callback"]] →
   Forall (λ kv, kv.1 = "Location" → same_origin kv.2 = true) h).
Proof.
  set (P l := rq_Path r ∉ [["login"]; ["callback"]] → same_origin l = true).
  assert (reply_ok P (rp_Header (ServeHTTP Error env pods a v r w).1)) as [(Hc & Hx & Hr) Ho].
  { unfold ServeHTTP. destruct (serve Error env pods a v r w) as [[resp|] w'] eqn:Es; simpl.
    - apply serve_local in Es as [Hto Hck]. apply write_ok; [|done|apply secure_ok].
      intros to Hin Hpath. by apply redirect_local, Hto.
    - apply mux_error_ok, secure_ok. }
  simpl. split_and!; try done; [|intros Hpath]; (eapply Forall_impl; [exact Ho|]); intros kv [Hck Hloc]; [done|].
  intros Hl. by apply Hloc.
Qed.
End facts.

(** ** Concrete replies *)
#[local] Instance ascii_unicode : Unicode := {| map_unicode_ToLower s := s |}.
#[local] Instance demo_templates : Templates := {| ExecuteTemplate name d := Ok name |}.

Definition web_reply (r : Request) : Reply :=
  (ServeHTTP (λ _, "error") (demo_env 100 60) web_pods demo_auth demo_visit r (demo_db, 0)).1.

(** Logging out: the cookie it sets has no Max-Age, so the browser keeps it. *)
Example logout_reply :
  let rp := web_reply (demo_request "POST" ["logout"] [("csrf", b64 "random")]) in
  rp_Code rp = 302%Z ∧ kv_get (rp_Header rp) "Location" = Some "/" ∧
  kv_get (rp_Header rp) "Set-Cookie" = Some (sessionCookie +:+ "=" +:+
    ck_Value (setSigned demo_config sessionCookie no_user (-1)) +:+ "; Path=/; HttpOnly; SameSite=Lax") ∧
  rp_Code (web_reply (demo_request "PUT" ["zones"] [])) = 405%Z ∧
  kv_get (rp_Header (web_reply (demo_request "PUT" ["zones"] []))) "Allow" = Some "GET, HEAD, POST" ∧
  rp_Code (web_reply (demo_request "GET" ["nothing"] [])) = 404%Z.
Proof. vm_compute. split_and!; reflexivity. Qed.

Lemma replies_secured_witness :
  kv_get (rp_Header (web_reply file_r)) "Location" = Some ("/mine?filed=" +:+ demo_uuid 60) ∧
  Forall (λ kv, kv.1 = "Location" → same_origin kv.2 = true) (rp_Header (web_reply file_r)).
Proof.
  split; [vm_compute; reflexivity|].
  destruct (replies_secured (λ _, "error") (demo_env 100 60) web_pods demo_auth demo_visit file_r
    (demo_db, 0)) as (_ & _ & _ & _ & Hl).
  apply Hl. apply (bool_decide_unpack _). vm_compute. exact I.
Defined.
