(* ===== verification/System.v ===== *)
(** * The running system

The components together, interleaved as the goroutines of [main.go] interleave them:
HTTP handlers and pod events that change the state and then call [notify], denials
reported by Envoy, and the loop of [serve], which expires grants, waits for the channel,
and reconciles. A reconcile is not atomic: its three queries and its view of the pods may
each see a different state; nor are the handlers' transactions that look before they write
([Races.v]). A transaction whose COMMIT went unanswered may have changed the tables although
its caller saw an error and told nobody; the next reconcile, at the latest the next resync,
reads what it left. The claims are about where this ends: once nothing is outstanding,
what Envoy and Cilium were given is the policy of the current tables. *)
From S2P Require Import Prelude GoLib Regex Policy Json Store StoreInv StoreSpec StoreThms PolicyLoad StoreClaims Demo Races Watch Cilium Xds Main Base64 Auth OAuth Web.
From stdpp Require Import gmap strings list sorting fin_maps relations.

(** Where the loop is. The queries of [PolicyInput] are remembered as the databases they
read. *)
Inductive Phase : Type :=
| Waiting                                   (* in the select *)
| Coalescing                                (* time.Sleep after a receive *)
| Querying0                                 (* reconcile called *)
| Querying1 (db1 : DB)                      (* zones read *)
| Querying2 (db1 db2 : DB) (t : Z)          (* rules read, at time t *)
| Loaded (db1 db2 db3 : DB) (t : Z)         (* assignments read *)
| Stopped.                                  (* ctx.Done: shutting down *)

Record Sys (C S : Type) := mkSys {
  y_db : DB;
  y_pods : list Pod;               (* the informer's cache *)
  y_token : bool;                  (* changed holds a value *)
  y_pending : nat;                 (* changes made whose notify has not run yet *)
  y_lost : bool;                   (* ghost: a COMMIT went unanswered since the last reconcile
                                      began to read; nobody was told whether it changed anything *)
  y_phase : Phase;
  y_throttle : gmap string Z;
  y_lastErr : string;
  y_xs : Server C;
  y_k : S
}.
Arguments mkSys {C S}.
Arguments y_db {C S}.
Arguments y_pods {C S}.
Arguments y_token {C S}.
Arguments y_pending {C S}.
Arguments y_lost {C S}.
Arguments y_phase {C S}.
Arguments y_throttle {C S}.
Arguments y_lastErr {C S}.
Arguments y_xs {C S}.
Arguments y_k {C S}.
Arguments Main.apply : simpl never.
Arguments OnDenial : simpl never.
Arguments reconcile : simpl never.
Arguments ExpireGrants : simpl never.

(** The operations of handlers that query before they write. *)
Definition looks_first (op : store_op) : bool :=
  match op with OpDeleteZone _ _ | OpAssign _ _ _ | OpFileRequest _ _ _ _ _ => true | _ => false end.

(** The answer to the transaction's COMMIT does not arrive. *)
Definition lost (env : Env) : bool := if ack_lost env is Some _ then true else false.

Lemma lost_false env : lost env = false → ack_lost env = None.
Proof. unfold lost. by case_match. Qed.

Section system.
Context `{Unicode, Postgres, !PostgresLaws, Envoy, Crypto, OAuth2} {C S : Type}.
Context `{SnapshotCache Resource C} `{KubeAPI S}.
Context (Error : error → string) (a : Auth) (publicURL : string).
Abbreviation sys := (Sys C S).

(** What others do: handlers, the informer, Envoy's logs, the tickers, and a signal that
ends the loop at its select ([Shutdown] lets handlers finish, so these go on). A handler
may have looked at the pods ([pods']) some time before its transaction, and a transaction
that looks first may have looked at a database [old] of some time before its first write
([out_raced] does not ask who sent the request: it allows more than the handlers do). *)
Inductive outside : sys → sys → Prop :=
| out_request env v r pods' resp db' n db pods tk pd ls ph th le xs k :
    serve Error env pods' a v r (db, 0) = (resp, (db', n)) →
    outside (mkSys db pods tk pd ls ph th le xs k)
      (mkSys db' pods tk (n + pd) (ls || lost env) ph th le xs k)
| out_raced old env op err db' db pods tk pd ls ph th le xs k :
    looks_first op = true → exec_seeing old env op db = (err, db') →
    outside (mkSys db pods tk pd ls ph th le xs k)
      (mkSys db' pods tk ((if err is Some _ then 0 else 1) + pd) (ls || lost env) ph th le xs k)
| out_pods pods' db pods tk pd ls ph th le xs k :
    outside (mkSys db pods tk pd ls ph th le xs k) (mkSys db pods' tk (1 + pd) ls ph th le xs k)
| out_denial env clock d db pods tk pd ls ph th le xs k :
    outside (mkSys db pods tk pd ls ph th le xs k)
      (let '(th', db') := OnDenial env clock pods d (th, db) in
       mkSys db' pods tk pd ls ph th' le xs k)
| out_expire env db pods tk pd ls th le xs k :
    outside (mkSys db pods tk pd ls Waiting th le xs k)
      (let '(n, db') := ExpireGrants env db in
       mkSys db' pods tk ((if n is Ok (Datatypes.S _) then 1 else 0) + pd) (ls || lost env) Waiting th le xs k)
| out_resync db pods tk pd ls th le xs k :
    outside (mkSys db pods tk pd ls Waiting th le xs k) (mkSys db pods tk pd ls Querying0 th le xs k)
| out_stop db pods tk pd ls th le xs k :
    outside (mkSys db pods tk pd ls Waiting th le xs k) (mkSys db pods tk pd ls Stopped th le xs k).

(** What is under way already: [notify] calls, and the loop once it has received. A query
may fail ([fs] is the error); the reconcile then ends there. *)
Inductive inside : sys → sys → Prop :=
| in_notify db pods tk pd ls ph th le xs k :
    inside (mkSys db pods tk (1 + pd) ls ph th le xs k) (mkSys db pods true pd ls ph th le xs k)
| in_receive db pods pd ls th le xs k :
    inside (mkSys db pods true pd ls Waiting th le xs k) (mkSys db pods false pd ls Coalescing th le xs k)
| in_drain db pods tk pd ls th le xs k :
    inside (mkSys db pods tk pd ls Coalescing th le xs k) (mkSys db pods false pd ls Querying0 th le xs k)
| in_query1 db pods tk pd ls th le xs k :
    inside (mkSys db pods tk pd ls Querying0 th le xs k)
      (mkSys db pods tk pd false (Querying1 db) th le xs k)
| in_query2 t db1 db pods tk pd ls th le xs k :
    inside (mkSys db pods tk pd ls (Querying1 db1) th le xs k)
      (mkSys db pods tk pd ls (Querying2 db1 db t) th le xs k)
| in_query3 t db1 db2 db pods tk pd ls th le xs k :
    inside (mkSys db pods tk pd ls (Querying2 db1 db2 t) th le xs k)
      (mkSys db pods tk pd ls (Loaded db1 db2 db t) th le xs k)
| in_query_fails env e ph db pods tk pd ls th le xs k :
    (ph = Querying0 ∨ (∃ db1, ph = Querying1 db1) ∨ ∃ db1 db2 t, ph = Querying2 db1 db2 t) →
    inside (mkSys db pods tk pd ls ph th le xs k)
      (let '(err, xs', k') := Main.apply (Err e) pods publicURL xs k in
       let '(le', db') := reconcile Error env err (le, db) in
       mkSys db' pods tk pd ls Waiting th le' xs' k')
| in_apply env t db1 db2 db3 db pods tk pd ls th le xs k :
    inside (mkSys db pods tk pd ls (Loaded db1 db2 db3 t) th le xs k)
      (let '(err, xs', k') := Main.apply (Ok (PolicyInput_torn db1 db2 db3 t)) pods publicURL xs k in
       let '(le', db') := reconcile Error env err (le, db) in
       mkSys db' pods tk pd ls Waiting th le' xs' k').

Definition sys_step (s s' : sys) : Prop := outside s s' ∨ inside s s'.

(** [serve] when it enters its loop: seeded, and notified once. *)
Definition sys_start (s : sys) : Prop :=
  sound (y_db s) ∧ y_token s = true ∧ y_phase s = Waiting ∧ y_lastErr s = "".

(** Nothing outstanding. *)
Definition quiescent (s : sys) : Prop :=
  y_phase s = Waiting ∧ y_token s = false ∧ y_pending s = 0.

(** ** What a step does to the tables *)
Definition same_tables (db db' : DB) : Prop :=
  zones db' = zones db ∧ rules db' = rules db ∧ assignments db' = assignments db.

Lemma PolicyInput_torn_tables db1 db2 db3 db t :
  zones db1 = zones db → rules db2 = rules db → assignments db3 = assignments db →
  PolicyInput_torn db1 db2 db3 t = PolicyInput db t.
Proof. intros H1' H2' H3'. unfold PolicyInput, PolicyInput_torn, rules_query. by rewrite H1', H2', H3'. Qed.

(** An operation [x] known as one of [exec]: it did nothing, or all of its work, whatever it
returned. *)
Lemma outcome_ran {A} env op (x : result error A * DB) db :
  exec env op db = outcome x →
  x.2 = db ∨ (∃ env', on_success env' op db x.2) ∧ ((∃ v, x.1 = Ok v) ∨ lost env = true).
Proof.
  destruct x as [[v|e] db']; intros Hx.
  - right. split; [|left; by eexists]. exists env. by apply exec_Ok.
  - unfold outcome in Hx. simpl in *. apply exec_Err in Hx as [->|[[l Hl] Hx%exec_Ok]]; [by left|right]. split; [by eexists|].
    right. unfold lost. by rewrite Hl.
Qed.

Lemma outcome_sound {A} env op (x : result error A * DB) db :
  exec env op db = outcome x → sound db → sound x.2.
Proof. intros Hx Hop%(sound_exec env op). by rewrite Hx in Hop. Qed.

Lemma reconcile_same env err le db le' db' :
  reconcile Error env err (le, db) = (le', db') →
  same_tables db db' ∧ (sound db → sound db') ∧
  le' = (if err is Some e then Error e else "").
Proof.
  unfold reconcile. destruct err as [e|]; [|by intros [= <- <-]].
  destruct (Error e =? le)%string; [by intros [= <- <-]|]. intros [= <- <-].
  set (detail := [("error", JStr (Error e))]).
  assert (exec env (OpAuditSystem "reconcile_error" detail) db =
    outcome (AuditSystem env "reconcile_error" detail db)) as Hx by done.
  split_and!; [|by apply (outcome_sound _ _ _ _ Hx)|done].
  destruct (outcome_ran _ _ _ _ Hx) as [->|[[env' Hs] _]]; [done|].
  simpl in Hs. by apply AuditSystem_Ok in Hs as ->.
Qed.

Lemma OnDenial_same env clock pods d th db th' db' :
  OnDenial env clock pods d (th, db) = (th', db') →
  same_tables db db' ∧ (sound db → sound db').
Proof.
  unfold OnDenial. destruct (ByIP pods _) as [ws|]; [|by intros [= <- <-]].
  destruct (allow _ _ th) as [[] last]; [|by intros [= <- <-]]. intros [= <- <-].
  assert (exec env (OpRecordDenial (ws_ID ws) (dn_Host d) (dn_Port d)) db =
    outcome (RecordDenial env (ws_ID ws) (dn_Host d) (dn_Port d) db)) as Hx by done.
  split; [|by apply (outcome_sound _ _ _ _ Hx)].
  destruct (outcome_ran _ _ _ _ Hx) as [->|[[env' Hs] _]]; [done|].
  simpl in Hs. apply RecordDenial_frame in Hs as [m Hm]. cbn [snd]. by rewrite Hm.
Qed.

Lemma ExpireGrants_same env db n db' :
  ExpireGrants env db = (n, db') →
  (sound db → sound db') ∧
  (n = Ok 0 ∨ (∃ e, n = Err e) → lost env = false → same_tables db db').
Proof.
  intros E. assert (exec env OpExpireGrants db = outcome (ExpireGrants env db)) as Hx by done.
  split.
  - intros Hop%(outcome_sound _ _ _ _ Hx). by rewrite E in Hop.
  - intros [->|[e ->]] Hl.
    + apply ExpireGrants_Ok in E as [Hsize ->]. simpl. split_and!; [done| |done].
      apply no_expired_rows. by rewrite (proj1 (map_size_empty_iff _) (eq_sym Hsize)), map_to_list_empty.
    + rewrite E in Hx. change (exec env OpExpireGrants db = (Some e, db')) in Hx.
      apply exec_Err_acked in Hx as ->; [done|by apply lost_false].
Qed.

Lemma serve_same env v r pods' resp db db' n :
  serve Error env pods' a v r (db, 0) = (resp, (db', n)) →
  (sound db → sound db') ∧ (n = 0 → lost env = false → db' = db).
Proof.
  intros [[= -> ->]|(u & op & x & _ & _ & _ & _ & _ & Hr & _)]%serve_acts; [done|].
  split.
  - intros Hop. destruct Hr as [[He _]|(_ & He & _)]; simpl in He;
      [apply (sound_exec env op) in Hop|apply (sound_exec (acked env) op) in Hop]; by rewrite He in Hop.
  - intros Hn Hl%lost_false. destruct Hr as [(_ & ? & _)|([? ?] & _)]; simpl in *; [lia|congruence].
Qed.

Lemma apply_error_wrapped loaded pods (xs : Server C) (k : S) e xs' k' :
  Main.apply loaded pods publicURL xs k = (Some e, xs', k') → ∃ m e', m ≠ "" ∧ e = EWrap m e'.
Proof.
  unfold Main.apply. destruct loaded as [inp|err]; [|intros [= <- _ _]; eexists _, _; split; [|reflexivity]; done].
  destruct (Build _) as [res|err]; [|intros [= <- _ _]; eexists _, _; split; [|reflexivity]; done].
  destruct (Push res xs) as [[err|] xs1]; [intros [= <- _ _]; eexists _, _; split; [|reflexivity]; done|].
  destruct (Apply _ k) as [[err|] k1]; [intros [= <- _ _]; eexists _, _; split; [|reflexivity]; done|done].
Qed.

(** ** The invariant

While nothing is queued, whatever the loop has read so far is still current, and when it
waits after a successful reconcile, so is what that reconcile applied. *)
Definition current (s : sys) : Prop :=
  match y_phase s with
  | Waiting => y_lastErr s = "" → ∃ t xs0 k0,
      Main.apply (Ok (PolicyInput (y_db s) t)) (y_pods s) publicURL xs0 k0 = (None, y_xs s, y_k s)
  | Coalescing | Querying0 | Stopped => True
  | Querying1 db1 => zones db1 = zones (y_db s)
  | Querying2 db1 db2 _ => zones db1 = zones (y_db s) ∧ rules db2 = rules (y_db s)
  | Loaded db1 db2 db3 _ => zones db1 = zones (y_db s) ∧ rules db2 = rules (y_db s) ∧
      assignments db3 = assignments (y_db s)
  end.

Definition sys_inv (s : sys) : Prop :=
  sound (y_db s) ∧ (y_token s = false → y_pending s = 0 → y_lost s = false → current s).

(** A step that changes neither the tables nor the loop keeps what is current. *)
Lemma current_same db db' pods tk tk' pd pd' ls ls' ph th th' le xs k :
  same_tables db db' → current (mkSys db pods tk pd ls ph th le xs k) →
  current (mkSys db' pods tk' pd' ls' ph th' le xs k).
Proof.
  intros (Hz & Hr & Ha). unfold current. simpl. destruct ph; rewrite ?Hz, ?Hr, ?Ha; try done.
  intros Hw Hle. destruct (Hw Hle) as (t & xs0 & k0 & Heq). exists t, xs0, k0.
  assert (PolicyInput db' t = PolicyInput db t) as -> by by apply PolicyInput_torn_tables. done.
Qed.

Lemma outside_inv s s' : outside s s' → sys_inv s → sys_inv s'.
Proof.
  intros Hs [Hop Hcur]. unfold sys_inv in *.
  destruct Hs as [env clock r pods' resp db' n db pods tk pd ls ph th le xs k Hserve
    |old env op err db' db pods tk pd ls ph th le xs k _ Hx|pods' db pods tk pd ls ph th le xs k|env clock d db pods tk pd ls ph th le xs k
    |env db pods tk pd ls th le xs k|db pods tk pd ls th le xs k|db pods tk pd ls th le xs k]; simpl in *.
  - apply serve_same in Hserve as [Hop' Hdb]. split; [by apply Hop'|].
    intros Ht Hp [Hl1 Hl2]%orb_false_iff. rewrite Hdb by (done || lia).
    eapply current_same; [done|]. apply Hcur; [done|lia|done].
  - split; [by apply (exec_seeing_sound old env op) in Hop; rewrite Hx in Hop|].
    intros Ht Hp [Hl1 Hl2%lost_false]%orb_false_iff.
    destruct err as [e|]; [|done]. apply exec_seeing_Err in Hx as [->|[[? ?] _]]; [|congruence].
    eapply current_same; [done|]. by apply Hcur.
  - done.
  - destruct (OnDenial _ _ _ _ _) as [th' db'] eqn:E. apply OnDenial_same in E as [Hsame Hop'].
    simpl. split; [by apply Hop'|]. intros Ht Hp Hl. eapply current_same; [done|]. by apply Hcur.
  - destruct (ExpireGrants env db) as [n db'] eqn:E. apply ExpireGrants_same in E as [Hop' Hsame].
    simpl. split; [by apply Hop'|]. intros Ht Hp [Hl1 Hl2]%orb_false_iff.
    eapply (current_same db); [|apply Hcur; [done|lia|done]]. apply Hsame; [|done].
    destruct n as [[|n]|e]; [by left|done|right; by eexists].
  - done.
  - done.
Qed.

Context (Error_wrap : ∀ m e, m ≠ "" → Error (EWrap m e) ≠ "").

Lemma inside_inv s s' : inside s s' → sys_inv s → sys_inv s'.
Proof.
  intros Hs [Hop Hcur]. unfold sys_inv in *.
  destruct Hs as [| | | | |t db1 db2 db pods tk pd th le xs k
    |env e ph db pods tk pd ls th le xs k Hph|env t db1 db2 db3 db pods tk pd ls th le xs k]; simpl in *;
    try (split; [done|]; unfold current in *; simpl in *; naive_solver).
  - destruct (reconcile_same env (Some (EWrap "load policy" e)) le db _ _ eq_refl) as (_ & Hop' & _).
    split; [by apply Hop'|]. intros _ _ _ Hle. by apply Error_wrap in Hle.
  - destruct (Main.apply _ _ _ xs k) as [[err xs'] k'] eqn:Ea.
    destruct (reconcile _ _ _ _) as [le' db'] eqn:E.
    apply reconcile_same in E as (Hsame & Hop' & ->). simpl. split; [by apply Hop'|].
    intros Ht Hp Hl. destruct (Hcur Ht Hp Hl) as (Hz & Hr & Has). unfold current. simpl. intros Hle.
    destruct err as [err|].
    { apply apply_error_wrapped in Ea as (m & e' & Hm & ->). by apply Error_wrap in Hle. }
    simpl in *. destruct Hsame as (Hz' & Hr' & Ha'). exists t, xs, k.
    rewrite (PolicyInput_torn_tables db1 db2 db3 db' t) in Ea by congruence. done.
Qed.

Lemma sys_reach_inv s0 s : sys_start s0 → rtc sys_step s0 s → sys_inv s.
Proof.
  intros (Hop & Ht & Hp & Hle) Hr. assert (sys_inv s0) as H0'.
  { split; [done|]. by rewrite Ht. }
  clear Hop Ht Hp Hle. induction Hr as [|x y z [Ho|Hi] _ IH]; [done|..]; apply IH.
  - by eapply outside_inv.
  - by eapply inside_inv.
Qed.

(** ** The loop comes to rest *)
Definition rank (ph : Phase) : nat :=
  match ph with
  | Waiting | Stopped => 0 | Coalescing => 6 | Querying0 => 5 | Querying1 _ => 4 | Querying2 _ _ _ => 3
  | Loaded _ _ _ _ => 2
  end.

Definition work (s : sys) : nat :=
  10 * y_pending s + (if y_token s then 8 else 0) + rank (y_phase s).

Lemma inside_work s s' : inside s s' → work s' < work s.
Proof.
  unfold work. destruct 1 as [| | | | | |env e ph db pods tk pd ls th le xs k Hph
    |env t db1 db2 db3 db pods tk pd ls th le xs k]; simpl; try (repeat case_match; lia).
  - destruct Hph as [->|[[? ->]|(? & ? & ? & ->)]]; simpl; lia.
  - destruct (Main.apply _ _ _ xs k) as [[err xs'] k']. destruct (reconcile _ _ _ _). simpl. lia.
Qed.

(** Where nothing more happens by itself. *)
Definition at_rest (s : sys) : Prop := quiescent s ∨ y_phase s = Stopped ∧ y_pending s = 0.

Lemma inside_progress s : at_rest s ∨ ∃ s', inside s s'.
Proof.
  destruct s as [db pods tk pd ls ph th le xs k]. unfold at_rest, quiescent. simpl.
  destruct pd as [|pd]; [|right; eexists; apply in_notify].
  destruct ph as [| | |db1|db1 db2 t|db1 db2 db3 t|];
    [destruct tk; [right|left; by left]|right..|left; by right].
  - eexists; apply in_receive.
  - eexists; apply in_drain.
  - eexists; apply in_query1.
  - eexists; by apply (in_query2 0).
  - eexists; apply in_query3.
  - eexists; by apply (in_apply (mkEnv 0 [] (λ _, "") None)).
Qed.

Lemma inside_run_bound n s s' : nsteps inside n s s' → n + work s' ≤ work s.
Proof.
  induction 1 as [|n x y z Hxy%inside_work _ IH]; lia.
Qed.

Lemma at_rest_stuck s s' : at_rest s → ¬ inside s s'.
Proof.
  intros [(Hw & Ht & Hp)|[Hw Hp]] Hs; destruct Hs as [| | | | | |env e ph db pods tk pd ls th le xs k Hph|];
    simpl in *; subst; try done; naive_solver.
Qed.
End system.

(** ** Denials, from Envoy's log to the table

The callback of the log stream: the [n]th call sees the clock, the environment of its
transaction and the pods of its moment. *)
Section denials.
Context `{Unicode, Postgres} (moment : nat → Env * Z * list Pod).

Definition on_denial (d : Denial) (st : nat * (gmap string Z * DB)) : nat * (gmap string Z * DB) :=
  let '(n, st) := st in let '(env, clock, pods) := moment n in
  (Datatypes.S n, OnDenial env clock pods d st).

(** [k] is the row of a denial of [d] reported while the source's workspace was running. *)
Definition row_of_denial (d : Denial) (k : string * string * Z) : Prop :=
  ∃ n ws, ByIP (moment n).2 (dn_SrcIP d) = Some ws ∧ uuid_in (ws_ID ws) = Some k.1.1 ∧
    k.1.2 = dn_Host d ∧ k.2 = dn_Port d.

(** Only denial rows change, and those that do are rows of [ds]. *)
Definition denials_from (ds : list Denial) (db db' : DB) : Prop :=
  (∃ m, db' = set_denials db m) ∧
  ∀ k r, denials db' !! k = Some r → denials db !! k = Some r ∨ Exists (λ d, row_of_denial d k) ds.

Lemma RecordDenial_rows env ws host port db db' k r :
  RecordDenial env ws host port db = (Ok (), db') → denials db' !! k = Some r →
  denials db !! k = Some r ∨ uuid_in ws = Some k.1.1 ∧ k.1.2 = host ∧ k.2 = port.
Proof.
  intros (w & new & db1 & Hw & _ & Hu & ->)%RecordDenial_Ok Hk.
  assert (denials db1 !! k = Some r) as Hk1.
  { case_bool_decide; [|done]. by apply map_lookup_filter_Some in Hk as [? _]. }
  clear Hk. unfold upsert_denial in Hu.
  destruct (denials db !! (w, host, port)) as [d|] eqn:Ed.
  - destruct (_ <? _)%Z; [|by simplify_eq; left].
    destruct (_ <? _)%Z; simplify_eq/=; apply lookup_insert_Some in Hk1 as [[<- _]|[_ ?]]; auto.
  - simplify_eq/=. apply lookup_insert_Some in Hk1 as [[<- _]|[_ ?]]; auto.
Qed.

Lemma on_denial_from d n th db n' th' db' :
  on_denial d (n, (th, db)) = (n', (th', db')) → denials_from [d] db db'.
Proof.
  unfold on_denial. destruct (moment n) as [[env clock] pods] eqn:Em. intros [= _ E].
  assert (denials_from [d] db db) as Hrefl.
  { split; [exists (denials db); by destruct db|auto]. }
  unfold OnDenial in E. destruct (ByIP pods _) as [ws|] eqn:Eip; [|by simplify_eq].
  destruct (allow _ _ th) as [[] last]; [|by simplify_eq]. injection E as _ <-.
  destruct (outcome_ran env (OpRecordDenial (ws_ID ws) (dn_Host d) (dn_Port d))
    (RecordDenial env (ws_ID ws) (dn_Host d) (dn_Port d) db) db eq_refl) as [->|[[env' Hs] _]]; [done|].
  simpl in Hs. split; [by eapply RecordDenial_frame|]. intros k r Hk.
  destruct (RecordDenial_rows _ _ _ _ _ _ _ _ Hs Hk) as [|(? & ? & ?)]; [by left|right].
  apply Exists_cons. left. exists n, ws. by rewrite Em.
Qed.

Lemma denials_from_trans ds ds' db db1 db2 :
  denials_from ds db db1 → denials_from ds' db1 db2 → denials_from (ds ++ ds') db db2.
Proof.
  intros [[m ->] H1'] [[m' ->] H2']. split; [by exists m'|]. intros k r Hk.
  rewrite Exists_app. destruct (H2' k r Hk) as [Hk'|]; [|auto]. destruct (H1' k r Hk'); auto.
Qed.

Lemma denials_from_refl ds db : denials_from ds db db.
Proof. split; [exists (denials db); by destruct db|auto]. Qed.

(** What the stream delivers before it ends. *)
Fixpoint delivered (recv : list (result error (list LogEntry))) : list LogEntry :=
  match recv with Ok entries :: recv => entries ++ delivered recv | _ => [] end.

Abbreviation state := (nat * (gmap string Z * DB))%type.

Lemma entries_from entries (st : state) :
  denials_from (omap denial entries) st.2.2
    (foldl (λ st e, match denial e with Some d => on_denial d st | None => st end) st entries).2.2.
Proof.
  revert st. induction entries as [|e entries IH]; intros st; simpl; [apply denials_from_refl|].
  destruct (denial e) as [d|]; [|apply IH].
  apply (denials_from_trans [d] _ _ (on_denial d st).2.2); [|apply IH].
  destruct st as [n [th db]], (on_denial d (n, (th, db))) as [n' [th' db']] eqn:E.
  by eapply on_denial_from.
Qed.

Lemma stream_from recv (st : state) :
  denials_from (omap denial (delivered recv)) st.2.2
    (StreamAccessLogs (Some on_denial) recv st).2.2.2.
Proof.
  revert st. induction recv as [|[entries|e] recv IH]; intros st; simpl;
    [apply denials_from_refl| |apply denials_from_refl].
  rewrite omap_app. eapply denials_from_trans; [apply entries_from|apply IH].
Qed.
End denials.

Section claims.
Context `{Unicode, Postgres, !PostgresLaws, Envoy, Crypto, OAuth2} {C S : Type}.
Context `{SnapshotCacheLaws Resource C} `{KubeLaws S}.
Context (Error : error → string) (a : Auth) (publicURL : string).
Context (Error_wrap : ∀ m e, m ≠ "" → Error (EWrap m e) ≠ "").

(** The running system converges to its tables. However requests, pod events, denials,
ticks and the steps of the reconcile interleave, whenever no notification is outstanding,
no COMMIT went unanswered since the last reconcile began to read, the loop is waiting and
its last reconcile reported no error, then what Envoy is served and what the cluster holds
enforce what the current tables grant the current pods at some time [t]. *)
Theorem quiescent_enforced (s0 s : Sys C S) :
  sys_start s0 → rtc (sys_step Error a publicURL) s0 s → quiescent s → y_lost s = false →
  y_lastErr s = "" → ∃ t, enforced (y_db s) t (y_pods s) (y_xs s) (y_k s).
Proof.
  intros H0' Hr (Hw & Ht & Hp) Hl Hle.
  destruct (sys_reach_inv Error a publicURL Error_wrap s0 s H0' Hr) as [Hop Hcur].
  specialize (Hcur Ht Hp Hl). unfold current in Hcur. rewrite Hw in Hcur.
  destruct (Hcur Hle) as (t & xs0 & k0 & Ha). exists t. by eapply apply_enforced.
Qed.

(** [C32] The loop comes to rest: left alone, the notifications under way and the loop's own
steps end after a bounded number of steps, in every order and with any query failing, and
exactly in the states where no notification is outstanding and the loop waits at an empty
channel or was stopped. *)
Theorem loop_settles (s : Sys C S) :
  (∀ n s', nsteps (inside Error publicURL) n s s' → n ≤ 10 * y_pending s + 14) ∧
  ((∀ s', ¬ inside Error publicURL s s') ↔
   y_pending s = 0 ∧ (y_phase s = Waiting ∧ y_token s = false ∨ y_phase s = Stopped)).
Proof.
  split.
  - intros n s' Hn%inside_run_bound. unfold work in Hn.
    assert (rank (y_phase s) ≤ 6) by (destruct (y_phase s); simpl; lia).
    destruct (y_token s); lia.
  - split.
    + intros Hno. destruct (inside_progress Error publicURL s) as [Hr|[s' Hs]];
        [|by apply Hno in Hs]. destruct Hr as [(? & ? & ?)|[? ?]]; auto.
    + intros [Hp Hr] s'. apply at_rest_stuck. unfold at_rest, quiescent. naive_solver.
Qed.

End claims.

(** A reconcile with nothing in between: from its first query, and from the receive. *)
Lemma queried_run `{Unicode, Postgres, Envoy, Crypto, OAuth2} {C S} `{SnapshotCache Resource C}
    `{KubeAPI S} Error url (env : Env) t db pods tk pd ls th le (xs xs' : Server C) (k k' : S) :
  Main.apply (Ok (PolicyInput db t)) pods url xs k = (None, xs', k') →
  rtc (inside Error url) (mkSys db pods tk pd ls Querying0 th le xs k)
    (mkSys db pods tk pd false Waiting th "" xs' k').
Proof.
  intros Ha. eapply rtc_l; [apply in_query1|]. eapply rtc_l; [apply (in_query2 _ _ t)|].
  eapply rtc_l; [apply in_query3|]. apply rtc_once.
  pose proof (in_apply Error url env t db db db db pods tk pd false th le xs k) as Hs.
  change (PolicyInput_torn db db db t) with (PolicyInput db t) in Hs. by rewrite Ha in Hs.
Qed.

Lemma one_reconcile `{Unicode, Postgres, Envoy, Crypto, OAuth2} {C S} `{SnapshotCache Resource C}
    `{KubeAPI S} Error url (env : Env) t db pods ls th le (xs xs' : Server C) (k k' : S) :
  Main.apply (Ok (PolicyInput db t)) pods url xs k = (None, xs', k') →
  rtc (inside Error url) (mkSys db pods true 0 ls Waiting th le xs k)
    (mkSys db pods false 0 false Waiting th "" xs' k').
Proof.
  intros Ha. eapply rtc_l; [apply in_receive|]. eapply rtc_l; [apply in_drain|].
  by apply (queried_run Error url env t).
Qed.
