(* ===== verification/Boot.v ===== *)
(** * Starting up

[store.Migrate] and [store.Open] ([admin/internal/store/store.go]), and [migrate], the choice
of [main] and the first half of [serve] ([admin/cmd/sandcastle-admin/main.go]): everything
before the loop of [System.v]; and the lives of the service, one after the other on the same
database.

The database server as [Migrate] sees it records which versions it has, which scripts it
ran, in order, and the password of the application's role; what the scripts do is the
schema of [Store.v]. Any statement may fail, and one that commits may do so without its
answer arriving. *)
From Stdlib Require Import Ascii.
From S2P Require Import Prelude GoLib Regex Policy Json Store StoreInv StoreSpec StoreThms PolicyLoad Demo StoreClaims Races Watch Cilium Xds Main Base64 JsonText JsonStruct Url Auth OAuth Web System.
From stdpp Require Import gmap strings list sorting fin_maps relations.

(** ** Migrate *)
Record Server0 := mkServer0 {
  m_versions : gset string;        (* schema_migrations *)
  m_applied : list string;         (* the scripts run, in order *)
  m_role : option string           (* the last ALTER ROLE statement *)
}.

(** What becomes of a statement: it is answered, refused, or run without its answer arriving
(a lost connection, a cancelled context). *)
Inductive Fate : Type :=
| Answered
| Refused (e : error)
| Unanswered (e : error).

(** [entries] are the embedded files, in the order of [ReadDir], each with its text; [fs]
says what becomes of the coming statements. *)
Abbreviation Faults := (list Fate).

(** A statement that only reads, or whose transaction is still open: without an answer it
comes to nothing. *)
Definition exec_stmt {A} (fs : Faults) (k : Faults → result error A) : result error A :=
  match fs with
  | (Refused e | Unanswered e) :: _ => Err e
  | Answered :: fs => k fs
  | [] => k []
  end.

(** A statement that commits [s'] in place of [s]: without an answer it has done so all the
same. *)
Definition commit_stmt (fs : Faults) (s s' : Server0) : Server0 * result error Faults :=
  match fs with
  | Refused e :: _ => (s, Err e)
  | Unanswered e :: _ => (s', Err e)
  | Answered :: fs => (s', Ok fs)
  | [] => (s', Ok [])
  end.

(** [pgx.BeginFunc]: begin, the script, the insert, commit. The insert violates the primary
key when the version is there already. *)
Definition apply_entry (name sql : string) (s : Server0) (fs : Faults) : Server0 * result error Faults :=
  match exec_stmt fs (λ fs, exec_stmt fs (λ fs, exec_stmt fs Ok)) with
  | Err e => (s, Err e)
  | Ok fs =>
      if bool_decide (name ∈ m_versions s) then (s, Err (EMsg "duplicate key")) else
      commit_stmt fs s (mkServer0 ({[name]} ∪ m_versions s) (m_applied s ++ [sql]) (m_role s))
  end.

Fixpoint apply_entries (entries : list (string * string)) (s : Server0) (fs : Faults)
    : Server0 * result error Faults :=
  match entries with
  | [] => (s, Ok fs)
  | (name, sql) :: entries =>
      match exec_stmt fs Ok with   (* SELECT EXISTS *)
      | Err e => (s, Err e)
      | Ok fs =>
          if bool_decide (name ∈ m_versions s) then apply_entries entries s fs else
          match apply_entry name sql s fs with
          | (s, Err e) => (s, Err (EWrap name e))
          | (s, Ok fs) => apply_entries entries s fs
          end
      end
  end.

Definition alter_role (appPassword : string) : string :=
  "ALTER ROLE sandcastle_app WITH LOGIN PASSWORD '" +:+
  ReplaceAllByte appPassword "'" "''" +:+ "'".

Definition Migrate (entries : list (string * string)) (appPassword : string) (fs : Faults)
    (s : Server0) : option error * Server0 :=
  match exec_stmt fs (λ fs, exec_stmt fs Ok) with   (* connect; CREATE TABLE IF NOT EXISTS *)
  | Err e => (Some e, s)
  | Ok fs =>
      match apply_entries entries s fs with
      | (s, Err e) => (Some e, s)
      | (s, Ok fs) =>
          match commit_stmt fs s
            (mkServer0 (m_versions s) (m_applied s) (Some (alter_role appPassword))) with
          | (s, Err e) => (Some e, s)
          | (s, Ok _) => (None, s)
          end
      end
  end.

(** ** Open *)
Definition Open (new ping : option error) : result error unit :=
  match new, ping with
  | Some e, _ => Err e
  | None, Some e => Err e
  | None, None => Ok ()
  end.

(** How Postgres reads a string constant after its opening quote (with
[standard_conforming_strings], the default): a doubled quote is a quote, and nothing else
is special. The value and what follows the constant. *)
Fixpoint read_literal (s : string) : option (string * string) :=
  match s with
  | "" => None
  | String c s' =>
      if Ascii.eqb c "'" then
        match s' with
        | String d s'' =>
            if Ascii.eqb d "'" then (λ '(v, rest), (String "'" v, rest)) <$> read_literal s''
            else Some ("", s')
        | "" => Some ("", "")
        end
      else (λ '(v, rest), (String c v, rest)) <$> read_literal s'
  end.

Lemma read_literal_quoted pw :
  read_literal (ReplaceAllByte pw "'" "''" +:+ "'") = Some (pw, "").
Proof.
  induction pw as [|c pw IH]; [done|]. cbn [ReplaceAllByte]. rewrite <- string_app_assoc.
  destruct (Ascii.eqb_spec c "'") as [->|Hne]; ssimp; cbn [read_literal].
  - by rewrite IH.
  - rewrite (proj2 (Ascii.eqb_neq c "'") Hne). by rewrite IH.
Qed.

(** ** Migrations are resumable

The first [k] entries were applied, in order and once each. *)
Definition applied_prefix (entries : list (string * string)) (k : nat) (s : Server0) : Prop :=
  m_applied s = (take k entries).*2 ∧ m_versions s = list_to_set (take k entries).*1.

(** A committing statement left the old state, with an error, or the new one. *)
Lemma commit_stmt_cases fs s s' s1 r :
  commit_stmt fs s s' = (s1, r) → s1 = s ∧ is_ok r = false ∨ s1 = s'.
Proof. destruct fs as [|[|e|e] fs]; intros [= <- <-]; auto. Qed.

Lemma apply_entry_cases name sql s fs s1 r :
  apply_entry name sql s fs = (s1, r) →
  s1 = s ∧ is_ok r = false ∨
  s1 = mkServer0 ({[name]} ∪ m_versions s) (m_applied s ++ [sql]) (m_role s).
Proof.
  unfold apply_entry. destruct (exec_stmt fs _) as [fs1|e]; [|intros [= <- <-]; auto].
  case_bool_decide; [intros [= <- <-]; auto|]. apply commit_stmt_cases.
Qed.

(** An entry is recorded exactly if it is in the applied prefix. *)
Lemma applied_recorded entries k s i name sql :
  NoDup entries.*1 → applied_prefix entries k s → entries !! i = Some (name, sql) →
  name ∈ m_versions s ↔ i < k.
Proof.
  intros Hnd [_ ->] Hi. rewrite elem_of_list_to_set. split.
  - intros ([name' sql'] & -> & (j & Hj & Hk)%elem_of_take)%list_elem_of_fmap.
    assert (i = j) as ->; [|done]. eapply NoDup_lookup; [exact Hnd| |];
      rewrite list_lookup_fmap; [by rewrite Hi|by rewrite Hj].
  - intros Hk. apply list_elem_of_fmap. exists (name, sql). split; [done|].
    apply elem_of_take. eauto.
Qed.

Lemma applied_next entries k s name sql :
  applied_prefix entries k s → entries !! k = Some (name, sql) →
  applied_prefix entries (S k)
    (mkServer0 ({[name]} ∪ m_versions s) (m_applied s ++ [sql]) (m_role s)).
Proof.
  intros [Ha Hv] Hk. unfold applied_prefix. simpl. rewrite (take_S_r _ _ _ Hk), !fmap_app, Ha, Hv.
  split; [done|]. rewrite list_to_set_app_L. set_solver.
Qed.

Lemma apply_entries_prefix entries todo : ∀ done k s fs s' r,
  entries = done ++ todo → NoDup entries.*1 → length done ≤ k ≤ length entries →
  applied_prefix entries k s → apply_entries todo s fs = (s', r) →
  ∃ k', k ≤ k' ≤ length entries ∧ applied_prefix entries k' s' ∧ m_role s' = m_role s ∧
    (is_ok r = true → k' = length entries).
Proof.
  induction todo as [|[name sql] todo IH]; intros done k s fs s' r He Hnd Hk Hp; simpl.
  { intros [= <- <-]. exists k. split_and!; try done; [lia..|].
    subst. rewrite length_app in *. simpl in *. lia. }
  assert (entries !! length done = Some (name, sql)) as Hlk.
  { subst. by rewrite lookup_app_r, Nat.sub_diag by done. }
  assert (entries = (done ++ [(name, sql)]) ++ todo) as He' by by rewrite <- app_assoc.
  pose proof (lookup_lt_Some _ _ _ Hlk).
  destruct (exec_stmt fs Ok) as [fs1|e]; [|intros [= <- <-]; exists k; split_and!; try done; lia].
  rewrite (bool_decide_ext _ _ (applied_recorded _ _ _ _ _ _ Hnd Hp Hlk)). case_bool_decide.
  - apply (IH _ k _ _ _ _ He'); try done. rewrite length_app. simpl. lia.
  - assert (k = length done) as -> by lia.
    destruct (apply_entry name sql s fs1) as [s1 r1] eqn:Ea.
    apply apply_entry_cases in Ea as [[-> Hr1]| ->].
    { destruct r1; [done|]. intros [= <- <-]. exists (length done). split_and!; try done; lia. }
    pose proof (applied_next _ _ _ _ _ Hp Hlk) as Hp'. destruct r1 as [fs2|e].
    + intros Hs. apply (IH _ (S (length done)) _ _ _ _ He') in Hs as (k' & ? & ? & ? & ?); try done.
      * exists k'. split_and!; try done; lia.
      * rewrite length_app. simpl. lia.
    + intros [= <- <-]. exists (S (length done)). split_and!; try done; lia.
Qed.

Lemma Migrate_prefix entries pw fs s k e s' :
  NoDup entries.*1 → k ≤ length entries → applied_prefix entries k s →
  Migrate entries pw fs s = (e, s') →
  ∃ k', k ≤ k' ≤ length entries ∧ applied_prefix entries k' s' ∧
    (e = None → k' = length entries ∧ m_role s' = Some (alter_role pw)).
Proof.
  intros Hnd Hk Hp. unfold Migrate.
  destruct (exec_stmt fs _) as [fs1|err]; [|intros [= <- <-]; exists k; split_and!; try done; lia].
  destruct (apply_entries entries s fs1) as [s1 r] eqn:Ea.
  destruct (apply_entries_prefix entries entries [] k s fs1 s1 r eq_refl Hnd (conj (Nat.le_0_l k) Hk)
    Hp Ea) as (k' & ? & Hp' & _ & Hr).
  destruct r as [fs2|err]; [|intros [= <- <-]; exists k'; split_and!; try done; lia].
  destruct (commit_stmt fs2 _ _) as [s2 r2] eqn:Ec.
  assert (applied_prefix entries k' s2) as Hp2.
  { by apply commit_stmt_cases in Ec as [[-> _]| ->]. }
  destruct r2 as [fs3|err]; intros [= <- <-]; exists k'; split_and!; try done; try lia.
  intros _. split; [by apply Hr|]. by apply commit_stmt_cases in Ec as [[_ ?]| ->].
Qed.

(** ** main.go

A command ends the process for want of an environment variable ([log.Fatalf]), returns an
error, or succeeds. *)
Inductive Exit (A : Type) : Type :=
| Fatal (msg : string)
| Failed (e : error)
| Up (a : A).
Arguments Fatal {A}.
Arguments Failed {A}.
Arguments Up {A}.

Definition exit_bind {A B} (x : Exit A) (k : A → Exit B) : Exit B :=
  match x with Fatal m => Fatal m | Failed e => Failed e | Up a => k a end.

Notation "'up?' x ':=' m 'in' k" := (exit_bind m (λ x, k))
  (at level 10, x binder, m at level 100, k at level 200) : sandcastle_scope.

(** [return fmt.Errorf("prefix: %w", err)], or [return err] without a prefix. *)
Definition returned {A} (prefix : string) (r : result error A) : Exit A :=
  match r with
  | Ok a => Up a
  | Err e => Failed (if (prefix =? "")%string then e else EWrap prefix e)
  end.

Definition checked (e : option error) : Exit unit :=
  match e with Some e => Failed e | None => Up () end.

Lemma exit_bind_Up {A B} (x : Exit A) (k : A → Exit B) b :
  exit_bind x k = Up b ↔ ∃ a, x = Up a ∧ k a = Up b.
Proof. destruct x; naive_solver. Qed.

Lemma returned_Up {A} p (r : result error A) a : returned p r = Up a ↔ r = Ok a.
Proof. destruct r; simpl; naive_solver. Qed.

Section boot.
Context (getenv : string → string).

Definition env_ (k : string) : Exit string :=
  let v := getenv k in if (v =? "")%string then Fatal (k +:+ " is required") else Up v.

(** [main]: [os.Args] chooses the command. *)
Definition run_migrate (args : list string) : bool :=
  match args with _ :: cmd :: _ => (cmd =? "migrate")%string | _ => false end.

Definition migrate (entries : list (string * string)) (fs : Faults) (s : Server0)
    : Exit unit * Server0 :=
  match env_ "DB_OWNER_DSN" with
  | Up _ =>
      match env_ "DB_APP_PASSWORD" with
      | Up pw =>
          match Migrate entries pw fs s with
          | (Some e, s) => (Failed (EWrap "migrate" e), s)
          | (None, s) => (Up (), s)
          end
      | Fatal m => (Fatal m, s)
      | Failed e => (Failed e, s)
      end
  | Fatal m => (Fatal m, s)
  | Failed e => (Failed e, s)
  end.

(** [hex.DecodeString]: pairs of digits of either case. *)
Fixpoint hex_DecodeString (s : string) : result error string :=
  match s with
  | "" => Ok ""
  | String a (String b s) =>
      match unhex a, unhex b with
      | Some hi, Some lo =>
          let? rest := hex_DecodeString s in Ok (String (Ascii.ascii_of_N (hi * 16 + lo)) rest)
      | _, _ => Err (EMsg "encoding/hex: invalid byte")
      end
  | String _ "" => Err (EMsg "encoding/hex: odd length hex string")
  end.

(** What the machine answers while the service comes up. *)
Record Machine := mkMachine {
  mc_pool_New : option error; mc_pool_Ping : option error;
  mc_InClusterConfig : option error; mc_clientset : option error; mc_dynamic : option error;
  mc_informer : Informer;
  mc_Listen : option error
}.

(** [serve] after [Seed] up to its loop, on the database [db]. The configuration is read
field by field, in the order of the source. *)
Definition serve_ready {C S : Type} (m : Machine) (c0 : C) (k : S) (db : DB)
    : Exit (Auth * string * Sys C S) :=
  up? hexkey := env_ "SESSION_KEY" in
  up? key := returned "SESSION_KEY" (hex_DecodeString hexkey) in
  up? publicURL := env_ "PUBLIC_URL" in
  up? coderURL := env_ "CODER_URL" in
  up? coderInternalURL := env_ "CODER_INTERNAL_URL" in
  up? clientID := env_ "OAUTH_CLIENT_ID" in
  up? clientSecret := env_ "OAUTH_CLIENT_SECRET" in
  up? au := returned "" (OAuth.New (mkConfig coderURL coderInternalURL clientID clientSecret
              (publicURL +:+ "/callback") key (getenv "TEST_TOKEN"))) in
  up? _ := checked (mc_InClusterConfig m) in
  up? _ := checked (mc_clientset m) in
  up? _ := checked (mc_dynamic m) in
  up? pods := returned "" (Start (mc_informer m)) in
  up? _ := checked (mc_Listen m) in
  Up (au, publicURL, mkSys db pods true 0 false Waiting ∅ "" (NewServer c0) k).

Definition serve_boot `{Postgres} {C S : Type} (m : Machine) (env : Env) (c0 : C) (k : S) (db : DB)
    : Exit (Auth * string * Sys C S) * DB :=
  match (up? _ := env_ "DB_APP_DSN" in
         returned "open store" (Open (mc_pool_New m) (mc_pool_Ping m))) with
  | Fatal msg => (Fatal msg, db)
  | Failed e => (Failed e, db)
  | Up _ =>
      match Seed env db with
      | (Err e, db) => (Failed (EWrap "seed" e), db)
      | (Ok _, db) => (serve_ready m c0 k db, db)
      end
  end.

Lemma env_Up k v : env_ k = Up v ↔ v = getenv k ∧ v ≠ "".
Proof.
  unfold env_. destruct (String.eqb_spec (getenv k) "") as [E|E]; [|naive_solver].
  split; [done|]. intros [-> ?]. done.
Qed.

End boot.

Ltac up_inv :=
  repeat match goal with
  | H : exit_bind _ _ = Up _ |- _ => apply exit_bind_Up in H as (? & ? & H)
  | H : env_ _ _ = Up _ |- _ => apply env_Up in H as [-> ?]
  | H : returned _ _ = Up _ |- _ => apply returned_Up in H
  end.

Lemma seeded_operating `{Postgres} env db db' :
  db = migrated_db ∨ operating db → Seed env db = (Ok (), db') → operating db'.
Proof.
  intros [->|Hop] Hs; [exists env, db'; by split|].
  apply (operating_exec env OpSeed) in Hop. unfold exec, outcome in Hop. by rewrite Hs in Hop.
Qed.

Lemma seeded_sound `{Postgres, !PostgresLaws} env db r db' :
  sound db → Seed env db = (r, db') → sound db'.
Proof.
  intros Hs%(sound_exec env OpSeed) E. unfold exec, outcome in Hs. by rewrite E in Hs.
Qed.

Lemma boot_start `{Postgres, !PostgresLaws} {C S : Type} getenv m env (c0 : C) (k : S) db au url s db' :
  sound db → serve_boot getenv m env c0 k db = (Up (au, url, s), db') →
  sys_start s ∧ y_db s = db' ∧ serve_ready getenv m c0 k db' = Up (au, url, s).
Proof.
  intros Hdb. unfold serve_boot. destruct (exit_bind _ _); [done..|].
  destruct (Seed env db) as [[[]|e] db1] eqn:Es; [|done]. intros [= Hr <-].
  pose proof (seeded_sound env db _ db1 Hdb Es) as Hop. pose proof Hr as Hr'.
  unfold serve_ready in Hr. up_inv. by injection Hr as <- <- <-.
Qed.

Section claims.
Context `{Postgres, !PostgresLaws}.

(** [C33] Migrations are applied once and in order: after any number of runs, each
interrupted anywhere or not, also between a COMMIT and its answer, the scripts executed are a prefix of the embedded files, in
their order and without repetition, and exactly these are recorded; a run that reports no
error has applied them all and set the role's password. *)
Theorem migrations_resumable entries (runs : list (string * Faults)) s :
  NoDup entries.*1 →
  s = foldl (λ s run, (Migrate entries run.1 run.2 s).2) (mkServer0 ∅ [] None) runs →
  ∃ k, k ≤ length entries ∧ m_applied s = (take k entries).*2 ∧
    m_versions s = list_to_set (take k entries).*1 ∧
    ∀ pw fs s', Migrate entries pw fs s = (None, s') →
      m_applied s' = entries.*2 ∧ m_versions s' = list_to_set entries.*1 ∧
      m_role s' = Some (alter_role pw).
Proof.
  intros Hnd ->. set (s := foldl _ _ _).
  assert (∃ k, k ≤ length entries ∧ applied_prefix entries k s) as (k & Hk & Hp).
  { unfold s. assert (applied_prefix entries 0 (mkServer0 ∅ [] None)) as Hp by done.
    revert Hp. generalize (mkServer0 ∅ [] None) 0 (Nat.le_0_l (length entries)).
    clear s. induction runs as [|[pw fs] runs IH]; intros s k Hk Hp; [eauto|]. simpl.
    destruct (Migrate entries pw fs s) as [e s'] eqn:Em.
    destruct (Migrate_prefix entries pw fs s k e s' Hnd Hk Hp Em) as (k' & Hk' & Hp' & _).
    by apply (IH s' k'); [lia|]. }
  exists k. pose proof Hp as [Ha Hv]. split_and!; [done..|]. intros pw fs s' Hm.
  destruct (Migrate_prefix entries pw fs s k None s' Hnd Hk Hp Hm) as (k' & _ & [Ha' Hv'] & Hr).
  destruct (Hr eq_refl) as [-> Hrole]. by rewrite take_ge in Ha', Hv'.
Qed.

(** The role's password is quoted: Postgres reads the constant in the statement as
exactly the given password, whatever quotes and backslashes it has, and nothing follows
it. *)
Theorem password_quoted pw :
  ∃ head, alter_role pw = head +:+ "'" +:+ ReplaceAllByte pw "'" "''" +:+ "'" ∧
    ContainsByte head "'" = false ∧ read_literal (ReplaceAllByte pw "'" "''" +:+ "'") = Some (pw, "").
Proof.
  exists "ALTER ROLE sandcastle_app WITH LOGIN PASSWORD ". split_and!; [done..|].
  apply read_literal_quoted.
Qed.

(** When [serve] reaches its loop, the system is in a start state: the database is
seeded, the channel holds the first notification, the session key has at least 32 bytes and
is the decoded SESSION_KEY, and the public URL is set. This holds for a freshly migrated
database and for a restart on one in use, also after races. *)
Theorem serve_boot_ready {C S : Type} getenv m env (c0 : C) (k : S) db au url s db' :
  sound db →
  serve_boot getenv m env c0 k db = (Up (au, url, s), db') →
  sys_start s ∧ y_db s = db' ∧ y_pods s = inf_cache (mc_informer m) ∧
  hex_DecodeString (getenv "SESSION_KEY") = Ok (c_Key (a_c au)) ∧
  32 ≤ String.length (c_Key (a_c au)) ∧ url = getenv "PUBLIC_URL" ∧ url ≠ "" ∧
  c_TestToken (a_c au) = getenv "TEST_TOKEN".
Proof.
  intros Hdb Hb. destruct (boot_start _ _ _ _ _ _ _ _ _ _ Hdb Hb) as (Hs & Hd & Hr).
  split; [done|]. split; [done|].
  unfold serve_ready in Hr. up_inv. injection Hr as <- <- <-.
  match goal with H : OAuth.New _ = Ok _ |- _ => apply New_Ok in H as [Ha Hlen] end.
  match goal with H : Start _ = Ok _ |- _ => apply Start_Ok in H as -> end.
  rewrite Ha. simpl in *. by split_and!.
Qed.
End claims.

(** ** Life after life

The databases that processes leave behind, starting from the migrated one: a process may
give up before its loop, and may end, cleanly or not, in any state it reaches. The cluster
outlives it; the server for Envoy does not. *)
Section lives.
Context `{Unicode, Postgres, !PostgresLaws, Envoy, Crypto, OAuth2} {C S : Type}.
Context `{SnapshotCacheLaws Resource C} `{KubeLaws S}.
Context (Error : error → string).
Context (Error_wrap : ∀ m e, m ≠ "" → Error (EWrap m e) ≠ "").

Inductive lived : DB → Prop :=
| lived_migrated : lived migrated_db
| lived_boot getenv m env (c0 : C) (k : S) db r db' :
    lived db → serve_boot getenv m env c0 k db = (r, db') → lived db'
| lived_run getenv m env (c0 : C) (k : S) db au url s db' s' :
    lived db → serve_boot getenv m env c0 k db = (Up (au, url, s), db') →
    rtc (sys_step Error au url) s s' → lived (y_db s').

Lemma serve_boot_db getenv m env (c0 : C) (k : S) db r db' :
  sound db → serve_boot getenv m env c0 k db = (r, db') → sound db'.
Proof.
  intros Hdb. unfold serve_boot. destruct (exit_bind _ _); [by intros [= _ <-]..|].
  destruct (Seed env db) as [[[]|e] db1] eqn:Es; intros [= _ <-]; by eapply seeded_sound.
Qed.

Lemma lived_db db : lived db → sound db.
Proof.
  induction 1 as [|getenv m env c0 k db r db' _ IH Hb|getenv m env c0 k db au url s db' s' _ IH Hb Hr].
  - apply sound_migrated.
  - by eapply serve_boot_db.
  - destruct (boot_start _ _ _ _ _ _ _ _ _ _ IH Hb) as [Hs _].
    by destruct (sys_reach_inv Error au url Error_wrap s s' Hs Hr).
Qed.

(** The service converges to its tables in every life. From the migrated database, through
any number of earlier processes, each with its own environment and ended anywhere: once the
present one has no notification outstanding, no COMMIT went unanswered since its last
reconcile began to read, it waits, and that reconcile reported no error, then what Envoy is
served and what the cluster holds enforce what the current tables grant the current pods. *)
Theorem lives_enforced getenv m env (c0 : C) (k : S) db au url s db' s' :
  lived db → serve_boot getenv m env c0 k db = (Up (au, url, s), db') →
  rtc (sys_step Error au url) s s' → quiescent s' → y_lost s' = false → y_lastErr s' = "" →
  ∃ t, enforced (y_db s') t (y_pods s') (y_xs s') (y_k s').
Proof.
  intros Hl Hb Hr Hq Hlost Hle. destruct (boot_start _ _ _ _ _ _ _ _ _ _ (lived_db db Hl) Hb) as [Hs _].
  by apply (quiescent_enforced Error au url Error_wrap s s').
Qed.
End lives.

(** ** A concrete start *)
Definition demo_entries : list (string * string) := [("001_init.sql", "CREATE TABLE zones (...)")].

(** A run that loses the server inside the transaction, one that loses the answer to COMMIT,
then one that does not. *)
Definition demo_runs : list (string * Faults) :=
  [("pw", [Answered; Answered; Answered; Answered; Refused (EMsg "server gone")]);
   ("pw", [Answered; Answered; Answered; Answered; Answered; Answered; Unanswered (EMsg "server gone")])].

Definition interrupted (runs : list (string * Faults)) : Server0 :=
  foldl (λ s run, (Migrate demo_entries run.1 run.2 s).2) (mkServer0 ∅ [] None) runs.

Lemma migrations_resumable_witness :
  m_applied (interrupted (take 1 demo_runs)) = [] ∧
  m_applied (interrupted demo_runs) = demo_entries.*2 ∧ m_role (interrupted demo_runs) = None ∧
  m_applied (Migrate demo_entries "it's" [] (interrupted demo_runs)).2 = demo_entries.*2.
Proof.
  do 3 (split; [vm_compute; reflexivity|]).
  destruct (migrations_resumable demo_entries demo_runs (interrupted demo_runs)
    (NoDup_singleton _) eq_refl) as (k & _ & _ & _ & Hok).
  refine (proj1 (Hok "it's" [] _ _)). vm_compute. reflexivity.
Defined.

Definition demo_getenv (k : string) : string :=
  if (k =? "SESSION_KEY")%string
  then "000102030405060708090a0b0c0d0e0f101112131415161718191A1B1C1D1E1F"
  else if (k =? "TEST_TOKEN")%string then "" else "http://" +:+ k.

Definition demo_machine : Machine := mkMachine None None None None None (mkInformer None true live_pods) None.

Definition demo_boot : Exit (Auth * string * Sys unit unit) * DB :=
  serve_boot demo_getenv demo_machine (demo_env 0 10) () () migrated_db.

Definition demo_up : Auth * string * Sys unit unit :=
  match demo_boot.1 with
  | Up x => x
  | _ => (mkAuth demo_config (mkOAuthConfig "" "" "" "" ""), "",
          mkSys migrated_db [] false 0 false Waiting ∅ "" (mkServer () 0) ())
  end.

Lemma serve_boot_ready_witness :
  sys_start demo_up.2 ∧ y_db demo_up.2 = demo_boot.2 ∧ y_pods demo_up.2 = live_pods ∧
  hex_DecodeString (demo_getenv "SESSION_KEY") = Ok (c_Key (a_c demo_up.1.1)) ∧
  32 ≤ String.length (c_Key (a_c demo_up.1.1)) ∧ demo_up.1.2 = demo_getenv "PUBLIC_URL" ∧
  demo_up.1.2 ≠ "" ∧ c_TestToken (a_c demo_up.1.1) = "".
Proof.
  refine (serve_boot_ready demo_getenv demo_machine (demo_env 0 10) () () migrated_db demo_up.1.1
    demo_up.1.2 demo_up.2 demo_boot.2 sound_migrated _).
  vm_compute. reflexivity.
Defined.

(** The first life of the service up to its first reconcile. *)
#[local] Instance boot_unicode : Unicode := {| map_unicode_ToLower s := s |}.
Abbreviation boot_sys := (Sys (list (string * Resources string)) (gmap string json)).

Definition first_boot : Exit (Auth * string * boot_sys) * DB :=
  serve_boot demo_getenv demo_machine (demo_env 0 10) [] demo_cluster migrated_db.
Definition first_up : Auth * string * boot_sys :=
  match first_boot.1 with Up x => x | _ => (demo_auth, "",
    mkSys demo_db [] false 0 false Waiting ∅ "" demo_server demo_cluster) end.
Definition first_apply := Main.apply (C := list (string * Resources string)) (S := gmap string json)
  (Ok (PolicyInput (y_db first_up.2) 20)) (y_pods first_up.2) first_up.1.2 (y_xs first_up.2)
  (y_k first_up.2).
Definition first_rest : boot_sys :=
  mkSys (y_db first_up.2) (y_pods first_up.2) false 0 false Waiting ∅ "" first_apply.1.2 first_apply.2.

Lemma first_reconcile :
  rtc (inside (λ _, "error") first_up.1.2) first_up.2 first_rest.
Proof.
  assert (first_up.2 = mkSys (y_db first_up.2) (y_pods first_up.2) true 0 false Waiting ∅ "" (y_xs first_up.2)
    (y_k first_up.2)) as E by (vm_compute; reflexivity).
  rewrite E at 1. apply (one_reconcile _ _ (demo_env 30 70) 20).
  change (first_apply = (None, first_apply.1.2, first_apply.2)).
  assert (first_apply.1.1 = None) as Ea by (vm_compute; reflexivity).
  rewrite <- Ea. generalize first_apply. intros [[x y] z]. reflexivity.
Qed.
