(* ===== verification/Process.v ===== *)
(** * The process

[main] and the rest of [serve] in [admin/cmd/sandcastle-admin/main.go], around the system of
[System.v]: the two servers, which run in goroutines of their own and may break without
ending the process, the signal that ends it, the shutdown in its order, and the exit status.
Every run of the process is a run of the system, so what is proved of the system holds of
the process until it ends; the claims here are about its end. *)
From S2P Require Import Prelude GoLib Regex Policy Json Store StoreInv StoreSpec StoreThms PolicyLoad Demo StoreClaims Races Watch Cilium Xds Main Base64 JsonText JsonStruct Url Auth OAuth Web System Boot.
From stdpp Require Import gmap strings list sorting fin_maps relations.

(** Where [serve] is: in its loop, in [srv.Shutdown], in [g.Stop], or returned; and the
process gone. *)
Inductive Stage : Type := Looping | Draining | StoppingGRPC | Returned | Exited.

(** A server: whether it takes new calls, how many it has taken and how many of them it has
finished. *)
Record Listener := mkListener { ln_open : bool; ln_taken : nat; ln_done : nat }.

Definition taken (l : Listener) : Listener := mkListener (ln_open l) (S (ln_taken l)) (ln_done l).
Definition finished (l : Listener) : Listener := mkListener (ln_open l) (ln_taken l) (S (ln_done l)).
Definition closed (l : Listener) : Listener := mkListener false (ln_taken l) (ln_done l).
Definition busy (l : Listener) : Prop := ln_done l < ln_taken l.

Record Proc (C S : Type) := mkProc {
  pr_sys : Sys C S;
  pr_stage : Stage;
  pr_done : bool;                 (* ctx is done: SIGTERM or an interrupt came *)
  pr_http : Listener;             (* requests *)
  pr_grpc : Listener;             (* entries of the access log *)
  pr_clean : bool                 (* Shutdown returned before its deadline *)
}.
Arguments mkProc {C S}.
Arguments pr_sys {C S}.
Arguments pr_stage {C S}.
Arguments pr_done {C S}.
Arguments pr_http {C S}.
Arguments pr_grpc {C S}.
Arguments pr_clean {C S}.

Section process.
Context `{Unicode, Postgres, !PostgresLaws, Envoy, Crypto, OAuth2} {C S : Type}.
Context `{SnapshotCache Resource C} `{KubeAPI S}.
Context (Error : error → string) (a : Auth) (publicURL : string).
Abbreviation sys := (Sys C S).
Abbreviation proc := (Proc C S).

(** The goroutines other than the main one, until the process is gone. [Shutdown] closes the
listener and waits for the requests it has taken (those that lose a race included); a callback that was running when [g.Stop]
returned finishes later or not at all. *)
Inductive around : proc → proc → Prop :=
| pr_signal s st d h g c :
    st ≠ Exited → around (mkProc s st d h g c) (mkProc s st true h g c)
| pr_accept s st d h g c :
    ln_open h = true → around (mkProc s st d h g c) (mkProc s st d (taken h) g c)
| pr_request env v r pods' resp db' n db pods tk pd ls ph th le xs k st d h g c :
    st ≠ Exited → busy h →
    serve Error env pods' a v r (db, 0) = (resp, (db', n)) →
    around (mkProc (mkSys db pods tk pd ls ph th le xs k) st d h g c)
      (mkProc (mkSys db' pods tk (n + pd) (ls || lost env) ph th le xs k) st d (finished h) g c)
| pr_raced old env op err db' db pods tk pd ls ph th le xs k st d h g c :
    st ≠ Exited → busy h → looks_first op = true → exec_seeing old env op db = (err, db') →
    around (mkProc (mkSys db pods tk pd ls ph th le xs k) st d h g c)
      (mkProc (mkSys db' pods tk ((if err is Some _ then 0 else 1) + pd) (ls || lost env) ph th le xs k)
         st d (finished h) g c)
| pr_entry s st d h g c :
    ln_open g = true → around (mkProc s st d h g c) (mkProc s st d h (taken g) c)
| pr_denial env clock dn db pods tk pd ls ph th le xs k st d h g c :
    st ≠ Exited → busy g →
    around (mkProc (mkSys db pods tk pd ls ph th le xs k) st d h g c)
      (let '(th', db') := OnDenial env clock pods dn (th, db) in
       mkProc (mkSys db' pods tk pd ls ph th' le xs k) st d h (finished g) c)
| pr_ignored s st d h g c :            (* an entry that is no denial *)
    st ≠ Exited → busy g → around (mkProc s st d h g c) (mkProc s st d h (finished g) c)
| pr_pods pods' db pods tk pd ls ph th le xs k st d h g c :
    st ≠ Exited →
    around (mkProc (mkSys db pods tk pd ls ph th le xs k) st d h g c)
      (mkProc (mkSys db pods' tk (1 + pd) ls ph th le xs k) st d h g c)
| pr_notify db pods tk pd ls ph th le xs k st d h g c :
    st ≠ Exited →
    around (mkProc (mkSys db pods tk (1 + pd) ls ph th le xs k) st d h g c)
      (mkProc (mkSys db pods true pd ls ph th le xs k) st d h g c)
| pr_http_breaks s st d h g c :        (* ListenAndServe returns an error: only logged *)
    ln_open h = true → around (mkProc s st d h g c) (mkProc s st d (closed h) g c)
| pr_grpc_breaks s st d h g c :
    ln_open g = true → around (mkProc s st d h g c) (mkProc s st d h (closed g) c).

(** The main goroutine: the loop with its tickers, and the way out. When [ctx] is done and
other cases are ready too, [select] takes any of them. *)
Inductive main_step : proc → proc → Prop :=
| pr_loop s s' d h g c :
    inside Error publicURL s s' →
    main_step (mkProc s Looping d h g c) (mkProc s' Looping d h g c)
| pr_expire env db pods tk pd ls th le xs k d h g c :
    main_step (mkProc (mkSys db pods tk pd ls Waiting th le xs k) Looping d h g c)
      (let '(n, db') := ExpireGrants env db in
       mkProc (mkSys db' pods tk ((if n is Ok (Datatypes.S _) then 1 else 0) + pd) (ls || lost env)
         Waiting th le xs k)
         Looping d h g c)
| pr_resync db pods tk pd ls th le xs k d h g c :
    main_step (mkProc (mkSys db pods tk pd ls Waiting th le xs k) Looping d h g c)
      (mkProc (mkSys db pods tk pd ls Querying0 th le xs k) Looping d h g c)
| pr_stop db pods tk pd ls th le xs k h g c :
    main_step (mkProc (mkSys db pods tk pd ls Waiting th le xs k) Looping true h g c)
      (mkProc (mkSys db pods tk pd ls Stopped th le xs k) Draining true (closed h) g c)
| pr_drained s d h g c :
    ¬ busy h → main_step (mkProc s Draining d h g c) (mkProc s StoppingGRPC d h g true)
| pr_deadline s d h g c :              (* five seconds have passed *)
    main_step (mkProc s Draining d h g c) (mkProc s StoppingGRPC d h g false)
| pr_gstop s d h g c :
    main_step (mkProc s StoppingGRPC d h g c) (mkProc s Returned d h (closed g) c)
| pr_exit s d h g c :
    main_step (mkProc s Returned d h g c) (mkProc s Exited d h g c).

Definition proc_step (p p' : proc) : Prop := around p p' ∨ main_step p p'.

Definition fresh : Listener := mkListener true 0 0.
Definition proc_start (s : sys) : proc := mkProc s Looping false fresh fresh false.

(** ** Runs of the process are runs of the system *)
Lemma proc_sim p p' :
  proc_step p p' → pr_sys p' = pr_sys p ∨ sys_step Error a publicURL (pr_sys p) (pr_sys p').
Proof.
  intros [Hs|Hs]; destruct Hs; simpl; try (by left); right.
  - left. by eapply out_request.
  - left. by eapply out_raced.
  - left. pose proof (out_denial Error a env clock dn db pods tk pd ls ph th le xs k) as Ho.
    by destruct (OnDenial _ _ _ _ _).
  - left. apply out_pods.
  - right. apply in_notify.
  - by right.
  - left. pose proof (out_expire Error a env db pods tk pd ls th le xs k) as Ho.
    by destruct (ExpireGrants env db).
  - left. apply out_resync.
  - left. apply out_stop.
Qed.

Lemma proc_run p p' :
  rtc proc_step p p' → rtc (sys_step Error a publicURL) (pr_sys p) (pr_sys p').
Proof.
  induction 1 as [|x y z Hxy _ IH]; [apply rtc_refl|].
  destruct (proc_sim x y Hxy) as [<-|Hs]; [done|]. by eapply rtc_l.
Qed.

(** ** The way out *)
Definition proc_inv (p : proc) : Prop :=
  ln_done (pr_http p) ≤ ln_taken (pr_http p) ∧ ln_done (pr_grpc p) ≤ ln_taken (pr_grpc p) ∧
  match pr_stage p with
  | Looping => y_phase (pr_sys p) ≠ Stopped
  | Draining => pr_done p = true ∧ y_phase (pr_sys p) = Stopped ∧ ln_open (pr_http p) = false
  | StoppingGRPC => pr_done p = true ∧ y_phase (pr_sys p) = Stopped ∧ ln_open (pr_http p) = false ∧
      (pr_clean p = true → ¬ busy (pr_http p))
  | Returned | Exited => pr_done p = true ∧ y_phase (pr_sys p) = Stopped ∧ ln_open (pr_http p) = false ∧
      (pr_clean p = true → ¬ busy (pr_http p)) ∧ ln_open (pr_grpc p) = false
  end.

(** The loop does not stop by itself. *)
Lemma inside_phase s s' : inside Error publicURL s s' → y_phase s ≠ Stopped → y_phase s' ≠ Stopped.
Proof.
  destruct 1 as [| | | | | |env e ph db pods tk pd ls th le xs k|env t db1 db2 db3 db pods tk pd ls th le xs k];
    simpl; try done.
  destruct (Main.apply _ _ _ xs k) as [[err xs'] k']. by destruct (reconcile Error env _ _).
Qed.

Lemma around_inv p p' : around p p' → proc_inv p → proc_inv p'.
Proof.
  unfold proc_inv. destruct 1; try destruct (OnDenial _ _ _ _ _); simpl in *; intros (? & ? & Hst);
    unfold busy in *; simpl in *; (split_and!; [lia..|]); destruct st;
    first [naive_solver lia|destruct_and!; congruence].
Qed.

Lemma main_inv p p' : main_step p p' → proc_inv p → proc_inv p'.
Proof.
  unfold proc_inv. destruct 1; try destruct (ExpireGrants _ _); simpl in *; intros (? & ? & Hst);
    try (split_and!; naive_solver).
  split_and!; [done..|]. by eapply inside_phase.
Qed.

Lemma proc_reach_inv s p : y_phase s = Waiting → rtc proc_step (proc_start s) p → proc_inv p.
Proof.
  intros Hs Hr. assert (proc_inv (proc_start s)) as Hi.
  { unfold proc_inv, proc_start. simpl. rewrite Hs. split_and!; [lia..|done]. }
  revert Hi. induction Hr as [|x y z [Hxy|Hxy] _ IH]; [done|..]; intros Hi; apply IH.
  - by eapply around_inv.
  - by eapply main_inv.
Qed.

Lemma loop_run s s' d h g c :
  rtc (inside Error publicURL) s s' → rtc proc_step (mkProc s Looping d h g c) (mkProc s' Looping d h g c).
Proof. induction 1; [apply rtc_refl|]. eapply rtc_l; [right; by apply pr_loop|done]. Qed.

(** The loop gets back to its [select]. *)
Lemma loop_returns s d h g c :
  y_phase s ≠ Stopped →
  ∃ s', y_phase s' = Waiting ∧ rtc proc_step (mkProc s Looping d h g c) (mkProc s' Looping d h g c).
Proof.
  induction s as [s IH] using (induction_ltof1 _ work). intros Hs.
  destruct (inside_progress Error publicURL s) as [[(Hw & _)|[Hw _]]|[s1 Hi]]; [|done|].
  - exists s. split; [done|apply rtc_refl].
  - destruct (IH s1) as (s' & Hw & Hr); [by apply (inside_work Error publicURL)|by eapply inside_phase|].
    exists s'. split; [done|]. eapply rtc_l; [|exact Hr]. right. by apply pr_loop.
Qed.

(** A resync with nothing in between and no failing call. *)
Lemma resync_run p t xs' k' :
  pr_stage p = Looping → y_phase (pr_sys p) = Waiting →
  Main.apply (Ok (PolicyInput (y_db (pr_sys p)) t)) (y_pods (pr_sys p)) publicURL (y_xs (pr_sys p))
    (y_k (pr_sys p)) = (None, xs', k') →
  ∃ p', rtc proc_step p p' ∧
    pr_sys p' = mkSys (y_db (pr_sys p)) (y_pods (pr_sys p)) (y_token (pr_sys p)) (y_pending (pr_sys p))
      false Waiting (y_throttle (pr_sys p)) "" xs' k'.
Proof.
  destruct p as [[db pods tk pd ls ph th le xs k] st d h g c]. simpl. intros -> -> Ha.
  eexists. split; [|shelve]. eapply rtc_l; [right; apply pr_resync|].
  apply loop_run, (queried_run Error publicURL (mkEnv 0 [] (λ _, "") None) t), Ha.
  Unshelve. done.
Qed.

Lemma exit_reachable p :
  proc_inv p → pr_done p = true → ∃ p', rtc proc_step p p' ∧ pr_stage p' = Exited.
Proof.
  destruct p as [s st d h g c]. intros (_ & _ & Hst) Hdone. simpl in *. subst d.
  assert (∀ s h g c, ∃ p', rtc proc_step (mkProc s StoppingGRPC true h g c) p' ∧ pr_stage p' = Exited) as Hg.
  { clear. intros s h g c. exists (mkProc s Exited true h (closed g) c). split; [|done].
    eapply rtc_l; [right; apply pr_gstop|]. apply rtc_once. right. apply pr_exit. }
  assert (∀ s h g c, ∃ p', rtc proc_step (mkProc s Draining true h g c) p' ∧ pr_stage p' = Exited) as Hd.
  { clear -Hg. intros s h g c. destruct (Hg s h g false) as (p' & Hr & Hx). exists p'. split; [|done].
    eapply rtc_l; [right; apply pr_deadline|done]. }
  destruct st; [|apply Hd|apply Hg|..].
  - destruct (loop_returns s true h g c Hst) as ([db pods tk pd ls ph th le xs k] & Hw & Hr).
    simpl in Hw. subst ph.
    destruct (Hd (mkSys db pods tk pd ls Stopped th le xs k) (closed h) g c) as (p' & Hr' & Hp').
    exists p'. split; [|done]. etrans; [exact Hr|]. eapply rtc_l; [right; apply pr_stop|done].
  - exists (mkProc s Exited true h g c). split; [|done]. apply rtc_once. right. apply pr_exit.
  - exists (mkProc s Exited true h g c). split; [apply rtc_refl|done].
Qed.

Lemma exited_stuck p p' : proc_inv p → pr_stage p = Exited → ¬ proc_step p p'.
Proof.
  intros (_ & _ & Hst) Hx [Hs|Hs]; destruct Hs; simpl in *; subst; naive_solver congruence.
Qed.
End process.

(** ** main

[os.Args] chooses the command; an error of it, and a missing variable, end the process with
status 1 ([log.Fatal]). What [migrate] works on is the server as [Migrate] sees it, what
[serve] works on are the tables. *)
Definition exit_status {A} (r : Exit A) : Z := match r with Up _ => 0 | Failed _ | Fatal _ => 1 end.

Section main.
Context `{Unicode, Postgres, !PostgresLaws, Envoy, Crypto, OAuth2} {C S : Type}.
Context `{SnapshotCache Resource C} `{KubeAPI S} (Error : error → string).

Inductive main_ends (args : list string) (getenv : string → string)
    : Server0 * DB → Z → Server0 * DB → Prop :=
| main_migrate entries fs r srv srv' db :
    run_migrate args = true → migrate getenv entries fs srv = (r, srv') →
    main_ends args getenv (srv, db) (exit_status r) (srv', db)
| main_no_serve m env (c0 : C) (k : S) r srv db db' :
    run_migrate args = false → serve_boot getenv m env c0 k db = (r, db') → exit_status r = 1%Z →
    main_ends args getenv (srv, db) (exit_status r) (srv, db')
| main_serve m env (c0 : C) (k : S) au url s srv db db' p :
    run_migrate args = false → serve_boot getenv m env c0 k db = (Up (au, url, s), db') →
    rtc (proc_step Error au url) (proc_start s) p → pr_stage p = Exited →
    main_ends args getenv (srv, db) 0 (srv, y_db (pr_sys p)).

(** The databases that processes leave behind: one that ended, or one that was killed. *)
Inductive used : DB → Prop :=
| used_migrated : used migrated_db
| used_main args getenv srv db st srv' db' :
    used db → main_ends args getenv (srv, db) st (srv', db') → used db'
| used_killed getenv m env (c0 : C) (k : S) db au url s db' p :
    used db → serve_boot getenv m env c0 k db = (Up (au, url, s), db') →
    rtc (proc_step Error au url) (proc_start s) p → used (y_db (pr_sys p)).

Lemma used_lived db : used db → lived (C := C) (S := S) Error db.
Proof.
  induction 1 as [|args getenv srv db st srv' db' _ IH Hm|getenv m env c0 k db au url s db' p _ IH Hb Hr].
  - apply lived_migrated.
  - inversion Hm; subst; [done|by eapply lived_boot|].
    eapply lived_run; [done..|]. by eapply (proc_run _ _ _ (proc_start _)).
  - eapply lived_run; [done..|]. by eapply (proc_run _ _ _ (proc_start _)).
Qed.
End main.

(** The tables are in order throughout a run. *)
Lemma run_sound `{Unicode, Postgres, !PostgresLaws, Envoy, Crypto, OAuth2} {C S : Type}
    `{SnapshotCacheLaws Resource C} `{KubeLaws S} (Error : error → string)
    (Error_wrap : ∀ m e, m ≠ "" → Error (EWrap m e) ≠ "")
    getenv m env (c0 : C) (k : S) db au url s db' p :
  lived (C := C) (S := S) Error db → serve_boot getenv m env c0 k db = (Up (au, url, s), db') →
  rtc (proc_step Error au url) (proc_start s) p → sound (y_db (pr_sys p)).
Proof.
  intros Hl Hb Hr. apply (lived_db (C := C) (S := S) Error Error_wrap).
  eapply lived_run; [done..|]. by apply (proc_run _ _ _ (proc_start s)).
Qed.

Section claims.
Context `{Unicode, Postgres, !PostgresLaws, Envoy, Crypto, OAuth2} {C S : Type}.
Context `{SnapshotCacheLaws Resource C} `{KubeLaws S}.
Context (Error : error → string).
Context (Error_wrap : ∀ m e, m ≠ "" → Error (EWrap m e) ≠ "").


(** [C23] The process ends in order. Once the signal came the process can always get to its end,
whatever it was doing. When it has ended nothing happens any more: the signal had come,
both servers are closed, the tables are in order, and if [Shutdown] returned before its
deadline every request that was accepted has been handled. *)
Theorem exits_orderly getenv m env (c0 : C) (k : S) db au url s db' p :
  used (C := C) (S := S) Error db → serve_boot getenv m env c0 k db = (Up (au, url, s), db') →
  rtc (proc_step Error au url) (proc_start s) p →
  (pr_done p = true → ∃ p', rtc (proc_step Error au url) p p' ∧ pr_stage p' = Exited) ∧
  (pr_stage p = Exited →
   pr_done p = true ∧ (∀ p', ¬ proc_step Error au url p p') ∧
   ln_open (pr_http p) = false ∧ ln_open (pr_grpc p) = false ∧ sound (y_db (pr_sys p)) ∧
   (pr_clean p = true → ln_done (pr_http p) = ln_taken (pr_http p))).
Proof.
  intros Hu Hb Hr. pose proof (lived_db Error Error_wrap db (used_lived Error db Hu)) as Hdb.
  destruct (boot_start _ _ _ _ _ _ _ _ _ _ Hdb Hb) as [Hs _].
  assert (proc_inv p) as Hi by (eapply proc_reach_inv; [apply Hs|exact Hr]).
  split; [by apply exit_reachable|]. intros Hx. pose proof (exited_stuck Error au url p) as Hstuck.
  pose proof (proc_run Error au url _ _ Hr) as Hrun.
  destruct (sys_reach_inv Error au url Error_wrap s (pr_sys p) Hs Hrun) as [Hop _].
  destruct Hi as (Hh & Hg & Hst). rewrite Hx in Hst. destruct Hst as (? & ? & ? & Hclean & ?).
  split_and!; [done| |done..|].
  - intros p'. apply Hstuck; [|done]. unfold proc_inv. by rewrite Hx.
  - intros Hc%Hclean. unfold busy in Hc. lia.
Qed.
End claims.

(** ** The first life, to its first reconcile and to its end *)
#[local] Instance process_unicode : Unicode := {| map_unicode_ToLower s := s |}.
Abbreviation boot_proc := (Proc (list (string * Resources string)) (gmap string json)).
Abbreviation first_step := (proc_step (λ _, "error") first_up.1.1 first_up.1.2).

Definition rest_proc : boot_proc := mkProc first_rest Looping false fresh fresh false.


(** A request is accepted, the signal comes, the request is handled, the process ends. *)
Definition health_r : Request := mkRequest "GET" ["healthz"] "/healthz" "" [] [] [].
Definition stopped_sys : Sys (list (string * Resources string)) (gmap string json) :=
  mkSys (y_db first_up.2) (y_pods first_up.2) true 0 false Stopped ∅ "" (y_xs first_up.2) (y_k first_up.2).
Definition last_proc : boot_proc :=
  mkProc stopped_sys Exited true (mkListener false 1 1) (mkListener false 0 0) true.

Lemma first_ends : rtc first_step (proc_start first_up.2) last_proc.
Proof.
  assert (first_up.2 = mkSys (y_db first_up.2) (y_pods first_up.2) true 0 false Waiting ∅ "" (y_xs first_up.2)
    (y_k first_up.2)) as E by (vm_compute; reflexivity).
  rewrite E at 1. unfold proc_start. eapply rtc_l; [left; by apply pr_accept|].
  eapply rtc_l; [left; by apply pr_signal|]. eapply rtc_l; [right; apply pr_stop|].
  eapply rtc_l.
  { left. by eapply pr_request with (env := demo_env 10 70) (v := demo_visit) (r := health_r) (pods' := [])
      (db' := y_db first_up.2) (n := 0);
      [|unfold busy; simpl; lia|]. }
  eapply rtc_l; [right; apply pr_drained; unfold busy; simpl; lia|].
  eapply rtc_l; [right; apply pr_gstop|]. apply rtc_once. right. apply pr_exit.
Qed.

Lemma exits_orderly_witness :
  sound (y_db stopped_sys) ∧ ln_done (pr_http last_proc) = ln_taken (pr_http last_proc) ∧
  ∃ p', rtc first_step last_proc p' ∧ pr_stage p' = Exited.
Proof.
  destruct (exits_orderly (λ _, "error") ltac:(discriminate) demo_getenv demo_machine (demo_env 0 10) []
    demo_cluster migrated_db first_up.1.1 first_up.1.2 first_up.2 first_boot.2 last_proc (used_migrated _)
    ltac:(vm_compute; reflexivity) first_ends) as [Hcan Hend].
  destruct (Hend eq_refl) as (_ & _ & _ & _ & Hop & Hclean).
  split; [exact Hop|]. split; [exact (Hclean eq_refl)|exact (Hcan eq_refl)].
Defined.
