(* ===== verification/Tools.v ===== *)
(** * Test tools

[admin/hack/smoke/main.go], which serves one fixed snapshot to a real Envoy, and
[admin/internal/store/storetest/storetest.go], which gives tests a migrated and seeded
store. They use the same parts as the service, so its lemmas say what they set up. *)
From S2P Require Import Prelude GoLib Regex Policy Json JsonMarshal Dataplane Store StoreInv StoreSpec StoreThms PolicyLoad Demo StoreClaims Watch Cilium Xds Main Url Auth OAuth Web System Boot.
From stdpp Require Import gmap strings list sorting fin_maps.

(** ** hack/smoke *)
Definition smoke_params (allowIP : string) : Xds.Params :=
  mkParams {[ mkHostKey "example.com" 443 := [allowIP] ]} "http://admin.invalid/r" Hour.

(** [log.Fatal(err)] ends the process with the error. *)
Definition smoke_main `{Envoy} {C : Type} `{SnapshotCache Resource C} (getenv : string → string)
    (listen : option error) (c0 : C) : Exit (Server C) :=
  up? res := returned "" (Build (smoke_params (getenv "ALLOW_IP"))) in
  let '(err, s) := Push res (NewServer c0) in
  up? _ := checked err in
  up? _ := checked listen in
  Up s.

Section smoke.
Context `{Envoy}.

Lemma smoke_vhosts ip :
  df_vhosts (draft (smoke_params ip)) =
  [vhost_of (smoke_params ip) (mkHostKey "example.com" 443); deny_vhost].
Proof. rewrite draft_eq. reflexivity. Qed.

(** The fixed snapshot lets exactly the configured address through, to example.com over TLS
and nowhere else. *)
Lemma smoke_admits ip authority v q :
  picks (df_vhosts (draft (smoke_params ip))) authority v →
  (qy_connect q = false → HasPrefix (qy_path q) "/" = true) →
  (∃ c, answer (df_listeners (draft (smoke_params ip))) v q = Forwarded c) ↔
  authority = "example.com:443" ∧ qy_connect q = true ∧ parse_ipv4 ip = Some (qy_src q).
Proof.
  rewrite smoke_vhosts. intros (Hv & d & Hd & Hs & Hbest) Hpath.
  apply elem_of_cons in Hv as [->|Hv]; [|apply list_elem_of_singleton in Hv as ->].
  - rewrite answer_vhost by done. change (slice_at _ _) with [ip].
    assert (d = "example.com:443") as -> by (by apply list_elem_of_singleton in Hd).
    assert (authority = "example.com:443") as ->.
    { destruct Hs as [<-|(suf & pre & E & _)]; [done|discriminate E]. }
    destruct (rbac_allows _ _) eqn:Er.
    + apply rbac_ips in Er as (ip' & ->%list_elem_of_singleton & Hip).
      destruct (qy_connect q); simpl; naive_solver.
    + rewrite andb_false_r. split; [by intros [? ?]|]. intros (_ & _ & Hip). exfalso.
      apply not_true_iff_false in Er. apply Er, rbac_ips. exists ip. by split; [left|].
  - rewrite answer_deny. split; [by intros [? ?]|]. intros [-> _]. exfalso.
    apply list_elem_of_singleton in Hd as ->. destruct Hbest as [|Hbest]; [done|].
    destruct (Hbest (vhost_of (smoke_params ip) (mkHostKey "example.com" 443)) "example.com:443")
      as [? _]; [by left|by left|by left|done].
Qed.
End smoke.

(** ** storetest *)
Inductive Tested (A : Type) : Type :=
| Skip (why : string)
| TFatal (e : error)
| Ready (a : A).
Arguments Skip {A}.
Arguments TFatal {A}.
Arguments Ready {A}.

(** The loop that waits for the server: up to [n] attempts, each a connect and a ping; the
error of the last one, or none. Past the end of [tries] the server answers. *)
Fixpoint wait_server (n : nat) (tries : list (option error * option error)) (err : option error)
    : option error :=
  match n with
  | 0 => err
  | S n =>
      match tries with
      | (None, None) :: _ | [] => None
      | (Some e, _) :: tries | (None, Some e) :: tries => wait_server n tries (Some e)
      end
  end.

(** What the test server answers, call by call. *)
Record TestServer := mkTestServer {
  ts_tries : list (option error * option error);
  ts_drop : option error; ts_create : option error;
  ts_migrate : Faults;
  ts_new : option error; ts_ping : option error;
  ts_seed : Env
}.

Definition storetest_New `{Postgres} (dsn : string) (entries : list (string * string)) (t : TestServer)
    : Tested DB :=
  if (dsn =? "")%string then Skip "ADMIN_TEST_DSN not set" else
  match wait_server 30 (ts_tries t) None, ts_drop t, ts_create t with
  | Some e, _, _ | None, Some e, _ | None, None, Some e => TFatal e
  | None, None, None =>
      match Migrate entries "apppw" (ts_migrate t) (mkServer0 ∅ [] None) with
      | (Some e, _) => TFatal e
      | (None, _) =>
          match Open (ts_new t) (ts_ping t) with
          | Err e => TFatal e
          | Ok _ =>
              match Seed (ts_seed t) migrated_db with
              | (Err e, _) => TFatal e
              | (Ok _, db) => Ready db
              end
          end
      end
  end.

(** A store that a test is given is one the running service could have. *)
Lemma storetest_ready `{Postgres} dsn entries t db :
  NoDup entries.*1 → storetest_New dsn entries t = Ready db →
  operating db ∧ ∃ s, Migrate entries "apppw" (ts_migrate t) (mkServer0 ∅ [] None) = (None, s) ∧
    m_applied s = entries.*2.
Proof.
  intros Hnd. unfold storetest_New. destruct (dsn =? "")%string; [done|].
  destruct (wait_server _ _ _), (ts_drop t), (ts_create t); try done.
  destruct (Migrate _ _ _ _) as [[e|] s] eqn:Em; [done|]. destruct (Open _ _); [|done].
  destruct (Seed _ _) as [[[]|e] db'] eqn:Es; [|done]. intros [= <-].
  split; [eapply seeded_operating; [by left|done]|]. exists s. split; [done|].
  destruct (Migrate_prefix entries "apppw" (ts_migrate t) (mkServer0 ∅ [] None) 0 None s Hnd)
    as (k & _ & [Ha _] & Hk); [lia|done|done|].
  destruct (Hk eq_refl) as [-> _]. by rewrite take_ge in Ha.
Qed.

(** A server that answers within thirty attempts is waited for, and a longer wait fails. *)
Lemma wait_server_spec n tries err :
  length tries = n → (∀ x, x ∈ tries → x ≠ (None, None)) →
  ∀ rest m, wait_server (n + m) (tries ++ (None, None) :: rest) err =
    (if m is 0 then wait_server n tries err else None) ∧ (n ≠ 0 → is_Some (wait_server n tries err)).
Proof.
  intros <-. revert err. induction tries as [|[c p] tries IH]; intros err Hx rest m.
  { simpl. destruct m; [done|]. by split. }
  assert (∀ x, x ∈ tries → x ≠ (None, None)) as Hx' by (intros; apply Hx; by right).
  assert (wait_server (S (length tries)) ((c, p) :: tries) err =
    wait_server (length tries) tries (if c is Some e then Some e else p)) as E.
  { simpl. destruct c; [done|]. destruct p; [done|]. exfalso. eapply Hx; [by left|done]. }
  assert (is_Some (if c is Some e then Some e else p)) as [e He].
  { destruct c; [by eexists|]. destruct p; [by eexists|]. exfalso. eapply Hx; [by left|done]. }
  rewrite He in *. cbn [length]. rewrite E. destruct (IH (Some e) Hx' rest m) as [IH1 IH2].
  split; [|intros _; destruct tries; [by eexists|by apply IH2]].
  rewrite <- IH1. clear -He Hx. simpl. destruct c; [by simplify_eq|]. destruct p; by simplify_eq.
Qed.
