(* ===== verification/Html.v ===== *)
(** * html/template and HTML

The escapers that html/template puts around the values of a template, by the place a value
stands in; a reader of HTML as a state machine, as far as the templates of the pages use
HTML: tags, double-quoted attributes, character references; and the fact that ties them:
reading an escaped value in its place gives the value back (in a URL, its normalised or
escaped form) and nothing else. *)
From Stdlib Require Import Ascii.
From S2P Require Import Prelude GoLib.
From stdpp Require Import strings list.

(** ** Escapers (html.go, url.go of html/template) *)
Definition chr1 (c : ascii) : string := String c "".

(** [htmlReplacementTable], for the text of elements and for quoted attributes. *)
Definition html_byte (c : ascii) : string :=
  if (byte c =? 0)%N then bytes [239; 191; 189]
  else if Ascii.eqb c "034" then "&#34;"
  else if Ascii.eqb c "&" then "&amp;"
  else if Ascii.eqb c "'" then "&#39;"
  else if Ascii.eqb c "+" then "&#43;"
  else if Ascii.eqb c "<" then "&lt;"
  else if Ascii.eqb c ">" then "&gt;"
  else chr1 c.

Fixpoint htmlReplacer (s : string) : string :=
  match s with "" => "" | String c s => html_byte c +:+ htmlReplacer s end.

(** [processURLOnto]: the URL filter of a path ([norm]) and the escaper of a query. *)
Definition url_reserved (c : ascii) : bool :=
  existsb (Ascii.eqb c)
    ["!"; "#"; "$"; "&"; "*"; "+"; ","; "/"; ":"; ";"; "="; "?"; "@"; "["; "]"]%char.
Definition url_unreserved (c : ascii) : bool :=
  is_upper c || is_lower c || is_digit c || existsb (Ascii.eqb c) ["-"; "."; "_"; "~"]%char.
Definition is_hex (c : ascii) : bool := if unhex c is Some _ then true else false.
Definition hex_lower (n : N) : ascii :=
  (if n <? 10 then Ascii.ascii_of_N (48 + n) else Ascii.ascii_of_N (87 + n))%N.
Definition percent (c : ascii) : string :=
  String "%" (String (hex_lower (byte c / 16)) (chr1 (hex_lower (byte c mod 16)))).

Fixpoint urlProcessor (norm : bool) (s : string) : string :=
  match s with
  | "" => ""
  | String c s' =>
      (if url_unreserved c || norm && url_reserved c ||
          norm && Ascii.eqb c "%" &&
            (match s' with String a (String b _) => is_hex a && is_hex b | _ => false end)
       then chr1 c else percent c) +:+ urlProcessor norm s'
  end.

(** ** A reader of HTML *)
Inductive token : Type :=
| TTag (name : string) (attrs : list (string * string))   (* an end tag is named "/name" *)
| TChar (c : ascii).

Fixpoint chars (s : string) : list token :=
  match s with "" => [] | String c s => TChar c :: chars s end.

(** The character references that escaped values and the templates use. *)
Definition reference (e : string) : string :=
  if (e =? "amp")%string then "&" else if (e =? "lt")%string then "<"
  else if (e =? "gt")%string then ">" else if (e =? "#34")%string then chr1 "034"
  else if (e =? "#39")%string then "'" else if (e =? "#43")%string then "+"
  else "&" +:+ e +:+ ";".

Inductive mode : Type :=
| InText
| InEntity (e : string)
| InName (n : string)
| InTag (n : string) (a : list (string * string))
| InAttr (n : string) (a : list (string * string)) (k : string)
| BeforeValue (n : string) (a : list (string * string)) (k : string)
| InValue (n : string) (a : list (string * string)) (k v : string)
| InValueEntity (n : string) (a : list (string * string)) (k v e : string).

Definition blank (c : ascii) : bool := ((byte c =? 32) || (byte c =? 10))%N.

Definition html_step (m : mode) (c : ascii) : mode * list token :=
  match m with
  | InText =>
      if Ascii.eqb c "<" then (InName "", [])
      else if Ascii.eqb c "&" then (InEntity "", []) else (InText, [TChar c])
  | InEntity e =>
      if Ascii.eqb c ";" then (InText, chars (reference e)) else (InEntity (e +:+ chr1 c), [])
  | InName n =>
      if Ascii.eqb c ">" then (InText, [TTag n []])
      else if blank c then (InTag n [], []) else (InName (n +:+ chr1 c), [])
  | InTag n a =>
      if Ascii.eqb c ">" then (InText, [TTag n a])
      else if blank c then (InTag n a, []) else (InAttr n a (chr1 c), [])
  | InAttr n a k =>
      if Ascii.eqb c "=" then (BeforeValue n a k, [])
      else if Ascii.eqb c ">" then (InText, [TTag n (a ++ [(k, "")])])
      else if blank c then (InTag n (a ++ [(k, "")]), []) else (InAttr n a (k +:+ chr1 c), [])
  | BeforeValue n a k => if Ascii.eqb c "034" then (InValue n a k "", []) else (m, [])
  | InValue n a k v =>
      if Ascii.eqb c "034" then (InTag n (a ++ [(k, v)]), [])
      else if Ascii.eqb c "&" then (InValueEntity n a k v "", []) else (InValue n a k (v +:+ chr1 c), [])
  | InValueEntity n a k v e =>
      if Ascii.eqb c ";" then (InValue n a k (v +:+ reference e), [])
      else (InValueEntity n a k v (e +:+ chr1 c), [])
  end.

Fixpoint html_run (m : mode) (s : string) : mode * list token :=
  match s with
  | "" => (m, [])
  | String c s => let '(m1, t1) := html_step m c in let '(m2, t2) := html_run m1 s in (m2, t1 ++ t2)
  end.

(** ** Templates

A template with its values: literal text, and values in the text of an element, in an
attribute, in the path of a URL, in the query of a URL. *)
Inductive piece : Type :=
| Raw (s : string)
| InBody (v : string)
| InAttribute (v : string)
| InPath (v : string)
| InQuery (v : string).

Definition piece_text (p : piece) : string :=
  match p with
  | Raw s => s
  | InBody v | InAttribute v => htmlReplacer v
  | InPath v => htmlReplacer (urlProcessor true v)
  | InQuery v => htmlReplacer (urlProcessor false v)
  end.
Fixpoint text_of_pieces (ps : list piece) : string :=
  match ps with [] => "" | p :: ps => piece_text p +:+ text_of_pieces ps end.

(** What a value looks like: a NUL is shown as U+FFFD. *)
Fixpoint shown (s : string) : string :=
  match s with
  | "" => ""
  | String c s => (if (byte c =? 0)%N then bytes [239; 191; 189] else chr1 c) +:+ shown s
  end.

Definition url_attr (k : string) : bool := (k =? "href")%string || (k =? "action")%string.

(** Reading a piece as meant: a value is put where the reader stands, as it is in text and in
an attribute that is no URL, and normalised or escaped in a URL of this server. The place
must be the one the value was escaped for; in a URL that is where the text before the value
stands, before or after a question mark. Normalising keeps [? # /], so what a value does to
the path it is put into is a matter of the value ([plain] in [Pages.v]); escaping for the
query keeps no byte that could end a parameter ([urlProcessor_query]). *)
Definition place (m : mode) (p : piece) : option (mode * list token) :=
  match p, m with
  | Raw s, _ => Some (html_run m s)
  | InBody v, InText => Some (InText, chars (shown v))
  | InAttribute v, InValue n a k x =>
      if url_attr k then None else Some (InValue n a k (x +:+ shown v), [])
  | InPath v, InValue n a k x =>
      if url_attr k && HasPrefix x "/" && negb (ContainsByte x "?")
      then Some (InValue n a k (x +:+ shown (urlProcessor true v)), []) else None
  | InQuery v, InValue n a k x =>
      if url_attr k && HasPrefix x "/" && ContainsByte x "?"
      then Some (InValue n a k (x +:+ shown (urlProcessor false v)), []) else None
  | _, _ => None
  end.

Fixpoint place_all (m : mode) (ps : list piece) : option (mode * list token) :=
  match ps with
  | [] => Some (m, [])
  | p :: ps =>
      '(m1, t1) ← place m p; '(m2, t2) ← place_all m1 ps; Some (m2, t1 ++ t2)
  end.

(** ** Facts

What escaping for a query leaves: nothing that separates parameters or ends the query. *)
Definition query_byte (c : ascii) : bool := url_unreserved c || Ascii.eqb c "%".

Lemma percent_query c : string_forall query_byte (percent c) = true.
Proof. destruct c as [[] [] [] [] [] [] [] []]; reflexivity. Qed.

Lemma urlProcessor_query v : string_forall query_byte (urlProcessor false v) = true.
Proof.
  induction v as [|c v IH]; [done|]. cbn [urlProcessor]. rewrite string_forall_app, IH, andb_true_r.
  destruct (url_unreserved c) eqn:Hc; [|apply percent_query].
  cbn. unfold query_byte. by rewrite Hc.
Qed.

(** What the values in the paths of a template satisfy. *)
Definition path_ok (P : string → Prop) (p : piece) : Prop := if p is InPath v then P v else True.
Abbreviation paths P := (Forall (path_ok P)).

Lemma paths_bind {A} P (l : list A) (row : A → list piece) :
  (∀ x, x ∈ l → paths P (row x)) → paths P (l ≫= row).
Proof.
  intros Hl. apply Forall_forall. intros p (x & Hp & Hx)%list_elem_of_bind.
  by apply (proj1 (Forall_forall _ _) (Hl x Hx)).
Qed.

Lemma run_app m s t :
  html_run m (s +:+ t) =
  let '(m1, t1) := html_run m s in let '(m2, t2) := html_run m1 t in (m2, t1 ++ t2).
Proof.
  revert m. induction s as [|c s IH]; intros m.
  { change (html_run m t = let '(m2, t2) := html_run m t in (m2, t2)). by destruct (html_run m t). }
  rewrite string_app_cons. cbn [html_run]. destruct (html_step m c) as [m1 t1]. rewrite IH. destruct (html_run m1 s) as [m2 t2].
  destruct (html_run m2 t). by rewrite app_assoc.
Qed.

Lemma chars_app s t : chars (s +:+ t) = chars s ++ chars t.
Proof. induction s as [|c s IH]; [done|]. rewrite string_app_cons. simpl. by rewrite IH. Qed.

(** One escaped byte in a text and in an attribute. *)
Definition shown_byte (c : ascii) : string :=
  if (byte c =? 0)%N then bytes [239; 191; 189] else chr1 c.

Lemma run_byte_text c : html_run InText (html_byte c) = (InText, chars (shown_byte c)).
Proof. destruct c as [[] [] [] [] [] [] [] []]; reflexivity. Qed.

Lemma run_byte_value n a k v c :
  html_run (InValue n a k v) (html_byte c) = (InValue n a k (v +:+ shown_byte c), []).
Proof.
  destruct c as [[] [] [] [] [] [] [] []]; try reflexivity.
  unfold html_byte, shown_byte. simpl. by rewrite <- !string_app_assoc.
Qed.

Lemma run_text v : html_run InText (htmlReplacer v) = (InText, chars (shown v)).
Proof.
  induction v as [|c v IH]; [done|]. cbn [htmlReplacer shown].
  by rewrite run_app, run_byte_text, IH, chars_app.
Qed.

Lemma run_value n a k x v :
  html_run (InValue n a k x) (htmlReplacer v) = (InValue n a k (x +:+ shown v), []).
Proof.
  revert x. induction v as [|c v IH]; intros x; [by rewrite string_app_nil_r|].
  cbn [htmlReplacer shown]. by rewrite run_app, run_byte_value, IH, <- string_app_assoc.
Qed.

(** Text of a template inside of an attribute. *)
Definition bare_byte (c : ascii) : bool := negb (Ascii.eqb c "034" || Ascii.eqb c "&").

Lemma run_bare n a k x s :
  string_forall bare_byte s → html_run (InValue n a k x) s = (InValue n a k (x +:+ s), []).
Proof.
  revert x. induction s as [|c s IH]; intros x; [by rewrite string_app_nil_r|]. cbn [html_run html_step].
  simpl. unfold bare_byte at 1. intros [Hc Hs]%andb_prop_elim. apply negb_prop_elim in Hc.
  destruct (Ascii.eqb c "034"); [done|]. destruct (Ascii.eqb c "&"); [done|].
  rewrite IH by done. by rewrite <- string_app_assoc.
Qed.

(** A value is read in its place as it is. *)
Lemma place_run m p m' t : place m p = Some (m', t) → html_run m (piece_text p) = (m', t).
Proof.
  destruct p as [s|v|v|v|v]; simpl; [by intros [= ->]|..]; destruct m; try done;
    repeat case_match; try done; intros [= <- <-]; apply run_text || apply run_value.
Qed.

Lemma place_all_run m ps m' t :
  place_all m ps = Some (m', t) → html_run m (text_of_pieces ps) = (m', t).
Proof.
  revert m m' t. induction ps as [|p ps IH]; intros m m' t; simpl; [by intros [= -> <-]|].
  intros ([m1 t1] & Hp%place_run & ([m2 t2] & Hps%IH & [= <- <-])%bind_Some)%bind_Some.
  by rewrite run_app, Hp, Hps.
Qed.

Lemma place_all_app m ps qs :
  place_all m (ps ++ qs) =
  ('(m1, t1) ← place_all m ps; '(m2, t2) ← place_all m1 qs; Some (m2, t1 ++ t2)).
Proof.
  revert m. induction ps as [|p ps IH]; intros m; simpl.
  { destruct (place_all m qs) as [[? ?]|]; done. }
  destruct (place m p) as [[m1 t1]|]; [|done]. simpl. rewrite IH.
  destruct (place_all m1 ps) as [[m2 t2]|]; [|done]. simpl.
  destruct (place_all m2 qs) as [[m3 t3]|]; [|done]. simpl. by rewrite app_assoc.
Qed.

(** ** Tags and forms

The tags of what is read, and the forms with what their [input] elements hold. A form inside
a form is ignored, as browsers do. *)
Definition tag : Type := string * list (string * string).

Fixpoint tags (t : list token) : list tag :=
  match t with [] => [] | TTag n a :: t => (n, a) :: tags t | TChar _ :: t => tags t end.

Record Form := mkForm {
  f_method : string;
  f_action : string;
  f_fields : list (string * string)
}.

Fixpoint attr (k : string) (a : list (string * string)) : string :=
  match a with [] => "" | (k', v) :: a => if (k =? k')%string then v else attr k a end.

Fixpoint scan (cur : option Form) (ts : list tag) : option Form * list Form :=
  match ts with
  | [] => (cur, [])
  | (n, a) :: ts =>
      if (n =? "form")%string then
        scan (Some (default (mkForm (attr "method" a) (attr "action" a) []) cur)) ts
      else if (n =? "/form")%string then
        let '(c, fs) := scan None ts in (c, option_list cur ++ fs)
      else if (n =? "input")%string then
        scan (match cur with
              | Some f => Some (mkForm (f_method f) (f_action f)
                            (f_fields f ++ [(attr "name" a, attr "value" a)]))
              | None => None
              end) ts
      else scan cur ts
  end.

Definition forms (t : list token) : list Form := (scan None (tags t)).2.

(** [place_all] as far as the tags are concerned. *)
Definition drop_text (x : mode * list token) : mode * list tag := (x.1, tags x.2).
Fixpoint place_tags (m : mode) (ps : list piece) : option (mode * list tag) :=
  match ps with
  | [] => Some (m, [])
  | p :: ps =>
      '(m1, t1) ← match p, m with
                  | InBody _, InText => Some (InText, [])
                  | _, _ => drop_text <$> place m p
                  end;
      '(m2, t2) ← place_tags m1 ps; Some (m2, t1 ++ t2)
  end.

Lemma tags_app t u : tags (t ++ u) = tags t ++ tags u.
Proof. induction t as [|[n a|c] t IH]; simpl; [done|by rewrite IH|done]. Qed.

Lemma tags_chars s : tags (chars s) = [].
Proof. by induction s. Qed.

Lemma place_tags_all m ps : place_tags m ps = drop_text <$> place_all m ps.
Proof.
  revert m. induction ps as [|p ps IH]; intros m; [done|]. cbn [place_tags place_all].
  assert (match p, m with InBody _, InText => Some (InText, []) | _, _ => drop_text <$> place m p end
          = drop_text <$> place m p) as ->.
  { destruct p, m; try done. simpl. unfold drop_text. simpl. by rewrite tags_chars. }
  destruct (place m p) as [[m1 t1]|]; [|done]. simpl. rewrite IH.
  destruct (place_all m1 ps) as [[m2 t2]|]; [|done]. simpl. unfold drop_text. simpl. by rewrite tags_app.
Qed.

Lemma place_tags_app m ps qs :
  place_tags m (ps ++ qs) =
  ('(m1, t1) ← place_tags m ps; '(m2, t2) ← place_tags m1 qs; Some (m2, t1 ++ t2)).
Proof.
  rewrite !place_tags_all, place_all_app. destruct (place_all m ps) as [[m1 t1]|]; [|done].
  simpl. rewrite place_tags_all. destruct (place_all m1 qs) as [[m2 t2]|]; [|done].
  simpl. unfold drop_text. simpl. by rewrite tags_app.
Qed.

Lemma place_tags_step m p m' ps :
  place_tags m [p] = Some (m', []) → place_tags m (p :: ps) = place_tags m' ps.
Proof.
  intros Hp. change (p :: ps) with ([p] ++ ps). rewrite place_tags_app, Hp. simpl.
  by destruct (place_tags m' ps) as [[? ?]|].
Qed.

Lemma place_tags_bare n a k x s ps :
  string_forall bare_byte s →
  place_tags (InValue n a k x) (Raw s :: ps) = place_tags (InValue n a k (x +:+ s)) ps.
Proof.
  intros Hs. apply place_tags_step. cbn [place_tags place]. by rewrite run_bare.
Qed.

Lemma place_tags_path n a k x v ps :
  url_attr k = true → HasPrefix x "/" = true → ContainsByte x "?" = false →
  place_tags (InValue n a k x) (InPath v :: ps) =
  place_tags (InValue n a k (x +:+ shown (urlProcessor true v))) ps.
Proof.
  intros Hk Hx Hq. apply place_tags_step. cbn [place_tags place]. by rewrite Hk, Hx, Hq.
Qed.

Lemma scan_app c ts us :
  scan c (ts ++ us) =
  let '(c1, f1) := scan c ts in let '(c2, f2) := scan c1 us in (c2, f1 ++ f2).
Proof.
  revert c. induction ts as [|[n a] ts IH]; intros c; simpl; [by destruct (scan c us)|].
  destruct (n =? "form")%string; [apply IH|]. destruct (n =? "/form")%string.
  { rewrite IH. destruct (scan None ts) as [c1 f1]. destruct (scan c1 us). by rewrite app_assoc. }
  destruct (n =? "input")%string; apply IH.
Qed.

(** ** Parts of a page

A part begins and ends between tags and outside of forms, its tags satisfy [K] and its forms
[P]; what is inside of a form has no form tags. *)
Section parts.
Context (K : tag → bool).

Definition part (P : Form → Prop) (ps : list piece) : Prop :=
  ∃ ts fs, place_tags InText ps = Some (InText, ts) ∧ forallb K ts = true ∧
    scan None ts = (None, fs) ∧ Forall P fs.

Definition form_tag (t : tag) : bool := (t.1 =? "form")%string || (t.1 =? "/form")%string.
Definition inner_tag (t : tag) : bool := K t && negb (form_tag t).
Definition inner_part (ps : list piece) : Prop :=
  ∃ ts, place_tags InText ps = Some (InText, ts) ∧ forallb inner_tag ts = true.

Lemma part_nil P : part P [].
Proof. by exists [], []. Qed.

Lemma part_app P ps qs : part P ps → part P qs → part P (ps ++ qs).
Proof.
  intros (ts & fs & Hp & Hk & Hs & Hf) (us & gs & Hq & Hl & Ht & Hg). exists (ts ++ us), (fs ++ gs).
  rewrite place_tags_app, Hp, forallb_app, Hk, Hl, scan_app, Hs. simpl. rewrite Hq, Ht. simpl.
  by rewrite Forall_app.
Qed.

(** [range]: the rows one after the other. *)
Lemma part_range {A} P (row : A → list piece) l :
  (∀ x, x ∈ l → part P (row x)) → part P (l ≫= row).
Proof.
  induction l as [|x l IH]; intros Hr; [apply part_nil|]. rewrite bind_cons.
  apply part_app; [apply Hr; left|apply IH; intros y Hy; apply Hr; by right].
Qed.

Lemma inner_known ts : forallb inner_tag ts = true → forallb K ts = true.
Proof.
  rewrite !forallb_forall. intros Hi t Ht%Hi. by apply andb_true_iff in Ht as [? _].
Qed.

Lemma inner_cons n a ts :
  forallb inner_tag ((n, a) :: ts) = true →
  (n =? "form")%string = false ∧ (n =? "/form")%string = false ∧ forallb inner_tag ts = true.
Proof.
  cbn [forallb]. unfold inner_tag at 1, form_tag. simpl.
  rewrite !andb_true_iff, negb_true_iff, orb_false_iff. tauto.
Qed.

Lemma scan_inner f ts :
  forallb inner_tag ts = true →
  ∃ more, scan (Some f) ts = (Some (mkForm (f_method f) (f_action f) (f_fields f ++ more)), []).
Proof.
  revert f. induction ts as [|[n a] ts IH]; intros f.
  { exists []. rewrite app_nil_r. by destruct f. }
  intros (Hn & Hn' & Ht)%inner_cons. cbn [scan]. rewrite Hn, Hn'.
  destruct (n =? "input")%string; [|by apply IH].
  destruct (IH (mkForm (f_method f) (f_action f)
    (f_fields f ++ [(attr "name" a, attr "value" a)])) Ht) as [more ->].
  eexists (_ :: more). simpl. by rewrite <- app_assoc.
Qed.

(** A form around an inner part. *)
Lemma part_form (P : Form → Prop) ps inner f ts :
  place_tags InText ps = Some (InText, ts) → forallb K (ts ++ [("/form", [])]) = true →
  scan None ts = (Some f, []) → inner_part inner →
  (∀ more, P (mkForm (f_method f) (f_action f) (f_fields f ++ more))) →
  part P (ps ++ inner ++ [Raw "</form>"]).
Proof.
  intros Hp Hk Hs (us & Hi & Hn) HP. destruct (scan_inner f us Hn) as [more Hu].
  eexists (ts ++ us ++ [("/form", [])]), [_]. rewrite place_tags_app, Hp. simpl.
  rewrite place_tags_app, Hi. simpl. rewrite scan_app, Hs. rewrite scan_app, Hu. simpl.
  rewrite forallb_app in Hk. apply andb_true_iff in Hk as [Hk Hk'].
  rewrite !forallb_app, Hk, inner_known, Hk' by done. split_and!; [done..|].
  constructor; [apply HP|constructor].
Qed.

Lemma inner_app ps qs : inner_part ps → inner_part qs → inner_part (ps ++ qs).
Proof.
  intros (ts & Hp & Ht) (us & Hq & Hu). exists (ts ++ us). rewrite place_tags_app, Hp. simpl. rewrite Hq.
  simpl. by rewrite forallb_app, Ht, Hu.
Qed.

Lemma inner_range {A} (row : A → list piece) l : (∀ x, inner_part (row x)) → inner_part (l ≫= row).
Proof.
  intros Hr. induction l as [|x l IH]; [by exists []|]. rewrite bind_cons. by apply inner_app.
Qed.

(** A part without form tags. *)
Lemma inner_no_forms P ps : inner_part ps → part P ps.
Proof.
  intros (ts & Hp & Ht). exists ts, []. split_and!; [done|by apply inner_known| |constructor]. clear Hp.
  induction ts as [|[n a] ts IH]; [done|]. apply inner_cons in Ht as (Hn & Hn' & Ht). cbn [scan].
  rewrite Hn, Hn'. destruct (n =? "input")%string; by apply IH.
Qed.

(** What a part means for a reader of the text. *)
Lemma part_reads P ps :
  part P ps →
  ∃ t, place_all InText ps = Some (InText, t) ∧ html_run InText (text_of_pieces ps) = (InText, t) ∧
    forallb K (tags t) = true ∧ Forall P (forms t).
Proof.
  intros (ts & fs & Hp & Hk & Hs & Hf). rewrite place_tags_all in Hp.
  destruct (place_all InText ps) as [[m t]|] eqn:Ha; [|done]. simpl in Hp. injection Hp as -> <-.
  exists t. split_and!; [done|by apply place_all_run|done|]. unfold forms. by rewrite Hs.
Qed.
End parts.
