(* ===== verification/Pages.v ===== *)
(** * internal/web/templates: the pages

A translation of the templates in [admin/internal/web/templates], each with the values that
its page data puts into it ([dq] writes double quotes as single ones). Formatting a time and
Postgres's text of a jsonb value are parameters. *)
From Stdlib Require Import Ascii.
From S2P Require Import Prelude GoLib Regex Policy Json JsonText Store Watch Base64 JsonStruct Url Auth OAuth Demo Web Reply Html.
From stdpp Require Import gmap strings list.

Definition raw (s : string) : piece := Raw (dq s).

(** ** layout.html *)
Definition csrf_input (csrf : string) : list piece :=
  [raw "<input type='hidden' name='csrf' value='"; InAttribute csrf; raw "'>"].

Definition ttl_select : list piece :=
  [raw "<select name='ttl' aria-label='Grant lifetime'><option value='1h'>1 hour</option><option value='24h'>1 day</option><option value='168h' selected>7 days</option><option value='720h'>30 days</option></select>"].

Definition page_head (u : User) : list piece :=
  [raw "<!doctype html>
<html lang='en'><head><meta charset='utf-8'><meta name='viewport' content='width=device-width, initial-scale=1'>
<title>sandcastle admin</title>
<style>
body{font:14px system-ui,sans-serif;margin:0 auto;max-width:72rem;padding:0 1rem 2rem;color:#1b1f24;background:#fff}
nav{display:flex;gap:1rem;align-items:center;flex-wrap:wrap;padding:.75rem 0;border-bottom:1px solid #ddd;margin-bottom:1rem}
nav form{margin-left:auto}
.scroll{overflow-x:auto}
table{border-collapse:collapse;width:100%;margin:.5rem 0 1.5rem}
th,td{text-align:left;padding:.35rem .5rem;border-bottom:1px solid #eee;vertical-align:top}
form.inline{display:inline}
input,select,button,textarea{font:inherit;max-width:100%}
.muted{color:#666}
</style></head><body>
<nav><strong>sandcastle</strong>
"] ++
  (if u_Admin u then [raw "<a href='/queue'>Queue</a><a href='/zones'>Zones</a><a href='/workspaces'>Workspaces</a><a href='/audit'>Audit</a>"] else []) ++
  [raw "
<a href='/mine'>My workspaces</a>
<form method='post' action='/logout'>"] ++ csrf_input (u_CSRF u) ++
  [raw "<span class='muted'>"; InBody (u_Name u); raw "</span> <button>Log out</button></form>
</nav>"].

Definition page_foot : list piece := [raw "</body></html>"].

(** [range] with its [else]. *)
Definition range_else {A} (l : list A) (row : A → list piece) (none : list piece) : list piece :=
  match l with [] => none | _ => l ≫= row end.

(** A form that posts to a path with an identifier in it: [action="/x/{{.ID}}/y"]. *)
Definition id_form_open (inline : bool) (x id y csrf : string) : list piece :=
  [raw (if inline then "<form class='inline' method='post' action='/" else "<form method='post' action='/");
   Raw (x +:+ "/"); InPath id; Raw ("/" +:+ y); raw "'>"] ++ csrf_input csrf.
Definition id_form (inline : bool) (x id y csrf : string) (inner : list piece) : list piece :=
  id_form_open inline x id y csrf ++ inner ++ [raw "</form>"].

(** [{{or (index $.Names id) id}}] *)
Definition name_or_id (names : gmap string string) (id : string) : string :=
  let n := default "" (names !! id) in if (n =? "")%string then id else n.

Section pages.
Context (Format : string → Z → string) (jsonb_text : list (string * json) → string).

Definition seconds : string := "2006-01-02 15:04:05".
Definition minutes : string := "2006-01-02 15:04".

Definition host_port (host : string) (port : Z) : list piece :=
  [InBody host; Raw ":"; InBody (Itoa port)].

(** ** audit.html *)
Definition audit_row (r : AuditRow) : list piece :=
  [raw "<tr><td>"; InBody (Format seconds (au_At r)); raw "</td><td>"; InBody (au_Actor r);
   raw "</td><td>"; InBody (au_Action r); raw "</td><td><code>"; InBody (jsonb_text (au_Detail r));
   raw "</code></td></tr>"].

Definition audit_html (u : User) (rows : list AuditRow) : list piece :=
  page_head u ++
  [raw "
<h1>Audit log</h1>
<div class='scroll'><table><tr><th>When</th><th>Actor</th><th>Action</th><th>Detail</th></tr>
"] ++ (rows ≫= audit_row) ++ [raw "
</table></div>
"] ++ page_foot.

(** ** mine.html *)
Definition mine_ws (w : Workspace) : list piece :=
  [raw "<tr><td>"; InBody (ws_Name w); raw "</td><td>"; InBody (ws_IP w); raw "</td></tr>"].

Definition mine_denial (names : gmap string string) (kd : (string * string * Z) * DenialRow) : list piece :=
  let '((ws, host, port), d) := kd in
  [raw "<tr><td>"; InBody (default "" (names !! ws)); raw "</td><td>"] ++ host_port host port ++
  [raw "</td><td>"; InBody (Itoa (d_count d)); raw "</td><td>"; InBody (Format seconds (d_last_seen d));
   raw "</td>
<td>"] ++
  (if (port =? 443)%Z || (port =? 80)%Z
   then [raw "<a href='/r?ws="; InQuery ws; raw "&amp;host="; InQuery host; Raw ":"; InQuery (Itoa port);
         raw "'>Request access</a>"] else []) ++
  [raw "</td></tr>
"].

Definition mine_request (names : gmap string string) (kq : string * RequestRow) : list piece :=
  let q := kq.2 in
  [raw "<tr><td>"; InBody (default "" (names !! q_workspace_id q)); raw "</td><td>"] ++
  host_port (q_host q) (q_port q) ++
  [raw "</td><td>"; InBody (q_status q); raw "</td><td>"; InBody (default "" (q_decided_by q));
   raw "</td><td>"; InBody (Format minutes (q_created_at q)); raw "</td></tr>
"].

Definition mine_html (u : User) (wss : list Workspace)
    (denials : list ((string * string * Z) * DenialRow)) (reqs : list (string * RequestRow))
    (names : gmap string string) (filed : string) : list piece :=
  page_head u ++ [raw "
"] ++
  (if (filed =? "")%string then [] else
   [raw "<p><strong>Request filed.</strong> An admin will review it.</p>"]) ++
  [raw "
<h1>My workspaces</h1>
<div class='scroll'><table><tr><th>Workspace</th><th>Address</th></tr>
"] ++
  range_else wss mine_ws [raw "<tr><td colspan='2' class='muted'>No running workspaces.</td></tr>"] ++
  [raw "
</table></div>
<h2>Recent denials</h2>
<div class='scroll'><table><tr><th>Workspace</th><th>Destination</th><th>Count</th><th>Last seen</th><th></th></tr>
"] ++
  range_else denials (mine_denial names) [raw "<tr><td colspan='5' class='muted'>None.</td></tr>"] ++
  [raw "
</table></div>
<h2>My requests</h2>
<div class='scroll'><table><tr><th>Workspace</th><th>Destination</th><th>Status</th><th>Decided by</th><th>Filed</th></tr>
"] ++
  range_else reqs (mine_request names) [raw "<tr><td colspan='5' class='muted'>None.</td></tr>"] ++
  [raw "
</table></div>
"] ++ page_foot.

(** ** queue.html *)
Definition queue_request (csrf : string) (names : gmap string string) (kq : string * RequestRow)
    : list piece :=
  let '(id, q) := kq in
  [raw "<tr><td>"; InBody (name_or_id names (q_workspace_id q)); raw "</td><td>"] ++
  host_port (q_host q) (q_port q) ++
  [raw "</td><td>"; InBody (q_requester q); raw "</td><td>"; InBody (q_justification q); raw "</td>
<td>"] ++
  id_form true "requests" id "approve" csrf (ttl_select ++ [raw " <button>Approve</button>"]) ++ [raw "
"] ++
  id_form true "requests" id "deny" csrf [raw "<button>Deny</button>"] ++ [raw "</td></tr>
"].

Definition queue_denial (names : gmap string string) (kd : (string * string * Z) * DenialRow) : list piece :=
  let '((ws, host, port), d) := kd in
  [raw "<tr><td>"; InBody (name_or_id names ws); raw "</td><td>"] ++ host_port host port ++
  [raw "</td><td>"; InBody (Itoa (d_count d)); raw "</td><td>"; InBody (Format seconds (d_last_seen d));
   raw "</td></tr>
"].

Definition queue_html (u : User) (reqs : list (string * RequestRow))
    (denials : list ((string * string * Z) * DenialRow)) (names : gmap string string) : list piece :=
  page_head u ++
  [raw "
<h1>Pending requests</h1>
<div class='scroll'><table><tr><th>Workspace</th><th>Destination</th><th>Requester</th><th>Justification</th><th>Decision</th></tr>
"] ++
  range_else reqs (queue_request (u_CSRF u) names)
    [raw "<tr><td colspan='5' class='muted'>Queue is empty.</td></tr>"] ++
  [raw "
</table></div>
<h2>Recent denials</h2>
<div class='scroll'><table><tr><th>Workspace</th><th>Destination</th><th>Count</th><th>Last seen</th></tr>
"] ++
  range_else denials (queue_denial names) [raw "<tr><td colspan='4' class='muted'>None.</td></tr>"] ++
  [raw "
</table></div>
"] ++ page_foot.

(** ** request.html *)
Definition request_html (u : User) (ws : Workspace) (host : string) (port : Z) : list piece :=
  page_head u ++
  [raw "
<h1>Request access</h1>
<p>Workspace <strong>"; InBody (ws_Name ws); raw "</strong> (<code>"; InBody (ws_ID ws);
   raw "</code>) was denied <code>"] ++ host_port host port ++ [raw "</code>.</p>
<form method='post' action='/requests'>"] ++ csrf_input (u_CSRF u) ++
  [raw "
<input type='hidden' name='ws' value='"; InAttribute (ws_ID ws);
   raw "'><input type='hidden' name='host' value='"; InAttribute host;
   raw "'><input type='hidden' name='port' value='"; InAttribute (Itoa port);
   raw "'>
<p><label for='j'>Why does this workspace need it?</label><br>
<textarea id='j' name='justification' rows='4' cols='60' required maxlength='2000'></textarea></p>
<button>Submit request</button></form>
"] ++ page_foot.

(** ** zones.html *)
Definition port_cell (r : RuleView) : list piece :=
  if (rv_Kind r =? "host")%string then [InBody (Itoa (rv_Port r))] else [].

Definition zone_rule (csrf : string) (r : RuleView) : list piece :=
  [raw "<tr><td>"; InBody (rv_Kind r); raw "</td><td>"; InBody (rv_Value r); raw "</td><td>"] ++
  port_cell r ++ [raw "</td>
<td>"] ++ id_form true "rules" (rv_ID r) "delete" csrf [raw "<button>Remove</button>"] ++ [raw "</td></tr>
"].

Definition kind_select (label : string) : list piece :=
  [raw ("<select name='kind' aria-label='" +:+ label +:+ "'><option value='host'>proxy host</option><option value='dns'>DNS name</option></select>
")].

Definition zone_section (csrf : string) (z : Zone) : list piece :=
  [raw "
<h2>"; InBody (zn_Name z)] ++ (if zn_Default z then [raw " <span class='muted'>(default)</span>"] else []) ++
  [raw "</h2>
<p class='muted'>"] ++
  (if zn_Default z then [raw "Every workspace not moved elsewhere."]
   else [InBody (Itoa (Z.of_nat (length (zn_Members z)))); raw " workspace(s)."]) ++
  [raw "</p>
<div class='scroll'><table><tr><th>Kind</th><th>Value</th><th>Port</th><th></th></tr>
"] ++
  range_else (zn_Rules z) (zone_rule csrf)
    [raw "<tr><td colspan='4' class='muted'>No rules: nothing allowed.</td></tr>"] ++
  [raw "
</table></div>
"] ++
  id_form false "zones" (zn_ID z) "rules" csrf ([raw "
"] ++ kind_select "Rule kind" ++
    [raw "<input name='value' required placeholder='example.com or *.example.com' aria-label='Name'>
<select name='port' aria-label='Port (host rules)'><option>443</option><option>80</option></select>
<button>Add rule</button>"]) ++ [raw "
<div>
"] ++
  id_form true "zones" (zn_ID z) "clone" csrf
    [raw "<input name='name' required placeholder='clone name' aria-label='Clone name'> <button>Clone</button>"] ++
  [raw "
"] ++
  id_form true "zones" (zn_ID z) "rename" csrf
    [raw "<input name='name' required placeholder='new name' aria-label='New name'> <button>Rename</button>"] ++
  [raw "
"] ++
  (if zn_Default z then [] else
   id_form true "zones" (zn_ID z) "default" csrf [raw "<button>Make default</button>"] ++ [raw "
"] ++ id_form true "zones" (zn_ID z) "delete" csrf [raw "<button>Delete</button>"]) ++
  [raw "
</div>
"].

Definition zones_html (u : User) (zs : list Zone) : list piece :=
  page_head u ++
  [raw "
<h1>Zones</h1>
<form method='post' action='/zones'>"] ++ csrf_input (u_CSRF u) ++
  [raw "<label>New zone <input name='name' required pattern='[a-z0-9][a-z0-9-]{0,40}'></label> <button>Create</button></form>
"] ++ (zs ≫= zone_section (u_CSRF u)) ++ [raw "
"] ++ page_foot.

(** ** workspaces.html *)
Definition zone_option (current : string) (z : Zone) : list piece :=
  [raw "<option value='"; InAttribute (zn_ID z); raw "'"] ++
  (if (zn_ID z =? current)%string then [raw " selected"] else []) ++
  [raw ">"; InBody (zn_Name z); raw "</option>"].

Definition grant_tr (csrf : string) (g : RuleView) : list piece :=
  [raw "<tr><td>"; InBody (rv_Kind g); raw " "; InBody (rv_Value g); raw "</td><td>"] ++ port_cell g ++
  [raw "</td><td>"] ++ (if rv_ExpiresAt g is Some t then [InBody (Format minutes t)] else []) ++
  [raw "</td><td>"; InBody (rv_CreatedBy g); raw "</td>
<td>"] ++
  id_form true "rules" (rv_ID g) "delete" csrf
    [raw "<input type='hidden' name='back' value='/workspaces'><button>Revoke</button>"] ++
  [raw "</td></tr>
"].

Definition ws_section (csrf : string) (zs : list Zone) (zoneNames : gmap string string) (row : wsRow)
    : list piece :=
  let ws := wr_Workspace row in
  [raw "
<h2>"; InBody (ws_Name ws); raw " <span class='muted'>"; InBody (ws_IP ws); raw "</span></h2>
"] ++
  id_form false "workspaces" (ws_ID ws) "zone" csrf ([raw "
<label>Zone <select name='zone'>"] ++ (zs ≫= zone_option (wr_Zone row)) ++
    [raw "</select></label>
<button>Move</button> <span class='muted'>now in "; InBody (default "" (zoneNames !! wr_Zone row));
     raw "</span>"]) ++ [raw "
<div class='scroll'><table><tr><th>Grant</th><th>Port</th><th>Expires</th><th>By</th><th></th></tr>
"] ++
  range_else (wr_Grants row) (grant_tr csrf) [raw "<tr><td colspan='5' class='muted'>No grants.</td></tr>"] ++
  [raw "
</table></div>
"] ++
  id_form false "workspaces" (ws_ID ws) "grants" csrf ([raw "
"] ++ kind_select "Grant kind" ++
    [raw "<input name='value' required placeholder='example.com' aria-label='Name'>
<select name='port' aria-label='Port'><option>443</option><option>80</option></select>
"] ++ ttl_select ++ [raw " <button>Grant</button>"]) ++ [raw "
"].

Definition workspaces_html (u : User) (rows : list wsRow) (zs : list Zone)
    (zoneNames : gmap string string) : list piece :=
  page_head u ++ [raw "
<h1>Running workspaces</h1>
"] ++
  range_else rows (ws_section (u_CSRF u) zs zoneNames) [raw "<p class='muted'>No running workspaces.</p>"] ++
  [raw "
"] ++ page_foot.

(** ** The page of its data *)
Definition page (d : PageData) : list piece :=
  match d with
  | PRequest u ws host port => request_html u ws host port
  | PMine u wss denials reqs names filed => mine_html u wss denials reqs names filed
  | PQueue u reqs denials names => queue_html u reqs denials names
  | PZones u zs _ => zones_html u zs
  | PWorkspaces u rows zs zoneNames => workspaces_html u rows zs zoneNames
  | PAudit u rows => audit_html u rows
  end.

Definition page_text (d : PageData) : string := text_of_pieces (page d).

(** [pages]: the set of templates. *)
Definition ExecuteTemplate_pages (name : string) (d : PageData) : result error string :=
  if (name =? page_name d)%string then Ok (page_text d) else Err (EMsg "html/template: no such template").
End pages.

(** ** Reading the pages *)
(** An identifier as Postgres and Coder write them: letters, digits and dashes. *)
Definition plain_byte (c : ascii) : bool :=
  is_lower c || is_upper c || is_digit c || Ascii.eqb c "-".
Definition plain (s : string) : bool := negb (s =? "")%string && string_forall plain_byte s.

Lemma plain_byte_cases (c : ascii) :
  plain_byte c →
  url_unreserved c = true ∧ (byte c =? 0)%N = false ∧ bare_byte c ∧ Ascii.eqb c "?" = false.
Proof. destruct c as [[] [] [] [] [] [] [] []]; vm_compute; intros; split_and!; done. Qed.

Lemma plain_url s :
  string_forall plain_byte s →
  shown (urlProcessor true s) = s ∧ string_forall bare_byte s ∧ ContainsByte s "?" = false.
Proof.
  induction s as [|c s IH]; [done|]. simpl.
  intros [(Hu & H0 & Hb & Hm)%plain_byte_cases (Hs & Hbs & Hc)%IH]%andb_prop_elim.
  rewrite Hu. cbn [orb]. unfold chr1. rewrite string_app_cons. split_and!; [|done..|].
  - cbn [shown]. rewrite H0. unfold chr1. rewrite string_app_cons. by f_equal.
  - by rewrite ContainsByte_cons, Hm.
Qed.

Lemma plain_in_path s :
  plain s = true → shown (urlProcessor true s) = s ∧
    ContainsByte s "/" = false ∧ ContainsByte s "?" = false ∧ ContainsByte s "#" = false.
Proof.
  unfold plain. intros [_ Hs]%andb_true_iff. split; [by apply plain_url, Is_true_true|].
  induction s as [|c s IH]; [done|]. simpl in Hs. apply andb_true_iff in Hs as [Hc (? & ? & ?)%IH].
  rewrite !ContainsByte_cons. by destruct c as [[] [] [] [] [] [] [] []].
Qed.

(** A path is made of its plain segments in one way. *)
Lemma plain_no_slash s : plain s = true → ContainsByte s "/" = false ∧ s ≠ "".
Proof.
  unfold plain. rewrite andb_true_iff, negb_true_iff. intros [Hn Hs]. split; [|by intros ->].
  rewrite ContainsByte_forall, negb_false_iff. revert Hs. apply string_forall_impl.
  intros c. destruct c as [[] [] [] [] [] [] [] []]; by vm_compute.
Qed.

Lemma Join_cut x l :
  plain x = true →
  CutByte (GoLib.Join (x :: l) "/") "/" = if l is [] then None else Some (x, GoLib.Join l "/").
Proof.
  intros [Hx _]%plain_no_slash. destruct l as [|y l]; [by apply CutByte_None|].
  by apply CutByte_spec.
Qed.

Lemma Join_inj l l' :
  forallb plain l = true → forallb plain l' = true → GoLib.Join l "/" = GoLib.Join l' "/" → l = l'.
Proof.
  revert l'. induction l as [|x l IH]; intros [|x' l'] Hl Hl' E; [done|exfalso..|].
  - apply andb_true_iff in Hl' as [Hx Hl']. pose proof (Join_cut x' l' Hx) as Hc. rewrite <- E in Hc.
    destruct l'; [|done]. simpl in E. subst x'. done.
  - apply andb_true_iff in Hl as [Hx Hl]. pose proof (Join_cut x l Hx) as Hc. rewrite E in Hc.
    destruct l; [|done]. simpl in E. subst x. done.
  - apply andb_true_iff in Hl as [Hx Hl], Hl' as [Hx' Hl'].
    pose proof (Join_cut x l Hx) as Hc. rewrite E, (Join_cut x' l' Hx') in Hc.
    destruct l as [|y l], l' as [|y' l']; try done; [simpl in E; by subst|].
    injection Hc as -> E'. f_equal. by apply IH.
Qed.

(** The elements and attributes of the templates. *)
Definition element_names : list string :=
  ["html"; "head"; "meta"; "title"; "style"; "body"; "nav"; "strong"; "a"; "form"; "span"; "button";
   "input"; "select"; "option"; "table"; "tr"; "th"; "td"; "div"; "h1"; "h2"; "p"; "code"; "label";
   "textarea"; "br"].
Definition attribute_names : list string :=
  ["lang"; "charset"; "name"; "content"; "href"; "method"; "action"; "type"; "value"; "class";
   "aria-label"; "selected"; "colspan"; "for"; "id"; "rows"; "cols"; "required"; "maxlength";
   "pattern"; "placeholder"].
Definition known_tag (t : tag) : bool :=
  let '(n, attrs) := t in
  existsb (λ e, (n =? e)%string || (n =? "/" +:+ e)%string) element_names &&
    forallb (λ kv : string * string, existsb (String.eqb kv.1) attribute_names) attrs ||
  (n =? "!doctype")%string.

(** What is read up to the fields of a form with an identifier. *)
Definition id_action (x id y : string) : string := "/" +:+ x +:+ "/" +:+ shown (urlProcessor true id) +:+ "/" +:+ y.

Lemma id_form_tags inline x id y csrf :
  string_forall plain_byte x → string_forall plain_byte y →
  ∃ ts, place_tags InText (id_form_open inline x id y csrf) = Some (InText, ts) ∧
    forallb known_tag (ts ++ [("/form", [])]) = true ∧
    scan None ts = (Some (mkForm "post" (id_action x id y) [("csrf", shown csrf)]), []).
Proof.
  intros (_ & Hx & Hxm)%plain_url (_ & Hy & _)%plain_url.
  set (cls := if inline then [("class", "inline")] else []).
  exists [("form", cls ++ [("method", "post"); ("action", id_action x id y)]);
          ("input", [("type", "hidden"); ("name", "csrf"); ("value", shown csrf)])].
  split; [|split; by destruct inline].
  unfold id_form_open. simpl app.
  rewrite place_tags_step with (m' := InValue "form" (cls ++ [("method", "post")]) "action" "/")
    by (by destruct inline).
  rewrite place_tags_bare by (rewrite string_forall_app; by apply andb_prop_intro).
  rewrite place_tags_path; [|done|apply HasPrefix_spec; by eexists|by rewrite !ContainsByte_app, Hxm].
  rewrite place_tags_bare by (rewrite string_forall_app; by apply andb_prop_intro). unfold id_action. rewrite <- !string_app_assoc.
  by destruct inline.
Qed.

(** ** The forms of a page

Who sees a page, which identifiers its forms have in their paths, and whether it is a page
of an administrator. *)
Definition page_user (d : PageData) : User :=
  match d with
  | PRequest u _ _ _ | PMine u _ _ _ _ _ | PQueue u _ _ _ | PZones u _ _ | PWorkspaces u _ _ _
  | PAudit u _ => u
  end.

Definition page_ids (d : PageData) : list string :=
  match d with
  | PQueue _ reqs _ _ => reqs.*1
  | PZones _ zs _ => zs ≫= λ z, zn_ID z :: (rv_ID <$> zn_Rules z)
  | PWorkspaces _ rows _ _ => rows ≫= λ r, ws_ID (wr_Workspace r) :: (rv_ID <$> wr_Grants r)
  | _ => []
  end.

(** Only they stand in the paths of its links. *)
Lemma id_form_paths P inline x id y csrf inner :
  P id → paths P inner → paths P (id_form inline x id y csrf inner).
Proof.
  intros Hi Hin. unfold id_form, id_form_open, csrf_input. rewrite !Forall_app, !Forall_cons.
  by split_and!; try apply Forall_nil_2.
Qed.

Lemma range_else_paths {A} P (l : list A) row none :
  (∀ x, x ∈ l → paths P (row x)) → paths P none → paths P (range_else l row none).
Proof. intros Hl Hn. unfold range_else. destruct l; [done|]. by apply paths_bind. Qed.

Ltac paths_solve :=
  repeat lazymatch goal with
  | |- Forall _ (id_form _ _ _ _ _ _) => apply id_form_paths; [by auto|]
  | |- Forall _ (range_else _ _ _) => apply range_else_paths; [intros|]
  | |- Forall _ (_ ≫= _) => apply paths_bind; intros
  | |- Forall _ (_ ++ _) => apply Forall_app; split
  | |- Forall _ (_ :: _) => apply Forall_cons; split; [exact I|]
  | |- Forall _ [] => apply Forall_nil_2
  | |- Forall _ (match _ with _ => _ end) => case_match
  | |- Forall _ (page_head _) => unfold page_head
  | |- Forall _ page_foot => unfold page_foot
  | |- Forall _ (csrf_input _) => unfold csrf_input
  | |- Forall _ (host_port _ _) => unfold host_port
  | |- Forall _ ttl_select => unfold ttl_select
  | |- Forall _ (kind_select _) => unfold kind_select
  | |- Forall _ (port_cell _) => unfold port_cell
  | |- Forall _ (zone_option _ _) => unfold zone_option
  end.

Section paths.
Context (Format : string → Z → string) (jsonb_text : list (string * json) → string) (P : string → Prop).

Lemma zone_section_paths csrf z :
  P (zn_ID z) → (∀ r, r ∈ zn_Rules z → P (rv_ID r)) → paths P (zone_section csrf z).
Proof. intros Hz Hr. unfold zone_section, zone_rule. paths_solve. Qed.

Lemma ws_section_paths csrf zs names row :
  P (ws_ID (wr_Workspace row)) → (∀ g, g ∈ wr_Grants row → P (rv_ID g)) →
  paths P (ws_section Format csrf zs names row).
Proof. intros Hw Hg. unfold ws_section, grant_tr. paths_solve. Qed.

Lemma queue_request_paths csrf names kq : P kq.1 → paths P (queue_request csrf names kq).
Proof. destruct kq. intros Hq. simpl in Hq. unfold queue_request. paths_solve. Qed.
End paths.

Lemma page_paths Format jsonb_text d :
  paths (λ v, v ∈ page_ids d) (page Format jsonb_text d).
Proof.
  destruct d as [u ws host port|u wss ds qs ns filed|u qs ds ns|u zs ns|u rows zs ns|u rows]; simpl.
  - unfold request_html. paths_solve.
  - unfold mine_html, mine_ws, mine_denial, mine_request. paths_solve.
  - unfold queue_html, queue_denial. paths_solve. apply queue_request_paths. by apply list_elem_of_fmap_2.
  - unfold zones_html. paths_solve. apply zone_section_paths; [|intros r Hr]; apply list_elem_of_bind;
      (eexists; split; [|done]); [left|right; by apply list_elem_of_fmap_2].
  - unfold workspaces_html. paths_solve. apply ws_section_paths; [|intros g Hg]; apply list_elem_of_bind;
      (eexists; split; [|done]); [left|right; by apply list_elem_of_fmap_2].
  - unfold audit_html, audit_row. paths_solve.
Qed.

Definition admin_page (d : PageData) : bool :=
  match d with PRequest _ _ _ _ | PMine _ _ _ _ _ _ => false | _ => true end.

Section facts.
Context `{Unicode} `{Postgres} `{Crypto, OAuth2} (Error : error → string) (env : Env) (pods : list Pod).
Context (a : Auth) (v : Visit) (Format : string → Z → string) (jsonb_text : list (string * json) → string).

(** A form's action leads to a handler behind [Require], of administrators only on their pages. *)
Definition usable (adm : bool) (action : string) : Prop :=
  ∃ segs rt, action = "/" +:+ GoLib.Join segs "/" ∧ forallb plain segs = true ∧
    (∀ r, rq_Method r = "POST" → rq_Path r = segs → Routes Error env pods a v r = Some rt) ∧
    match rt with user _ => True | admin _ => adm = true | Anybody _ => False end.

(** A form of a page, where [ids] says that the identifiers in paths are plain. *)
Definition form_ok (adm : bool) (csrf : string) (ids : Prop) (f : Form) : Prop :=
  f_method f = "post" ∧ attr "csrf" (f_fields f) = shown csrf ∧ (ids → usable adm (f_action f)).

Lemma form_ok_fields adm csrf ids act more :
  (ids → usable adm act) → form_ok adm csrf ids (mkForm "post" act ([("csrf", shown csrf)] ++ more)).
Proof. by intros Ha. Qed.

(** [segs] is the path of a handler. *)
Definition opens (adm : bool) (segs : list string) (rt : Route) : Prop :=
  (∀ r, rq_Method r = "POST" → rq_Path r = segs → Routes Error env pods a v r = Some rt) ∧
  match rt with user _ => True | admin _ => adm = true | Anybody _ => False end.

Ltac opens := split; [intros [] ? ?; simpl in *; subst; reflexivity|done].
Ltac inner := eexists; split; lazy -[shown urlProcessor]; reflexivity.
Ltac leaf := apply inner_no_forms; inner.
Ltac leaves := repeat (apply part_app; [leaf|]).

Section parts.
Context (adm : bool) (csrf : string) (ids : Prop).
Abbreviation ok := (form_ok adm csrf ids).

(** A form with a fixed action. *)
Lemma static_form ps fs seg rt :
  place_tags InText ps = Some (InText, fs) → forallb known_tag fs = true →
  (∃ more, scan None fs = (None, [mkForm "post" ("/" +:+ seg) (("csrf", shown csrf) :: more)])) →
  plain seg = true → opens adm [seg] rt → part known_tag ok ps.
Proof.
  intros Hp Hk [more Hs] Hseg Ho. exists fs. eexists. split_and!; [done..|]. apply Forall_singleton.
  apply form_ok_fields. intros _. exists [seg], rt. simpl. by rewrite Hseg.
Qed.

Lemma id_form_part inline x id y inner rt :
  plain x = true → plain y = true → inner_part known_tag inner → opens adm [x; id; y] rt → (ids → plain id) →
  part known_tag ok (id_form inline x id y csrf inner).
Proof.
  intros Hx Hy Hi Ho Hid.
  assert (∀ s, plain s → string_forall plain_byte s) as Hb by (by intros s [_ ?]%andb_prop_elim).
  destruct (id_form_tags inline x id y csrf) as (ts & Ht & Hk & Hs); [apply Hb; by rewrite ?Hx, ?Hy..|].
  eapply part_form; [done..|]. intros more. apply form_ok_fields. intros Hids%Hid.
  unfold id_action. destruct (plain_url id (Hb _ Hids)) as [-> _].
  exists [x; id; y], rt. apply Is_true_true in Hids. simpl. by rewrite Hx, Hy, Hids.
Qed.

Lemma range_else_part {A} (l : list A) row none :
  (∀ x, x ∈ l → part known_tag ok (row x)) → part known_tag ok none → part known_tag ok (range_else l row none).
Proof. intros Hr Hn. destruct l; [done|]. by apply part_range. Qed.
End parts.

Ltac static :=
  eapply static_form; [lazy -[shown urlProcessor]; reflexivity
                      |lazy -[shown urlProcessor]; reflexivity|eexists; lazy -[shown urlProcessor]; reflexivity|done|opens].
Ltac id_form := eapply id_form_part; [done|done|inner|opens|done].

Lemma page_head_part adm ids u : part known_tag (form_ok adm (u_CSRF u) ids) (page_head u).
Proof.
  destruct u as [? ? [] ? ? ?];
    static.
Qed.

Lemma audit_part ids u rows : part known_tag (form_ok true (u_CSRF u) ids) (audit_html Format jsonb_text u rows).
Proof.
  unfold audit_html. apply part_app; [apply page_head_part|]. apply part_app; [leaf|].
  apply part_app; [|leaf]. apply part_range. intros r _. leaf.
Qed.

Lemma mine_part ids u wss denials reqs ns filed :
  part known_tag (form_ok false (u_CSRF u) ids) (mine_html Format u wss denials reqs ns filed).
Proof.
  unfold mine_html. apply part_app; [apply page_head_part|]. apply part_app; [leaf|].
  apply part_app; [destruct (filed =? "")%string; leaf|]. apply part_app; [leaf|].
  apply part_app; [apply range_else_part; [intros w _|]; leaf|]. apply part_app; [leaf|].
  apply part_app.
  { apply range_else_part; [|leaf]. intros [[[ws host] port] d] _. unfold mine_denial, host_port.
    generalize (Itoa port), (Itoa (d_count d)). intros p n. destruct (_ || _); leaf. }
  apply part_app; [leaf|]. apply part_app; [|leaf].
  apply range_else_part; [|leaf]. intros q _. leaf.
Qed.

Lemma queue_part (ids : Prop) u reqs denials ns :
  (ids → ∀ q, q ∈ reqs → plain q.1) →
  part known_tag (form_ok true (u_CSRF u) ids) (queue_html Format u reqs denials ns).
Proof.
  intros Hids. unfold queue_html. apply part_app; [apply page_head_part|]. apply part_app; [leaf|].
  apply part_app.
  { apply range_else_part; [|leaf]. intros [id q] Hq. unfold queue_request.
    assert (ids → plain id) as Hid by (intros Hi; exact (Hids Hi _ Hq)).
    leaves. apply part_app; [id_form|]. leaves. apply part_app; [id_form|leaf]. }
  apply part_app; [leaf|]. apply part_app; [|leaf].
  apply range_else_part; [|leaf]. intros [[[ws host] port] d] _. leaf.
Qed.

Lemma request_part ids u ws host port :
  part known_tag (form_ok false (u_CSRF u) ids) (request_html u ws host port).
Proof.
  unfold request_html, host_port. generalize (Itoa port). intros p. apply part_app; [apply page_head_part|].
  leaves. static.
Qed.

Lemma zone_part (ids : Prop) csrf z :
  (ids → plain (zn_ID z) ∧ ∀ r, r ∈ zn_Rules z → plain (rv_ID r)) →
  part known_tag (form_ok true csrf ids) (zone_section csrf z).
Proof.
  intros Hids. assert (ids → plain (zn_ID z)) as Hz by (intros Hi; apply Hids, Hi).
  unfold zone_section, kind_select. generalize (Itoa (Z.of_nat (length (zn_Members z)))). intros n.
  leaves. apply part_app; [destruct (zn_Default z); leaf|].
  leaves. apply part_app; [destruct (zn_Default z); leaf|]. leaves.
  apply part_app.
  { apply range_else_part; [|leaf]. intros r Hr. unfold zone_rule, port_cell.
    assert (ids → plain (rv_ID r)) as Hid by (intros Hi; apply Hids; done).
    generalize (Itoa (rv_Port r)). intros p. leaves.
    apply part_app; [destruct (rv_Kind r =? "host")%string; leaf|]. leaves. apply part_app; [id_form|leaf]. }
  leaves. apply part_app; [id_form|]. leaves. apply part_app; [id_form|]. leaves.
  apply part_app; [id_form|]. leaves. apply part_app; [|leaf].
  destruct (zn_Default z); [leaf|]. apply part_app; [id_form|]. leaves. id_form.
Qed.

Lemma zones_part (ids : Prop) u zs :
  (ids → ∀ z, z ∈ zs → plain (zn_ID z) ∧ ∀ r, r ∈ zn_Rules z → plain (rv_ID r)) →
  part known_tag (form_ok true (u_CSRF u) ids) (zones_html u zs).
Proof.
  intros Hids. unfold zones_html. apply part_app; [apply page_head_part|].
  rewrite (app_assoc (csrf_input _)), (app_assoc [_] (_ ++ _)). apply part_app; [static|].
  apply part_app; [|leaf]. apply part_range. intros z Hz. apply zone_part. intros Hi. by apply Hids.
Qed.

Lemma zone_option_inner current z : inner_part known_tag (zone_option current z).
Proof. unfold zone_option. destruct (zn_ID z =? current)%string; inner. Qed.

Lemma grant_part (ids : Prop) csrf g :
  (ids → plain (rv_ID g)) → part known_tag (form_ok true csrf ids) (grant_tr Format csrf g).
Proof.
  intros Hid. unfold grant_tr, port_cell. generalize (Itoa (rv_Port g)). intros p. leaves.
  apply part_app; [destruct (rv_Kind g =? "host")%string; leaf|]. leaves.
  apply part_app; [destruct (rv_ExpiresAt g); leaf|]. leaves. apply part_app; [id_form|leaf].
Qed.

Lemma ws_part (ids : Prop) csrf zs zoneNames row :
  (ids → plain (ws_ID (wr_Workspace row)) ∧ ∀ g, g ∈ wr_Grants row → plain (rv_ID g)) →
  part known_tag (form_ok true csrf ids) (ws_section Format csrf zs zoneNames row).
Proof.
  intros Hids. assert (ids → plain (ws_ID (wr_Workspace row))) as Hw by (intros Hi; apply Hids, Hi).
  unfold ws_section, kind_select. leaves. apply part_app.
  { eapply id_form_part; [done|done| |opens|done]. apply inner_app; [inner|].
    apply inner_app; [|inner]. apply inner_range, zone_option_inner. }
  leaves. apply part_app.
  { apply range_else_part; [|leaf]. intros g Hg. apply grant_part. intros Hi. by apply Hids. }
  leaves. apply part_app; [id_form|leaf].
Qed.

Lemma workspaces_part (ids : Prop) u rows zs zoneNames :
  (ids → ∀ row, row ∈ rows →
     plain (ws_ID (wr_Workspace row)) ∧ ∀ g, g ∈ wr_Grants row → plain (rv_ID g)) →
  part known_tag (form_ok true (u_CSRF u) ids) (workspaces_html Format u rows zs zoneNames).
Proof.
  intros Hids. unfold workspaces_html. apply part_app; [apply page_head_part|]. leaves.
  apply part_app; [|leaf]. apply range_else_part; [|leaf]. intros row Hr. apply ws_part.
  intros Hi. by apply Hids.
Qed.

Lemma plain_under {A B} (f : A → string) (g : B → string) (h : A → list B) l :
  forallb plain (l ≫= λ x, f x :: (g <$> h x)) = true →
  ∀ x, x ∈ l → plain (f x) ∧ ∀ y, y ∈ h x → plain (g y).
Proof.
  rewrite forallb_forall. intros Hi x Hx.
  assert (∀ i, i ∈ f x :: (g <$> h x) → plain i) as Hall.
  { intros i Hz. apply Is_true_true, Hi, list_elem_of_In, list_elem_of_bind. eauto. }
  split; [apply Hall; left|]. intros r Hr. apply Hall. right. apply list_elem_of_fmap. eauto.
Qed.

(** Every page, with its forms. *)
Lemma page_part d :
  part known_tag (form_ok (admin_page d) (u_CSRF (page_user d)) (forallb plain (page_ids d) = true))
    (page Format jsonb_text d).
Proof.
  destruct d as [u ws host port|u wss ds qs ns filed|u qs ds ns|u zs ns|u rows zs ns|u rows]; simpl.
  - apply request_part.
  - apply mine_part.
  - apply queue_part. intros Hi q Hq. rewrite forallb_forall in Hi. apply Is_true_true, Hi.
    apply list_elem_of_In, list_elem_of_fmap. eauto.
  - apply zones_part. intros Hi z. by apply (plain_under _ _ _ _ Hi).
  - apply workspaces_part. intros Hi row. by apply (plain_under _ _ _ _ Hi).
  - apply audit_part.
Qed.

#[local] Instance pages : Templates := {| ExecuteTemplate := ExecuteTemplate_pages Format jsonb_text |}.

(** [C28] Every page is rendered, and a reader of its text sees the template with the page's
values where the template puts them: as they are in text and in attributes, normalised in
the path and escaped in the query of a link, so that no value begins or ends a tag, an
attribute or a character reference; every tag is one of the templates', none is a script or
has an event handler. A value in a query keeps no byte that could end its parameter. In a
path stand only identifiers of the page's rows; one of letters, digits and dashes stands
there as it is and ends neither its segment nor the path (another could: normalising keeps
the bytes [/ ? #]). *)
Theorem page_reads d h :
  render d h = mkReply 200 (hset "Content-Type" htmlType h) (page_text Format jsonb_text d) ∧
  (∃ t, place_all InText (page Format jsonb_text d) = Some (InText, t) ∧
    html_run InText (page_text Format jsonb_text d) = (InText, t) ∧
    forallb known_tag (tags t) = true) ∧
  (∀ s, InQuery s ∈ page Format jsonb_text d → string_forall query_byte (urlProcessor false s) = true) ∧
  (∀ s, InPath s ∈ page Format jsonb_text d → s ∈ page_ids d ∧
    (plain s = true → shown (urlProcessor true s) = s ∧
       ContainsByte s "/" = false ∧ ContainsByte s "?" = false ∧ ContainsByte s "#" = false)).
Proof.
  split_and!.
  - unfold render, ExecuteTemplate. simpl. unfold ExecuteTemplate_pages. by rewrite String.eqb_refl.
  - destruct (part_reads _ _ _ (page_part d)) as (t & ? & ? & ? & _). eauto.
  - intros s _. apply urlProcessor_query.
  - intros s Hv. split; [|apply plain_in_path].
    by apply (proj1 (Forall_forall _ _) (page_paths Format jsonb_text d) _ Hv).
Qed.

(** A request that submits a form: the browser posts the token that the form holds to its
path. *)
Definition submits (f : Form) (r : Request) : Prop :=
  rq_Method r = "POST" ∧ url_path r = f_action f ∧ forallb plain (rq_Path r) = true ∧
  FormValue r "csrf" = attr "csrf" (f_fields f).

(** The gate lets a user use what is open to him. *)
Lemma opens_through adm segs rt u r w :
  opens adm segs rt → rq_Method r = "POST" → rq_Path r = segs →
  User_of (a_c a) (v_now v) r = Some u → FormValue r "csrf" = u_CSRF u → (adm = true → u_Admin u = true) →
  ∃ h, Routes Error env pods a v r ∈ [Some (user h); Some (admin h)] ∧
    serve Error env pods a v r w = (Some (h r u w).1, (h r u w).2).
Proof.
  intros [Hr Ha] Hm Hp Hu Hc Hadm. specialize (Hr r Hm Hp). unfold serve. rewrite Hr.
  destruct rt as [?|h|h]; [done|exists h..]; (split; [by repeat constructor|]); unfold Require_;
    rewrite Hu, Hm, Hc, String.eqb_refl, ?(Hadm Ha); cbn [andb negb]; rewrite ?andb_false_r;
    by destruct (h r u w).
Qed.

(** [C29] The forms of a page work: each posts the token of the page's user; its action is a path,
when the identifiers of the page's rows are plain; and submitting it with the session the
page was made for passes the gate, CSRF check included, to the handler of that path. *)
Theorem page_forms d t f :
  html_run InText (page_text Format jsonb_text d) = (InText, t) → f ∈ forms t →
  forallb plain (page_ids d) = true →
  let u := page_user d in
  f_method f = "post" ∧ attr "csrf" (f_fields f) = shown (u_CSRF u) ∧
  (∃ segs, f_action f = "/" +:+ GoLib.Join segs "/" ∧ forallb plain segs = true) ∧
  (∀ r w, submits f r → User_of (a_c a) (v_now v) r = Some u → shown (u_CSRF u) = u_CSRF u →
     (admin_page d = true → u_Admin u = true) →
     ∃ h, Routes Error env pods a v r ∈ [Some (user h); Some (admin h)] ∧
       serve Error env pods a v r w = (Some (h r u w).1, (h r u w).2)).
Proof.
  intros Ht Hf Hids u. destruct (part_reads _ _ _ (page_part d)) as (t' & _ & Ht' & _ & Hall).
  unfold page_text in Ht. rewrite Ht' in Ht. injection Ht as ->. rewrite Forall_forall in Hall.
  destruct (Hall f Hf) as (Hm & Hc & Hu). destruct (Hu Hids) as (segs & rt & Hact & Hpl & Ho).
  split_and!; [done..|eauto|]. intros r w (Hpost & Hpath & Hplr & Hform) Huser Hcsrf Hadm.
  assert (rq_Path r = segs) as Hsegs.
  { apply Join_inj; [done..|]. unfold url_path in Hpath. rewrite Hact in Hpath. by injection Hpath. }
  apply (opens_through (admin_page d) segs rt); try done. by rewrite Hform, Hc.
Qed.
End facts.

(** ** A page with a hostile name in it, and the logout form *)
#[local] Instance ascii_unicode : Unicode := {| map_unicode_ToLower s := s |}.

Definition mine_user : User := mkUser "u1" "dev" false (b64 "random") 29800 false.
Definition hostile_page : PageData :=
  PMine mine_user [mkWorkspace ws1 (dq "<script>alert('1')</script>") "u1" "10.0.0.7"] [] [] ∅ "".
Definition hostile_text : string := page_text (λ _ _, "now") (λ _, "{}") hostile_page.
Definition logout_form : Form := mkForm "post" "/logout" [("csrf", b64 "random")].
Definition logout_r : Request := demo_request "POST" ["logout"] [("csrf", b64 "random")].

(** An identifier that is not plain would end the path it stands in. *)
Example odd_identifier :
  "/zones/x?y=/rules" ∈ f_action <$> forms (html_run InText (page_text (λ _ _, "now") (λ _, "{}")
    (PZones mine_user [mkZone "x?y=" "lab" false [] []] ∅))).2.
Proof. apply list_elem_of_In. vm_compute. tauto. Qed.

Lemma page_forms_witness :
  f_method logout_form = "post" ∧
  ∃ h, Routes (λ _, "error") (demo_env 100 60) web_pods demo_auth demo_visit logout_r ∈
      [Some (user h); Some (admin h)] ∧
    web_serve logout_r = (Some (h logout_r mine_user (demo_db, 0)).1, (h logout_r mine_user (demo_db, 0)).2).
Proof.
  destruct (page_forms (λ _, "error") (demo_env 100 60) web_pods demo_auth demo_visit (λ _ _, "now")
    (λ _, "{}") hostile_page (html_run InText hostile_text).2 logout_form) as (Hm & _ & _ & Hs).
  - vm_compute. reflexivity.
  - apply list_elem_of_In. vm_compute. tauto.
  - reflexivity.
  - split; [exact Hm|]. apply Hs; [split_and!|..]; try (vm_compute; reflexivity). discriminate.
Defined.
